(* ===== verification/_CoqProject ===== *)
-Q . S2P
Prelude.v
Platform.v
Config.v
Archive.v
Demo.v
VaultInfo.v
Messages.v
World.v
NewConnections.v
ClientConnections.v
ConfigFile.v
Moves.v
ProcessManager.v
Supervision.v
Vaults.v
VaultConfig.v
Utils.v
VaultManager.v
System.v
Behaviour.v
Frames.v
Authority.v
Restarts.v
Lifecycle.v
TearDown.v
Requests.v
RpcHelper.v
ClientInterface.v
VaultInterface.v
Handshake.v
EndToEnd.v
StableNetwork.v
Network.v
Relocation.v
Main.v
Service.v
Tools.v
Prompts.v
Tests.v
DummyVault.v
StartNetwork.v
Menu.v
Replay.v
NetworkTestHelper.v
Scenarios.v
Witnesses.v
ClientWitnesses.v
