(* ===== verification/Prelude.v ===== *)
(** * A verification of MaidSafe's VaultManager

    The repository holds one program in several processes.  A _VaultManager_ (one per machine)
    starts vault processes, watches them, restarts them and remembers them in an encrypted
    configuration file.  _Clients_ connect to it over the loopback address, prove who they are
    by signing a challenge, and ask for vaults or take them over.  _Vaults_ connect to it, report
    their process id and get their keys, directory and disk usage.  A _local network
    controller_ is a menu-driven tool that starts a whole network of vaults for tests, and a
    _network test helper_ drives that tool with a script.

    ** How the development follows the code

    All state of a process is a record; an operation is a function of the monad [M] of this file:
    it takes the state and returns a result with the new state.  A result is a value, a C++
    exception ([Throw]) or undefined behaviour ([Fault]: null or dangling pointers, bad iterators,
    failed assertions, overflow).  [try_catch] is a [try] block, [on_scope_exit] is the guard
    class of that name.  Machine integers are [Z] with their wrap-around or range written out.  Code
    that is not in the repository (the MaidSafe libraries, Boost, asio, the operating system) is
    a field of the class [Platform] or [Archives]; the laws a theorem needs of it are classes
    of their own ([PlatformLaws], [ArchiveLaws], [ArchiveSafety]) or named hypotheses, and
    [Demo] instantiates all of them with concrete functions.  The two build switches are the class
    [Build]: [TESTING] and [USE_VLOGGING]; the theorems hold for every setting unless they say
    so.

    ** The files (paths under [src/src/maidsafe/vault_manager/] unless said otherwise)

    - [Prelude]: the monad, its Hoare rules ([wp], [isafe], [preserves]), shared lemmas and tactics.
    - [Platform], [Archive], [Demo]: the libraries, binary archives with combinators, and the
      concrete instance.
    - [Config]: [config.h], [config.cc].  [Messages]: [messages/*.h] with their archive
      functions and the framing of [utils.h].
    - [VaultInfo], [VaultConfig]: the records of [vault_info.*] and [vault_config.*] with
      moved-from values, copies and swaps.
    - [World]: the state of the manager's process: the members of every object, the globals of
      [utils.cc], the handlers the [io_service] has ready and the effects so far.
    - [NewConnections], [ClientConnections], [ConfigFile], [ProcessManager], [VaultManager],
      [Utils]: one file per class (files of the same name), one definition per method.
    - [System]: the process as a transition system.  An event ([Event]) is what the network, a
      signal, a timer or the [io_service] delivers; [handle] runs the code's handler for it.
      Handlers of the strand run one after the other, in any order of events.
    - [Moves]: the moves of messages and of the configuration file, behind a class with its law.
    - [Supervision], [Frames], [Vaults], [Behaviour], [Authority], [Restarts], [Lifecycle],
      [TearDown], [Requests]: the theorems about the manager.
    - [RpcHelper], [ClientInterface], [VaultInterface]: the libraries that clients and vaults link
      ([rpc_helper.h], [client_interface.*], [vault_interface.*]); a constructor is split at the
      [get()] it blocks on, and calls, messages and timers interleave freely.
    - [Handshake], [EndToEnd], [StableNetwork], [Relocation], [Network]: the processes together;
      [Network] is a transition system of the manager, its clients, the messages in flight and
      strangers.
    - [Main]: [vault_manager_main.cc], and [Service]: its Windows service and console program.
    - [Tools], [Prompts]: [tools/commands] with their texts, [tools/actions], and
      [tools/main.cc].  [StartNetwork], [Menu], [Replay]: the theorems about the actions, about a
      round of the menu, and about whole sessions with the controller's constructor and
      destructor ([tools/local_network_controller.cc]).
    - [NetworkTestHelper]: [tools/network_test_helper.cc] and its script.
    - [DummyVault]: [tests/dummy_vault.cc], the vault of the tests.  [Tests]: the tests of the
      repository as programs of the model.
    - [Scenarios], [Witnesses], [ClientWitnesses]: runs of the demonstration platform and, for
      every theorem with hypotheses, an input at which they hold.

    ** What is shown

    - The invariant of the manager holds in every reachable state ([Behaviour]): no two vaults
      share a label, a directory or a connection, restart counts are bounded and a connection
      has one role; every event keeps it, and only two named messages reach undefined behaviour.
    - Authority: who is a client has signed its challenge; a vault changes owner only by
      a request of that owner for that very vault; with the clients in the picture, whoever owns a
      vault has asked for it ([Network]).  The two maps of clients refine one table.
    - Vaults: starting, exiting, stopping and restarting, on every branch; restarts end
      although nothing stops the vaults from crashing for ever.
    - A manager that is torn down stops every vault and starts none, within a bounded number of
      events; a manager that starts knows none of the vaults of the one before it.
    - Requests: what each message does when it succeeds and when it is refused.
    - Round trips: every message, and the configuration file (which forgets its vaults).
    - Futures: those of clients end and are set once; responses settle the right ones; a
      vault's exit code is the first one.
    - Types: of a response's keys and error exactly one is there, and saving, loading and
      moving keep it so.
    - Composition: the handshake, a request for a vault from the client's call to the keys in
      its future, a vault moved to another directory in both orders in which its end is
      noticed, a stable network from the client that marks it to the ones that wait for it,
      and the vault of the tests with the configuration that the manager sends.
    - The Windows service: which states it reports, in which order.
    - Tools: the menu has no undefined behaviour but three that are named, a new network starts
      exactly the vaults it should, the script of the test helper reaches the start of a network
      in a build without VLOGGING and a directory that is not empty, and in which way not otherwise,
      and the commands that a controller prints at its end replay its session.

    Fuel: [put_until_stored] takes the rounds it may use as an argument, and is called with one:
    [PutPmidAndSigner] always succeeds ([put_until_stored_enough]).  The menu's [choice_loop]
    and [GetChoice] take their rounds too, and running out is an outcome of its own ([false])
    after which the round may be repeated.  [connect_loop] has as many rounds as there are ports to
    try, which [ConnectToVaultManager_spec] shows to be enough; [label_loop] has the four rounds
    of the code, and [read_line] is structural on the input.

    ** Not modelled

    - The Windows branches of [process_manager.cc] (job objects), log output.
    - Destructors that only assert that a container is empty.
    - The passing of time: a timer has its duration, but a wait on it may end at any moment.
    - The endpoints of the zero-state routing nodes of [start_network.cc]: calls of the routing
      library, which the environment answers as a whole.
    - Data races inside a class between its own threads: handlers are steps.  In [AddVaultRequest]
      the start of the timer and the insertion under the lock are one step; the [Send] before it is
      another, so that a response may come before the request is registered.
    - The vaults' processes in [Network]: there they are strangers to the manager; [EndToEnd] and
      [Relocation] follow one of them.
    - What the tests ask of the libraries around them (creating directories, sleeping, destroying
      the [io_service]), and the installer. *)
From Stdlib Require Export ZArith Lia.
From Stdlib Require Export Strings.Byte.
From stdpp Require Export base tactics option list gmap strings fin_maps sorting pretty.

Set Default Proof Using "Type".

(** * Exceptions and undefined behaviour *)

(** The enumerators of [CommonErrors], [VaultManagerErrors], [AsymmErrors],
    [RoutingErrors] and [VaultErrors] that the sources name; any other code a
    library may throw is [other_error]. *)
Inductive error_code : Set :=
| success | unknown | invalid_argument | already_initialised | no_such_element
| filesystem_io_error | not_a_directory
| connection_not_found | unvalidated_client | vault_terminated
| vault_exited_with_error | timed_out | failed_to_connect | connection_aborted
| invalid_signature | invalid_public_key | not_connected | failed_to_handle_request
| other_error (n : Z).

#[export] Instance error_code_eq_dec : EqDecision error_code.
Proof. solve_decision. Defined.

(** A C++ exception: a [maidsafe_error] carrying its code, or any other
    [std::exception]. *)
Inductive exn : Set :=
| maidsafe_error (code : error_code)
| std_exception.

#[export] Instance exn_eq_dec : EqDecision exn.
Proof. solve_decision. Defined.

(** Outcomes the C++ program must never reach: dereferencing a null smart
    pointer, a dangling iterator or a dangling reference, overflow of an
    [int] or a division by zero, a failed [assert], an exception that leaves a
    [noexcept] function, and the result of a [std::future] that has none. *)
Inductive fault : Set :=
  null_deref | bad_iterator | dangling_reference | bad_arithmetic | assert_failed | terminated |
  no_state.

#[export] Instance byte_dec : EqDecision byte := Byte.byte_eq_dec.

Inductive Res (A : Type) : Type :=
| Ok (a : A)
| Throw (e : exn)
| Fault (f : fault).
Arguments Ok {A} _.
Arguments Throw {A} _.
Arguments Fault {A} _.

#[export] Instance Res_ret : MRet Res := λ A a, Ok a.
#[export] Instance Res_bind : MBind Res := λ A B k r,
  match r with Ok a => k a | Throw e => Throw e | Fault f => Fault f end.
#[export] Instance Res_fmap : FMap Res := λ A B g r,
  match r with Ok a => Ok (g a) | Throw e => Throw e | Fault f => Fault f end.

(** * The state-and-exception monad

    A member function is a function from the state it can reach to its outcome
    and the state it leaves.  As in C++, what was assigned before a [throw]
    stays assigned. *)
Definition M (S A : Type) : Type := S → Res A * S.

#[export] Instance M_ret S : MRet (M S) := λ A a s, (Ok a, s).
#[export] Instance M_bind S : MBind (M S) := λ A B k m s,
  match m s with
  | (Ok a, s') => k a s'
  | (Throw e, s') => (Throw e, s')
  | (Fault f, s') => (Fault f, s')
  end.

Section monad_operations.
Context {St : Type}.

Definition throw {A} (e : exn) : M St A := λ s, (Throw e, s).
Definition raise {A} (c : error_code) : M St A := throw (maidsafe_error c).
Definition crash {A} (f : fault) : M St A := λ s, (Fault f, s).
Definition gets {A} (f : St → A) : M St A := λ s, (Ok (f s), s).
Definition modify (f : St → St) : M St unit := λ s, (Ok tt, f s).
Definition lift_res {A} (r : Res A) : M St A := λ s, (r, s).

(** [assert (b)] of a debug build. *)
Definition assert_ (b : bool) : M St unit := if b then mret tt else crash assert_failed.

(** [try { m } catch (const std::exception& e) { h e }] *)
Definition try_catch {A} (m : M St A) (h : exn → M St A) : M St A := λ s,
  match m s with
  | (Throw e, s') => h e s'
  | r => r
  end.

(** An [on_scope_exit] object that is released when [m] completes: the clean-up
    runs when [m] leaves by an exception, which then propagates. *)
Definition on_scope_exit {A} (cleanup : M St unit) (m : M St A) : M St A := λ s,
  match m s with
  | (Throw e, s') =>
      match cleanup s' with
      | (Fault f, s'') => (Fault f, s'')
      | (_, s'') => (Throw e, s'')
      end
  | r => r
  end.

(** An [on_scope_exit] object that is never released: the clean-up runs however
    [m] leaves. *)
Definition finally {A} (cleanup : M St unit) (m : M St A) : M St A := λ s,
  match on_scope_exit cleanup m s with
  | (Ok a, s') =>
      match cleanup s' with
      | (Fault f, s'') => (Fault f, s'')
      | (_, s'') => (Ok a, s'')
      end
  | r => r
  end.

(** [for (const auto& x : l) f(x);] *)
Fixpoint for_each {A} (f : A → M St unit) (l : list A) : M St unit :=
  match l with
  | [] => mret tt
  | x :: l' => f x;; for_each f l'
  end.
End monad_operations.

(** Run an operation on a part of the state: the part is read with [get] and
    stored back with [put]. *)
Definition zoom {S T A} (get : S → T) (put : T → S → S) (m : M T A) : M S A := λ s,
  let '(r, t) := m (get s) in (r, put t s).
Arguments zoom {S T A} get put m s /.

Definition is_Ok {A} (r : Res A) : bool := match r with Ok _ => true | _ => false end.
Definition is_Throw {A} (r : Res A) : bool := match r with Throw _ => true | _ => false end.
Definition is_Fault {A} (r : Res A) : bool := match r with Fault _ => true | _ => false end.

(** Tests of the code stay folded until a proof decides them. *)
#[global] Arguments bool_decide _ {_} : simpl never.
#[global] Arguments decide _ {_} : simpl never.

(** * Notations *)

Declare Scope vm_scope.
Delimit Scope vm_scope with vm.

Notation "'try_' m 'catch' e '⇒' h" := (try_catch m (λ e, h))
  (at level 99, m at level 98, e name, h at level 99, right associativity) : vm_scope.
Notation "'when' b 'do_' m" := (if b then m else mret tt)
  (at level 99, b at level 98, m at level 98) : vm_scope.
Open Scope vm_scope.

(** * Reasoning about computations *)

(** [wp m Q s]: the run of [m] from [s] ends with an outcome and a state in [Q]. *)
Definition wp {St A} (m : M St A) (Q : Res A → St → Prop) (s : St) : Prop :=
  Q (m s).1 (m s).2.

(** [preserves I m]: whatever way [m] ends, [I] survives it. *)
Definition preserves {St A} (I : St → Prop) (m : M St A) : Prop :=
  ∀ s, I s → wp m (λ _ s', I s') s.

(** [never_faults I m]: from a state in [I], [m] has no undefined behaviour. *)
Definition never_faults {St A} (I : St → Prop) (m : M St A) : Prop :=
  ∀ s, I s → wp m (λ r _, is_Fault r = false) s.

(** [reads_only m]: [m] leaves the state alone. *)
Definition reads_only {St A} (m : M St A) : Prop := ∀ s, (m s).2 = s.

Section wp_rules.
Context {St : Type}.
Implicit Types s : St.

Lemma wp_unfold {A} (m : M St A) Q s r s' :
  m s = (r, s') → Q r s' → wp m Q s.
Proof. unfold wp. by intros ->. Qed.

Lemma wp_run {A} (m : M St A) Q s r s' : m s = (r, s') → wp m Q s → Q r s'.
Proof. unfold wp. by intros ->. Qed.

Lemma wp_mono {A} (m : M St A) (Q Q' : Res A → St → Prop) s :
  wp m Q s → (∀ r s', Q r s' → Q' r s') → wp m Q' s.
Proof. unfold wp. auto. Qed.

Lemma wp_and {A} (m : M St A) (Q Q' : Res A → St → Prop) s :
  wp m Q s → wp m Q' s → wp m (λ r s', Q r s' ∧ Q' r s') s.
Proof. unfold wp. auto. Qed.

Lemma wp_ret {A} (a : A) (Q : Res A → St → Prop) s : Q (Ok a) s → wp (mret a) Q s.
Proof. done. Qed.

Lemma wp_bind {A B} (m : M St A) (k : A → M St B) (Q : Res B → St → Prop) s :
  wp m (λ r s', match r with
                | Ok a => wp (k a) Q s'
                | Throw e => Q (Throw e) s'
                | Fault f => Q (Fault f) s'
                end) s →
  wp (m ≫= k) Q s.
Proof.
  unfold wp, mbind, M_bind. destruct (m s) as [[a|e|f] s']; done.
Qed.

Lemma wp_try_catch {A} (m : M St A) (h : exn → M St A) (Q : Res A → St → Prop) s :
  wp m (λ r s', match r with Throw e => wp (h e) Q s' | _ => Q r s' end) s →
  wp (try_catch m h) Q s.
Proof. unfold wp, try_catch. destruct (m s) as [[a|e|f] s']; done. Qed.

Lemma wp_on_scope_exit {A} c (m : M St A) (Q : Res A → St → Prop) s :
  wp m (λ r s', match r with
                | Throw e => wp c (λ rc s'', match rc with
                                             | Fault f => Q (Fault f) s''
                                             | _ => Q (Throw e) s''
                                             end) s'
                | _ => Q r s'
                end) s →
  wp (on_scope_exit c m) Q s.
Proof.
  unfold wp, on_scope_exit. destruct (m s) as [[a|e|f] s']; cbn; [done| |done].
  by destruct (c s') as [[?|?|?] s''].
Qed.

(** A loop keeps an invariant when each round does. *)
Lemma preserves_for_each {A} (I : St → Prop) (f : A → M St unit) l :
  (∀ x, preserves I (f x)) → preserves I (for_each f l).
Proof.
  intros Hf. induction l as [|x l IH]; intros s Hs; [done|].
  apply wp_bind. eapply wp_mono; [by apply Hf|].
  intros [a|e|u] s' Hs'; auto.
Qed.

Lemma preserves_bind {A B} (I : St → Prop) (m : M St A) (k : A → M St B) :
  preserves I m → (∀ a, preserves I (k a)) → preserves I (m ≫= k).
Proof.
  intros Hm Hk s Hs. apply wp_bind. eapply wp_mono; [by apply Hm|].
  intros [a|e|f] s' Hs'; auto. by apply Hk.
Qed.

Lemma preserves_ret {A} (I : St → Prop) (a : A) : preserves I (mret a).
Proof. by intros s Hs. Qed.

Lemma preserves_throw {A} (I : St → Prop) e : preserves I (throw (A:=A) e).
Proof. by intros s Hs. Qed.

Lemma preserves_crash {A} (I : St → Prop) f : preserves I (crash (A:=A) f).
Proof. by intros s Hs. Qed.

Lemma preserves_lift_res {A} (I : St → Prop) (r : Res A) : preserves I (lift_res r).
Proof. by intros s Hs. Qed.

Lemma preserves_gets {A} (I : St → Prop) (f : St → A) : preserves I (gets f).
Proof. by intros s Hs. Qed.

Lemma preserves_modify (I : St → Prop) f : (∀ s, I s → I (f s)) → preserves I (modify f).
Proof. intros Hf s Hs. by apply Hf. Qed.

Lemma preserves_try_catch {A} (I : St → Prop) (m : M St A) h :
  preserves I m → (∀ e, preserves I (h e)) → preserves I (try_catch m h).
Proof.
  intros Hm Hh s Hs. apply wp_try_catch. eapply wp_mono; [by apply Hm|].
  intros [a|e|f] s' Hs'; auto. by apply Hh.
Qed.

Lemma preserves_on_scope_exit {A} (I : St → Prop) c (m : M St A) :
  preserves I m → preserves I c → preserves I (on_scope_exit c m).
Proof.
  intros Hm Hc s Hs. apply wp_on_scope_exit. eapply wp_mono; [by apply Hm|].
  intros [a|e|f] s' Hs'; auto.
  eapply wp_mono; [by apply Hc|]. by intros [?|?|?] s'' Hs''.
Qed.

Lemma preserves_at {A} (I : St → Prop) (m : M St A) s : preserves I m → I s → I (m s).2.
Proof. intros Hm. apply Hm. Qed.

(** [yields I Q m]: [m] keeps [I], and what it returns satisfies [Q]. *)
Definition yields {A} (I : St → Prop) (Q : A → Prop) (m : M St A) : Prop :=
  ∀ s, I s → wp m (λ r s', I s' ∧ ∀ a, r = Ok a → Q a) s.

Lemma preserves_yields_bind {A B} (I : St → Prop) (Q : A → Prop) (m : M St A) (k : A → M St B) :
  yields I Q m → (∀ a, Q a → preserves I (k a)) → preserves I (m ≫= k).
Proof.
  intros Hm Hk s Hs. apply wp_bind. eapply wp_mono; [by apply Hm|].
  intros [a|e|f] s' [Hs' Ha]; auto. apply (Hk a); [by apply Ha|done].
Qed.

Lemma yields_bind {A B} (I : St → Prop) (Q : A → Prop) (R : B → Prop) (m : M St A) (k : A → M St B) :
  yields I Q m → (∀ a, Q a → yields I R (k a)) → yields I R (m ≫= k).
Proof.
  intros Hm Hk s Hs. apply wp_bind. eapply wp_mono; [by apply Hm|].
  intros [a|e|f] s' [Hs' Ha]; [apply (Hk a); [by apply Ha|done]|by split; [|intros]..].
Qed.

Lemma yields_ret {A} (I : St → Prop) (Q : A → Prop) a : Q a → yields I Q (mret a).
Proof. intros Hq s Hs. split; [done|]. intros b E. injection E as <-. done. Qed.

Lemma preserves_yields {A} (I : St → Prop) (m : M St A) :
  preserves I m → yields I (λ _, True) m.
Proof. intros Hm s Hs. eapply wp_mono; [by apply Hm|]. done. Qed.

Lemma preserves_finally {A} (I : St → Prop) c (m : M St A) :
  preserves I m → preserves I c → preserves I (finally c m).
Proof.
  intros Hm Hc s Hs. pose proof (preserves_on_scope_exit I c m Hm Hc s Hs) as Ho.
  unfold wp, finally in *. destruct (on_scope_exit c m s) as [[a|e|f] s']; cbn in *; [|done..].
  specialize (Hc s' Ho). unfold wp in Hc. by destruct (c s') as [[?|?|?] s''].
Qed.

(** Safety under an invariant: [m] has no undefined behaviour and ends in [I]. *)
Definition isafe {A} (I : St → Prop) (m : M St A) (s : St) : Prop :=
  wp m (λ r s', is_Fault r = false ∧ I s') s.

Lemma isafe_wp {A} I (m : M St A) (Q : Res A → St → Prop) s :
  isafe I m s → (∀ r s', is_Fault r = false → I s' → Q r s') → wp m Q s.
Proof. unfold isafe, wp. intros [? ?]. auto. Qed.

Lemma isafe_bind {A B} I (m : M St A) (k : A → M St B) s :
  isafe I m s → (∀ a s', m s = (Ok a, s') → I s' → isafe I (k a) s') → isafe I (m ≫= k) s.
Proof.
  unfold isafe, wp, mbind, M_bind. destruct (m s) as [[a|e|f] s']; [|done..].
  intros [_ Hg] Hk. by apply (Hk a s').
Qed.

Lemma isafe_try_catch {A} I (m : M St A) h s :
  isafe I m s → (∀ e s', m s = (Throw e, s') → I s' → isafe I (h e) s') →
  isafe I (try_catch m h) s.
Proof.
  unfold isafe, wp, try_catch. destruct (m s) as [[a|e|f] s']; [done| |done].
  intros [_ Hg] Hh. by apply (Hh e s').
Qed.

Lemma isafe_run {A} (I : St → Prop) (m : M St A) s r s' :
  m s = (r, s') → is_Fault r = false → I s' → isafe I m s.
Proof. unfold isafe, wp. by intros ->. Qed.

Lemma isafe_ret {A} (I : St → Prop) (a : A) s : I s → isafe I (mret a) s.
Proof. by split. Qed.
Lemma isafe_throw {A} (I : St → Prop) e s : I s → isafe I (throw (A:=A) e) s.
Proof. by split. Qed.
Lemma isafe_gets {A} (I : St → Prop) (f : St → A) s : I s → isafe I (gets f) s.
Proof. by split. Qed.
Lemma isafe_lift_res {A} (I : St → Prop) (r : Res A) s :
  is_Fault r = false → I s → isafe I (lift_res r) s.
Proof. by split. Qed.
Lemma isafe_modify (I : St → Prop) f s : I (f s) → isafe I (modify f) s.
Proof. by split. Qed.

Lemma isafe_for_each {A} I (f : A → M St unit) l s :
  (∀ x s', x ∈ l → I s' → isafe I (f x) s') → I s → isafe I (for_each f l) s.
Proof.
  revert s. induction l as [|x l IH]; intros s Hf Hs; [by apply isafe_ret|].
  apply isafe_bind; [apply Hf; [by left|done]|]. intros [] s' _ Hs'.
  apply IH; [|done]. intros y s'' Hy. apply Hf. by right.
Qed.

(** A computation that leaves every component read by [I] alone keeps [I]. *)
Lemma preserves_stable {A T} (v : St → T) (I : T → Prop) (m : M St A) :
  (∀ s, v (m s).2 = v s) → preserves (λ s, I (v s)) m.
Proof. intros Hv s Hs. unfold wp. by rewrite Hv. Qed.
End wp_rules.

Create HintDb preserves discriminated.
#[export] Hint Resolve preserves_ret preserves_throw preserves_crash preserves_lift_res
  preserves_gets : preserves.

(** A sequence runs its first part, then the rest. *)
Lemma M_bind_run {St A B} (m : M St A) (k : A → M St B) s a s' :
  m s = (Ok a, s') → (m ≫= k) s = k a s'.
Proof. unfold mbind, M_bind. by intros ->. Qed.

(** A sequence that completed completed each of its parts. *)
Lemma M_bind_Ok {St A B} (m : M St A) (k : A → M St B) s b s' :
  (m ≫= k) s = (Ok b, s') ↔ ∃ a s1, m s = (Ok a, s1) ∧ k a s1 = (Ok b, s').
Proof.
  unfold mbind, M_bind. destruct (m s) as [[a|e|f] s1]; split; try done; eauto.
  all: intros (?&?&?&?); by simplify_eq.
Qed.

(** Run the monadic steps of the goal as far as they are determined. *)
Ltac mrun :=
  unfold mbind, M_bind, mret, M_ret, gets, modify, raise, throw, crash, assert_, lift_res,
    try_catch, finally, on_scope_exit;
  cbn -[lookup insert delete bool_decide decide].

(** * Lists *)

(** Earlier elements of a sorted list are below later ones. *)
Lemma StronglySorted_lookup {A} (R : relation A) (l : list A) i j x y :
  StronglySorted R l → l !! i = Some x → l !! j = Some y → (i < j)%nat → R x y.
Proof.
  intros Hl Hi Hj Hij. rewrite <- (take_drop j l) in Hl.
  eapply StronglySorted_app_1_elem_of; [exact Hl| |].
  - apply list_elem_of_lookup. exists i. by rewrite lookup_take_lt by done.
  - apply list_elem_of_lookup. exists 0%nat. by rewrite lookup_drop, Nat.add_0_r.
Qed.

(** An update in the middle that keeps a key keeps the list of keys. *)
Lemma fmap_alter_same {A B} (f : A → B) (g : A → A) i (l : list A) :
  (∀ x, f (g x) = f x) → f <$> alter g i l = f <$> l.
Proof.
  intros Hg. revert i. induction l as [|x l IH]; intros [|i]; cbn; [done..| |].
  - by rewrite Hg.
  - f_equal. apply IH.
Qed.

(** Keys stay distinct when an element is removed, when one with a new key is
    added at the end, and when the key of one becomes a new key. *)
Lemma NoDup_fmap_delete {A B} (f : A → B) i (l : list A) :
  NoDup (f <$> l) → NoDup (f <$> delete i l).
Proof.
  intros Hl. eapply sublist_NoDup; [exact Hl|]. apply fmap_sublist, sublist_delete.
Qed.

Lemma NoDup_fmap_snoc {A B} (f : A → B) (l : list A) x :
  NoDup (f <$> l) → f x ∉ f <$> l → NoDup (f <$> (l ++ [x])).
Proof.
  intros Hl Hx. rewrite fmap_app. apply NoDup_app. split_and!; [done| |apply NoDup_singleton].
  by intros y Hy ->%list_elem_of_singleton.
Qed.

Lemma NoDup_fmap_alter_fresh {A B} (f : A → B) (g : A → A) i (l : list A) :
  NoDup (f <$> l) → (∀ x, f (g x) ∉ f <$> l) → NoDup (f <$> alter g i l).
Proof.
  intros Hl Hg. revert i Hg. induction l as [|x l IH]; intros [|i] Hg; cbn in *; [done..| |];
    apply NoDup_cons in Hl as [Hx Hl]; apply NoDup_cons; split.
  - specialize (Hg x). set_solver.
  - done.
  - intros (z & E & Hz)%list_elem_of_fmap. apply list_elem_of_lookup in Hz as [j Hj].
    destruct (decide (i = j)) as [->|].
    + rewrite list_lookup_alter_eq in Hj. destruct (l !! j) as [y|]; simplify_eq/=.
      specialize (Hg y). set_solver.
    + rewrite list_lookup_alter_ne in Hj by done. apply Hx. rewrite E.
      apply list_elem_of_fmap_2. by eapply list_elem_of_lookup_2.
  - apply IH; [done|]. intros y. specialize (Hg y). set_solver.
Qed.

(** An update in the middle that keeps a property of every element. *)
Lemma Forall_alter_keeps {A} (Q : A → Prop) (g : A → A) i (l : list A) :
  Forall Q l → (∀ x, Q x → Q (g x)) → Forall Q (alter g i l).
Proof. intros Hl Hg. apply Forall_alter; auto. Qed.

(** With distinct keys, the element found for a key is the one that has it. *)
Lemma list_find_key {A B} `{EqDecision B} (f : A → B) (l : list A) i x :
  NoDup (f <$> l) → l !! i = Some x → list_find (λ y, f y = f x) l = Some (i, x).
Proof.
  intros Hl Hi. apply list_find_Some. split_and!; [done..|].
  intros j y Hj Hlt E. assert (j = i); [|lia].
  eapply NoDup_lookup; [exact Hl|rewrite list_lookup_fmap, Hj; cbn; by rewrite E|].
  by rewrite list_lookup_fmap, Hi.
Qed.

Lemma for_each_fmap {St A B} (f : B → M St unit) (g : A → B) (l : list A) s :
  for_each f (g <$> l) s = for_each (λ x, f (g x)) l s.
Proof.
  revert s. induction l as [|x l IH]; intros s; [done|].
  cbn. unfold mbind, M_bind. destruct (f (g x) s) as [[[]|e|u] s']; [apply IH|done..].
Qed.

Lemma list_alter_alter {A} (f g : A → A) (i : nat) (l : list A) :
  alter g i (alter f i l) = alter (λ x, g (f x)) i l.
Proof. revert i. induction l as [|x l IH]; intros [|i]; cbn; [done..|]. f_equal. apply IH. Qed.
