(* ===== verification/Platform.v ===== *)
(** The code the sources call but do not contain: the MaidSafe [common] and
    [passport] libraries, asio, Boost.Filesystem, Boost.Process and the operating
    system.  They are the fields of one class, so that every definition of the
    development is parametric in them; nothing is assumed of a field unless a
    law of [PlatformLaws] (or a hypothesis of the theorem) says so.

    Functions that may throw return a [Lib] result; functions that read or change the
    machine take and return the machine state [OS]. *)
From S2P Require Export Prelude.

(** The two preprocessor switches of the sources.  The code under
    [MAIDSAFE_WIN32] is not modelled: the POSIX branches are. *)
Class Build := {
  TESTING : bool;
  USE_VLOGGING : bool;
}.

Abbreviation bytes := (list byte).

(** [std::shared_ptr<tcp::Connection>]: the address of its control block, [0] for
    an empty pointer.  [owner_before] orders control blocks by address. *)
Abbreviation ConnectionPtr := N.
Definition null_connection : ConnectionPtr := 0%N.
Definition owner_before (lhs rhs : ConnectionPtr) : bool := (lhs <? rhs)%N.

(** What a library function does: return, or throw. *)
Inductive Lib (T : Type) : Type :=
| Normally (a : T)
| Throws (e : exn).
Arguments Normally {T} _.
Arguments Throws {T} _.

Definition of_lib {T} (r : Lib T) : Res T :=
  match r with Normally a => Ok a | Throws e => Throw e end.

Class Platform := {
  (** ** maidsafe/common *)
  NonEmptyString : Type;
  NonEmptyString_eq_dec :: EqDecision NonEmptyString;
  NonEmptyString_countable :: Countable NonEmptyString;
  NonEmptyString_default : NonEmptyString;
  NonEmptyString_of_string : string → Lib NonEmptyString;
  NonEmptyString_IsInitialised : NonEmptyString → bool;
  NonEmptyString_moved_from : NonEmptyString → NonEmptyString;
  Identity : Type;
  Identity_eq_dec :: EqDecision Identity;
  Identity_default : Identity;
  Identity_IsInitialised : Identity → bool;
  Identity_moved_from : Identity → Identity;
  hex_Substr : Identity → string;
  DebugId : Identity → string;
  (** What a move leaves in a [std::string] and in a [std::vector]. *)
  string_moved_from : string → string;
  vector_moved_from : ∀ A : Type, list A → list A;
  ErrorToInt : error_code → Z;
  kLivePort : Z;
  kMaxRangeAboveDefaultPort : Z;
  to_lower_copy : string → string;
  GetSystemAppSupportDir_string : string;
  GetUserAppDir_string : string;
  (** ** asymm, crypto *)
  PlainText : Type;
  PlainText_of_bytes : bytes → PlainText;
  Signature : Type;
  Signature_moved_from : Signature → Signature;
  PublicKey : Type;
  PrivateKey : Type;
  MatchingKeys : PublicKey → PublicKey → bool;
  CheckSignature : PlainText → Signature → PublicKey → bool;
  Sign : PlainText → PrivateKey → Signature;
  CipherText : Type;
  AES256KeyAndIV : Type;
  AES256KeyAndIV_eq_dec :: EqDecision AES256KeyAndIV;
  AES256KeyAndIV_moved_from : AES256KeyAndIV → AES256KeyAndIV;
  AES256KeyAndIV_of_bytes : bytes → AES256KeyAndIV;
  AES256_KeySize : Z;
  AES256_IVSize : Z;
  (** ** passport *)
  Pmid : Type;
  Anpmid : Type;
  PublicPmid : Type;
  Maid : Type;
  PublicMaid : Type;
  Pmid_name : Pmid → Identity;
  Pmid_moved_from : Pmid → Pmid;
  Anpmid_moved_from : Anpmid → Anpmid;
  PublicPmid_of_Pmid : Pmid → PublicPmid;
  PublicPmid_name : PublicPmid → Identity;
  PublicPmid_public_key : PublicPmid → PublicKey;
  PublicMaid_of_Maid : Maid → PublicMaid;
  PublicMaid_Name : PublicMaid → Identity;
  PublicMaid_public_key : PublicMaid → PublicKey;
  Maid_private_key : Maid → PrivateKey;
  EncryptPmid : Pmid → AES256KeyAndIV → CipherText;
  EncryptAnpmid : Anpmid → AES256KeyAndIV → CipherText;
  AnmaidToPmid : Type;
  AnmaidToPmid_pmid : AnmaidToPmid → Pmid;
  DecryptPmid : CipherText → AES256KeyAndIV → Lib Pmid;
  DecryptAnpmid : CipherText → AES256KeyAndIV → Lib Anpmid;
  (** ** boost::filesystem::path; equality is [operator==] of paths *)
  Path : Type;
  Path_eq_dec :: EqDecision Path;
  Path_default : Path;
  Path_empty : Path → bool;
  Path_of_string : string → Path;
  Path_string : Path → string;
  Path_append : Path → string → Path;
  Path_parent_path : Path → Path;
  Path_moved_from : Path → Path;
  GetOtherExecutablePath : string → Path;
  (** ** the machine; an [ec] result is the value of the [error_code] argument,
      [0] for none *)
  OS : Type;
  errc_no_such_file_or_directory : Z;
  fs_exists_ec : Path → OS → (bool * Z) * OS;
  fs_is_regular_file_ec : Path → OS → (bool * Z) * OS;
  fs_is_symlink_ec : Path → OS → (bool * Z) * OS;
  fs_create_directories_ec : Path → OS → (bool * Z) * OS;
  fs_exists : Path → OS → Lib bool * OS;
  fs_is_directory : Path → OS → Lib bool * OS;
  fs_create_directories : Path → OS → Lib unit * OS;
  fs_space_available : Path → OS → Lib Z * OS;
  fs_is_empty : Path → OS → Lib bool * OS;
  fs_remove_all : Path → OS → Lib unit * OS;
  fs_temp_directory_path : Path;
  ReadFile : Path → OS → Lib bytes * OS;
  WriteFile : Path → bytes → OS → bool * OS;
  RandomBytes : Z → Z → OS → bytes * OS;
  RandomAlphaNumericString : Z → OS → string * OS;
  ReadKeyChainList : Path → OS → Lib (list AnmaidToPmid) * OS;
  CreatePmidAndSigner : OS → (Pmid * Anpmid) * OS;
  bp_execute : Path → string → OS → Lib Z * OS;
  bp_terminate : Z → OS → Z * OS;
  process_IsRunning : Z → OS → Lib bool * OS;
  process_GetProcessId : OS → Z;
  SIGCHLD : Z;
  os_wait : OS → (Z * Z) * OS;
  BOOST_PROCESS_EXITSTATUS : Z → Z;
  ConstructCommandLine : list string → string;
  (** [tcp::Listener::MakeShared(strand, ..., port)]: the port it listens on, or an
      exception when it finds none. *)
  tcp_listen : Z → OS → Lib Z * OS;
  (** [tcp::Connection::MakeShared(strand, port)] followed by [Start]: the
      connection, or an exception when nothing listens on the port. *)
  tcp_connect : Z → OS → Lib ConnectionPtr * OS;
}.

(** [passport::PmidAndSigner] is [std::pair<Pmid, Anpmid>]. *)
Abbreviation PmidAndSigner := (Pmid * Anpmid)%type.

(** Moving a pair moves its members. *)
Definition PmidAndSigner_moved_from `{Platform} (p : PmidAndSigner) : PmidAndSigner :=
  (Pmid_moved_from p.1, Anpmid_moved_from p.2).

(** Documented behaviour some theorems rely on. *)
Class PlatformLaws `{P : Platform} : Prop := {
  NonEmptyString_default_uninitialised : NonEmptyString_IsInitialised NonEmptyString_default = false;
  Identity_default_uninitialised : Identity_IsInitialised Identity_default = false;
  DecryptPmid_EncryptPmid : ∀ p k, DecryptPmid (EncryptPmid p k) k = Normally p;
  DecryptAnpmid_EncryptAnpmid : ∀ a k, DecryptAnpmid (EncryptAnpmid a k) k = Normally a;
  bp_execute_positive : ∀ exe cmd os pid os', bp_execute exe cmd os = (Normally pid, os') → (0 < pid < 2 ^ 31)%Z;
}.

(** ** Fixed-width integers *)

Definition to_u64 (z : Z) : Z := z mod 2 ^ 64.
Definition to_u16 (z : Z) : Z := z mod 2 ^ 16.

Lemma to_u64_small z : (0 ≤ z < 2 ^ 64)%Z → to_u64 z = z.
Proof. apply Z.mod_small. Qed.

Lemma to_u16_range z : (0 ≤ to_u16 z < 2 ^ 16)%Z.
Proof. apply Z.mod_pos_bound. lia. Qed.

(** [std::to_string] of an integer. *)
Definition to_string (z : Z) : string := pretty z.
