(* ===== verification/Config.v ===== *)
(** The shared constants and the message tags: [config.h] and [config.cc]. *)
From S2P Require Export Platform.

Open Scope Z_scope.

Definition kConfigFilename : string := "vault_manager_config.dat".
Definition kBootstrapFilename : string := "bootstrap.dat".
(** In seconds. *)
Definition kRpcTimeout : Z := 2.
Definition kVaultStopTimeout : Z := 10.
Definition kMaxVaultRestarts : Z := 5.

(** A value of the 8-bit enumeration: one of its enumerators, or a value that has
    none (a [switch] sends it to [default]). *)
Inductive MessageTag : Set :=
| kValidateConnectionRequest | kChallenge | kChallengeResponse | kStartVaultRequest
| kTakeOwnershipRequest | kVaultRunningResponse | kVaultStarted | kVaultStartedResponse
| kVaultShutdownRequest | kMaxDiskUsageUpdate | kJoinedNetwork | kLogMessage
| kSetNetworkAsStable | kNetworkStableRequest | kNetworkStableResponse
| kNoEnumerator (value : Z).

#[export] Instance MessageTag_eq_dec : EqDecision MessageTag.
Proof. solve_decision. Defined.
