(* ===== verification/Archive.v ===== *)
(** Binary archives.  A [Codec] is the pair of a type's save and load functions;
    the archive functions of library types are fields of [Archives], and the
    combinators below say what [archive(a, b, c)] does with several values. *)
From S2P Require Export Config.

Record Codec (A : Type) := mkCodec {
  save : A → Res bytes;
  load : bytes → Res (A * bytes);
}.
Arguments mkCodec {A} _ _.
Arguments save {A} _ _.
Arguments load {A} _ _.

(** Loading what was saved gives the value back and leaves what follows it. *)
Definition codec_ok_at {A} (c : Codec A) (a : A) : Prop :=
  ∀ b rest, save c a = Ok b → load c (b ++ rest) = Ok (a, rest).
Definition codec_ok {A} (c : Codec A) : Prop := ∀ a, codec_ok_at c a.

(** [archive(a, b)]: the values in order, one after the other. *)
Definition codec_pair {A B} (ca : Codec A) (cb : Codec B) : Codec (A * B) :=
  mkCodec
    (λ ab, b1 ← save ca ab.1; b2 ← save cb ab.2; mret (b1 ++ b2))
    (λ bs, '(a, bs1) ← load ca bs; '(b, bs2) ← load cb bs1; mret ((a, b), bs2)).
Infix "⊗" := codec_pair (at level 40, left associativity) : vm_scope.

(** [archive()]: nothing. *)
Definition codec_unit : Codec unit := mkCodec (λ _, mret []) (λ bs, mret (tt, bs)).

(** A structure archived through its members. *)
Definition codec_iso {A B} (mk : A → B) (un : B → A) (c : Codec A) : Codec B :=
  mkCodec (λ b, save c (un b)) (λ bs, '(a, bs') ← load c bs; mret (mk a, bs')).

(** A value archived only when a preprocessor switch is on; [d] is the value of
    the member that does not exist when it is off. *)
Definition codec_if {A} (on : bool) (d : A) (c : Codec A) : Codec A :=
  if on then c else codec_iso (λ _, d) (λ _, tt) codec_unit.

Class Archives `{P : Platform} := {
  ar_NonEmptyString : Codec NonEmptyString;
  ar_Path : Codec Path;
  ar_u64 : Codec Z;
  ar_int : Codec Z;
  ar_bool : Codec bool;
  ar_string : Codec string;
  ar_Identity : Codec Identity;
  ar_PlainText : Codec PlainText;
  ar_Signature : Codec Signature;
  ar_PublicMaid_ptr : Codec (option PublicMaid);
  ar_CipherText : Codec CipherText;
  ar_AES256KeyAndIV : Codec AES256KeyAndIV;
  ar_PublicPmids : Codec (list PublicPmid);
  ar_maidsafe_error : Codec error_code;
  ar_MessageTag : Codec MessageTag;
  ar_optional : ∀ {T}, Codec T → Codec (option T);
}.

Class ArchiveLaws `{A : Archives} : Prop := {
  ar_NonEmptyString_ok : codec_ok ar_NonEmptyString;
  ar_Path_ok : codec_ok ar_Path;
  ar_u64_ok : codec_ok ar_u64;
  ar_int_ok : codec_ok ar_int;
  ar_bool_ok : codec_ok ar_bool;
  ar_string_ok : codec_ok ar_string;
  ar_Identity_ok : codec_ok ar_Identity;
  ar_PlainText_ok : codec_ok ar_PlainText;
  ar_Signature_ok : codec_ok ar_Signature;
  ar_PublicMaid_ptr_ok : codec_ok ar_PublicMaid_ptr;
  ar_CipherText_ok : codec_ok ar_CipherText;
  ar_AES256KeyAndIV_ok : codec_ok ar_AES256KeyAndIV;
  ar_PublicPmids_ok : codec_ok ar_PublicPmids;
  ar_maidsafe_error_ok : codec_ok ar_maidsafe_error;
  ar_MessageTag_ok : codec_ok ar_MessageTag;
  ar_MessageTag_saves : ∀ t, ∃ b, save ar_MessageTag t = Ok b;
  ar_optional_ok : ∀ {T} (c : Codec T), codec_ok c → codec_ok (ar_optional c);
  ar_optional_saved : ∀ {T} (c : Codec T) a b,
    save (ar_optional c) (Some a) = Ok b → ∃ b', save c a = Ok b';
}.

(** ** Inversion of [Res] computations *)

Lemma Res_bind_Ok {A B} (r : Res A) (k : A → Res B) b :
  r ≫= k = Ok b ↔ ∃ a, r = Ok a ∧ k a = Ok b.
Proof. destruct r; cbn; split; [eauto|intros (?&?&?)|intros|intros (?&?&?)|intros|intros (?&?&?)]; by simplify_eq. Qed.

(** Split every hypothesis that says a chain of [Res] steps completed. *)
Ltac res_inv :=
  repeat match goal with
  | H : _ ≫= _ = Ok _ |- _ => apply Res_bind_Ok in H as (? & ? & H)
  | H : mret ?x = Ok ?y |- _ => change (Ok x = Ok y) in H
  | H : context [let '(_, _) := ?p in _] |- _ => destruct p
  end; simplify_eq.

(** ** The combinators keep the round trip *)

Lemma codec_pair_ok_at {A B} (ca : Codec A) (cb : Codec B) a b :
  codec_ok_at ca a → codec_ok_at cb b → codec_ok_at (ca ⊗ cb) (a, b).
Proof.
  intros Ha Hb bs rest Hs. cbn in Hs. res_inv.
  cbn. rewrite <- app_assoc, (Ha _ _ ltac:(eassumption)). cbn.
  by rewrite (Hb _ _ ltac:(eassumption)).
Qed.

Lemma codec_pair_ok {A B} (ca : Codec A) (cb : Codec B) :
  codec_ok ca → codec_ok cb → codec_ok (ca ⊗ cb).
Proof. intros Ha Hb [a b]. by apply codec_pair_ok_at. Qed.

Lemma codec_unit_ok : codec_ok codec_unit.
Proof. intros [] bs rest Hs. cbn in Hs. by res_inv. Qed.

Lemma codec_iso_ok_at {A B} (mk : A → B) (un : B → A) c b :
  codec_ok_at c (un b) → mk (un b) = b → codec_ok_at (codec_iso mk un c) b.
Proof. intros Hc Hi bs rest Hs. cbn in *. rewrite (Hc _ rest Hs). cbn. by rewrite Hi. Qed.

Lemma codec_iso_ok {A B} (mk : A → B) (un : B → A) c :
  codec_ok c → (∀ b, mk (un b) = b) → codec_ok (codec_iso mk un c).
Proof. intros Hc Hi b. by apply codec_iso_ok_at. Qed.

(** With a switch off the round trip holds for the default value only. *)
Lemma codec_if_ok_at {A} on (d : A) c a :
  codec_ok_at c a → (on = false → a = d) → codec_ok_at (codec_if on d c) a.
Proof.
  intros Hc Hd. destruct on; [done|]. intros b rest Hs. cbn in *. res_inv. by rewrite Hd.
Qed.

Create HintDb codec discriminated.
#[export] Hint Resolve ar_NonEmptyString_ok ar_Path_ok ar_u64_ok ar_int_ok ar_bool_ok
  ar_string_ok ar_Identity_ok ar_PlainText_ok ar_Signature_ok ar_PublicMaid_ptr_ok
  ar_CipherText_ok ar_AES256KeyAndIV_ok ar_PublicPmids_ok ar_maidsafe_error_ok
  ar_MessageTag_ok ar_optional_ok codec_pair_ok codec_pair_ok_at codec_unit_ok codec_if_ok_at : codec.

(** Close a goal that says a codec built from the combinators round-trips. *)
Ltac codec_solve := eauto 20 with codec.

(** ** Archiving returns or throws *)

Definition saves {A} (c : Codec A) (a : A) : Prop := is_Fault (save c a) = false.
Definition loads {A} (c : Codec A) : Prop := ∀ bs, is_Fault (load c bs) = false.
Definition codec_safe {A} (c : Codec A) : Prop := (∀ a, saves c a) ∧ loads c.

(** The archive functions of the libraries have no undefined behaviour. *)
Class ArchiveSafety `{A : Archives} : Prop := {
  ar_NonEmptyString_safe : codec_safe ar_NonEmptyString;
  ar_Path_safe : codec_safe ar_Path;
  ar_u64_safe : codec_safe ar_u64;
  ar_int_safe : codec_safe ar_int;
  ar_bool_safe : codec_safe ar_bool;
  ar_string_safe : codec_safe ar_string;
  ar_Identity_safe : codec_safe ar_Identity;
  ar_PlainText_safe : codec_safe ar_PlainText;
  ar_Signature_safe : codec_safe ar_Signature;
  ar_PublicMaid_ptr_safe : codec_safe ar_PublicMaid_ptr;
  ar_CipherText_safe : codec_safe ar_CipherText;
  ar_AES256KeyAndIV_safe : codec_safe ar_AES256KeyAndIV;
  ar_PublicPmids_safe : codec_safe ar_PublicPmids;
  ar_maidsafe_error_safe : codec_safe ar_maidsafe_error;
  ar_MessageTag_safe : codec_safe ar_MessageTag;
  ar_optional_saves : ∀ {T} (c : Codec T) o, (∀ a, o = Some a → saves c a) → saves (ar_optional c) o;
  ar_optional_loads : ∀ {T} (c : Codec T), loads c → loads (ar_optional c);
}.

Lemma Res_bind_safe {A B} (r : Res A) (k : A → Res B) :
  is_Fault r = false → (∀ a, r = Ok a → is_Fault (k a) = false) → is_Fault (r ≫= k) = false.
Proof. destruct r; cbn; auto. Qed.

Lemma of_lib_safe {T} (r : Lib T) : is_Fault (of_lib r) = false.
Proof. by destruct r. Qed.

Lemma codec_pair_saves {A B} (ca : Codec A) (cb : Codec B) a b :
  saves ca a → saves cb b → saves (ca ⊗ cb) (a, b).
Proof.
  intros Ha Hb. unfold saves. cbn. apply Res_bind_safe; [done|]. intros b1 _.
  by apply Res_bind_safe.
Qed.

Lemma codec_pair_loads {A B} (ca : Codec A) (cb : Codec B) : loads ca → loads cb → loads (ca ⊗ cb).
Proof.
  intros Ha Hb bs. cbn. apply Res_bind_safe; [done|]. intros [a b1] _.
  apply Res_bind_safe; [done|]. by intros [b b2] _.
Qed.

Lemma codec_pair_safe {A B} (ca : Codec A) (cb : Codec B) :
  codec_safe ca → codec_safe cb → codec_safe (ca ⊗ cb).
Proof.
  intros [? ?] [? ?]. split; [|by apply codec_pair_loads]. intros [a b]. by apply codec_pair_saves.
Qed.

Lemma codec_unit_safe : codec_safe codec_unit.
Proof. by split. Qed.

Lemma codec_iso_safe {A B} (mk : A → B) (un : B → A) c : codec_safe c → codec_safe (codec_iso mk un c).
Proof.
  intros [Hs Hl]. split; [intros b; apply Hs|]. intros bs. cbn.
  apply Res_bind_safe; [done|]. by intros [a b] _.
Qed.

Lemma codec_if_safe {A} on (d : A) c : codec_safe c → codec_safe (codec_if on d c).
Proof. intros Hc. destruct on; [done|]. apply codec_iso_safe, codec_unit_safe. Qed.

Lemma ar_optional_safe `{AS : ArchiveSafety} {T} (c : Codec T) :
  codec_safe c → codec_safe (ar_optional c).
Proof.
  intros [Hs Hl]. split; [|by apply ar_optional_loads]. intros o. apply ar_optional_saves. auto.
Qed.

#[export] Hint Resolve ar_NonEmptyString_safe ar_Path_safe ar_u64_safe ar_int_safe ar_bool_safe
  ar_string_safe ar_Identity_safe ar_PlainText_safe ar_Signature_safe ar_PublicMaid_ptr_safe
  ar_CipherText_safe ar_AES256KeyAndIV_safe ar_PublicPmids_safe ar_maidsafe_error_safe
  ar_MessageTag_safe ar_optional_safe codec_pair_safe codec_unit_safe codec_iso_safe
  codec_if_safe : codec.
