(* ===== verification/Demo.v ===== *)
(** A concrete instance of [Platform] and [Archives], on which the definitions
    evaluate and the witnesses of the theorems with hypotheses are built: strings
    for opaque data, a small machine with files, processes and a random counter. *)
From S2P Require Export Archive.

(** ** A machine *)
Record DemoOS := mkDemoOS {
  demo_files : gmap string bytes;   (** existing files *)
  demo_execute : list (Lib Z);      (** results of the next calls of [bp::execute] *)
  demo_running : list Z;            (** running process ids *)
  demo_zombies : list (Z * Z);      (** results of the next calls of [wait] *)
  demo_counter : Z;                 (** source of "random" data *)
}.

Definition demo_tick (os : DemoOS) : DemoOS :=
  mkDemoOS os.(demo_files) os.(demo_execute) os.(demo_running) os.(demo_zombies)
    (os.(demo_counter) + 1).

(** No file is below the directory. *)
Definition demo_is_empty (p : string) (os : DemoOS) : bool :=
  forallb (λ f, negb (String.prefix (p +:+ "/") f.1)) (map_to_list os.(demo_files)).
Definition demo_exists (p : string) (os : DemoOS) : bool :=
  bool_decide (is_Some (os.(demo_files) !! p)).

Definition demo_bp_execute (exe cmd : string) (os : DemoOS) : Lib Z * DemoOS :=
  match os.(demo_execute) with
  | [] => (Throws std_exception, os)
  | Normally pid :: l =>
      if decide (0 < pid < 2 ^ 31) then
        (Normally pid, mkDemoOS os.(demo_files) l (pid :: os.(demo_running)) os.(demo_zombies)
                   os.(demo_counter))
      else (Throws std_exception, os)
  | r :: l =>
      (r, mkDemoOS os.(demo_files) l os.(demo_running) os.(demo_zombies) os.(demo_counter))
  end.

Definition demo_terminate (pid : Z) (os : DemoOS) : Z * DemoOS :=
  (0, mkDemoOS os.(demo_files) os.(demo_execute) (filter (.≠ pid) os.(demo_running))
        os.(demo_zombies) os.(demo_counter)).

Definition demo_wait (os : DemoOS) : (Z * Z) * DemoOS :=
  match os.(demo_zombies) with
  | [] => ((-1, 0), os)
  | p :: l =>
      (p, mkDemoOS os.(demo_files) os.(demo_execute) (filter (.≠ p.1) os.(demo_running)) l
            os.(demo_counter))
  end.

Definition demo_random_string (os : DemoOS) : string := pretty os.(demo_counter).

#[export] Instance DemoPlatform : Platform := {|
  NonEmptyString := string;
  NonEmptyString_default := "";
  NonEmptyString_of_string s :=
    if decide (s = "") then Throws (maidsafe_error invalid_argument) else Normally s;
  NonEmptyString_IsInitialised s := bool_decide (s ≠ "");
  NonEmptyString_moved_from _ := "";
  Identity := string;
  Identity_default := "";
  Identity_IsInitialised s := bool_decide (s ≠ "");
  Identity_moved_from _ := "";
  hex_Substr s := s;
  DebugId s := s;
  string_moved_from _ := "";
  vector_moved_from _ _ := [];
  ErrorToInt _ := -1;
  to_lower_copy s := if bool_decide (s = "Q") then "q" else s;
  kLivePort := 5483;
  kMaxRangeAboveDefaultPort := 10;
  GetSystemAppSupportDir_string := "/var";
  GetUserAppDir_string := "/home";
  PlainText := bytes;
  PlainText_of_bytes b := b;
  Signature := bytes * string;
  Signature_moved_from _ := ([], "");
  PublicKey := string;
  PrivateKey := string;
  MatchingKeys k k' := bool_decide (k = k');
  CheckSignature p s k := bool_decide (s = (p, k));
  Sign p k := (p, k);
  CipherText := string * bytes;
  AES256KeyAndIV := bytes;
  AES256KeyAndIV_moved_from _ := [];
  AES256KeyAndIV_of_bytes b := b;
  AES256_KeySize := 2;
  AES256_IVSize := 1;
  Pmid := string;
  Anpmid := string;
  PublicPmid := string;
  Maid := string;
  PublicMaid := string;
  Pmid_name p := p;
  Pmid_moved_from _ := "";
  Anpmid_moved_from _ := "";
  PublicPmid_of_Pmid p := p;
  PublicPmid_name p := p;
  PublicPmid_public_key p := p;
  PublicMaid_of_Maid m := m;
  PublicMaid_Name m := m;
  PublicMaid_public_key m := m;
  Maid_private_key m := m;
  AnmaidToPmid := string;
  AnmaidToPmid_pmid k := k;
  EncryptPmid p k := (p, k);
  EncryptAnpmid p k := (p, k);
  DecryptPmid c k := if decide (c.2 = k) then Normally c.1 else Throws std_exception;
  DecryptAnpmid c k := if decide (c.2 = k) then Normally c.1 else Throws std_exception;
  Path := string;
  Path_default := "";
  Path_empty p := bool_decide (p = "");
  Path_of_string s := s;
  Path_string p := p;
  Path_append p s := p +:+ "/" +:+ s;
  Path_parent_path p := "/";
  Path_moved_from _ := "";
  GetOtherExecutablePath s := "/bin/" +:+ s;
  OS := DemoOS;
  errc_no_such_file_or_directory := 2;
  fs_exists_ec p os := ((demo_exists p os, 0), os);
  fs_is_regular_file_ec p os := ((demo_exists p os, 0), os);
  fs_is_symlink_ec p os := ((false, 0), os);
  fs_create_directories_ec p os := ((true, 0), os);
  fs_exists p os := (Normally (demo_exists p os), os);
  fs_is_directory p os := (Normally (demo_exists p os), os);
  fs_create_directories p os := (Normally tt, os);
  fs_space_available p os := (Normally 1000, os);
  fs_is_empty p os := (Normally (demo_is_empty p os), os);
  fs_remove_all p os := (Normally tt, os);
  fs_temp_directory_path := "/tmp";
  ReadFile p os :=
    (match os.(demo_files) !! p with Some b => Normally b | None => Throws std_exception end, os);
  WriteFile p b os :=
    (true, mkDemoOS (<[p:=b]> os.(demo_files)) os.(demo_execute) os.(demo_running)
             os.(demo_zombies) os.(demo_counter));
  RandomBytes lo hi os :=
    (repeat (default x00 (Byte.of_nat (Z.to_nat (os.(demo_counter) mod 256)))) (Z.to_nat lo),
     demo_tick os);
  RandomAlphaNumericString n os := ("r" +:+ demo_random_string os, demo_tick os);
  ReadKeyChainList p os := (Normally ["chain0"; "chain1"], os);
  CreatePmidAndSigner os :=
    (("pmid" +:+ demo_random_string os, "anpmid" +:+ demo_random_string os), demo_tick os);
  bp_execute := demo_bp_execute;
  bp_terminate := demo_terminate;
  process_IsRunning pid os := (Normally (bool_decide (pid ∈ os.(demo_running))), os);
  process_GetProcessId os := 1;
  SIGCHLD := 17;
  os_wait := demo_wait;
  BOOST_PROCESS_EXITSTATUS s := Z.land (Z.shiftr s 8) 255;
  ConstructCommandLine l := String.concat " " l;
  tcp_listen port os := (Normally port, os);
  tcp_connect port os := (if bool_decide (port = 5585) then Normally 9%N else Throws std_exception, os);
|}.

#[export] Instance DemoPlatformLaws : PlatformLaws.
Proof.
  split; try done.
  - intros p k. cbn. by rewrite decide_True.
  - intros p k. cbn. by rewrite decide_True.
  - intros exe cmd os pid os'. cbn. unfold demo_bp_execute.
    destruct (demo_execute os) as [|[p|e] l]; try case_decide; intros; by simplify_eq.
Qed.

(** ** Archives: a countable value is written as the digits of its code *)

Fixpoint digits (p : positive) : bytes :=
  match p with
  | xH => [x02]
  | xO p => x00 :: digits p
  | xI p => x01 :: digits p
  end.

Fixpoint undigits (bs : bytes) : option (positive * bytes) :=
  match bs with
  | x00 :: bs => '(p, r) ← undigits bs; Some (xO p, r)
  | x01 :: bs => '(p, r) ← undigits bs; Some (xI p, r)
  | x02 :: bs => Some (xH, bs)
  | _ => None
  end.

Lemma undigits_digits p rest : undigits (digits p ++ rest) = Some (p, rest).
Proof. induction p as [p IH|p IH|]; cbn; [by rewrite IH..|done]. Qed.

Definition demo_codec {A} `{Countable A} : Codec A :=
  mkCodec (λ a, Ok (digits (encode a)))
    (λ bs, match undigits bs with
           | Some (p, r) => match decode p with Some a => Ok (a, r) | None => Throw std_exception end
           | None => Throw std_exception
           end).

Lemma demo_codec_ok {A} `{Countable A} : codec_ok (demo_codec (A:=A)).
Proof.
  intros a b rest Hs. cbn in *. simplify_eq. by rewrite undigits_digits, decode_encode.
Qed.

Definition demo_optional {A} (c : Codec A) : Codec (option A) :=
  mkCodec
    (λ o, match o with None => Ok [x00] | Some a => b ← save c a; Ok (x01 :: b) end)
    (λ bs, match bs with
           | x00 :: bs => Ok (None, bs)
           | x01 :: bs => '(a, r) ← load c bs; Ok (Some a, r)
           | _ => Throw std_exception
           end).

Lemma demo_optional_ok {A} (c : Codec A) : codec_ok c → codec_ok (demo_optional c).
Proof.
  intros Hc [a|] b rest Hs; cbn in *; res_inv; cbn; [|done].
  by rewrite (Hc a _ rest ltac:(eassumption)).
Qed.

(** A code for the enumerations. *)
Definition tag_code (t : MessageTag) : Z * Z :=
  match t with
  | kValidateConnectionRequest => (0, 0) | kChallenge => (1, 0) | kChallengeResponse => (2, 0)
  | kStartVaultRequest => (3, 0) | kTakeOwnershipRequest => (4, 0)
  | kVaultRunningResponse => (5, 0) | kVaultStarted => (6, 0) | kVaultStartedResponse => (7, 0)
  | kVaultShutdownRequest => (8, 0) | kMaxDiskUsageUpdate => (9, 0) | kJoinedNetwork => (10, 0)
  | kLogMessage => (11, 0) | kSetNetworkAsStable => (12, 0) | kNetworkStableRequest => (13, 0)
  | kNetworkStableResponse => (14, 0) | kNoEnumerator v => (15, v)
  end.

Definition tag_of_code (c : Z * Z) : MessageTag :=
  match c.1 with
  | 0 => kValidateConnectionRequest | 1 => kChallenge | 2 => kChallengeResponse
  | 3 => kStartVaultRequest | 4 => kTakeOwnershipRequest | 5 => kVaultRunningResponse
  | 6 => kVaultStarted | 7 => kVaultStartedResponse | 8 => kVaultShutdownRequest
  | 9 => kMaxDiskUsageUpdate | 10 => kJoinedNetwork | 11 => kLogMessage
  | 12 => kSetNetworkAsStable | 13 => kNetworkStableRequest | 14 => kNetworkStableResponse
  | _ => kNoEnumerator c.2
  end.

#[export] Instance MessageTag_countable : Countable MessageTag.
Proof. by refine (inj_countable' tag_code tag_of_code _); intros []. Defined.

Definition error_code_code (e : error_code) : Z * Z :=
  match e with
  | success => (0, 0) | unknown => (1, 0) | invalid_argument => (2, 0)
  | already_initialised => (3, 0) | no_such_element => (4, 0) | filesystem_io_error => (5, 0)
  | not_a_directory => (6, 0) | connection_not_found => (7, 0) | unvalidated_client => (8, 0)
  | vault_terminated => (9, 0) | vault_exited_with_error => (10, 0) | timed_out => (11, 0)
  | failed_to_connect => (12, 0) | connection_aborted => (13, 0) | invalid_signature => (14, 0)
  | invalid_public_key => (15, 0) | not_connected => (16, 0)
  | failed_to_handle_request => (17, 0) | other_error n => (18, n)
  end.

Definition error_code_of_code (c : Z * Z) : error_code :=
  match c.1 with
  | 0 => success | 1 => unknown | 2 => invalid_argument | 3 => already_initialised
  | 4 => no_such_element | 5 => filesystem_io_error | 6 => not_a_directory
  | 7 => connection_not_found | 8 => unvalidated_client | 9 => vault_terminated
  | 10 => vault_exited_with_error | 11 => timed_out | 12 => failed_to_connect
  | 13 => connection_aborted | 14 => invalid_signature | 15 => invalid_public_key
  | 16 => not_connected | 17 => failed_to_handle_request | _ => other_error c.2
  end.

#[export] Instance error_code_countable : Countable error_code.
Proof. by refine (inj_countable' error_code_code error_code_of_code _); intros []. Defined.

#[export] Instance byte_countable : Countable byte.
Proof. refine (inj_countable Byte.to_N Byte.of_N _). intros []; reflexivity. Defined.

#[export] Instance DemoArchives : Archives := {|
  ar_NonEmptyString := demo_codec (A:=string);
  ar_Path := demo_codec (A:=string);
  ar_u64 := demo_codec (A:=Z);
  ar_int := demo_codec (A:=Z);
  ar_bool := demo_codec (A:=bool);
  ar_string := demo_codec (A:=string);
  ar_Identity := demo_codec (A:=string);
  ar_PlainText := demo_codec (A:=bytes);
  ar_Signature := demo_codec (A:=bytes * string);
  ar_PublicMaid_ptr := demo_codec (A:=option string);
  ar_CipherText := demo_codec (A:=string * bytes);
  ar_AES256KeyAndIV := demo_codec (A:=bytes);
  ar_PublicPmids := demo_codec (A:=list string);
  ar_maidsafe_error := demo_codec (A:=error_code);
  ar_MessageTag := demo_codec (A:=MessageTag);
  ar_optional := @demo_optional;
|}.

#[export] Instance DemoArchiveLaws : ArchiveLaws.
Proof.
  split; try apply demo_codec_ok; [by eexists|intros; by apply demo_optional_ok|].
  intros T c a b Hs. cbn in Hs. res_inv. by eexists.
Qed.

Lemma demo_codec_safe {A} `{Countable A} : codec_safe (demo_codec (A:=A)).
Proof.
  split; [done|]. intros bs. cbn. destruct (undigits bs) as [[p r]|]; [|done].
  by destruct (decode p).
Qed.

#[export] Instance DemoArchiveSafety : ArchiveSafety.
Proof.
  split; try apply demo_codec_safe.
  - intros T c [a|] Ho; [|done]. unfold saves in *. cbn. by apply Res_bind_safe; [apply Ho|].
  - intros T c Hl [|[] bs]; cbn; try done. apply Res_bind_safe; [done|]. by intros [].
Qed.

(** A machine with the vault executable on disk. *)
Definition demo_os : DemoOS := mkDemoOS {[ "/bin/vault" := [] ]} [] [] [] 0.

Definition demo_build : Build := {| TESTING := true; USE_VLOGGING := false |}.
