(* ===== verification/VaultInfo.v ===== *)
(** [struct VaultInfo]: what the manager knows about one vault ([vault_info.h],
    [vault_info.cc]), with its copy, move and swap operations. *)
From S2P Require Export Config.

(** [std::shared_ptr<passport::PmidAndSigner>]: the index of the shared object in
    the store of [World.v]; copies of a [VaultInfo] share the object. *)
Abbreviation PmidPtr := (option nat).

Section vault_info.
Context `{P : Platform} `{B : Build}.

Record VaultInfo := mkVaultInfo {
  pmid_and_signer : PmidPtr;
  vault_dir : Path;
  max_disk_usage : Z;
  owner_name : Identity;
  label : NonEmptyString;
  vlog_session_id : string;
  send_hostname_to_visualiser_server : bool;
  tcp_connection : ConnectionPtr;
}.

#[export] Instance VaultInfo_eq_dec : EqDecision VaultInfo.
Proof. solve_decision. Defined.

(** [VaultInfo::VaultInfo()] *)
Definition VaultInfo_default : VaultInfo := {|
  pmid_and_signer := None;
  vault_dir := Path_default;
  max_disk_usage := 0;
  owner_name := Identity_default;
  label := NonEmptyString_default;
  vlog_session_id := "";
  send_hostname_to_visualiser_server := false;
  tcp_connection := null_connection;
|}.

(** The members under [USE_VLOGGING] have their default value in a build
    without it. *)
Definition vlog_member {A} (d a : A) : A := if USE_VLOGGING then a else d.

(** [VaultInfo::VaultInfo(const VaultInfo& other)] *)
Definition VaultInfo_copy (other : VaultInfo) : VaultInfo := {|
  pmid_and_signer := other.(pmid_and_signer);
  vault_dir := other.(vault_dir);
  max_disk_usage := other.(max_disk_usage);
  owner_name := other.(owner_name);
  label := other.(label);
  vlog_session_id := vlog_member "" other.(vlog_session_id);
  send_hostname_to_visualiser_server :=
    vlog_member false other.(send_hostname_to_visualiser_server);
  tcp_connection := other.(tcp_connection);
|}.

(** [VaultInfo::VaultInfo(VaultInfo&& other)]: the new object and what is left
    in [other]. *)
Definition VaultInfo_move (other : VaultInfo) : VaultInfo * VaultInfo :=
  ({| pmid_and_signer := other.(pmid_and_signer);
      vault_dir := other.(vault_dir);
      max_disk_usage := other.(max_disk_usage);
      owner_name := other.(owner_name);
      label := other.(label);
      vlog_session_id := vlog_member "" other.(vlog_session_id);
      send_hostname_to_visualiser_server :=
        vlog_member false other.(send_hostname_to_visualiser_server);
      tcp_connection := other.(tcp_connection); |},
   {| pmid_and_signer := None;
      vault_dir := Path_moved_from other.(vault_dir);
      max_disk_usage := other.(max_disk_usage);
      owner_name := Identity_moved_from other.(owner_name);
      label := NonEmptyString_moved_from other.(label);
      vlog_session_id := string_moved_from other.(vlog_session_id);
      send_hostname_to_visualiser_server := other.(send_hostname_to_visualiser_server);
      tcp_connection := null_connection; |}).

(** [swap(VaultInfo& lhs, VaultInfo& rhs)], member by member. *)
Definition VaultInfo_swap (lhs rhs : VaultInfo) : VaultInfo * VaultInfo :=
  ({| pmid_and_signer := rhs.(pmid_and_signer);
      vault_dir := rhs.(vault_dir);
      max_disk_usage := rhs.(max_disk_usage);
      owner_name := rhs.(owner_name);
      label := rhs.(label);
      vlog_session_id := vlog_member lhs.(vlog_session_id) rhs.(vlog_session_id);
      send_hostname_to_visualiser_server :=
        vlog_member lhs.(send_hostname_to_visualiser_server)
          rhs.(send_hostname_to_visualiser_server);
      tcp_connection := rhs.(tcp_connection); |},
   {| pmid_and_signer := lhs.(pmid_and_signer);
      vault_dir := lhs.(vault_dir);
      max_disk_usage := lhs.(max_disk_usage);
      owner_name := lhs.(owner_name);
      label := lhs.(label);
      vlog_session_id := vlog_member rhs.(vlog_session_id) lhs.(vlog_session_id);
      send_hostname_to_visualiser_server :=
        vlog_member rhs.(send_hostname_to_visualiser_server)
          lhs.(send_hostname_to_visualiser_server);
      tcp_connection := lhs.(tcp_connection); |}).

(** [VaultInfo& VaultInfo::operator=(VaultInfo other)]: copy and swap. *)
Definition VaultInfo_assign (this other : VaultInfo) : VaultInfo :=
  (VaultInfo_swap this (VaultInfo_copy other)).1.

(** A value of this build: the members it does not have keep their default. *)
Definition VaultInfo_of_build (i : VaultInfo) : Prop :=
  USE_VLOGGING = false →
  i.(vlog_session_id) = "" ∧ i.(send_hostname_to_visualiser_server) = false.

(** Field updates. *)
Definition set_connection (c : ConnectionPtr) (i : VaultInfo) : VaultInfo :=
  mkVaultInfo i.(pmid_and_signer) i.(vault_dir) i.(max_disk_usage) i.(owner_name) i.(label)
    i.(vlog_session_id) i.(send_hostname_to_visualiser_server) c.
Definition set_owner (n : Identity) (u : Z) (i : VaultInfo) : VaultInfo :=
  mkVaultInfo i.(pmid_and_signer) i.(vault_dir) u n i.(label)
    i.(vlog_session_id) i.(send_hostname_to_visualiser_server) i.(tcp_connection).
Definition set_dir (d : Path) (i : VaultInfo) : VaultInfo :=
  mkVaultInfo i.(pmid_and_signer) d i.(max_disk_usage) i.(owner_name) i.(label)
    i.(vlog_session_id) i.(send_hostname_to_visualiser_server) i.(tcp_connection).
Definition set_pmid (p : PmidPtr) (i : VaultInfo) : VaultInfo :=
  mkVaultInfo p i.(vault_dir) i.(max_disk_usage) i.(owner_name) i.(label)
    i.(vlog_session_id) i.(send_hostname_to_visualiser_server) i.(tcp_connection).
Definition set_label (l : NonEmptyString) (i : VaultInfo) : VaultInfo :=
  mkVaultInfo i.(pmid_and_signer) i.(vault_dir) i.(max_disk_usage) i.(owner_name) l
    i.(vlog_session_id) i.(send_hostname_to_visualiser_server) i.(tcp_connection).
Definition set_vlog (s : string) (h : bool) (i : VaultInfo) : VaultInfo :=
  mkVaultInfo i.(pmid_and_signer) i.(vault_dir) i.(max_disk_usage) i.(owner_name) i.(label)
    s h i.(tcp_connection).

Lemma VaultInfo_copy_id i : VaultInfo_of_build i → VaultInfo_copy i = i.
Proof.
  unfold VaultInfo_of_build, VaultInfo_copy, vlog_member. destruct i; cbn.
  destruct USE_VLOGGING; [done|]. intros H. by destruct H as [-> ->].
Qed.

Lemma VaultInfo_swap_exchanges lhs rhs :
  VaultInfo_of_build lhs → VaultInfo_of_build rhs → VaultInfo_swap lhs rhs = (rhs, lhs).
Proof.
  unfold VaultInfo_of_build, VaultInfo_swap, vlog_member. destruct lhs, rhs; cbn.
  destruct USE_VLOGGING; [done|]. intros Hl Hr. by destruct Hl as [-> ->], Hr as [-> ->].
Qed.

(** Copies, moves and swaps lose nothing that this build has. *)
Theorem VaultInfo_assign_transfers this other :
  VaultInfo_of_build this → VaultInfo_of_build other →
  VaultInfo_assign this other = other ∧
  (VaultInfo_move other).1 = other ∧ (VaultInfo_move other).2.(pmid_and_signer) = None ∧
  (VaultInfo_move other).2.(tcp_connection) = null_connection ∧
  VaultInfo_swap this other = (other, this).
Proof.
  intros Ht Ho. unfold VaultInfo_assign. rewrite (VaultInfo_copy_id other) by done.
  rewrite VaultInfo_swap_exchanges by done.
  split_and!; [done| |done..]. by apply VaultInfo_copy_id.
Qed.
End vault_info.
Arguments VaultInfo {P}.
