(* ===== verification/Messages.v ===== *)
(** The messages exchanged over TCP ([messages/*.h]): the data of each, how it is
    archived, [Serialise]/[Parse] with the leading tag, and the round trips. *)
From S2P Require Export Archive VaultInfo.
From S2P Require Import Demo.

Section messages.
Context `{P : Platform} `{B : Build} `{A : !Archives}.

(** ** [messages/challenge.h] *)
Record Challenge := mkChallenge { plaintext : PlainText }.

Definition Challenge_codec : Codec Challenge :=
  codec_iso mkChallenge plaintext ar_PlainText.

(** ** [messages/challenge_response.h]; the pointer is unique, so it is the object *)
Record ChallengeResponse := mkChallengeResponse {
  public_maid : option PublicMaid;
  signature : Signature;
}.

(** [ChallengeResponse(passport::PublicMaid, asymm::Signature)] *)
Definition ChallengeResponse_make (public_maid_in : PublicMaid) (signature_in : Signature) :
  ChallengeResponse := mkChallengeResponse (Some public_maid_in) signature_in.

Definition ChallengeResponse_codec : Codec ChallengeResponse :=
  codec_iso (λ '(m, s), mkChallengeResponse m s) (λ m, (m.(public_maid), m.(signature)))
    (ar_PublicMaid_ptr ⊗ ar_Signature).

(** ** [messages/log_message.h], [messages/max_disk_usage_update.h],
    [messages/vault_started.h] *)
Record LogMessage := mkLogMessage { data : string }.
Definition LogMessage_codec : Codec LogMessage := codec_iso mkLogMessage data ar_string.

Record MaxDiskUsageUpdate := mkMaxDiskUsageUpdate { usage : Z }.
Definition MaxDiskUsageUpdate_codec : Codec MaxDiskUsageUpdate :=
  codec_iso mkMaxDiskUsageUpdate usage ar_u64.

Record VaultStarted := mkVaultStarted { process_id : Z }.
Definition VaultStarted_codec : Codec VaultStarted := codec_iso mkVaultStarted process_id ar_u64.

(** ** [messages/empty_message.h]: [EmptyMessage<Tag>] *)
Definition EmptyMessage_codec : Codec unit := codec_unit.

(** ** [messages/start_vault_request.h] *)
Record StartVaultRequest := mkStartVaultRequest {
  svr_vault_label : NonEmptyString;
  svr_vault_dir : Path;
  svr_vlog_session_id : string;
  svr_send_hostname_to_visualiser_server : bool;
  svr_pmid_list_index : option Z;
  svr_max_disk_usage : Z;
}.

(** [StartVaultRequest(NonEmptyString, path, DiskUsage)] *)
Definition StartVaultRequest_make (vault_label_in : NonEmptyString) (vault_dir_in : Path)
    (max_disk_usage_in : Z) : StartVaultRequest := {|
  svr_vault_label := vault_label_in;
  svr_vault_dir := vault_dir_in;
  svr_vlog_session_id := "";
  svr_send_hostname_to_visualiser_server := false;
  svr_pmid_list_index := None;
  svr_max_disk_usage := max_disk_usage_in;
|}.

(** [StartVaultRequest(StartVaultRequest&& other)]: the new object and what is left in
    [other]; an engaged [boost::optional<int>] stays engaged. *)
Definition StartVaultRequest_move (other : StartVaultRequest) :
  StartVaultRequest * StartVaultRequest :=
  ({| svr_vault_label := other.(svr_vault_label);
      svr_vault_dir := other.(svr_vault_dir);
      svr_vlog_session_id := if USE_VLOGGING then other.(svr_vlog_session_id) else "";
      svr_send_hostname_to_visualiser_server :=
        if USE_VLOGGING && TESTING then other.(svr_send_hostname_to_visualiser_server) else false;
      svr_pmid_list_index := if TESTING then other.(svr_pmid_list_index) else None;
      svr_max_disk_usage := other.(svr_max_disk_usage); |},
   {| svr_vault_label := NonEmptyString_moved_from other.(svr_vault_label);
      svr_vault_dir := Path_moved_from other.(svr_vault_dir);
      svr_vlog_session_id :=
        if USE_VLOGGING then string_moved_from other.(svr_vlog_session_id)
        else other.(svr_vlog_session_id);
      svr_send_hostname_to_visualiser_server := other.(svr_send_hostname_to_visualiser_server);
      svr_pmid_list_index := other.(svr_pmid_list_index);
      svr_max_disk_usage := other.(svr_max_disk_usage); |}).

Definition StartVaultRequest_codec : Codec StartVaultRequest :=
  codec_iso
    (λ '(l, d, u, v, h, i), mkStartVaultRequest l d v h i u)
    (λ m, (m.(svr_vault_label), m.(svr_vault_dir), m.(svr_max_disk_usage),
           m.(svr_vlog_session_id), m.(svr_send_hostname_to_visualiser_server),
           m.(svr_pmid_list_index)))
    (ar_NonEmptyString ⊗ ar_Path ⊗ ar_u64
     ⊗ codec_if USE_VLOGGING "" ar_string
     ⊗ codec_if (USE_VLOGGING && TESTING) false ar_bool
     ⊗ codec_if TESTING None (ar_optional ar_int)).

(** A message of this build: members it does not have keep their default. *)
Definition StartVaultRequest_of_build (m : StartVaultRequest) : Prop :=
  (USE_VLOGGING = false → m.(svr_vlog_session_id) = "") ∧
  (USE_VLOGGING && TESTING = false → m.(svr_send_hostname_to_visualiser_server) = false) ∧
  (TESTING = false → m.(svr_pmid_list_index) = None).

(** ** [messages/take_ownership_request.h] *)
Record TakeOwnershipRequest := mkTakeOwnershipRequest {
  tor_vault_label : NonEmptyString;
  tor_vault_dir : Path;
  tor_max_disk_usage : Z;
}.

Definition TakeOwnershipRequest_codec : Codec TakeOwnershipRequest :=
  codec_iso (λ '(l, d, u), mkTakeOwnershipRequest l d u)
    (λ m, (m.(tor_vault_label), m.(tor_vault_dir), m.(tor_max_disk_usage)))
    (ar_NonEmptyString ⊗ ar_Path ⊗ ar_u64).

(** ** [messages/vault_running_response.h] *)

(** [VaultRunningResponse::VaultKeys].  The message owns the only pointer to its
    [PmidAndSigner]; [None] is the null pointer of a default-constructed object. *)
Record VaultKeys := mkVaultKeys {
  vk_symm_key_and_iv : AES256KeyAndIV;
  vk_pmid_and_signer : option PmidAndSigner;
}.

(** [VaultKeys(passport::PmidAndSigner)]: draws a fresh key. *)
Definition VaultKeys_make (pmid_and_signer_in : PmidAndSigner) (os : OS) : VaultKeys * OS :=
  let n := AES256_KeySize + AES256_IVSize in
  let '(b, os') := RandomBytes n n os in
  (mkVaultKeys (AES256KeyAndIV_of_bytes b) (Some pmid_and_signer_in), os').

Definition VaultKeys_load (bs : bytes) : Res (VaultKeys * bytes) :=
  '(key, encrypted_anpmid, encrypted_pmid, bs') ←
    load (ar_AES256KeyAndIV ⊗ ar_CipherText ⊗ ar_CipherText) bs;
  pmid ← of_lib (DecryptPmid encrypted_pmid key);
  anpmid ← of_lib (DecryptAnpmid encrypted_anpmid key);
  mret (mkVaultKeys key (Some (pmid, anpmid)), bs').

Definition VaultKeys_save (m : VaultKeys) : Res bytes :=
  match m.(vk_pmid_and_signer) with
  | None => Fault null_deref
  | Some p =>
      save (ar_AES256KeyAndIV ⊗ ar_CipherText ⊗ ar_CipherText)
        (m.(vk_symm_key_and_iv), EncryptAnpmid p.2 m.(vk_symm_key_and_iv),
         EncryptPmid p.1 m.(vk_symm_key_and_iv))
  end.

Definition VaultKeys_codec : Codec VaultKeys := mkCodec VaultKeys_save VaultKeys_load.

Record VaultRunningResponse := mkVaultRunningResponse {
  vrr_vault_label : NonEmptyString;
  vrr_vault_keys : option VaultKeys;
  vrr_error : option error_code;
}.

(** [VaultRunningResponse(NonEmptyString, passport::PmidAndSigner)] *)
Definition VaultRunningResponse_keys (vault_label_in : NonEmptyString) (keys : PmidAndSigner)
    (os : OS) : VaultRunningResponse * OS :=
  let '(k, os') := VaultKeys_make keys os in
  (mkVaultRunningResponse vault_label_in (Some k) None, os').

(** [VaultRunningResponse(NonEmptyString, maidsafe_error)] *)
Definition VaultRunningResponse_error (vault_label_in : NonEmptyString) (error_in : error_code) :
  VaultRunningResponse := mkVaultRunningResponse vault_label_in None (Some error_in).

Definition ValidateOptions (m : VaultRunningResponse) : Res unit :=
  let keys := bool_decide (is_Some m.(vrr_vault_keys)) in
  let err := bool_decide (is_Some m.(vrr_error)) in
  if (keys && err) || (negb keys && negb err)
  then Throw (maidsafe_error invalid_argument)
  else Ok tt.

Definition VaultRunningResponse_load (bs : bytes) : Res (VaultRunningResponse * bytes) :=
  '(l, k, e, bs') ←
    load (ar_NonEmptyString ⊗ ar_optional VaultKeys_codec ⊗ ar_optional ar_maidsafe_error) bs;
  let this := mkVaultRunningResponse l k e in
  ValidateOptions this ≫= λ _, mret (this, bs').

Definition VaultRunningResponse_save (m : VaultRunningResponse) : Res bytes :=
  ValidateOptions m ≫= λ _,
  save (ar_NonEmptyString ⊗ ar_optional VaultKeys_codec ⊗ ar_optional ar_maidsafe_error)
    (m.(vrr_vault_label), m.(vrr_vault_keys), m.(vrr_error)).

Definition VaultRunningResponse_codec : Codec VaultRunningResponse :=
  mkCodec VaultRunningResponse_save VaultRunningResponse_load.

(** ** [messages/vault_started_response.h] *)
Record VaultStartedResponse := mkVaultStartedResponse {
  vsr_symm_key_and_iv : AES256KeyAndIV;
  vsr_pmid : option Pmid;
  vsr_vault_dir : Path;
  vsr_vlog_session_id : string;
  vsr_send_hostname_to_visualiser_server : bool;
  vsr_public_pmids : list PublicPmid;
  vsr_max_disk_usage : Z;
}.

(** [VaultStartedResponse(const VaultInfo&, crypto::AES256KeyAndIV)]; [pmid] is
    [vault_info.pmid_and_signer->first] and [pmids] is [GetPublicPmids()]. *)
Definition VaultStartedResponse_make (pmid : Pmid) (pmids : list PublicPmid)
    (vault_info : VaultInfo) (symm_key_and_iv_in : AES256KeyAndIV) : VaultStartedResponse := {|
  vsr_symm_key_and_iv := symm_key_and_iv_in;
  vsr_pmid := Some pmid;
  vsr_vault_dir := vault_info.(vault_dir);
  vsr_vlog_session_id := if USE_VLOGGING then vault_info.(vlog_session_id) else "";
  vsr_send_hostname_to_visualiser_server :=
    if USE_VLOGGING && TESTING then vault_info.(send_hostname_to_visualiser_server) else false;
  vsr_public_pmids := if TESTING then pmids else [];
  vsr_max_disk_usage := vault_info.(max_disk_usage);
|}.

(** What [load] and [save] archive after the encrypted Pmid and the directory. *)
Definition VaultStartedResponse_rest : Codec (string * bool * list PublicPmid * Z) :=
  codec_if USE_VLOGGING "" ar_string
  ⊗ codec_if (USE_VLOGGING && TESTING) false ar_bool
  ⊗ codec_if TESTING [] ar_PublicPmids
  ⊗ ar_u64.

Definition VaultStartedResponse_load (bs : bytes) : Res (VaultStartedResponse * bytes) :=
  '(key, encrypted_pmid, dir, bs1) ← load (ar_AES256KeyAndIV ⊗ ar_CipherText ⊗ ar_Path) bs;
  pmid ← of_lib (DecryptPmid encrypted_pmid key);
  '(vlog, host, pmids, usage, bs2) ← load VaultStartedResponse_rest bs1;
  mret (mkVaultStartedResponse key (Some pmid) dir vlog host pmids usage, bs2).

Definition VaultStartedResponse_save (m : VaultStartedResponse) : Res bytes :=
  match m.(vsr_pmid) with
  | None => Fault null_deref
  | Some pmid =>
      b1 ← save (ar_AES256KeyAndIV ⊗ ar_CipherText ⊗ ar_Path)
             (m.(vsr_symm_key_and_iv), EncryptPmid pmid m.(vsr_symm_key_and_iv),
              m.(vsr_vault_dir));
      b2 ← save VaultStartedResponse_rest
             (m.(vsr_vlog_session_id), m.(vsr_send_hostname_to_visualiser_server),
              m.(vsr_public_pmids), m.(vsr_max_disk_usage));
      mret (b1 ++ b2)
  end.

Definition VaultStartedResponse_codec : Codec VaultStartedResponse :=
  mkCodec VaultStartedResponse_save VaultStartedResponse_load.

Definition VaultStartedResponse_of_build (m : VaultStartedResponse) : Prop :=
  (USE_VLOGGING = false → m.(vsr_vlog_session_id) = "") ∧
  (USE_VLOGGING && TESTING = false → m.(vsr_send_hostname_to_visualiser_server) = false) ∧
  (TESTING = false → m.(vsr_public_pmids) = []).

(** ** A message of any type, and its wire format *)
Inductive Message : Type :=
| ValidateConnectionRequest_
| Challenge_ (m : Challenge)
| ChallengeResponse_ (m : ChallengeResponse)
| StartVaultRequest_ (m : StartVaultRequest)
| TakeOwnershipRequest_ (m : TakeOwnershipRequest)
| VaultRunningResponse_ (m : VaultRunningResponse)
| VaultStarted_ (m : VaultStarted)
| VaultStartedResponse_ (m : VaultStartedResponse)
| VaultShutdownRequest_
| MaxDiskUsageUpdate_ (m : MaxDiskUsageUpdate)
| JoinedNetwork_
| LogMessage_ (m : LogMessage)
| SetNetworkAsStable_
| NetworkStableRequest_
| NetworkStableResponse_.

(** [T::tag] *)
Definition tag (m : Message) : MessageTag :=
  match m with
  | ValidateConnectionRequest_ => kValidateConnectionRequest
  | Challenge_ _ => kChallenge
  | ChallengeResponse_ _ => kChallengeResponse
  | StartVaultRequest_ _ => kStartVaultRequest
  | TakeOwnershipRequest_ _ => kTakeOwnershipRequest
  | VaultRunningResponse_ _ => kVaultRunningResponse
  | VaultStarted_ _ => kVaultStarted
  | VaultStartedResponse_ _ => kVaultStartedResponse
  | VaultShutdownRequest_ => kVaultShutdownRequest
  | MaxDiskUsageUpdate_ _ => kMaxDiskUsageUpdate
  | JoinedNetwork_ => kJoinedNetwork
  | LogMessage_ _ => kLogMessage
  | SetNetworkAsStable_ => kSetNetworkAsStable
  | NetworkStableRequest_ => kNetworkStableRequest
  | NetworkStableResponse_ => kNetworkStableResponse
  end.

(** The archive of the message after its tag. *)
Definition save_body (m : Message) : Res bytes :=
  match m with
  | Challenge_ m => save Challenge_codec m
  | ChallengeResponse_ m => save ChallengeResponse_codec m
  | StartVaultRequest_ m => save StartVaultRequest_codec m
  | TakeOwnershipRequest_ m => save TakeOwnershipRequest_codec m
  | VaultRunningResponse_ m => save VaultRunningResponse_codec m
  | VaultStarted_ m => save VaultStarted_codec m
  | VaultStartedResponse_ m => save VaultStartedResponse_codec m
  | MaxDiskUsageUpdate_ m => save MaxDiskUsageUpdate_codec m
  | LogMessage_ m => save LogMessage_codec m
  | ValidateConnectionRequest_ | VaultShutdownRequest_ | JoinedNetwork_
  | SetNetworkAsStable_ | NetworkStableRequest_ | NetworkStableResponse_ =>
      save EmptyMessage_codec tt
  end.

(** [Serialise(T::tag, message)], as [Send] calls it. *)
Definition Serialise (m : Message) : Res bytes :=
  b1 ← save ar_MessageTag (tag m);
  b2 ← save_body m;
  mret (b1 ++ b2).

(** [Parse(binary_input_stream, tag)]: the tag and the rest of the stream. *)
Definition ParseTag (bs : bytes) : Res (MessageTag * bytes) := load ar_MessageTag bs.

(** [Parse<T>(binary_input_stream)] *)
Definition Parse {T} (c : Codec T) (bs : bytes) : Res T :=
  '(m, _) ← load c bs; mret m.

(** What a receiver that knows every message makes of the bytes of one. *)
Definition receive (bs : bytes) : Res Message :=
  '(t, body) ← ParseTag bs;
  match t with
  | kValidateConnectionRequest => mret ValidateConnectionRequest_
  | kChallenge => Challenge_ <$> Parse Challenge_codec body
  | kChallengeResponse => ChallengeResponse_ <$> Parse ChallengeResponse_codec body
  | kStartVaultRequest => StartVaultRequest_ <$> Parse StartVaultRequest_codec body
  | kTakeOwnershipRequest => TakeOwnershipRequest_ <$> Parse TakeOwnershipRequest_codec body
  | kVaultRunningResponse => VaultRunningResponse_ <$> Parse VaultRunningResponse_codec body
  | kVaultStarted => VaultStarted_ <$> Parse VaultStarted_codec body
  | kVaultStartedResponse => VaultStartedResponse_ <$> Parse VaultStartedResponse_codec body
  | kVaultShutdownRequest => mret VaultShutdownRequest_
  | kMaxDiskUsageUpdate => MaxDiskUsageUpdate_ <$> Parse MaxDiskUsageUpdate_codec body
  | kJoinedNetwork => mret JoinedNetwork_
  | kLogMessage => LogMessage_ <$> Parse LogMessage_codec body
  | kSetNetworkAsStable => mret SetNetworkAsStable_
  | kNetworkStableRequest => mret NetworkStableRequest_
  | kNetworkStableResponse => mret NetworkStableResponse_
  | kNoEnumerator _ => Throw std_exception
  end.

Definition Message_of_build (m : Message) : Prop :=
  match m with
  | StartVaultRequest_ m => StartVaultRequest_of_build m
  | VaultStartedResponse_ m => VaultStartedResponse_of_build m
  | _ => True
  end.
End messages.

Section round_trips.
Context `{P : Platform} `{L : !PlatformLaws} `{B : Build} `{A : !Archives} `{AL : !ArchiveLaws}.

Lemma Challenge_codec_ok : codec_ok Challenge_codec.
Proof. apply codec_iso_ok; [codec_solve|by intros []]. Qed.
Lemma ChallengeResponse_codec_ok : codec_ok ChallengeResponse_codec.
Proof. apply codec_iso_ok; [codec_solve|by intros []]. Qed.
Lemma LogMessage_codec_ok : codec_ok LogMessage_codec.
Proof. apply codec_iso_ok; [codec_solve|by intros []]. Qed.
Lemma MaxDiskUsageUpdate_codec_ok : codec_ok MaxDiskUsageUpdate_codec.
Proof. apply codec_iso_ok; [codec_solve|by intros []]. Qed.
Lemma VaultStarted_codec_ok : codec_ok VaultStarted_codec.
Proof. apply codec_iso_ok; [codec_solve|by intros []]. Qed.
Lemma TakeOwnershipRequest_codec_ok : codec_ok TakeOwnershipRequest_codec.
Proof. apply codec_iso_ok; [codec_solve|by intros []]. Qed.

Lemma VaultKeys_codec_ok : codec_ok VaultKeys_codec.
Proof.
  intros [key [[pmid anpmid]|]] b rest Hs; cbn in Hs; [|done].
  change (save (ar_AES256KeyAndIV ⊗ ar_CipherText ⊗ ar_CipherText)
            (key, EncryptAnpmid anpmid key, EncryptPmid pmid key) = Ok b) in Hs.
  assert (Hok : codec_ok (ar_AES256KeyAndIV ⊗ ar_CipherText ⊗ ar_CipherText))
    by codec_solve.
  cbn [load VaultKeys_codec]. unfold VaultKeys_load. rewrite (Hok _ _ rest Hs). cbn.
  by rewrite DecryptPmid_EncryptPmid; cbn; rewrite DecryptAnpmid_EncryptAnpmid.
Qed.

#[local] Hint Resolve VaultKeys_codec_ok : codec.

Lemma VaultRunningResponse_codec_ok : codec_ok VaultRunningResponse_codec.
Proof.
  intros [l k e] b rest Hs. cbn [save VaultRunningResponse_codec] in Hs.
  unfold VaultRunningResponse_save in Hs. res_inv.
  assert (Hok : codec_ok (ar_NonEmptyString ⊗ ar_optional VaultKeys_codec
                          ⊗ ar_optional ar_maidsafe_error))
    by codec_solve.
  cbn [load VaultRunningResponse_codec]. unfold VaultRunningResponse_load.
  rewrite (Hok _ _ rest ltac:(eassumption)). cbn -[ValidateOptions].
  by match goal with H : ValidateOptions _ = _ |- _ => rewrite H end.
Qed.

Lemma StartVaultRequest_codec_ok_at m :
  StartVaultRequest_of_build m → codec_ok_at StartVaultRequest_codec m.
Proof.
  intros (? & ? & ?). apply codec_iso_ok_at; [|by destruct m].
  repeat apply codec_pair_ok_at; try apply codec_if_ok_at; try done;
    first [apply ar_NonEmptyString_ok|apply ar_Path_ok|apply ar_u64_ok|apply ar_string_ok
          |apply ar_bool_ok|apply ar_optional_ok, ar_int_ok].
Qed.

Lemma VaultStartedResponse_codec_ok_at m :
  VaultStartedResponse_of_build m → codec_ok_at VaultStartedResponse_codec m.
Proof.
  intros (? & ? & ?) b rest Hs. destruct m as [key [pmid|] dir vlog host pmids usage];
    cbn [save VaultStartedResponse_codec] in Hs; unfold VaultStartedResponse_save in Hs; [|done].
  cbn -[save VaultStartedResponse_rest codec_pair] in *. res_inv.
  assert (codec_ok (ar_AES256KeyAndIV ⊗ ar_CipherText ⊗ ar_Path)) as Hok by codec_solve.
  assert (codec_ok_at VaultStartedResponse_rest (vlog, host, pmids, usage)) as Hrest.
  { repeat apply codec_pair_ok_at; try apply codec_if_ok_at; eauto;
      first [apply ar_string_ok|apply ar_bool_ok|apply ar_PublicPmids_ok|apply ar_u64_ok]. }
  cbn [load VaultStartedResponse_codec]. unfold VaultStartedResponse_load.
  rewrite <- app_assoc, (Hok _ _ _ ltac:(eassumption)).
  cbn -[load VaultStartedResponse_rest codec_pair]. rewrite DecryptPmid_EncryptPmid.
  cbn -[load VaultStartedResponse_rest codec_pair].
  by rewrite (Hrest _ rest ltac:(eassumption)).
Qed.

Lemma Parse_saved {T} (c : Codec T) m b : codec_ok_at c m → save c m = Ok b → Parse c b = Ok m.
Proof.
  intros Hc Hs. unfold Parse. specialize (Hc b [] Hs). rewrite app_nil_r in Hc. by rewrite Hc.
Qed.

(** The stream starts with the tag; the archive of the message is the rest. *)
Lemma Serialise_ParseTag m bs :
  Serialise m = Ok bs → ∃ body, ParseTag bs = Ok (tag m, body) ∧ save_body m = Ok body.
Proof.
  intros Hs. unfold Serialise in Hs. res_inv. eexists. split; [|eassumption].
  unfold ParseTag. by rewrite (ar_MessageTag_ok _ _ _ ltac:(eassumption)).
Qed.

(** C20: a message of any type that [Send] managed to serialise is read back by
    the receiver, tag first, as the very same message. *)
Theorem Serialise_receive m bs :
  Message_of_build m → Serialise m = Ok bs → receive bs = Ok m.
Proof.
  intros Hm Hs. unfold Serialise in Hs. res_inv.
  unfold receive, ParseTag. rewrite (ar_MessageTag_ok _ _ _ ltac:(eassumption)).
  destruct m; cbn [tag mbind Res_bind]; try done; cbn [save_body Message_of_build] in *;
    erewrite Parse_saved by
      (eauto using Challenge_codec_ok, ChallengeResponse_codec_ok, LogMessage_codec_ok,
       MaxDiskUsageUpdate_codec_ok, VaultStarted_codec_ok, TakeOwnershipRequest_codec_ok,
       VaultRunningResponse_codec_ok, StartVaultRequest_codec_ok_at,
       VaultStartedResponse_codec_ok_at); done.
Qed.
End round_trips.

(** * Archiving messages returns or throws *)
Section safety.
Context `{P : Platform} `{B : Build} `{A : !Archives} `{AS : !ArchiveSafety}.

(** The messages whose pointers are set. *)
Definition message_ok (m : Message) : Prop :=
  match m with
  | VaultRunningResponse_ m =>
      ∀ k, m.(vrr_vault_keys) = Some k → is_Some k.(vk_pmid_and_signer)
  | VaultStartedResponse_ m => is_Some m.(vsr_pmid)
  | _ => True
  end.

Lemma VaultKeys_loads : loads VaultKeys_codec.
Proof.
  intros bs. cbn [load VaultKeys_codec]. unfold VaultKeys_load.
  assert (Hc : codec_safe (ar_AES256KeyAndIV ⊗ ar_CipherText ⊗ ar_CipherText)) by codec_solve.
  apply Res_bind_safe; [apply Hc|]. intros [[[key ea] ep] bs'] _.
  apply Res_bind_safe; [apply of_lib_safe|]. intros pmid _.
  apply Res_bind_safe; [apply of_lib_safe|]. by intros anpmid _.
Qed.

Lemma VaultKeys_saves k : is_Some k.(vk_pmid_and_signer) → saves VaultKeys_codec k.
Proof.
  intros [p Hp]. unfold saves. cbn [save VaultKeys_codec]. unfold VaultKeys_save. rewrite Hp.
  assert (Hc : codec_safe (ar_AES256KeyAndIV ⊗ ar_CipherText ⊗ ar_CipherText)) by codec_solve.
  apply Hc.
Qed.

Lemma ValidateOptions_safe m : is_Fault (ValidateOptions m) = false.
Proof. unfold ValidateOptions. by destruct (_ || _). Qed.

Lemma VaultRunningResponse_loads : loads VaultRunningResponse_codec.
Proof.
  intros bs. cbn [load VaultRunningResponse_codec]. unfold VaultRunningResponse_load.
  assert (Hc : loads (ar_NonEmptyString ⊗ ar_optional VaultKeys_codec ⊗ ar_optional ar_maidsafe_error)).
  { repeat apply codec_pair_loads; [apply ar_NonEmptyString_safe|apply ar_optional_loads..];
      [apply VaultKeys_loads|apply ar_maidsafe_error_safe]. }
  apply Res_bind_safe; [apply Hc|]. intros [[[l k] e] bs'] _.
  apply Res_bind_safe; [apply ValidateOptions_safe|done].
Qed.

Lemma VaultRunningResponse_saves m :
  message_ok (VaultRunningResponse_ m) → saves VaultRunningResponse_codec m.
Proof.
  intros Hm. unfold saves. cbn [save VaultRunningResponse_codec]. unfold VaultRunningResponse_save.
  apply Res_bind_safe; [apply ValidateOptions_safe|]. intros [] _.
  apply codec_pair_saves; [apply codec_pair_saves|].
  - apply ar_NonEmptyString_safe.
  - apply ar_optional_saves. intros k Hk. apply VaultKeys_saves, Hm, Hk.
  - apply ar_optional_saves. intros e _. apply ar_maidsafe_error_safe.
Qed.

Lemma VaultStartedResponse_saves m :
  message_ok (VaultStartedResponse_ m) → saves VaultStartedResponse_codec m.
Proof.
  intros [p Hp]. unfold saves. cbn [save VaultStartedResponse_codec].
  unfold VaultStartedResponse_save. rewrite Hp.
  assert (Hc : codec_safe (ar_AES256KeyAndIV ⊗ ar_CipherText ⊗ ar_Path)) by codec_solve.
  assert (Hr : codec_safe VaultStartedResponse_rest)
    by (unfold VaultStartedResponse_rest; codec_solve).
  apply Res_bind_safe; [apply Hc|]. intros b1 _.
  apply Res_bind_safe; [apply Hr|done].
Qed.

Lemma StartVaultRequest_safe : codec_safe StartVaultRequest_codec.
Proof. unfold StartVaultRequest_codec. codec_solve. Qed.
Lemma TakeOwnershipRequest_safe : codec_safe TakeOwnershipRequest_codec.
Proof. unfold TakeOwnershipRequest_codec. codec_solve. Qed.
Lemma ChallengeResponse_safe : codec_safe ChallengeResponse_codec.
Proof. unfold ChallengeResponse_codec. codec_solve. Qed.
Lemma VaultStarted_safe : codec_safe VaultStarted_codec.
Proof. unfold VaultStarted_codec. codec_solve. Qed.
Lemma LogMessage_safe : codec_safe LogMessage_codec.
Proof. unfold LogMessage_codec. codec_solve. Qed.

Lemma Parse_safe {T} (c : Codec T) bs : loads c → is_Fault (Parse c bs) = false.
Proof. intros Hc. unfold Parse. apply Res_bind_safe; [apply Hc|]. by intros []. Qed.

(** A message whose pointers are set serialises without undefined behaviour. *)
Lemma Serialise_safe m : message_ok m → is_Fault (Serialise m) = false.
Proof.
  intros Hm. unfold Serialise. apply Res_bind_safe; [apply ar_MessageTag_safe|]. intros b1 _.
  apply Res_bind_safe; [|done].
  destruct m; cbn [save_body]; try done;
    first [by apply VaultRunningResponse_saves|by apply VaultStartedResponse_saves
          |apply StartVaultRequest_safe|apply TakeOwnershipRequest_safe
          |apply ChallengeResponse_safe|apply VaultStarted_safe|apply LogMessage_safe|idtac].
  - assert (codec_safe Challenge_codec) as [Hc _] by (unfold Challenge_codec; codec_solve).
    apply Hc.
  - assert (codec_safe MaxDiskUsageUpdate_codec) as [Hc _]
      by (unfold MaxDiskUsageUpdate_codec; codec_solve).
    apply Hc.
Qed.
End safety.

(** A request of a testing build, archived and read back. *)
Lemma Serialise_receive_witness :
  let m := StartVaultRequest_ (P:=DemoPlatform) (mkStartVaultRequest (P:=DemoPlatform)
             "L-1" "/vaults/1" "" false (Some 3) 1000) in
  ∃ bs, Serialise (B:=demo_build) m = Ok bs ∧ receive (B:=demo_build) bs = Ok m.
Proof.
  intros m. eexists. split; [reflexivity|].
  apply (Serialise_receive (B:=demo_build) m); [done|reflexivity].
Defined.
