(* ===== verification/World.v ===== *)
(** The state of a running VaultManager process: the records of its objects
    ([ProcessManager], [ClientConnections], [NewConnections], [ConfigFileHandler],
    the members of [VaultManager] and the globals of [utils.cc]), the work its
    [io_service] holds, and the effects it has had.  The operations on it that
    several components use are here too. *)
From S2P Require Export Messages.
From S2P Require Import Demo.

(** ** Process status and asynchronous work *)

Inductive ProcessStatus : Set := kBeforeStarted | kStarting | kRunning | kStopping.

#[export] Instance ProcessStatus_eq_dec : EqDecision ProcessStatus.
Proof. solve_decision. Defined.

(** How a wait of a timer ends: the time is up, the wait was cancelled
    ([asio::error::operation_aborted]), or it failed. *)
Inductive WaitResult : Set := wait_done | wait_aborted | wait_failed.

Section world.
Context `{P : Platform}.

(** The closures given to [timer->async_wait], with the variables they capture. *)
Inductive Handler : Type :=
| on_start_timer (label : NonEmptyString)
| on_stop_timer (label : NonEmptyString)
| on_new_connection_timer (connection : ConnectionPtr)
| on_unvalidated_client_timer (connection : ConnectionPtr).

(** [asio::steady_timer]: its expiry in seconds from when it was set, and the
    waits that are pending on it. *)
Record Timer := mkTimer { expires_in : Z; waits : list Handler }.

Definition Timer_new : Timer := mkTimer 0 [].
(** Both [expires_from_now] and [cancel] cancel what is pending; the cancelled
    handlers run with [operation_aborted]. *)
Definition expires_from_now (d : Z) (t : Timer) : Timer := mkTimer d [].
Definition timer_cancel (t : Timer) : Timer := mkTimer t.(expires_in) [].
Definition async_wait (h : Handler) (t : Timer) : Timer := mkTimer t.(expires_in) (t.(waits) ++ [h]).

(** [OnExitFunctor]: the closure [ChangeChunkstorePath] creates is the only one in
    the sources. *)
Inductive OnExitFunctor : Type :=
| ChangeChunkstorePath_on_exit (vault_info : VaultInfo).

(** What the [io_service] has ready to run: the handler of a finished wait, or the
    closure [RestartIfRequired] posts. *)
Inductive Work : Type :=
| WaitHandler (h : Handler) (r : WaitResult)
| RestartVault (vault_info : VaultInfo) (restart_count : Z).

(** ** The objects *)

(** [ProcessManager::Child] *)
Record Child := mkChild {
  info : VaultInfo;
  on_exit : option OnExitFunctor;
  timer : Timer;
  restart_count : Z;
  process_args : list string;
  status : ProcessStatus;
  process : Z;
}.

(** [class ProcessManager]; [signal_waiting_] says that [signal_set_] has a
    pending [async_wait]. *)
Record ProcessManager := mkProcessManager {
  signal_waiting_ : bool;
  stop_all_flag_ : bool;
  kListeningPort_ : Z;
  kVaultExecutablePath_ : Path;
  vaults_ : list Child;
}.

(** [class ClientConnections] *)
Record ClientConnections := mkClientConnections {
  unvalidated_clients_ : gmap ConnectionPtr (PlainText * Timer);
  clients_ : gmap ConnectionPtr Identity;
}.

(** [class NewConnections] *)
Record NewConnections := mkNewConnections { connections_ : gmap ConnectionPtr Timer }.

(** [class ConfigFileHandler] *)
Record ConfigFileHandler := mkConfigFileHandler {
  config_file_path_ : Path;
  kSymmKeyAndIV_ : AES256KeyAndIV;
}.

(** The globals of [utils.cc]. *)
Record TestEnvironment := mkTestEnvironment {
  test_env_flag : bool;
  g_test_vault_manager_port : Z;
  g_test_env_root_dir : Path;
  g_path_to_vault : Path;
  g_using_default_environment : bool;
  g_pmids_and_signers : list PmidAndSigner;
  g_public_pmids : list PublicPmid;
}.

(** What the outside sees of the process. *)
Inductive Effect : Type :=
| Sent (connection : ConnectionPtr) (message : bytes)
| Closed (connection : ConnectionPtr)
| Started (connection : ConnectionPtr)
| Executed (pid : Z) (command_line : string)
| Terminated (pid : Z)
| WroteConfig (path : Path) (content : bytes)
| StoppedListening.

(** The process: [pmids] is the store of the shared [PmidAndSigner] objects. *)
Record World := mkWorld {
  os : OS;
  trace : list Effect;
  queue : list Work;
  pmids : list PmidAndSigner;
  env : TestEnvironment;
  pm : ProcessManager;
  cc : ClientConnections;
  nc : NewConnections;
  cfg : ConfigFileHandler;
  network_stable_ : bool;
  tear_down_with_interval_ : bool;
}.

(** ** Updates *)
Definition set_os f (w : World) : World :=
  mkWorld (f w.(os)) w.(trace) w.(queue) w.(pmids) w.(env) w.(pm) w.(cc) w.(nc) w.(cfg)
    w.(network_stable_) w.(tear_down_with_interval_).
Definition set_trace f (w : World) : World :=
  mkWorld w.(os) (f w.(trace)) w.(queue) w.(pmids) w.(env) w.(pm) w.(cc) w.(nc) w.(cfg)
    w.(network_stable_) w.(tear_down_with_interval_).
Definition set_queue f (w : World) : World :=
  mkWorld w.(os) w.(trace) (f w.(queue)) w.(pmids) w.(env) w.(pm) w.(cc) w.(nc) w.(cfg)
    w.(network_stable_) w.(tear_down_with_interval_).
Definition set_pmids f (w : World) : World :=
  mkWorld w.(os) w.(trace) w.(queue) (f w.(pmids)) w.(env) w.(pm) w.(cc) w.(nc) w.(cfg)
    w.(network_stable_) w.(tear_down_with_interval_).
Definition set_env f (w : World) : World :=
  mkWorld w.(os) w.(trace) w.(queue) w.(pmids) (f w.(env)) w.(pm) w.(cc) w.(nc) w.(cfg)
    w.(network_stable_) w.(tear_down_with_interval_).
Definition set_pm f (w : World) : World :=
  mkWorld w.(os) w.(trace) w.(queue) w.(pmids) w.(env) (f w.(pm)) w.(cc) w.(nc) w.(cfg)
    w.(network_stable_) w.(tear_down_with_interval_).
Definition set_cc f (w : World) : World :=
  mkWorld w.(os) w.(trace) w.(queue) w.(pmids) w.(env) w.(pm) (f w.(cc)) w.(nc) w.(cfg)
    w.(network_stable_) w.(tear_down_with_interval_).
Definition set_nc f (w : World) : World :=
  mkWorld w.(os) w.(trace) w.(queue) w.(pmids) w.(env) w.(pm) w.(cc) (f w.(nc)) w.(cfg)
    w.(network_stable_) w.(tear_down_with_interval_).
Definition set_cfg f (w : World) : World :=
  mkWorld w.(os) w.(trace) w.(queue) w.(pmids) w.(env) w.(pm) w.(cc) w.(nc) (f w.(cfg))
    w.(network_stable_) w.(tear_down_with_interval_).
Definition set_network_stable b (w : World) : World :=
  mkWorld w.(os) w.(trace) w.(queue) w.(pmids) w.(env) w.(pm) w.(cc) w.(nc) w.(cfg)
    b w.(tear_down_with_interval_).
Definition set_tear_down b (w : World) : World :=
  mkWorld w.(os) w.(trace) w.(queue) w.(pmids) w.(env) w.(pm) w.(cc) w.(nc) w.(cfg)
    w.(network_stable_) b.

Definition vaults (w : World) : list Child := w.(pm).(vaults_).
Definition set_vaults f (w : World) : World :=
  set_pm (λ p, mkProcessManager p.(signal_waiting_) p.(stop_all_flag_) p.(kListeningPort_)
                 p.(kVaultExecutablePath_) (f p.(vaults_))) w.

Definition set_info f (c : Child) : Child :=
  mkChild (f c.(info)) c.(on_exit) c.(timer) c.(restart_count) c.(process_args) c.(status)
    c.(process).
Definition set_on_exit o (c : Child) : Child :=
  mkChild c.(info) o c.(timer) c.(restart_count) c.(process_args) c.(status) c.(process).
Definition set_timer f (c : Child) : Child :=
  mkChild c.(info) c.(on_exit) (f c.(timer)) c.(restart_count) c.(process_args) c.(status)
    c.(process).
Definition set_status s (c : Child) : Child :=
  mkChild c.(info) c.(on_exit) c.(timer) c.(restart_count) c.(process_args) s c.(process).
Definition set_process p (c : Child) : Child :=
  mkChild c.(info) c.(on_exit) c.(timer) c.(restart_count) c.(process_args) c.(status) p.

(** ** Operations several components use *)

Definition os_call {A} (f : OS → Lib A * OS) : M World A := λ w,
  let '(r, o) := f w.(os) in (of_lib r, set_os (λ _, o) w).
Definition os_call' {A} (f : OS → A * OS) : M World A := λ w,
  let '(a, o) := f w.(os) in (Ok a, set_os (λ _, o) w).

Lemma os_call'_run {A} (f : OS → A * OS) w :
  os_call' f w = (Ok (f w.(os)).1, set_os (λ _, (f w.(os)).2) w).
Proof. unfold os_call'. by destruct (f (os w)). Qed.

Definition emit (e : Effect) : M World unit := modify (set_trace (λ t, t ++ [e])).

(** [connection->Close()] *)
Definition Close (c : ConnectionPtr) : M World unit :=
  if (c =? null_connection)%N then crash null_deref else emit (Closed c).

(** [std::make_shared<passport::PmidAndSigner>(p)] *)
Definition make_shared_pmid (p : PmidAndSigner) : M World PmidPtr := λ w,
  (Ok (Some (length w.(pmids))), set_pmids (λ l, l ++ [p]) w).

(** [*pmid_and_signer] *)
Definition deref_pmid (p : PmidPtr) : M World PmidAndSigner := λ w,
  match p with
  | Some i => match w.(pmids) !! i with Some k => (Ok k, w) | None => (Fault null_deref, w) end
  | None => (Fault null_deref, w)
  end.

Definition entry_le {V} (x y : ConnectionPtr * V) : Prop := (x.1 <= y.1)%N.
#[export] Instance entry_le_dec {V} : RelDecision (entry_le (V:=V)).
Proof. intros x y. unfold entry_le. apply _. Defined.

(** The members of a [std::map] with [std::owner_less], in iteration order. *)
Definition entries {V} (m : gmap ConnectionPtr V) : list (ConnectionPtr * V) :=
  merge_sort entry_le (map_to_list m).

#[export] Instance entry_le_total {V} : Total (entry_le (V:=V)).
Proof. intros x y. unfold entry_le. lia. Qed.
#[export] Instance entry_le_trans {V} : Transitive (entry_le (V:=V)).
Proof. intros x y z. unfold entry_le. lia. Qed.

(** The iteration visits every member once, in increasing address. *)
Lemma entries_Permutation {V} (m : gmap ConnectionPtr V) : entries m ≡ₚ map_to_list m.
Proof. apply merge_sort_Permutation. Qed.

Lemma entries_sorted {V} (m : gmap ConnectionPtr V) : StronglySorted entry_le (entries m).
Proof. apply StronglySorted_merge_sort; apply _. Qed.

Lemma elem_of_entries {V} (m : gmap ConnectionPtr V) k v : (k, v) ∈ entries m ↔ m !! k = Some v.
Proof. rewrite entries_Permutation. apply elem_of_map_to_list. Qed.
End world.

Section send.
Context `{P : Platform} `{B : Build} `{A : !Archives}.

(** [Send(connection, message)] of [utils.h] *)
Definition Send (connection : ConnectionPtr) (message : Message) : M World unit :=
  bs ← lift_res (Serialise message);
  if (connection =? null_connection)%N then crash null_deref else emit (Sent connection bs).
End send.

Arguments World {P}.
Arguments Child {P}.

(** A process of the demonstration platform that has just started. *)
Definition demo_world : World (P:=DemoPlatform) :=
  mkWorld demo_os [] [] [] (mkTestEnvironment (P:=DemoPlatform) false 0 "" "" true [] [])
    (mkProcessManager (P:=DemoPlatform) true false 5483 "/bin/vault" [])
    (mkClientConnections (P:=DemoPlatform) ∅ ∅) (mkNewConnections ∅)
    (mkConfigFileHandler (P:=DemoPlatform) "/cfg" []) false false.
