(* ===== verification/NewConnections.v ===== *)
(** [class NewConnections] ([new_connections.h], [new_connections.cc]): accepted
    connections that have not said yet what they are, each with the timer that
    closes it when it stays silent. *)
From S2P Require Export World.
From S2P Require Import Demo.

Section operations.
Context `{P : Platform}.

Definition set_connections f (w : World) : World :=
  set_nc (λ n, mkNewConnections (f n.(connections_))) w.

(** [NewConnections::NewConnections] *)
Definition NewConnections_make : NewConnections := mkNewConnections ∅.

(** The closure [Add] gives to [timer->async_wait]. *)
Definition OnTimer (connection : ConnectionPtr) (r : WaitResult) : M World unit :=
  match r with
  | wait_done | wait_failed => Close connection
  | wait_aborted => mret tt
  end.

(** [void NewConnections::Add(tcp::ConnectionPtr)] *)
Definition Add (connection : ConnectionPtr) : M World unit :=
  let timer := async_wait (on_new_connection_timer connection)
                 (expires_from_now kRpcTimeout Timer_new) in
  present ← gets (λ w, bool_decide (is_Some (w.(nc).(connections_) !! connection)));
  (if present then mret tt else modify (set_connections <[connection := timer]>));;
  assert_ (negb present).

(** [bool NewConnections::Remove(tcp::ConnectionPtr)]: [erase] of a key removes one
    element or none. *)
Definition Remove (connection : ConnectionPtr) : M World bool :=
  erased ← gets (λ w, if w.(nc).(connections_) !! connection is Some _ then 1 else 0);
  modify (set_connections (delete connection));;
  mret (erased =? 1)%Z.

(** [void NewConnections::CloseAll()] *)
Definition CloseAll : M World unit :=
  l ← gets (λ w, entries w.(nc).(connections_));
  for_each (λ connection, Close connection.1) l.
End operations.

Section properties.
Context `{P : Platform}.
Implicit Types w : World.

Lemma NewAdd_run c w :
  Add c w =
    match w.(nc).(connections_) !! c with
    | Some _ => (Fault assert_failed, w)
    | None => (Ok tt, set_connections <[c := mkTimer kRpcTimeout [on_new_connection_timer c]]> w)
    end.
Proof.
  unfold Add. mrun. destruct (_ !! c) eqn:E; mrun.
  - by rewrite bool_decide_true by eauto.
  - by rewrite bool_decide_false by (intros []; congruence).
Qed.

Lemma NewRemove_run c w :
  Remove c w = (Ok (bool_decide (is_Some (w.(nc).(connections_) !! c))),
                set_connections (delete c) w).
Proof.
  unfold Remove. mrun. destruct (_ !! c) eqn:E; mrun.
  - by rewrite bool_decide_true by eauto.
  - by rewrite bool_decide_false by (intros []; congruence).
Qed.

Lemma set_connections_id w : set_connections (λ m, m) w = w.
Proof. by destruct w as [? ? ? ? ? ? ? [] ? ? ?]. Qed.

(** A connection that [Add] accepted is found, and found once, by [Remove]:
    the first removal answers [true] and restores the set, the second answers
    [false] and changes nothing. *)
Theorem Add_Remove c w :
  w.(nc).(connections_) !! c = None →
  (Add c;; Remove c) w = (Ok true, w) ∧
  (Add c;; Remove c;; Remove c) w = (Ok false, w).
Proof.
  intros E. unfold mbind, M_bind. rewrite NewAdd_run, E, NewRemove_run, NewRemove_run. cbn.
  rewrite lookup_insert_eq, lookup_delete_eq. cbn.
  assert (∀ f, f (connections_ (nc w)) = connections_ (nc w) → set_connections f w = w) as Hid.
  { intros f Hf. destruct w as [? ? ? ? ? ? ? [] ? ? ?]. unfold set_connections, set_nc.
    cbn in *. by rewrite Hf. }
  unfold set_connections, set_nc in *. cbn in *.
  rewrite delete_insert_id by done.
  split; f_equal; [by apply (Hid (λ m, m))|].
  rewrite delete_id by done. by apply (Hid (λ m, m)).
Qed.
End properties.

Lemma Add_Remove_witness :
  demo_world.(nc).(connections_) = ∅ ∧
  (Add 7%N;; Remove 7%N) demo_world = (Ok true, demo_world) ∧
  (Add 7%N;; Remove 7%N;; Remove 7%N) demo_world = (Ok false, demo_world).
Proof. split; [done|]. by apply Add_Remove. Defined.
