(* ===== verification/ClientConnections.v ===== *)
(** [class ClientConnections] ([client_connections.h], [client_connections.cc]):
    the connections of clients, first waiting for their challenge to be signed
    ([unvalidated_clients_]), then known under the name of their Maid
    ([clients_]). *)
From S2P Require Export World.
From S2P Require Import Demo.

Section operations.
Context `{P : Platform}.

Definition set_unvalidated f (w : World) : World :=
  set_cc (λ c, mkClientConnections (f c.(unvalidated_clients_)) c.(clients_)) w.
Definition set_clients f (w : World) : World :=
  set_cc (λ c, mkClientConnections c.(unvalidated_clients_) (f c.(clients_))) w.

(** [ClientConnections::ClientConnections] *)
Definition ClientConnections_make : ClientConnections := mkClientConnections ∅ ∅.

(** The closure [Add] gives to [timer->async_wait]. *)
Definition OnTimer (connection : ConnectionPtr) (r : WaitResult) : M World unit :=
  match r with
  | wait_done | wait_failed => Close connection
  | wait_aborted => mret tt
  end.

(** [void ClientConnections::Add(tcp::ConnectionPtr, const asymm::PlainText&)] *)
Definition Add (connection : ConnectionPtr) (challenge : PlainText) : M World unit :=
  client ← gets (λ w, w.(cc).(clients_) !! connection);
  assert_ (bool_decide (client = None));;
  let timer := async_wait (on_unvalidated_client_timer connection)
                 (expires_from_now kRpcTimeout Timer_new) in
  present ← gets (λ w, bool_decide (is_Some (w.(cc).(unvalidated_clients_) !! connection)));
  (if present then mret tt
   else modify (set_unvalidated <[connection := (challenge, timer)]>));;
  assert_ (negb present).

(** [void ClientConnections::Validate(tcp::ConnectionPtr, const passport::PublicMaid&,
    const asymm::Signature&)] *)
Definition Validate (connection : ConnectionPtr) (maid : PublicMaid) (signature : Signature) :
  M World unit :=
  itr ← gets (λ w, w.(cc).(unvalidated_clients_) !! connection);
  match itr with
  | None => raise connection_not_found
  | Some (challenge, _) =>
      inserted ← on_scope_exit (Close connection) (
        (if CheckSignature challenge signature (PublicMaid_public_key maid)
         then mret tt
         else raise invalid_signature);;
        present ← gets (λ w, bool_decide (is_Some (w.(cc).(clients_) !! connection)));
        (if present then mret tt
         else modify (set_clients <[connection := PublicMaid_Name maid]>));;
        modify (set_unvalidated (delete connection));;
        mret (negb present));
      assert_ inserted
  end.

(** [bool ClientConnections::Remove(tcp::ConnectionPtr)] *)
Definition Remove (connection : ConnectionPtr) : M World bool :=
  itr ← gets (λ w, w.(cc).(clients_) !! connection);
  match itr with
  | Some _ => modify (set_clients (delete connection));; mret true
  | None =>
      unvalidated_itr ← gets (λ w, w.(cc).(unvalidated_clients_) !! connection);
      match unvalidated_itr with
      | Some _ => modify (set_unvalidated (delete connection));; mret true
      | None => mret false
      end
  end.

(** [void ClientConnections::CloseAll()] *)
Definition CloseAll : M World unit :=
  l ← gets (λ w, entries w.(cc).(unvalidated_clients_));
  for_each (λ connection, Close connection.1) l;;
  l ← gets (λ w, entries w.(cc).(clients_));
  for_each (λ connection, Close connection.1) l.

(** [MaidName ClientConnections::FindValidated(tcp::ConnectionPtr) const] *)
Definition FindValidated (connection : ConnectionPtr) : M World Identity :=
  itr ← gets (λ w, w.(cc).(clients_) !! connection);
  match itr with
  | Some name => mret name
  | None =>
      unvalidated_itr ← gets (λ w, w.(cc).(unvalidated_clients_) !! connection);
      match unvalidated_itr with
      | None => raise connection_not_found
      | Some _ => raise unvalidated_client
      end
  end.

(** [tcp::ConnectionPtr ClientConnections::FindValidated(MaidName) const]:
    [find_if] in the order of the map. *)
Definition FindValidatedName (maid_name : Identity) : M World ConnectionPtr :=
  itr ← gets (λ w, list_find (λ client, client.2 = maid_name) (entries w.(cc).(clients_)));
  match itr with
  | Some (_, client) => mret client.1
  | None => raise connection_not_found
  end.

(** [std::vector<tcp::ConnectionPtr> ClientConnections::GetAll() const] *)
Definition GetAll : M World (list ConnectionPtr) :=
  gets (λ w, (entries w.(cc).(clients_)).*1 ++ (entries w.(cc).(unvalidated_clients_)).*1).
End operations.

(** * What the component promises: one state per client connection *)
Section specification.
Context `{P : Platform}.

Inductive ClientState : Type :=
| Unvalidated (challenge : PlainText)
| Validated (name : Identity).

Inductive Call : Type :=
| CallAdd (connection : ConnectionPtr) (challenge : PlainText)
| CallValidate (connection : ConnectionPtr) (maid : PublicMaid) (signature : Signature)
| CallRemove (connection : ConnectionPtr)
| CallFindValidated (connection : ConnectionPtr).

Inductive Answer : Type :=
| Done
| Removed (found : bool)
| Found (name : Identity).

Abbreviation Spec := (gmap ConnectionPtr ClientState).

(** The reference behaviour of each call on the table of clients. *)
Definition spec_call (s : Spec) (c : Call) : Res Answer * Spec :=
  match c with
  | CallAdd connection challenge => (Ok Done, <[connection := Unvalidated challenge]> s)
  | CallValidate connection maid signature =>
      match s !! connection with
      | Some (Unvalidated challenge) =>
          if CheckSignature challenge signature (PublicMaid_public_key maid)
          then (Ok Done, <[connection := Validated (PublicMaid_Name maid)]> s)
          else (Throw (maidsafe_error invalid_signature), s)
      | _ => (Throw (maidsafe_error connection_not_found), s)
      end
  | CallRemove connection => (Ok (Removed (bool_decide (is_Some (s !! connection)))), delete connection s)
  | CallFindValidated connection =>
      (match s !! connection with
       | Some (Validated name) => Ok (Found name)
       | Some (Unvalidated _) => Throw (maidsafe_error unvalidated_client)
       | None => Throw (maidsafe_error connection_not_found)
       end, s)
  end.

(** The connections a call closes: the one whose client failed to prove itself. *)
Definition spec_effects (s : Spec) (c : Call) : list Effect :=
  match c with
  | CallValidate connection maid signature =>
      match s !! connection with
      | Some (Unvalidated challenge) =>
          if CheckSignature challenge signature (PublicMaid_public_key maid)
          then [] else [Closed connection]
      | _ => []
      end
  | _ => []
  end.

(** The code's version of a call. *)
Definition run_call (c : Call) : M World Answer :=
  match c with
  | CallAdd connection challenge => Add connection challenge;; mret Done
  | CallValidate connection maid signature => Validate connection maid signature;; mret Done
  | CallRemove connection => b ← Remove connection; mret (Removed b)
  | CallFindValidated connection => n ← FindValidated connection; mret (Found n)
  end.

(** The table the two maps of the code stand for. *)
Definition table (c : ClientConnections) : Spec :=
  (Validated <$> c.(clients_)) ∪ ((λ u, Unvalidated u.1) <$> c.(unvalidated_clients_)).

(** No connection is in both maps, and none is the null pointer. *)
Definition cc_wf (c : ClientConnections) : Prop :=
  (∀ k, is_Some (c.(clients_) !! k) → c.(unvalidated_clients_) !! k = None) ∧
  c.(clients_) !! null_connection = None ∧ c.(unvalidated_clients_) !! null_connection = None.

(** What the caller must ensure: [Add] gets a connection that is not known yet. *)
Definition call_ok (s : Spec) (c : Call) : Prop :=
  match c with
  | CallAdd connection _ => connection ≠ null_connection ∧ s !! connection = None
  | _ => True
  end.

Lemma table_lookup c k :
  table c !! k = match c.(clients_) !! k with
                 | Some n => Some (Validated n)
                 | None => (λ u, Unvalidated u.1) <$> c.(unvalidated_clients_) !! k
                 end.
Proof.
  unfold table. rewrite lookup_union, !lookup_fmap.
  destruct (clients_ c !! k); cbn; [|by rewrite left_id_L by apply _].
  by destruct (unvalidated_clients_ c !! k).
Qed.
End specification.

Section properties.
Context `{P : Platform}.
Implicit Types w : World.

Definition cw (w : World) : ClientConnections := w.(cc).

Lemma table_None c k :
  table c !! k = None ↔ c.(clients_) !! k = None ∧ c.(unvalidated_clients_) !! k = None.
Proof.
  rewrite table_lookup. destruct (clients_ c !! k), (unvalidated_clients_ c !! k); cbn;
    naive_solver.
Qed.

Lemma table_Unvalidated c k ch :
  table c !! k = Some (Unvalidated ch) ↔
  c.(clients_) !! k = None ∧ ∃ t, c.(unvalidated_clients_) !! k = Some (ch, t).
Proof.
  rewrite table_lookup.
  destruct (clients_ c !! k), (unvalidated_clients_ c !! k) as [[? ?]|]; cbn; naive_solver.
Qed.

Lemma table_Validated c k n :
  table c !! k = Some (Validated n) ↔ c.(clients_) !! k = Some n.
Proof.
  rewrite table_lookup.
  destruct (clients_ c !! k), (unvalidated_clients_ c !! k) as [[? ?]|]; cbn; naive_solver.
Qed.

(** The runs of the operations, on each branch. *)
Lemma Add_run c ch w :
  table (cw w) !! c = None →
  Add c ch w = (Ok tt, set_unvalidated
                         <[c := (ch, mkTimer kRpcTimeout [on_unvalidated_client_timer c])]> w).
Proof.
  intros [Hc Hu]%table_None. unfold cw in *. unfold Add. mrun.
  rewrite Hc, bool_decide_true by done. mrun.
  by rewrite Hu, bool_decide_false by (by intros []).
Qed.

Lemma Validate_run_unknown c m s w :
  (cw w).(unvalidated_clients_) !! c = None →
  Validate c m s w = (Throw (maidsafe_error connection_not_found), w).
Proof. unfold cw. intros Hu. unfold Validate. mrun. by rewrite Hu. Qed.

Lemma Validate_run_bad c m s w ch t :
  (cw w).(unvalidated_clients_) !! c = Some (ch, t) → c ≠ null_connection →
  CheckSignature ch s (PublicMaid_public_key m) = false →
  Validate c m s w =
    (Throw (maidsafe_error invalid_signature), set_trace (λ l, l ++ [Closed c]) w).
Proof.
  unfold cw. intros Hu Hc Hs. unfold Validate, Close, emit. mrun. rewrite Hu. mrun.
  rewrite Hs. mrun. destruct (N.eqb_spec c null_connection); [done|]. by mrun.
Qed.

Lemma Validate_run_good c m s w ch t :
  (cw w).(unvalidated_clients_) !! c = Some (ch, t) → (cw w).(clients_) !! c = None →
  CheckSignature ch s (PublicMaid_public_key m) = true →
  Validate c m s w =
    (Ok tt, set_unvalidated (delete c) (set_clients <[c := PublicMaid_Name m]> w)).
Proof.
  unfold cw. intros Hu Hc Hs. unfold Validate. mrun. rewrite Hu. mrun. rewrite Hs. mrun.
  rewrite Hc, bool_decide_false by (by intros []). by mrun.
Qed.

Lemma Remove_run c w :
  Remove c w =
    match (cw w).(clients_) !! c, (cw w).(unvalidated_clients_) !! c with
    | Some _, _ => (Ok true, set_clients (delete c) w)
    | None, Some _ => (Ok true, set_unvalidated (delete c) w)
    | None, None => (Ok false, w)
    end.
Proof.
  unfold cw, Remove. mrun. destruct (clients_ (cc w) !! c); mrun; [done|].
  by destruct (unvalidated_clients_ (cc w) !! c).
Qed.

Lemma FindValidated_run c w :
  FindValidated c w =
    (match table (cw w) !! c with
     | Some (Validated n) => Ok n
     | Some (Unvalidated _) => Throw (maidsafe_error unvalidated_client)
     | None => Throw (maidsafe_error connection_not_found)
     end, w).
Proof.
  unfold cw, FindValidated. mrun. rewrite table_lookup.
  destruct (clients_ (cc w) !! c); mrun; [done|].
  by destruct (unvalidated_clients_ (cc w) !! c) as [[? ?]|].
Qed.

(** Updates of the maps as updates of the table. *)
Lemma table_add w c ch t :
  table (cw w) !! c = None →
  table (cw (set_unvalidated <[c := (ch, t)]> w)) = <[c := Unvalidated ch]> (table (cw w)).
Proof.
  intros [Hc Hu]%table_None. unfold cw in *. apply map_eq. intros k. cbn.
  rewrite lookup_insert, !table_lookup. cbn. rewrite lookup_insert.
  case_decide; [subst; by rewrite Hc|done].
Qed.

Lemma table_validate w c n :
  (cw w).(clients_) !! c = None →
  table (cw (set_unvalidated (delete c) (set_clients <[c := n]> w))) =
    <[c := Validated n]> (table (cw w)).
Proof.
  intros Hc. unfold cw in *. apply map_eq. intros k. cbn.
  rewrite lookup_insert, !table_lookup. cbn. rewrite lookup_insert, lookup_delete.
  by case_decide.
Qed.

Lemma table_remove_client w c n :
  cc_wf (cw w) → (cw w).(clients_) !! c = Some n →
  table (cw (set_clients (delete c) w)) = delete c (table (cw w)).
Proof.
  intros [Hw _] Hc. unfold cw in *. apply map_eq. intros k. cbn.
  rewrite lookup_delete, !table_lookup. cbn. rewrite lookup_delete.
  case_decide; [subst; by rewrite Hw by eauto|done].
Qed.

Lemma table_remove_unvalidated w c :
  (cw w).(clients_) !! c = None →
  table (cw (set_unvalidated (delete c) w)) = delete c (table (cw w)).
Proof.
  intros Hc. unfold cw in *. apply map_eq. intros k. cbn.
  rewrite lookup_delete, !table_lookup. cbn. rewrite lookup_delete.
  case_decide; [subst; by rewrite Hc|done].
Qed.

Lemma cc_wf_unvalidated w c ch : cc_wf (cw w) → table (cw w) !! c = Some (Unvalidated ch) →
  c ≠ null_connection.
Proof. intros (_ & _ & Hn) (_ & t & Hu)%table_Unvalidated ->. congruence. Qed.

(** What [run_call c] must have done to the world [w]: nothing but the table and
    the closed connections. *)
Definition refines (w : World) (c : Call) (r : Res Answer) (w' : World) : Prop :=
  r = (spec_call (table (cw w)) c).1 ∧
  table (cw w') = (spec_call (table (cw w)) c).2 ∧
  cc_wf (cw w') ∧
  w' = set_trace (λ l, l ++ spec_effects (table (cw w)) c) (set_cc (λ _, cw w') w).

Lemma set_trace_nil_cc w : set_trace (λ l, l ++ []) (set_cc (λ _, cw w) w) = w.
Proof. destruct w. unfold set_trace, set_cc, cw. cbn. by rewrite app_nil_r. Qed.

Lemma refines_Add w c ch :
  cc_wf (cw w) → c ≠ null_connection → table (cw w) !! c = None →
  refines w (CallAdd c ch) (run_call (CallAdd c ch) w).1 (run_call (CallAdd c ch) w).2.
Proof.
  intros Hw Hc Ht. cbn [run_call]. unfold mbind, M_bind. rewrite Add_run by done. mrun.
  split_and!; [done|by rewrite table_add| |by destruct w; unfold set_trace; cbn; rewrite app_nil_r].
  destruct Hw as (Hd & Hn1 & Hn2). unfold cw in *. apply table_None in Ht as [Hc1 Hc2].
  split_and!; cbn; [|done|by rewrite lookup_insert_ne by done].
  intros k Hk. rewrite lookup_insert_ne; [by apply Hd|]. intros ->. destruct Hk. congruence.
Qed.

Lemma refines_Validate w c m s :
  cc_wf (cw w) →
  refines w (CallValidate c m s) (run_call (CallValidate c m s) w).1
    (run_call (CallValidate c m s) w).2.
Proof.
  intros Hw. cbn [run_call]. unfold refines. cbn [spec_call spec_effects].
  destruct (table (cw w) !! c) as [[ch|n]|] eqn:Ht.
  - pose proof (cc_wf_unvalidated _ _ _ Hw Ht).
    apply table_Unvalidated in Ht as [Hc [t Hu]].
    unfold mbind, M_bind. destruct (CheckSignature _ _ _) eqn:Hs; cbn [fst snd].
    + erewrite Validate_run_good by done. mrun. cbn [fst snd].
      split_and!; [done|by apply table_validate| |].
      * destruct Hw as (Hd & Hn1 & Hn2). unfold cw in *. split_and!; cbn.
        -- intros k. rewrite lookup_insert, lookup_delete. case_decide; [done|apply Hd].
        -- by rewrite lookup_insert_ne.
        -- by rewrite lookup_delete_ne.
      * destruct w. unfold set_trace. cbn. by rewrite app_nil_r.
    + erewrite Validate_run_bad by done. mrun. by split_and!.
  - apply table_Validated in Ht. destruct Hw as [Hd ?].
    unfold mbind, M_bind. rewrite Validate_run_unknown by (apply Hd; eauto).
    mrun. split_and!; try done. by rewrite set_trace_nil_cc.
  - apply table_None in Ht as [? ?].
    unfold mbind, M_bind. rewrite Validate_run_unknown by done.
    mrun. split_and!; try done. by rewrite set_trace_nil_cc.
Qed.

Lemma refines_Remove w c :
  cc_wf (cw w) →
  refines w (CallRemove c) (run_call (CallRemove c) w).1 (run_call (CallRemove c) w).2.
Proof.
  intros Hw. unfold refines. cbn [run_call spec_call spec_effects fst snd].
  unfold mbind, M_bind. rewrite Remove_run.
  pose proof Hw as (Hd & Hn1 & Hn2). rewrite table_lookup.
  destruct (clients_ (cw w) !! c) as [n|] eqn:Hc;
    [|destruct (unvalidated_clients_ (cw w) !! c) as [[ch t]|] eqn:Hu]; cbn -[cw].
  - rewrite bool_decide_true by eauto. split_and!;
      [done|by eapply table_remove_client| |by destruct w; unfold set_trace; cbn; rewrite app_nil_r].
    unfold cw in *. split_and!; cbn; [|by rewrite lookup_delete, Hn1; case_decide|done].
    intros k. rewrite lookup_delete. case_decide; [by intros []|apply Hd].
  - rewrite bool_decide_true by eauto. split_and!;
      [done|by apply table_remove_unvalidated| |by destruct w; unfold set_trace; cbn; rewrite app_nil_r].
    unfold cw in *. split_and!; cbn; [|done|by rewrite lookup_delete, Hn2; case_decide].
    intros k. rewrite lookup_delete. case_decide; [done|apply Hd].
  - rewrite bool_decide_false by (by intros []). split_and!;
      [done| |done|by rewrite set_trace_nil_cc].
    symmetry. apply delete_id. by apply table_None.
Qed.

(** C19: each call on a well-formed [ClientConnections] answers, throws, changes the
    table of clients and closes connections exactly as the specification
    says, and touches nothing else of the process. *)
Theorem ClientConnections_refines w c :
  cc_wf (cw w) → call_ok (table (cw w)) c →
  refines w c (run_call c w).1 (run_call c w).2.
Proof.
  intros Hw Hok. destruct c as [c ch|c m s|c|c].
  - destruct Hok. by apply refines_Add.
  - by apply refines_Validate.
  - by apply refines_Remove.
  - unfold refines. cbn [run_call spec_call spec_effects fst snd].
    unfold mbind, M_bind. rewrite FindValidated_run.
    destruct (table (cw w) !! c) as [[?|?]|]; split_and!; try done;
      try apply Hw; by rewrite set_trace_nil_cc.
Qed.

(** Looking a client up by name gives a connection validated under that name,
    the one of the lowest address when there are several; it throws exactly
    when no validated connection has the name. *)
Theorem FindValidatedName_spec n w :
  match FindValidatedName n w with
  | (Ok c, w') => w' = w ∧ table (cw w) !! c = Some (Validated n) ∧
      (∀ c', table (cw w) !! c' = Some (Validated n) → (c <= c')%N)
  | (Throw e, w') => w' = w ∧ e = maidsafe_error connection_not_found ∧
      (∀ c', table (cw w) !! c' ≠ Some (Validated n))
  | (Fault _, _) => False
  end.
Proof.
  unfold FindValidatedName. mrun.
  destruct (list_find _ _) as [[i [c m]]|] eqn:Hf; mrun; (split; [done|]).
  - apply list_find_Some in Hf as (Hi & Hm & Hmin). cbn in Hm. subst m.
    setoid_rewrite table_Validated. unfold cw. split.
    + apply elem_of_entries. by eapply list_elem_of_lookup_2.
    + intros c' [j Hj]%elem_of_entries%list_elem_of_lookup.
      destruct (decide (i ≤ j)%nat) as [Hij|Hij].
      * destruct (decide (i = j)) as [->|]; [rewrite Hi in Hj; simplify_eq; lia|].
        exact (StronglySorted_lookup _ _ _ _ _ _ (entries_sorted _) Hi Hj ltac:(lia)).
      * exfalso. by eapply (Hmin j _ Hj); [lia|].
  - split; [done|]. intros c' Hc'%table_Validated%elem_of_entries.
    apply list_find_None in Hf. rewrite Forall_forall in Hf. by apply (Hf _ Hc').
Qed.
End properties.
