(* ===== verification/ConfigFile.v ===== *)
(** The configuration file: [struct ConfigFile] ([config_file.h]) with its archive
    functions, and [class ConfigFileHandler] ([config_file_handler.h],
    [config_file_handler.cc]) that creates, reads and writes it. *)
From S2P Require Export World.
From S2P Require Import Demo.

Section config_file.
Context `{P : Platform} `{A : !Archives}.

Record ConfigFile := mkConfigFile {
  symm_key_and_iv : AES256KeyAndIV;
  vaults_in_file : list VaultInfo;
}.

(** The members of a vault that the file holds. *)
Record Entry := mkEntry {
  e_pmid_and_signer : PmidAndSigner;
  e_vault_dir : Path;
  e_label : NonEmptyString;
  e_max_disk_usage : Z;
  e_owner_name : Identity;
}.

(** The first [archive(...)] call of a round of [load] and [save]. *)
Definition entry_codec : Codec (CipherText * CipherText * Path * NonEmptyString * Z * bool) :=
  ar_CipherText ⊗ ar_CipherText ⊗ ar_Path ⊗ ar_NonEmptyString ⊗ ar_u64 ⊗ ar_bool.

(** The body of the loop of [load]: the local [VaultInfo vault] at its end. *)
Definition load_vault (key : AES256KeyAndIV) (bs : bytes) : Res (Entry * bytes) :=
  '(encrypted_pmid, encrypted_anpmid, dir, lab, usage, has_owner_name, bs1) ← load entry_codec bs;
  pmid ← of_lib (DecryptPmid encrypted_pmid key);
  anpmid ← of_lib (DecryptAnpmid encrypted_anpmid key);
  if has_owner_name : bool
  then '(owner, bs2) ← load ar_Identity bs1; mret (mkEntry (pmid, anpmid) dir lab usage owner, bs2)
  else mret (mkEntry (pmid, anpmid) dir lab usage Identity_default, bs1).

(** The loop of [load], with the number of rounds left: [vault] goes out of scope
    at the end of a round. *)
Fixpoint load_vaults (n : nat) (key : AES256KeyAndIV) (bs : bytes) : Res bytes :=
  match n with
  | O => mret bs
  | S n => '(_, bs') ← load_vault key bs; load_vaults n key bs'
  end.

(** [void load(Archive& archive)]: [vaults] keeps what the default constructor left
    in it. *)
Definition ConfigFile_load (bs : bytes) : Res (ConfigFile * bytes) :=
  '(key, vault_count, bs1) ← load (ar_AES256KeyAndIV ⊗ ar_u64) bs;
  bs2 ← load_vaults (Z.to_nat vault_count) key bs1;
  mret (mkConfigFile key [], bs2).

(** The body of the loop of [save]; [store] holds the shared [PmidAndSigner]s. *)
Definition save_vault (store : list PmidAndSigner) (key : AES256KeyAndIV) (vault : VaultInfo) :
  Res bytes :=
  match vault.(pmid_and_signer) ≫= λ i, store !! i with
  | None => Fault null_deref
  | Some p =>
      b1 ← save entry_codec
             (EncryptPmid p.1 key, EncryptAnpmid p.2 key, vault.(vault_dir), vault.(label),
              vault.(max_disk_usage), Identity_IsInitialised vault.(owner_name));
      b2 ← (if Identity_IsInitialised vault.(owner_name)
            then save ar_Identity vault.(owner_name)
            else mret []);
      mret (b1 ++ b2)
  end.

Fixpoint save_vaults (store : list PmidAndSigner) (key : AES256KeyAndIV)
    (vaults : list VaultInfo) : Res bytes :=
  match vaults with
  | [] => mret []
  | vault :: vaults' =>
      b1 ← save_vault store key vault;
      b2 ← save_vaults store key vaults';
      mret (b1 ++ b2)
  end.

(** [void save(Archive& archive) const] *)
Definition ConfigFile_save (store : list PmidAndSigner) (c : ConfigFile) : Res bytes :=
  b1 ← save (ar_AES256KeyAndIV ⊗ ar_u64)
         (c.(symm_key_and_iv), Z.of_nat (length c.(vaults_in_file)));
  b2 ← save_vaults store c.(symm_key_and_iv) c.(vaults_in_file);
  mret (b1 ++ b2).

(** ** [class ConfigFileHandler] *)

(** [ParseConfigFile(config_file_path, mutex)] *)
Definition ParseConfigFile (path : Path) : M World ConfigFile :=
  content ← os_call (ReadFile path);
  '(config, _) ← lift_res (ConfigFile_load content);
  mret config.

(** [!fs::exists(path, ec) || ec.value() == no_such_file_or_directory] *)
Definition no_config_file (path : Path) : M World bool :=
  '(found, ec) ← os_call' (fs_exists_ec path);
  mret (negb found || (ec =? errc_no_such_file_or_directory)).

(** [InitialiseKeyAndIv(config_file_path, mutex)] *)
Definition InitialiseKeyAndIv (path : Path) : M World AES256KeyAndIV :=
  missing ← no_config_file path;
  if missing : bool then
    let n := AES256_KeySize + AES256_IVSize in
    b ← os_call' (RandomBytes n n);
    mret (AES256KeyAndIV_of_bytes b)
  else
    config ← ParseConfigFile path;
    mret config.(symm_key_and_iv).

(** [WriteFile(config_file_path_, Serialise(config))] and the check of its result. *)
Definition write_config (config : ConfigFile) : M World unit :=
  path ← gets (λ w, w.(cfg).(config_file_path_));
  store ← gets pmids;
  content ← lift_res (ConfigFile_save store config);
  written ← os_call' (WriteFile path content);
  if written : bool then emit (WroteConfig path content) else raise filesystem_io_error.

(** [void ConfigFileHandler::CreateConfigFile()] *)
Definition CreateConfigFile : M World unit :=
  path ← gets (λ w, w.(cfg).(config_file_path_));
  key ← gets (λ w, w.(cfg).(kSymmKeyAndIV_));
  '(found, _) ← os_call' (fs_exists_ec (Path_parent_path path));
  (if found : bool then mret tt else
     '(created, ec) ← os_call' (fs_create_directories_ec (Path_parent_path path));
     if negb created || negb (ec =? 0) then raise filesystem_io_error else mret tt);;
  write_config (mkConfigFile key []).

(** [ConfigFileHandler::ConfigFileHandler(fs::path)] *)
Definition ConfigFileHandler_make (path : Path) : M World unit :=
  key ← InitialiseKeyAndIv path;
  modify (set_cfg (λ _, mkConfigFileHandler path key));;
  missing ← no_config_file path;
  if missing : bool then CreateConfigFile else mret tt.

(** [std::vector<VaultInfo> ConfigFileHandler::ReadConfigFile() const] *)
Definition ReadConfigFile : M World (list VaultInfo) :=
  path ← gets (λ w, w.(cfg).(config_file_path_));
  key ← gets (λ w, w.(cfg).(kSymmKeyAndIV_));
  config ← ParseConfigFile path;
  assert_ (bool_decide (config.(symm_key_and_iv) = key));;
  mret config.(vaults_in_file).

(** [void ConfigFileHandler::WriteConfigFile(std::vector<VaultInfo>) const] *)
Definition WriteConfigFile (vaults : list VaultInfo) : M World unit :=
  key ← gets (λ w, w.(cfg).(kSymmKeyAndIV_));
  write_config (mkConfigFile key vaults).

(** [const crypto::AES256KeyAndIV& SymmKeyAndIV() const] *)
Definition SymmKeyAndIV : M World AES256KeyAndIV := gets (λ w, w.(cfg).(kSymmKeyAndIV_)).
End config_file.

#[local] Arguments entry_codec : simpl never.
#[local] Arguments load_vault : simpl never.
#[local] Arguments codec_pair : simpl never.

Section round_trip.
Context `{P : Platform} `{L : !PlatformLaws} `{A : !Archives} `{AL : !ArchiveLaws}.

(** What the file says about a vault. *)
Definition entry_of (p : PmidAndSigner) (v : VaultInfo) : Entry :=
  mkEntry p v.(vault_dir) v.(label) v.(max_disk_usage)
    (if Identity_IsInitialised v.(owner_name) then v.(owner_name) else Identity_default).

Lemma entry_codec_ok : codec_ok entry_codec.
Proof. unfold entry_codec. codec_solve. Qed.

(** A round of [load] reads back the vault that the matching round of [save]
    wrote: its keys decrypted, its directory, label, disk usage and owner. *)
Theorem load_vault_save_vault store key v b rest :
  save_vault store key v = Ok b →
  ∃ i p, v.(pmid_and_signer) = Some i ∧ store !! i = Some p ∧
    load_vault key (b ++ rest) = Ok (entry_of p v, rest).
Proof.
  unfold save_vault. destruct (pmid_and_signer v) as [i|]; cbn; [|done].
  destruct (store !! i) as [[pmid anpmid]|] eqn:Hi; cbn -[entry_codec save]; [|done].
  unfold entry_of. destruct (Identity_IsInitialised (owner_name v)) eqn:Ho;
    intros Hs; res_inv; exists i, (pmid, anpmid); (split_and!; [done..|]);
    unfold load_vault; rewrite <- app_assoc;
    rewrite (entry_codec_ok _ _ _ ltac:(eassumption)); cbn -[entry_codec];
    rewrite DecryptPmid_EncryptPmid; cbn; rewrite DecryptAnpmid_EncryptAnpmid; cbn; [|done].
  by rewrite (ar_Identity_ok _ _ rest ltac:(eassumption)).
Qed.

Lemma load_vaults_save_vaults store key vs b rest :
  save_vaults store key vs = Ok b → load_vaults (length vs) key (b ++ rest) = Ok rest.
Proof.
  revert b. induction vs as [|v vs IH]; intros b Hs; cbn in Hs; res_inv; [done|].
  destruct (load_vault_save_vault _ _ _ _ (x0 ++ rest) ltac:(eassumption)) as (?&?&?&?&Hl).
  cbn. rewrite <- app_assoc, Hl. cbn. by apply IH.
Qed.

(** C21: loading a file that was saved consumes it exactly, recovers the key, and
    forgets every vault. *)
Theorem ConfigFile_load_save store c b rest :
  ConfigFile_save store c = Ok b →
  ConfigFile_load (b ++ rest) = Ok (mkConfigFile c.(symm_key_and_iv) [], rest).
Proof.
  unfold ConfigFile_save, ConfigFile_load. intros Hs. res_inv.
  assert (Hok : codec_ok (ar_AES256KeyAndIV ⊗ ar_u64)) by codec_solve.
  rewrite <- app_assoc, (Hok _ _ _ ltac:(eassumption)). cbn.
  rewrite Nat2Z.id. by erewrite load_vaults_save_vaults by done.
Qed.

(** A load never yields a vault, whatever the bytes. *)
Lemma ConfigFile_load_no_vaults bs c rest :
  ConfigFile_load bs = Ok (c, rest) → c.(vaults_in_file) = [].
Proof. unfold ConfigFile_load. intros Hl. by res_inv. Qed.
End round_trip.

#[global] Arguments ConfigFile_load : simpl never.
#[global] Arguments ConfigFile_save : simpl never.
