(* ===== verification/Moves.v ===== *)
(** Moving messages and the configuration ([messages/*.h], [config_file.h]): a move constructor
    gives the new object and what it leaves in its argument, a move assignment what both objects
    hold afterwards.  No object is moved into itself. *)
From S2P Require Export Messages ConfigFile.
From S2P Require Import Demo.

(** A class with a move constructor and a move assignment: [noexcept] functions, so that
    an exception inside ends the program. *)
Class Movable (T : Type) := {
  move_construct : T → Res (T * T);
  move_assign : T → T → Res (T * T);
}.

(** The outcome of a [noexcept] function. *)
Definition noexcept {T} (r : Res T) : Res T :=
  match r with Throw _ => Fault terminated | _ => r end.

(** [boost::optional<T>]: an engaged one is moved from by moving its value, and stays engaged. *)
Definition optional_move {T} (m : T → T * T) (o : option T) : option T * option T :=
  match o with Some a => (Some (m a).1, Some (m a).2) | None => (None, None) end.

(** [std::unique_ptr<T>] and [std::shared_ptr<T>]: the pointer is null afterwards. *)
Definition pointer_move {T} (p : option T) : option T * option T := (p, None).

Section moves.
Context `{P : Platform} `{B : Build}.

(** ** [messages/challenge_response.h] *)

Definition ChallengeResponse_move (other : ChallengeResponse) :
  ChallengeResponse * ChallengeResponse :=
  (mkChallengeResponse (pointer_move other.(public_maid)).1 other.(signature),
   mkChallengeResponse (pointer_move other.(public_maid)).2 (Signature_moved_from other.(signature))).

(** [ChallengeResponse& operator=(ChallengeResponse&& other)] *)
Definition ChallengeResponse_assign (this other : ChallengeResponse) :
  ChallengeResponse * ChallengeResponse :=
  let this := mkChallengeResponse (pointer_move other.(public_maid)).1 this.(signature) in
  (mkChallengeResponse this.(public_maid) other.(signature),
   mkChallengeResponse (pointer_move other.(public_maid)).2 (Signature_moved_from other.(signature))).

#[export] Instance ChallengeResponse_movable : Movable ChallengeResponse := {
  move_construct other := mret (ChallengeResponse_move other);
  move_assign this other := mret (ChallengeResponse_assign this other);
}.

(** ** [messages/start_vault_request.h] *)

(** [StartVaultRequest& operator=(StartVaultRequest&& other)]: members that this build does not
    have stay as they are. *)
Definition StartVaultRequest_assign (this other : StartVaultRequest) :
  StartVaultRequest * StartVaultRequest :=
  ({| svr_vault_label := other.(svr_vault_label);
      svr_vault_dir := other.(svr_vault_dir);
      svr_vlog_session_id :=
        if USE_VLOGGING then other.(svr_vlog_session_id) else this.(svr_vlog_session_id);
      svr_send_hostname_to_visualiser_server :=
        if USE_VLOGGING && TESTING then other.(svr_send_hostname_to_visualiser_server)
        else this.(svr_send_hostname_to_visualiser_server);
      svr_pmid_list_index :=
        if TESTING then other.(svr_pmid_list_index) else this.(svr_pmid_list_index);
      svr_max_disk_usage := other.(svr_max_disk_usage); |},
   (StartVaultRequest_move other).2).

#[export] Instance StartVaultRequest_movable : Movable StartVaultRequest := {
  move_construct other := mret (StartVaultRequest_move other);
  move_assign this other := mret (StartVaultRequest_assign this other);
}.

(** ** [messages/take_ownership_request.h] *)

Definition TakeOwnershipRequest_move (other : TakeOwnershipRequest) :
  TakeOwnershipRequest * TakeOwnershipRequest :=
  (mkTakeOwnershipRequest other.(tor_vault_label) other.(tor_vault_dir) other.(tor_max_disk_usage),
   mkTakeOwnershipRequest (NonEmptyString_moved_from other.(tor_vault_label))
     (Path_moved_from other.(tor_vault_dir)) other.(tor_max_disk_usage)).

(** The assignment gives every member the value the constructor gives it. *)
Definition TakeOwnershipRequest_assign (this other : TakeOwnershipRequest) :
  TakeOwnershipRequest * TakeOwnershipRequest :=
  ({| tor_vault_label := other.(tor_vault_label);
      tor_vault_dir := other.(tor_vault_dir);
      tor_max_disk_usage := other.(tor_max_disk_usage); |},
   (TakeOwnershipRequest_move other).2).

#[export] Instance TakeOwnershipRequest_movable : Movable TakeOwnershipRequest := {
  move_construct other := mret (TakeOwnershipRequest_move other);
  move_assign this other := mret (TakeOwnershipRequest_assign this other);
}.

(** ** [messages/log_message.h] *)

Definition LogMessage_move (other : LogMessage) : LogMessage * LogMessage :=
  (mkLogMessage other.(data), mkLogMessage (string_moved_from other.(data))).

Definition LogMessage_assign (this other : LogMessage) : LogMessage * LogMessage :=
  (mkLogMessage other.(data), mkLogMessage (string_moved_from other.(data))).

#[export] Instance LogMessage_movable : Movable LogMessage := {
  move_construct other := mret (LogMessage_move other);
  move_assign this other := mret (LogMessage_assign this other);
}.

(** ** [messages/vault_running_response.h] *)

(** [VaultKeys(VaultKeys&& other)] *)
Definition VaultKeys_move (other : VaultKeys) : VaultKeys * VaultKeys :=
  (mkVaultKeys other.(vk_symm_key_and_iv) (pointer_move other.(vk_pmid_and_signer)).1,
   mkVaultKeys (AES256KeyAndIV_moved_from other.(vk_symm_key_and_iv))
     (pointer_move other.(vk_pmid_and_signer)).2).

(** [VaultKeys& operator=(VaultKeys&& other)] *)
Definition VaultKeys_assign (this other : VaultKeys) : VaultKeys * VaultKeys :=
  let this := mkVaultKeys other.(vk_symm_key_and_iv) this.(vk_pmid_and_signer) in
  (mkVaultKeys this.(vk_symm_key_and_iv) (pointer_move other.(vk_pmid_and_signer)).1,
   mkVaultKeys (AES256KeyAndIV_moved_from other.(vk_symm_key_and_iv))
     (pointer_move other.(vk_pmid_and_signer)).2).

(** [VaultRunningResponse() = default] *)
Definition VaultRunningResponse_default : VaultRunningResponse :=
  mkVaultRunningResponse NonEmptyString_default None None.

(** What a move of every member leaves; the code of an error is copied. *)
Definition VaultRunningResponse_left (other : VaultRunningResponse) : VaultRunningResponse :=
  mkVaultRunningResponse (NonEmptyString_moved_from other.(vrr_vault_label))
    (optional_move VaultKeys_move other.(vrr_vault_keys)).2 other.(vrr_error).

(** [VaultRunningResponse(VaultRunningResponse&& other)] *)
Definition VaultRunningResponse_move (other : VaultRunningResponse) :
  Res (VaultRunningResponse * VaultRunningResponse) :=
  let this := mkVaultRunningResponse other.(vrr_vault_label)
                (optional_move VaultKeys_move other.(vrr_vault_keys)).1 other.(vrr_error) in
  noexcept (ValidateOptions this ≫= λ _, mret (this, VaultRunningResponse_left other)).

(** Assigning a moved [boost::optional]: two engaged ones assign their values. *)
Definition optional_assign {T} (construct : T → T * T) (assign : T → T → T * T)
    (this other : option T) : option T * option T :=
  match this, other with
  | Some a, Some b => (Some (assign a b).1, Some (assign a b).2)
  | _, _ => optional_move construct other
  end.

(** [VaultRunningResponse& operator=(VaultRunningResponse&& other)] *)
Definition VaultRunningResponse_assign (this other : VaultRunningResponse) :
  Res (VaultRunningResponse * VaultRunningResponse) :=
  let keys := optional_assign VaultKeys_move VaultKeys_assign this.(vrr_vault_keys)
                other.(vrr_vault_keys) in
  let this := mkVaultRunningResponse other.(vrr_vault_label) keys.1 other.(vrr_error) in
  let other := mkVaultRunningResponse (NonEmptyString_moved_from other.(vrr_vault_label)) keys.2
                 other.(vrr_error) in
  noexcept (ValidateOptions this ≫= λ _, mret (this, other)).

#[export] Instance VaultRunningResponse_movable : Movable VaultRunningResponse := {
  move_construct := VaultRunningResponse_move;
  move_assign := VaultRunningResponse_assign;
}.

(** ** [messages/vault_started_response.h] *)

Definition VaultStartedResponse_left (other : VaultStartedResponse) : VaultStartedResponse := {|
  vsr_symm_key_and_iv := AES256KeyAndIV_moved_from other.(vsr_symm_key_and_iv);
  vsr_pmid := (pointer_move other.(vsr_pmid)).2;
  vsr_vault_dir := Path_moved_from other.(vsr_vault_dir);
  vsr_vlog_session_id :=
    if USE_VLOGGING then string_moved_from other.(vsr_vlog_session_id)
    else other.(vsr_vlog_session_id);
  vsr_send_hostname_to_visualiser_server := other.(vsr_send_hostname_to_visualiser_server);
  vsr_public_pmids :=
    if TESTING then vector_moved_from _ other.(vsr_public_pmids) else other.(vsr_public_pmids);
  vsr_max_disk_usage := other.(vsr_max_disk_usage);
|}.

(** [VaultStartedResponse(VaultStartedResponse&& other)] *)
Definition VaultStartedResponse_move (other : VaultStartedResponse) :
  VaultStartedResponse * VaultStartedResponse :=
  ({| vsr_symm_key_and_iv := other.(vsr_symm_key_and_iv);
      vsr_pmid := (pointer_move other.(vsr_pmid)).1;
      vsr_vault_dir := other.(vsr_vault_dir);
      vsr_vlog_session_id := if USE_VLOGGING then other.(vsr_vlog_session_id) else "";
      vsr_send_hostname_to_visualiser_server :=
        if USE_VLOGGING && TESTING then other.(vsr_send_hostname_to_visualiser_server) else false;
      vsr_public_pmids := if TESTING then other.(vsr_public_pmids) else [];
      vsr_max_disk_usage := other.(vsr_max_disk_usage); |},
   VaultStartedResponse_left other).

(** [VaultStartedResponse& operator=(VaultStartedResponse&& other)] *)
Definition VaultStartedResponse_assign (this other : VaultStartedResponse) :
  VaultStartedResponse * VaultStartedResponse :=
  ({| vsr_symm_key_and_iv := other.(vsr_symm_key_and_iv);
      vsr_pmid := (pointer_move other.(vsr_pmid)).1;
      vsr_vault_dir := other.(vsr_vault_dir);
      vsr_vlog_session_id :=
        if USE_VLOGGING then other.(vsr_vlog_session_id) else this.(vsr_vlog_session_id);
      vsr_send_hostname_to_visualiser_server :=
        if USE_VLOGGING && TESTING then other.(vsr_send_hostname_to_visualiser_server)
        else this.(vsr_send_hostname_to_visualiser_server);
      vsr_public_pmids :=
        if TESTING then other.(vsr_public_pmids) else this.(vsr_public_pmids);
      vsr_max_disk_usage := other.(vsr_max_disk_usage); |},
   VaultStartedResponse_left other).

#[export] Instance VaultStartedResponse_movable : Movable VaultStartedResponse := {
  move_construct other := mret (VaultStartedResponse_move other);
  move_assign this other := mret (VaultStartedResponse_assign this other);
}.

(** ** [config_file.h] *)

Definition ConfigFile_move (other : ConfigFile) : ConfigFile * ConfigFile :=
  (mkConfigFile other.(symm_key_and_iv) other.(vaults_in_file),
   mkConfigFile (AES256KeyAndIV_moved_from other.(symm_key_and_iv))
     (vector_moved_from _ other.(vaults_in_file))).

Definition ConfigFile_assign (this other : ConfigFile) : ConfigFile * ConfigFile :=
  let this := mkConfigFile other.(symm_key_and_iv) this.(vaults_in_file) in
  (mkConfigFile this.(symm_key_and_iv) other.(vaults_in_file),
   mkConfigFile (AES256KeyAndIV_moved_from other.(symm_key_and_iv))
     (vector_moved_from _ other.(vaults_in_file))).

#[export] Instance ConfigFile_movable : Movable ConfigFile := {
  move_construct other := mret (ConfigFile_move other);
  move_assign this other := mret (ConfigFile_assign this other);
}.
End moves.

(** * What a move promises: the new object is the old one, whatever the target held before *)

Class MoveLaw (T : Type) `{!Movable T} (ok : T → Prop) : Prop := {
  move_construct_ok other : ok other → ∃ left, move_construct other = Ok (other, left);
  move_assign_ok this other :
    ok this → ok other → ∃ left, move_assign this other = Ok (other, left);
}.

Section laws.
Context `{P : Platform} `{B : Build} `{A : !Archives}.

Ltac move_law :=
  split; [intros []|intros [] []]; cbn; intros; eexists; reflexivity.

#[export] Instance ChallengeResponse_law : MoveLaw ChallengeResponse (λ _, True).
Proof. move_law. Qed.
#[export] Instance TakeOwnershipRequest_law : MoveLaw TakeOwnershipRequest (λ _, True).
Proof. move_law. Qed.
#[export] Instance LogMessage_law : MoveLaw LogMessage (λ _, True).
Proof. move_law. Qed.
#[export] Instance ConfigFile_law : MoveLaw ConfigFile (λ _, True).
Proof. move_law. Qed.

(** A member that the build does not have keeps a default. *)
Lemma absent {T} (b : bool) (x d : T) : (b = false → x = d) → (if b then x else d) = x.
Proof. destruct b; [done|]. intros H. by rewrite H. Qed.

Lemma absent_both {T} (b : bool) (x y d : T) :
  (b = false → x = d) → (b = false → y = d) → (if b then x else y) = x.
Proof. destruct b; [done|]. intros H H'. by rewrite H, H'. Qed.

Ltac build_law :=
  split; [intros [] (? & ? & ?)|intros [] [] (? & ? & ?) (? & ? & ?)];
    eexists; cbn in *; unfold mret, Res_ret, StartVaultRequest_move, StartVaultRequest_assign,
      VaultStartedResponse_move, VaultStartedResponse_assign; cbn;
    repeat first [rewrite absent by assumption|erewrite absent_both by eassumption]; reflexivity.

#[export] Instance StartVaultRequest_law : MoveLaw StartVaultRequest StartVaultRequest_of_build.
Proof. unfold StartVaultRequest_of_build. build_law. Qed.
#[export] Instance VaultStartedResponse_law : MoveLaw VaultStartedResponse VaultStartedResponse_of_build.
Proof. unfold VaultStartedResponse_of_build. build_law. Qed.
End laws.

(** * A response carries keys or an error *)
Section vault_running_response.
Context `{P : Platform} `{B : Build} `{A : !Archives} `{AL : !ArchiveLaws}.
Implicit Types m this : VaultRunningResponse.

Definition exactly_one m : Prop := is_Some m.(vrr_vault_keys) ↔ m.(vrr_error) = None.

#[export] Instance exactly_one_dec m : Decision (exactly_one m).
Proof. unfold exactly_one. destruct m as [? [] []]; [right|left|left|right]; cbn; naive_solver. Defined.

Lemma ValidateOptions_exactly_one m :
  ValidateOptions m = if decide (exactly_one m) then Ok tt else Throw (maidsafe_error invalid_argument).
Proof.
  unfold ValidateOptions, exactly_one. destruct m as [? [] []], (decide _); cbn in *; try done; naive_solver.
Qed.

Lemma optional_keys_moved this m :
  optional_assign VaultKeys_move VaultKeys_assign this.(vrr_vault_keys) m.(vrr_vault_keys) =
  optional_move VaultKeys_move m.(vrr_vault_keys) ∧
  (optional_move VaultKeys_move m.(vrr_vault_keys)).1 = m.(vrr_vault_keys).
Proof. by destruct this as [? [[]|] ?], m as [? [[]|] ?]. Qed.

Lemma VaultRunningResponse_moves this m :
  move_assign this m = move_construct m ∧
  move_construct m =
    if decide (exactly_one m) then Ok (m, VaultRunningResponse_left m) else Fault terminated.
Proof.
  cbn. unfold VaultRunningResponse_assign, VaultRunningResponse_move, VaultRunningResponse_left.
  destruct (optional_keys_moved this m) as [-> ->]. split; [done|].
  rewrite ValidateOptions_exactly_one. destruct m. by destruct (decide (exactly_one _)).
Qed.

#[export] Instance VaultRunningResponse_law : MoveLaw VaultRunningResponse exactly_one.
Proof.
  split; intros; eexists; [|rewrite (proj1 (VaultRunningResponse_moves this other))];
    rewrite (proj2 (VaultRunningResponse_moves other other)); by rewrite decide_True.
Qed.

Lemma left_exactly_one m : exactly_one m → exactly_one (VaultRunningResponse_left m).
Proof. unfold exactly_one. destruct m as [? [] []]; cbn; naive_solver. Qed.

(** The keys that a response had are gone, but not the optional that holds them. *)
Lemma left_unsaved m :
  is_Some m.(vrr_vault_keys) → ∀ b, VaultRunningResponse_save (VaultRunningResponse_left m) ≠ Ok b.
Proof.
  intros [k Hk] b Hs. unfold VaultRunningResponse_save, VaultRunningResponse_left in Hs.
  rewrite Hk in Hs. cbn in Hs. res_inv.
  by edestruct (ar_optional_saved VaultKeys_codec) as [? ?].
Qed.

(** C22: a response that is constructed, read or written, whichever way, holds vault keys or
    an error but not both; moving keeps this in the new object and in the one left behind, which
    lost its keys and can no longer be written if it had any; moving a response that holds
    both or neither, such as one just default-constructed, ends the program. *)
Theorem exactly_one_kept l keys os e m this :
  exactly_one (VaultRunningResponse_keys l keys os).1 ∧
  exactly_one (VaultRunningResponse_error l e) ∧
  (∀ bs rest, load VaultRunningResponse_codec bs = Ok (m, rest) → exactly_one m) ∧
  (∀ b, save VaultRunningResponse_codec m = Ok b → exactly_one m) ∧
  ¬ exactly_one VaultRunningResponse_default ∧
  if decide (exactly_one m)
  then ∃ left, move_construct m = Ok (m, left) ∧ move_assign this m = Ok (m, left) ∧
    exactly_one left ∧
    (is_Some m.(vrr_vault_keys) → ∀ b, save VaultRunningResponse_codec left ≠ Ok b)
  else move_construct m = Fault terminated ∧ move_assign this m = Fault terminated.
Proof.
  destruct (VaultRunningResponse_moves this m) as [-> ->]. split_and!.
  - unfold VaultRunningResponse_keys. destruct (VaultKeys_make keys os). by split.
  - unfold exactly_one. split; [by intros []|done].
  - intros bs rest Hs. cbn in Hs. unfold VaultRunningResponse_load in Hs. res_inv.
    rewrite ValidateOptions_exactly_one in *. by case_decide.
  - intros b Hs. cbn in Hs. unfold VaultRunningResponse_save in Hs. res_inv.
    rewrite ValidateOptions_exactly_one in *. by case_decide.
  - intros [_ H]. by destruct (H eq_refl).
  - case_decide; [|done]. eexists. split_and!; [done..|by apply left_exactly_one|by apply left_unsaved].
Qed.
End vault_running_response.

(** Keys sent to a client, read back and moved. *)
Lemma exactly_one_kept_witness :
  let m := (VaultRunningResponse_keys (P:=DemoPlatform) "L-1" ("pmid", "anpmid") demo_os).1 in
  exactly_one m ∧ ∃ left, move_construct m = Ok (m, left) ∧ exactly_one left.
Proof.
  intros m.
  destruct (exactly_one_kept (P:=DemoPlatform) "L-1" ("pmid", "anpmid") demo_os invalid_argument m m)
    as (H & _ & _ & _ & _ & Hm).
  rewrite decide_True in Hm by exact H. destruct Hm as (left & H1 & _ & H2 & _).
  split; [exact H|]. by exists left.
Defined.
