(* ===== verification/ProcessManager.v ===== *)
(** [class ProcessManager] ([process_manager.h], [process_manager.cc]): the vault
    processes the manager has started, from launch to exit, with their restarts.
    The state is the [pm] field of [World]; an iterator into [vaults_] is an index. *)
From S2P Require Export World.
From S2P Require Import Demo.

Section operations.
Context `{P : Platform} `{B : Build} `{A : !Archives}.

(** ** Helpers of the unnamed namespace *)

Definition ConnectionsEqual (lhs rhs : ConnectionPtr) : bool :=
  negb (owner_before lhs rhs) && negb (owner_before rhs lhs).

Definition CheckNewVaultDoesntConflict (new_vault existing_vault : VaultInfo) : M World unit :=
  same_name ←
    match new_vault.(pmid_and_signer), existing_vault.(pmid_and_signer) with
    | Some _, Some _ =>
        n ← deref_pmid new_vault.(pmid_and_signer);
        e ← deref_pmid existing_vault.(pmid_and_signer);
        mret (bool_decide (Pmid_name n.1 = Pmid_name e.1))
    | _, _ => mret false
    end;
  if same_name : bool then raise already_initialised else
  if bool_decide (new_vault.(vault_dir) = existing_vault.(vault_dir))
  then raise already_initialised else
  if bool_decide (new_vault.(label) = existing_vault.(label))
  then raise already_initialised else
  if ConnectionsEqual new_vault.(tcp_connection) existing_vault.(tcp_connection)
  then raise already_initialised else
  mret tt.

(** ** Children *)

(** [Child(VaultInfo info, asio::io_service&, int restarts)] *)
Definition Child_make (vault_info : VaultInfo) (restarts : Z) : Child := {|
  info := vault_info;
  on_exit := None;
  timer := Timer_new;
  restart_count := restarts;
  process_args := [];
  status := kBeforeStarted;
  process := 0;
|}.

(** [swap(Child& lhs, Child& rhs)], member by member. *)
Definition Child_swap (lhs rhs : Child) : Child * Child :=
  ({| info := (VaultInfo_swap lhs.(info) rhs.(info)).1;
      on_exit := rhs.(on_exit);
      timer := rhs.(timer);
      restart_count := rhs.(restart_count);
      process_args := rhs.(process_args);
      status := rhs.(status);
      process := rhs.(process) |},
   {| info := (VaultInfo_swap lhs.(info) rhs.(info)).2;
      on_exit := lhs.(on_exit);
      timer := lhs.(timer);
      restart_count := lhs.(restart_count);
      process_args := lhs.(process_args);
      status := lhs.(status);
      process := lhs.(process) |}).

(** [Child(Child&& other)]: the new object. *)
Definition Child_move (other : Child) : Child := {|
  info := (VaultInfo_move other.(info)).1;
  on_exit := other.(on_exit);
  timer := other.(timer);
  restart_count := other.(restart_count);
  process_args := other.(process_args);
  status := other.(status);
  process := other.(process);
|}.

(** [Child& operator=(Child other)] *)
Definition Child_assign (this other : Child) : Child := (Child_swap this other).1.

(** [*itr] and updates through [itr]. *)
Definition child_at (itr : nat) : M World Child := λ w,
  match vaults w !! itr with Some c => (Ok c, w) | None => (Fault bad_iterator, w) end.
Definition update_child (itr : nat) (f : Child → Child) : M World unit :=
  modify (set_vaults (alter f itr)).

Definition GetProcessId (vault : Child) : Z := to_u64 vault.(process).

Definition IsRunning (vault : Child) : M World bool :=
  try_ os_call (process_IsRunning vault.(process)) catch _ ⇒ mret false.

(** ** Searches *)

(** [DoFind(const NonEmptyString& label)] *)
Definition DoFind (lab : NonEmptyString) : M World nat :=
  itr ← gets (λ w, list_find (λ vault, vault.(info).(label) = lab) (vaults w));
  match itr with
  | Some (i, _) => mret i
  | None => raise no_such_element
  end.

(** [DoFind(tcp::ConnectionPtr connection)] *)
Definition DoFindConnection (connection : ConnectionPtr) : M World nat :=
  itr ← gets (λ w, list_find
    (λ vault, Is_true (ConnectionsEqual vault.(info).(tcp_connection) connection)) (vaults w));
  match itr with
  | Some (i, _) => mret i
  | None => raise no_such_element
  end.

(** [VaultInfo Find(const NonEmptyString& label) const] *)
Definition Find (lab : NonEmptyString) : M World VaultInfo :=
  itr ← DoFind lab; c ← child_at itr; mret c.(info).

(** [VaultInfo Find(tcp::ConnectionPtr connection) const] *)
Definition FindConnection (connection : ConnectionPtr) : M World VaultInfo :=
  itr ← DoFindConnection connection; c ← child_at itr; mret c.(info).

(** [std::vector<VaultInfo> GetAll() const] *)
Definition GetAll : M World (list VaultInfo) := gets (λ w, info <$> vaults w).

(** ** Starting *)

(** The handler of the wait that [StartProcess] starts. *)
Definition start_timer (lab : NonEmptyString) (t : Timer) : Timer :=
  async_wait (on_start_timer lab) (expires_from_now kRpcTimeout t).

(** [void StartProcess(std::vector<Child>::iterator itr)] *)
Definition StartProcess (itr : nat) : M World unit :=
  c ← child_at itr;
  (if bool_decide (c.(status) = kBeforeStarted) then mret tt else raise already_initialised);;
  exe ← gets (λ w, w.(pm).(kVaultExecutablePath_));
  port ← gets (λ w, w.(pm).(kListeningPort_));
  let args := [Path_string exe; to_string port;
               "--log_folder " +:+ Path_string (Path_append c.(info).(vault_dir) "logs")]
              ++ c.(process_args) in
  let lab := c.(info).(label) in
  pid ← os_call (bp_execute exe (ConstructCommandLine args));
  emit (Executed pid (ConstructCommandLine args));;
  update_child itr (set_process pid);;
  update_child itr (set_status kStarting);;
  update_child itr (set_timer (start_timer lab)).

(** [void AddProcess(VaultInfo info, int restart_count)] *)
Definition AddProcess (vault_info : VaultInfo) (restarts : Z) : M World unit :=
  (if Path_empty vault_info.(vault_dir) || negb (NonEmptyString_IsInitialised vault_info.(label))
      || bool_decide (vault_info.(pmid_and_signer) = None)
   then raise invalid_argument else mret tt);;
  (if restarts >? kMaxVaultRestarts then raise invalid_argument else mret tt);;
  existing ← gets vaults;
  for_each (λ vault, CheckNewVaultDoesntConflict vault_info vault.(info)) existing;;
  itr ← gets (λ w, length (vaults w));
  modify (set_vaults (λ l, l ++ [Child_make vault_info restarts]));;
  on_scope_exit (modify (set_vaults (delete itr))) (StartProcess itr).

(** [VaultInfo HandleVaultStarted(tcp::ConnectionPtr, ProcessId)] *)
Definition HandleVaultStarted (connection : ConnectionPtr) (process_id : Z) : M World VaultInfo :=
  itr ← gets (λ w, list_find (λ vault, GetProcessId vault = process_id) (vaults w));
  match itr with
  | None => raise no_such_element
  | Some (i, _) =>
      update_child i (set_timer timer_cancel);;
      update_child i (set_info (set_connection connection));;
      update_child i (set_status kRunning);;
      c ← child_at i;
      mret c.(info)
  end.

(** [void AssignOwner(const NonEmptyString&, const Identity&, DiskUsage)] *)
Definition AssignOwner (lab : NonEmptyString) (owner : Identity) (usage : Z) : M World unit :=
  itr ← DoFind lab;
  update_child itr (set_info (λ i, set_owner owner i.(max_disk_usage) i));;
  update_child itr (set_info (λ i, set_owner i.(owner_name) usage i)).

(** ** Stopping *)

Definition stop_timer (lab : NonEmptyString) (t : Timer) : Timer :=
  async_wait (on_stop_timer lab) (expires_from_now kVaultStopTimeout t).

(** [void StopProcess(tcp::ConnectionPtr, OnExitFunctor)] *)
Definition StopProcess (connection : ConnectionPtr) (on_exit_functor : option OnExitFunctor) :
  M World unit :=
  found ← try_ (itr ← DoFindConnection connection; mret (Some itr)) catch _ ⇒ mret None;
  match found with
  | None => mret tt
  | Some itr =>
      update_child itr (set_on_exit on_exit_functor);;
      update_child itr (set_status kStopping);;
      c ← child_at itr;
      Send c.(info).(tcp_connection) VaultShutdownRequest_;;
      let lab := c.(info).(label) in
      update_child itr (set_timer (stop_timer lab))
  end.

Definition set_stop_all_flag (b : bool) : World → World :=
  set_pm (λ p, mkProcessManager p.(signal_waiting_) b p.(kListeningPort_)
                 p.(kVaultExecutablePath_) p.(vaults_)).
Definition set_signal_waiting (b : bool) : World → World :=
  set_pm (λ p, mkProcessManager b p.(stop_all_flag_) p.(kListeningPort_)
                 p.(kVaultExecutablePath_) p.(vaults_)).

(** [void StopAll()]; [signal_set_.cancel] ends the pending wait. *)
Definition StopAll : M World unit :=
  flag ← gets (λ w, w.(pm).(stop_all_flag_));
  if flag : bool then mret tt else
    vs ← gets vaults;
    for_each (λ vault, StopProcess vault.(info).(tcp_connection) None) vs;;
    modify (set_signal_waiting false);;
    modify (set_stop_all_flag true).

(** [void StopAllWithInterval()], without the pauses. *)
Definition StopAllWithInterval : M World unit :=
  flag ← gets (λ w, w.(pm).(stop_all_flag_));
  if flag : bool then mret tt else
    vs ← gets vaults;
    let connections := (λ vault, vault.(info).(tcp_connection)) <$> vs in
    for_each (λ connection, StopProcess connection None) connections;;
    modify (set_signal_waiting false);;
    modify (set_stop_all_flag true).

(** ** Exits *)

(** [void TerminateProcess(std::vector<Child>::iterator itr)] *)
Definition TerminateProcess (itr : nat) : M World unit :=
  c ← child_at itr;
  _ ← os_call' (bp_terminate c.(process));
  emit (Terminated c.(process)).

(** [void RestartIfRequired(int restart_count, VaultInfo vault_info)] *)
Definition RestartIfRequired (restarts : Z) (vault_info : VaultInfo) : M World unit :=
  if (restarts <? 0) || (restarts >=? kMaxVaultRestarts) then mret tt
  else modify (set_queue (λ q, q ++ [RestartVault vault_info restarts])).

(** The closure [RestartIfRequired] posts. *)
Definition OnRestart (vault_info : VaultInfo) (restarts : Z) : M World unit :=
  try_ AddProcess vault_info (restarts + 1) catch _ ⇒ mret tt.

(** What calling an [OnExitFunctor] does; [VaultManager.v] says what. *)
Variable run_functor : OnExitFunctor → error_code → Z → M World unit.

(** [void InvokeOnExitFunctor(OnExitFunctor, int exit_code, bool terminate)] *)
Definition InvokeOnExitFunctor (functor : option OnExitFunctor) (exit_code : Z)
    (terminate : bool) : M World unit :=
  match functor with
  | None => mret tt
  | Some f =>
      try_ (if terminate then run_functor f vault_terminated (-1)
            else if exit_code =? 0 then run_functor f success exit_code
            else run_functor f vault_exited_with_error exit_code)
      catch _ ⇒ mret tt
  end.

(** [void OnProcessExit(const NonEmptyString& label, int exit_code, bool terminate)] *)
Definition OnProcessExit (lab : NonEmptyString) (exit_code : Z) (terminate : bool) :
  M World unit :=
  child_itr ← gets (λ w, list_find (λ vault, vault.(info).(label) = lab) (vaults w));
  match child_itr with
  | None => mret tt
  | Some (i, _) =>
      c ← child_at i;
      '(restarts, vault_info) ←
        (if bool_decide (c.(status) = kStopping) then mret (-1, VaultInfo_default) else
           let vault_info := c.(info) in
           _ ← deref_pmid vault_info.(pmid_and_signer);
           if (vault_info.(tcp_connection) =? null_connection)%N
           then mret (c.(restart_count), vault_info)
           else Close vault_info.(tcp_connection);;
                mret (c.(restart_count), set_connection null_connection vault_info));
      is_running ← IsRunning c;
      (if terminate && is_running then TerminateProcess i else mret tt);;
      c ← child_at i;
      (if (c.(info).(tcp_connection) =? null_connection)%N then mret tt
       else Close c.(info).(tcp_connection));;
      let functor := c.(on_exit) in
      modify (set_vaults (delete i));;
      InvokeOnExitFunctor functor exit_code terminate;;
      RestartIfRequired restarts vault_info
  end.

(** The handlers of the waits of [StartProcess] and [StopProcess]. *)
Definition OnStartTimer (lab : NonEmptyString) (r : WaitResult) : M World unit :=
  match r with
  | wait_done => OnProcessExit lab (-1) true
  | wait_aborted | wait_failed => mret tt
  end.
Definition OnStopTimer (lab : NonEmptyString) (r : WaitResult) : M World unit :=
  match r with
  | wait_done => OnProcessExit lab (-1) true
  | wait_aborted | wait_failed => mret tt
  end.

(** [bool HandleConnectionClosed(tcp::ConnectionPtr)] *)
Definition HandleConnectionClosed (connection : ConnectionPtr) : M World bool :=
  try_ (itr ← DoFindConnection connection;
        c ← child_at itr;
        OnProcessExit c.(info).(label) (-1) true;;
        mret true)
  catch e ⇒
    (if bool_decide (e = maidsafe_error no_such_element) then mret false else throw e).

(** [void InitSignalHandler()] and the handler of its wait. *)
Definition InitSignalHandler : M World unit := modify (set_signal_waiting true).

Definition OnSignal (r : WaitResult) (signum : Z) : M World unit :=
  modify (set_signal_waiting false);;
  match r with
  | wait_aborted | wait_failed => mret tt
  | wait_done =>
      finally InitSignalHandler (
        if negb (signum =? SIGCHLD) then mret tt else
        '(pid, exit_code) ← os_call' os_wait;
        let process_id := to_u64 pid in
        own ← gets (λ w, process_GetProcessId w.(os));
        if process_id =? own then mret tt else
        child_itr ← gets (λ w, list_find (λ vault, GetProcessId vault = process_id) (vaults w));
        match child_itr with
        | None => mret tt
        | Some (_, c) => OnProcessExit c.(info).(label) (BOOST_PROCESS_EXITSTATUS exit_code) false
        end)
  end.

(** [ProcessManager(asio::io_service&, fs::path, tcp::Port)] and [MakeShared] *)
Definition ProcessManager_make (vault_executable_path : Path) (listening_port : Z) : M World unit :=
  modify (set_pm (λ _, mkProcessManager false false listening_port vault_executable_path []));;
  '(found, ec) ← os_call' (fs_exists_ec vault_executable_path);
  (if negb found || negb (ec =? 0) then raise invalid_argument else mret tt);;
  '(regular, ec) ← os_call' (fs_is_regular_file_ec vault_executable_path);
  (if negb regular || negb (ec =? 0) then raise invalid_argument else mret tt);;
  '(symlink, ec) ← os_call' (fs_is_symlink_ec vault_executable_path);
  (if symlink || negb (ec =? 0) then raise invalid_argument else mret tt);;
  InitSignalHandler.
End operations.

(** * Conflicts between vaults, as a test *)
Section conflicts.
Context `{P : Platform}.

(** The name of the Pmid a pointer refers to. *)
Definition pmid_name (store : list PmidAndSigner) (p : PmidPtr) : option Identity :=
  i ← p; k ← store !! i; Some (Pmid_name k.1).

Definition ptr_ok (store : list PmidAndSigner) (p : PmidPtr) : Prop :=
  match p with Some i => is_Some (store !! i) | None => True end.

(** Two vaults that must not be managed together. *)
Definition conflict (store : list PmidAndSigner) (new_vault existing_vault : VaultInfo) : Prop :=
  (is_Some (pmid_name store new_vault.(pmid_and_signer)) ∧
   pmid_name store new_vault.(pmid_and_signer) = pmid_name store existing_vault.(pmid_and_signer)) ∨
  new_vault.(vault_dir) = existing_vault.(vault_dir) ∨
  new_vault.(label) = existing_vault.(label) ∨
  new_vault.(tcp_connection) = existing_vault.(tcp_connection).

#[export] Instance conflict_dec store n e : Decision (conflict store n e).
Proof. unfold conflict. apply _. Defined.

(** The arguments [AddProcess] refuses before it looks at the other vaults. *)
Definition bad_arguments (i : VaultInfo) (restarts : Z) : Prop :=
  Path_empty i.(vault_dir) = true ∨ NonEmptyString_IsInitialised i.(label) = false ∨
  i.(pmid_and_signer) = None ∨ kMaxVaultRestarts < restarts.

#[export] Instance bad_arguments_dec i r : Decision (bad_arguments i r).
Proof. unfold bad_arguments. apply _. Defined.

(** Whether some vault of [w] conflicts with [i]. *)
Definition clashes (w : World) (i : VaultInfo) : Prop :=
  Exists (λ c, conflict w.(pmids) i c.(info)) (vaults w).

#[export] Instance clashes_dec w i : Decision (clashes w i).
Proof. unfold clashes. apply _. Defined.

Lemma ConnectionsEqual_spec a b : ConnectionsEqual a b = bool_decide (a = b).
Proof.
  unfold ConnectionsEqual, owner_before.
  destruct (N.ltb_spec a b), (N.ltb_spec b a); cbn; symmetry;
    (apply bool_decide_eq_true; lia) || (apply bool_decide_eq_false; lia).
Qed.

Lemma deref_pmid_run p w :
  ptr_ok w.(pmids) p →
  deref_pmid p w = match p ≫= λ i, w.(pmids) !! i with
                   | Some k => (Ok k, w)
                   | None => (Fault null_deref, w)
                   end.
Proof. unfold deref_pmid. destruct p as [i|]; cbn; [|done]. by destruct (pmids w !! i). Qed.

Lemma same_name_run p q w :
  ptr_ok w.(pmids) p → ptr_ok w.(pmids) q →
  match p, q with
  | Some _, Some _ =>
      n ← deref_pmid p; e ← deref_pmid q; mret (bool_decide (Pmid_name n.1 = Pmid_name e.1))
  | _, _ => mret false
  end w = (Ok (bool_decide (is_Some (pmid_name w.(pmids) p) ∧
                            pmid_name w.(pmids) p = pmid_name w.(pmids) q)), w).
Proof.
  unfold pmid_name, deref_pmid. intros Hp Hq.
  destruct p as [i|], q as [j|]; cbn in *;
    [destruct Hp as [k Hk], Hq as [k' Hk']; mrun; rewrite Hk; mrun; rewrite Hk'|..]; mrun;
    apply (f_equal (λ b, (Ok b, w))).
  - apply bool_decide_ext. split.
    + intros E. split; [by eexists|]. rewrite E. done.
    + intros [_ E]. by injection E.
  - symmetry. apply bool_decide_eq_false. intros [[? E] E']. by simplify_eq/=; congruence.
  - symmetry. apply bool_decide_eq_false. intros [[? E] E']. by simplify_eq/=; congruence.
  - symmetry. apply bool_decide_eq_false. intros [[? E] E']. by simplify_eq/=; congruence.
Qed.

Lemma Check_run n e w :
  ptr_ok w.(pmids) n.(pmid_and_signer) → ptr_ok w.(pmids) e.(pmid_and_signer) →
  CheckNewVaultDoesntConflict n e w =
    (if decide (conflict w.(pmids) n e) then Throw (maidsafe_error already_initialised) else Ok tt, w).
Proof.
  intros Hn He. unfold CheckNewVaultDoesntConflict. rewrite ConnectionsEqual_spec.
  unfold mbind, M_bind. rewrite same_name_run by done.
  destruct (decide (conflict (pmids w) n e)) as [Hc|Hc]; unfold conflict in Hc;
    repeat case_bool_decide; try done; exfalso; tauto.
Qed.

Lemma Check_all_run n l w :
  ptr_ok w.(pmids) n.(pmid_and_signer) →
  Forall (λ c, ptr_ok w.(pmids) c.(info).(pmid_and_signer)) l →
  for_each (λ vault, CheckNewVaultDoesntConflict n vault.(info)) l w =
    (if decide (Exists (λ c, conflict w.(pmids) n c.(info)) l)
     then Throw (maidsafe_error already_initialised) else Ok tt, w).
Proof.
  intros Hn Hl. induction Hl as [|c l Hc Hl IH].
  - cbn. rewrite decide_False; [done|]. by intros ?%Exists_nil.
  - cbn [for_each]. unfold mbind, M_bind. rewrite Check_run by done.
    destruct (decide (conflict (pmids w) n (info c))).
    + rewrite decide_True; [done|]. by left.
    + rewrite IH. destruct (decide (Exists _ l)).
      * rewrite decide_True; [done|]. by right.
      * rewrite decide_False; [done|]. by intros [|]%Exists_cons.
Qed.
End conflicts.

(** * Runs of the operations *)
Section runs.
Context `{P : Platform} `{B : Build} `{A : !Archives}.
Implicit Types w : World.

(** The command line of a vault without extra arguments. *)
Definition command_line (w : World) (i : VaultInfo) : string :=
  ConstructCommandLine
    [Path_string w.(pm).(kVaultExecutablePath_); to_string w.(pm).(kListeningPort_);
     "--log_folder " +:+ Path_string (Path_append i.(vault_dir) "logs")].

(** The child that a successful [AddProcess] leaves behind. *)
Definition started_child (i : VaultInfo) (restarts pid : Z) : Child :=
  mkChild i None (mkTimer kRpcTimeout [on_start_timer i.(label)]) restarts [] kStarting pid.

Definition pointers_ok (w : World) : Prop :=
  Forall (λ c, ptr_ok w.(pmids) c.(info).(pmid_and_signer)) (vaults w).

Lemma set_vaults_compose f g w : set_vaults f (set_vaults g w) = set_vaults (f ∘ g) w.
Proof. done. Qed.

Lemma set_vaults_ext f g w : f (vaults w) = g (vaults w) → set_vaults f w = set_vaults g w.
Proof. unfold vaults, set_vaults, set_pm. cbn. by intros ->. Qed.

Lemma set_vaults_id f w : f (vaults w) = vaults w → set_vaults f w = w.
Proof.
  unfold vaults, set_vaults, set_pm. destruct w as [? ? ? ? ? [] ? ? ? ? ?]; cbn.
  by intros ->.
Qed.

Lemma alter_length_app {T} (f : T → T) (l : list T) x :
  alter f (length l) (l ++ [x]) = l ++ [f x].
Proof. by rewrite alter_app_r_alt, Nat.sub_diag by lia. Qed.

Lemma delete_length_app {T} (l : list T) x : delete (length l) (l ++ [x]) = l.
Proof. by rewrite delete_middle, app_nil_r. Qed.

Lemma lookup_length_app {T} (l : list T) x : (l ++ [x]) !! length l = Some x.
Proof. by apply list_lookup_middle. Qed.

Lemma StartProcess_run w i restarts :
  StartProcess (length (vaults w)) (set_vaults (λ l, l ++ [Child_make i restarts]) w) =
    match bp_execute w.(pm).(kVaultExecutablePath_) (command_line w i) w.(os) with
    | (Normally pid, os') =>
        (Ok tt, set_vaults (λ l, l ++ [started_child i restarts pid])
                  (set_trace (λ t, t ++ [Executed pid (command_line w i)])
                     (set_os (λ _, os') w)))
    | (Throws e, os') =>
        (Throw e, set_vaults (λ l, l ++ [Child_make i restarts]) (set_os (λ _, os') w))
    end.
Proof.
  unfold StartProcess, child_at. mrun. rewrite lookup_length_app. mrun.
  rewrite bool_decide_true by done. mrun. unfold os_call, command_line. cbn.
  destruct (bp_execute _ _ _) as [[pid|e] os']; cbn [of_lib]; try done.
  unfold update_child, modify. rewrite !set_vaults_compose. f_equal.
  cbn. unfold set_vaults, set_trace, set_os, set_pm, vaults. cbn.
  by rewrite !alter_length_app.
Qed.

(** The complete behaviour of [AddProcess]. *)
Lemma AddProcess_run w i restarts :
  ptr_ok w.(pmids) i.(pmid_and_signer) → pointers_ok w →
  AddProcess i restarts w =
    if decide (bad_arguments i restarts) then (Throw (maidsafe_error invalid_argument), w)
    else if decide (clashes w i) then (Throw (maidsafe_error already_initialised), w)
    else match bp_execute w.(pm).(kVaultExecutablePath_) (command_line w i) w.(os) with
         | (Normally pid, os') =>
             (Ok tt, set_vaults (λ l, l ++ [started_child i restarts pid])
                       (set_trace (λ t, t ++ [Executed pid (command_line w i)])
                          (set_os (λ _, os') w)))
         | (Throws e, os') => (Throw e, set_os (λ _, os') w)
         end.
Proof.
  intros Hi Hw. unfold AddProcess.
  destruct (decide (bad_arguments i restarts)) as [Hb|Hb]; unfold bad_arguments in Hb;
    destruct (Path_empty (vault_dir i)) eqn:E1;
    destruct (NonEmptyString_IsInitialised (label i)) eqn:E2; try done; try tauto;
    cbn [orb negb]; (case_bool_decide as E3; [done || tauto|]);
    destruct (restarts >? kMaxVaultRestarts) eqn:E4; try done;
    try (exfalso; intuition (congruence || lia)).
  mrun. rewrite Check_all_run by done. unfold clashes.
  destruct (decide (Exists _ _)); [done|].
  change (modify (set_vaults (λ l, l ++ [Child_make i restarts])) w)
    with (Ok tt, set_vaults (λ l, l ++ [Child_make i restarts]) w).
  cbn iota beta. fold (vaults w).
  rewrite StartProcess_run.
  destruct (bp_execute _ _ _) as [[pid|e] os']; try done.
  f_equal. cbn. rewrite set_vaults_compose. apply set_vaults_id.
  cbn. apply delete_length_app.
Qed.

Lemma update_child_update i f g w :
  set_vaults (alter f i) (set_vaults (alter g i) w) = set_vaults (alter (f ∘ g) i) w.
Proof.
  rewrite set_vaults_compose. apply set_vaults_ext. cbn. by rewrite list_alter_alter_eq.
Qed.

Lemma child_at_run w i c : vaults w !! i = Some c → child_at i w = (Ok c, w).
Proof. unfold child_at. by intros ->. Qed.

Lemma child_at_updated w i f c :
  vaults w !! i = Some c → child_at i (set_vaults (alter f i) w) = (Ok (f c), set_vaults (alter f i) w).
Proof.
  intros Hi. apply child_at_run. cbn. fold (vaults w). by rewrite list_lookup_alter_eq, Hi.
Qed.

Lemma DoFind_run lab w :
  DoFind lab w =
    match list_find (λ c, c.(info).(label) = lab) (vaults w) with
    | Some (i, _) => (Ok i, w)
    | None => (Throw (maidsafe_error no_such_element), w)
    end.
Proof. unfold DoFind. mrun. by destruct (list_find _ _) as [[i c]|]. Qed.

Lemma Find_run lab w :
  Find lab w =
    match list_find (λ c, c.(info).(label) = lab) (vaults w) with
    | Some (_, c) => (Ok c.(info), w)
    | None => (Throw (maidsafe_error no_such_element), w)
    end.
Proof.
  unfold Find, mbind, M_bind. rewrite DoFind_run.
  destruct (list_find _ _) as [[i c]|] eqn:Hf; [|done].
  apply list_find_Some in Hf as [Hi _]. by rewrite (child_at_run _ _ _ Hi).
Qed.

(** The child whose connection is [conn]. *)
Abbreviation find_conn conn w :=
  (list_find (λ c, c.(info).(tcp_connection) = conn) (vaults w)).

Lemma DoFindConnection_run conn w :
  DoFindConnection conn w =
    match find_conn conn w with
    | Some (i, _) => (Ok i, w)
    | None => (Throw (maidsafe_error no_such_element), w)
    end.
Proof.
  unfold DoFindConnection. mrun.
  rewrite (list_find_ext _ (λ c, c.(info).(tcp_connection) = conn)).
  - by destruct (list_find _ _) as [[i c]|].
  - intros c. rewrite ConnectionsEqual_spec. by rewrite bool_decide_spec.
Qed.

Lemma FindConnection_run conn w :
  FindConnection conn w =
    match find_conn conn w with
    | Some (_, c) => (Ok c.(info), w)
    | None => (Throw (maidsafe_error no_such_element), w)
    end.
Proof.
  unfold FindConnection, mbind, M_bind. rewrite DoFindConnection_run.
  destruct (list_find _ _) as [[i c]|] eqn:Hf; [|done].
  apply list_find_Some in Hf as [Hi _]. by rewrite (child_at_run _ _ _ Hi).
Qed.

(** What [HandleVaultStarted] makes of the child. *)
Definition connected (conn : ConnectionPtr) (c : Child) : Child :=
  set_status kRunning (set_info (set_connection conn) (set_timer timer_cancel c)).

Lemma HandleVaultStarted_run conn pid w :
  HandleVaultStarted conn pid w =
    match list_find (λ c, GetProcessId c = pid) (vaults w) with
    | Some (i, c) =>
        (Ok (set_connection conn c.(info)), set_vaults (alter (connected conn) i) w)
    | None => (Throw (maidsafe_error no_such_element), w)
    end.
Proof.
  unfold HandleVaultStarted. mrun.
  destruct (list_find _ _) as [[i c]|] eqn:Hf; [|done].
  apply list_find_Some in Hf as [Hi _]. unfold update_child, modify.
  rewrite !update_child_update.
  by rewrite (child_at_updated _ _ _ _ Hi).
Qed.

Lemma AssignOwner_run lab owner usage w :
  AssignOwner lab owner usage w =
    match list_find (λ c, c.(info).(label) = lab) (vaults w) with
    | Some (i, c) => (Ok tt, set_vaults (alter (set_info (set_owner owner usage)) i) w)
    | None => (Throw (maidsafe_error no_such_element), w)
    end.
Proof.
  unfold AssignOwner, mbind, M_bind. rewrite DoFind_run.
  destruct (list_find _ _) as [[i c]|]; [|done].
  unfold update_child, modify. by rewrite update_child_update.
Qed.

(** What [StopProcess] makes of the child. *)
Definition stopping (functor : option OnExitFunctor) (c : Child) : Child :=
  set_status kStopping (set_on_exit functor c).

Lemma StopProcess_run conn functor w :
  StopProcess conn functor w =
    match find_conn conn w with
    | None => (Ok tt, w)
    | Some (i, c) =>
        let w' := set_vaults (alter (stopping functor) i) w in
        match Serialise VaultShutdownRequest_ with
        | Ok bs =>
            if (conn =? null_connection)%N then (Fault null_deref, w') else
            (Ok tt, set_vaults (alter (set_timer (stop_timer c.(info).(label))) i)
                      (set_trace (λ t, t ++ [Sent conn bs]) w'))
        | Throw e => (Throw e, w')
        | Fault f => (Fault f, w')
        end
    end.
Proof.
  unfold StopProcess, mbind, M_bind, try_catch. rewrite DoFindConnection_run.
  destruct (list_find _ _) as [[i c]|] eqn:Hf; [|done].
  apply list_find_Some in Hf as (Hi & Hc & _). unfold update_child, modify. cbn [mret M_ret].
  rewrite update_child_update, (child_at_updated _ _ _ _ Hi). unfold Send. mrun. rewrite Hc.
  destruct (Serialise _) as [bs|e|f]; [|done..].
  by destruct (N.eqb conn null_connection).
Qed.
End runs.

(** * Exits *)
Section exits.
Context `{P : Platform} `{B : Build} `{A : !Archives}.
Context (run_functor : OnExitFunctor → error_code → Z → M World unit).
Implicit Types w : World.

Definition has_pmid (store : list PmidAndSigner) (i : VaultInfo) : Prop :=
  ∃ k, i.(pmid_and_signer) = Some k ∧ is_Some (store !! k).

(** The answer of [IsRunning], and the machine after it and after the
    termination it may call for. *)
Definition running (c : Child) (w : World) : bool :=
  match (process_IsRunning c.(process) w.(os)).1 with Normally b => b | Throws _ => false end.

Definition exit_os (c : Child) (terminate : bool) (w : World) : OS :=
  let os' := (process_IsRunning c.(process) w.(os)).2 in
  if terminate && running c w then (bp_terminate c.(process) os').2 else os'.

(** What an exit closes and terminates. *)
Definition exit_trace (c : Child) (terminate : bool) (w : World) : list Effect :=
  let conn := c.(info).(tcp_connection) in
  (if bool_decide (c.(status) ≠ kStopping ∧ conn ≠ null_connection) then [Closed conn] else []) ++
  (if terminate && running c w then [Terminated c.(process)] else []) ++
  (if bool_decide (conn ≠ null_connection) then [Closed conn] else []).

Definition after_exit (i : nat) (c : Child) (terminate : bool) (w : World) : World :=
  set_vaults (delete i)
    (set_trace (λ t, t ++ exit_trace c terminate w) (set_os (λ _, exit_os c terminate w) w)).

(** What [OnProcessExit] hands to [RestartIfRequired]. *)
Definition exit_restarts (c : Child) : Z :=
  if bool_decide (c.(status) = kStopping) then -1 else c.(restart_count).
Definition exit_info (c : Child) : VaultInfo :=
  if bool_decide (c.(status) = kStopping) then VaultInfo_default
  else set_connection null_connection c.(info).

Lemma IsRunning_run c w :
  IsRunning c w = (Ok (running c w), set_os (λ _, (process_IsRunning c.(process) w.(os)).2) w).
Proof.
  unfold IsRunning, try_catch, os_call, running.
  by destruct (process_IsRunning _ _) as [[b|e] os'].
Qed.

Lemma set_trace_nil w : set_trace (λ t, t ++ []) w = w.
Proof. destruct w. unfold set_trace. cbn. by rewrite app_nil_r. Qed.

Lemma set_trace_app w l l' :
  set_trace (λ t, t ++ l) (set_trace (λ t, t ++ l') w) = set_trace (λ t, t ++ (l' ++ l)) w.
Proof. unfold set_trace. cbn. by rewrite app_assoc. Qed.

Lemma close_if_connected_run conn w :
  (if (conn =? null_connection)%N then mret tt else Close conn) w =
    (Ok tt, set_trace (λ t, t ++ (if bool_decide (conn ≠ null_connection) then [Closed conn] else [])) w).
Proof.
  unfold Close, emit. destruct (N.eqb_spec conn null_connection); mrun.
  - rewrite bool_decide_false by tauto. by rewrite set_trace_nil.
  - by rewrite bool_decide_true by done.
Qed.

(** The first part of [OnProcessExit]: remember the vault when the exit is
    unexpected. *)
Lemma exit_remember_run c w :
  has_pmid w.(pmids) c.(info) →
  (if bool_decide (c.(status) = kStopping) then mret (-1, VaultInfo_default) else
     _ ← deref_pmid c.(info).(pmid_and_signer);
     if (c.(info).(tcp_connection) =? null_connection)%N
     then mret (c.(restart_count), c.(info))
     else Close c.(info).(tcp_connection);;
          mret (c.(restart_count), set_connection null_connection c.(info))) w =
  (Ok (exit_restarts c, exit_info c),
   set_trace (λ t, t ++ (if bool_decide (c.(status) ≠ kStopping ∧
                                          c.(info).(tcp_connection) ≠ null_connection)
                         then [Closed c.(info).(tcp_connection)] else [])) w).
Proof.
  intros (k & Hk & [p Hp]). unfold exit_restarts, exit_info.
  case_bool_decide as Hs.
  - rewrite bool_decide_false by tauto. by rewrite set_trace_nil.
  - unfold deref_pmid, Close, emit. rewrite Hk. mrun. rewrite Hp. mrun.
    destruct (N.eqb_spec (tcp_connection (info c)) null_connection) as [Hc|Hc]; mrun.
    + rewrite bool_decide_false by tauto. rewrite set_trace_nil.
      do 3 f_equal. unfold set_connection. rewrite <- Hc. by destruct (info c).
    + by rewrite bool_decide_true by done.
Qed.

Lemma OnProcessExit_run lab ec terminate w :
  Forall (λ c, has_pmid w.(pmids) c.(info)) (vaults w) →
  OnProcessExit run_functor lab ec terminate w =
    match list_find (λ c, c.(info).(label) = lab) (vaults w) with
    | None => (Ok tt, w)
    | Some (i, c) =>
        (InvokeOnExitFunctor run_functor c.(on_exit) ec terminate;;
         RestartIfRequired (exit_restarts c) (exit_info c)) (after_exit i c terminate w)
    end.
Proof.
  intros Hw. unfold OnProcessExit. unfold mbind at 1, M_bind at 1, gets.
  destruct (list_find _ _) as [[i c]|] eqn:Hf; [|done].
  apply list_find_Some in Hf as [Hi _].
  pose proof (Forall_lookup_1 _ _ _ _ Hw Hi) as Hc.
  unfold mbind at 1, M_bind at 1. rewrite (child_at_run _ _ _ Hi).
  unfold mbind at 1, M_bind at 1. rewrite exit_remember_run by done.
  unfold mbind at 1, M_bind at 1. rewrite IsRunning_run. cbn iota beta.
  set (w1 := set_os _ _).
  assert (Hi1 : vaults w1 !! i = Some c) by done.
  assert (Hr : running c (set_trace (λ t, t ++ (if bool_decide (status c ≠ kStopping
                ∧ tcp_connection (info c) ≠ null_connection)
                then [Closed (tcp_connection (info c))] else [])) w) = running c w) by done.
  rewrite Hr.
  assert (Ht : (if terminate && running c w then TerminateProcess i else mret tt) w1 =
    (Ok tt, set_trace (λ t, t ++ (if terminate && running c w then [Terminated (process c)] else []))
              (set_os (λ _, exit_os c terminate w) w1))).
  { unfold exit_os. destruct (terminate && running c w).
    - unfold TerminateProcess, mbind, M_bind. rewrite (child_at_run _ _ _ Hi1).
      unfold os_call'. subst w1. cbn. by destruct (bp_terminate _ _).
    - rewrite set_trace_nil. by destruct w. }
  unfold mbind at 1, M_bind at 1. rewrite Ht.
  unfold mbind at 1, M_bind at 1. rewrite (child_at_run _ i c) by done.
  unfold mbind at 1, M_bind at 1. rewrite close_if_connected_run.
  unfold mbind at 1, M_bind at 1, modify. f_equal.
  unfold after_exit, exit_trace. subst w1. destruct w as [? ? ? ? ? [] ? ? ? ? ?].
  unfold set_trace; cbn. by rewrite <- !app_assoc.
Qed.
End exits.
