(* ===== verification/Supervision.v ===== *)
(** What [ProcessManager] guarantees: the invariant of its vaults, kept by every
    operation, the behaviour of starts, stops and exits in terms of it, and the
    bound on restarts.  The closures that run when a vault exits are known only
    through the interface [ExitFunctors], which [VaultManager.v] implements. *)
From S2P Require Export ProcessManager.
From S2P Require Import Demo.

(** * The invariant *)
Section invariant.
Context `{P : Platform}.
Implicit Types (w : World) (c : Child) (i : VaultInfo).

Definition vault_label c : NonEmptyString := c.(info).(label).
Definition vault_path c : Path := c.(info).(vault_dir).
Definition vault_connection c : ConnectionPtr := c.(info).(tcp_connection).

Definition functor_info (f : OnExitFunctor) : VaultInfo :=
  match f with ChangeChunkstorePath_on_exit i => i end.

(** A wait that closes a connection has one to close. *)
Definition handler_ok (h : Handler) : Prop :=
  match h with
  | on_new_connection_timer k | on_unvalidated_client_timer k => k ≠ null_connection
  | on_start_timer _ | on_stop_timer _ => True
  end.

(** A vault that [AddProcess] accepted, in a store of keys that still has its own;
    only a vault that has not connected yet is without a connection. *)
Record child_ok (store : list PmidAndSigner) (c : Child) : Prop := {
  ok_label : NonEmptyString_IsInitialised (vault_label c) = true;
  ok_dir : Path_empty (vault_path c) = false;
  ok_pmid : has_pmid store c.(info);
  ok_restarts : 0 ≤ c.(restart_count) ≤ kMaxVaultRestarts;
  ok_started : c.(status) ≠ kBeforeStarted;
  ok_connection : vault_connection c = null_connection → c.(status) = kStarting;
  ok_functor : ∀ f, c.(on_exit) = Some f → ptr_ok store (functor_info f).(pmid_and_signer);
  ok_timer : Forall handler_ok c.(timer).(waits);
}.

(** A posted restart has a vault without connection and rounds left. *)
Definition work_ok (store : list PmidAndSigner) (k : Work) : Prop :=
  match k with
  | RestartVault i r =>
      ptr_ok store i.(pmid_and_signer) ∧ i.(tcp_connection) = null_connection ∧
      0 ≤ r < kMaxVaultRestarts
  | WaitHandler h _ => handler_ok h
  end.

(** No two vaults share a label, a directory or a connection. *)
Record pm_wf (w : World) : Prop := {
  wf_children : Forall (child_ok w.(pmids)) (vaults w);
  wf_labels : NoDup (vault_label <$> vaults w);
  wf_paths : NoDup (vault_path <$> vaults w);
  wf_connections : NoDup (vault_connection <$> vaults w);
  wf_queue : Forall (work_ok w.(pmids)) w.(queue);
}.

(** The parts of the process the manager of processes never touches. *)
Record frame (w w' : World) : Prop := {
  frame_pmids : w'.(pmids) = w.(pmids);
  frame_env : w'.(env) = w.(env);
  frame_cc : w'.(cc) = w.(cc);
  frame_nc : w'.(nc) = w.(nc);
  frame_cfg : w'.(cfg) = w.(cfg);
  frame_stable : w'.(network_stable_) = w.(network_stable_);
}.

#[export] Instance frame_preorder : PreOrder frame.
Proof.
  split.
  - by intros w.
  - intros w1 w2 w3 [] []. split; congruence.
Qed.

(** The connections of the vaults, those their exit functors remember included. *)
Definition child_connections (c : Child) : list ConnectionPtr :=
  vault_connection c ::
    match c.(on_exit) with Some f => [(functor_info f).(tcp_connection)] | None => [] end.

Definition holds (w : World) (k : ConnectionPtr) : Prop :=
  ∃ c, c ∈ vaults w ∧ k ∈ child_connections c.

Definition conns_within (w w' : World) (new : list ConnectionPtr) : Prop :=
  ∀ k, k ≠ null_connection → holds w' k → holds w k ∨ k ∈ new.

(** A good end: the invariant holds, the rest of the process is untouched, and the
    vaults hold no connection beyond those of before and [new]. *)
Record good (new : list ConnectionPtr) (w w' : World) : Prop := {
  good_wf : pm_wf w';
  good_frame : frame w w';
  good_conns : conns_within w w' new;
}.

Lemma good_refl new w : pm_wf w → good new w w.
Proof. intros Hw. split; [done|done|]. intros k _ Hk. by left. Qed.

Lemma good_trans new w1 w2 w3 : good new w1 w2 → good new w2 w3 → good new w1 w3.
Proof.
  intros [H1 H2 H3] [H4 H5 H6]. split; [done|by etrans|].
  intros k Hn Hk. destruct (H6 k Hn Hk) as [Hk'|?]; [|by right]. by apply H3.
Qed.

Lemma good_mono new new' w w' : new ⊆ new' → good new w w' → good new' w w'.
Proof.
  intros Hs [H1 H2 H3]. split; [done..|]. intros k Hn Hk.
  destruct (H3 k Hn Hk); [by left|right; set_solver].
Qed.

(** ** The invariant under changes of the world *)

Lemma child_ok_store store store' c :
  (∀ n : nat, is_Some (store !! n) → is_Some (store' !! n)) → child_ok store c → child_ok store' c.
Proof.
  intros Hs [H1 H2 (k & Hk & Hp) H4 H5 H6 H7 H8]. split; try done.
  - exists k. auto.
  - intros f Hf. specialize (H7 f Hf). unfold ptr_ok in *.
    destruct (pmid_and_signer (functor_info f)); auto.
Qed.

Lemma work_ok_store store store' k :
  (∀ n : nat, is_Some (store !! n) → is_Some (store' !! n)) → work_ok store k → work_ok store' k.
Proof.
  intros Hs. destruct k as [|i r]; [done|]. intros (H1 & H2 & H3). split; [|done].
  unfold ptr_ok in *. destruct (pmid_and_signer i); auto.
Qed.

(** The invariant only reads the keys' store, the vaults and the queue. *)
Lemma pm_wf_same w w' :
  pm_wf w → (∀ n : nat, is_Some (w.(pmids) !! n) → is_Some (w'.(pmids) !! n)) →
  vaults w' = vaults w → w'.(queue) = w.(queue) → pm_wf w'.
Proof.
  intros [H1 H2 H3 H4 H5] Hs Hv Hq. split; rewrite ?Hv, ?Hq; try done;
    (eapply Forall_impl; [done|]); eauto using child_ok_store, work_ok_store.
Qed.

Lemma has_pmid_ptr_ok store i : has_pmid store i → ptr_ok store i.(pmid_and_signer).
Proof. intros (k & -> & Hk). done. Qed.

Lemma pm_wf_pointers w : pm_wf w → pointers_ok w.
Proof.
  intros [H1 _ _ _ _]. eapply Forall_impl; [done|]. intros c [_ _ Hp _ _ _ _ _].
  by apply has_pmid_ptr_ok.
Qed.

Lemma pm_wf_has_pmid w : pm_wf w → Forall (λ c, has_pmid w.(pmids) c.(info)) (vaults w).
Proof. intros [H1 _ _ _ _]. eapply Forall_impl; [done|]. by intros c []. Qed.

Lemma pm_wf_child w j c : pm_wf w → vaults w !! j = Some c → child_ok w.(pmids) c.
Proof. intros [H1 _ _ _ _] Hj. by eapply Forall_lookup_1. Qed.

(** Removing a vault. *)
Lemma good_delete w w' j :
  pm_wf w → frame w w' → vaults w' = delete j (vaults w) → w'.(queue) = w.(queue) →
  good [] w w'.
Proof.
  intros [H1 H2 H3 H4 H5] Hf Hv Hq. split; [|done|].
  - split; rewrite ?Hv, ?Hq, ?(frame_pmids _ _ Hf); auto using NoDup_fmap_delete, Forall_delete.
  - intros k _ (c & Hc & Hk). left. exists c. split; [|done].
    rewrite Hv in Hc. by eapply list_elem_of_delete_inv.
Qed.

(** Adding a vault that shares no key with the others. *)
Lemma good_add w w' c :
  pm_wf w → frame w w' → vaults w' = vaults w ++ [c] → w'.(queue) = w.(queue) →
  child_ok w.(pmids) c → c.(on_exit) = None → ¬ clashes w c.(info) →
  good [vault_connection c] w w'.
Proof.
  intros [H1 H2 H3 H4 H5] Hf Hv Hq Hc He Hn. split; [|done|].
  - assert (∀ {T} (f : Child → T) `{EqDecision T},
      (∀ c', conflict w.(pmids) c.(info) c'.(info) ∨ f c ≠ f c') → f c ∉ f <$> vaults w) as Hkey.
    { intros T f _ Hcf (c' & E & Hin)%list_elem_of_fmap. apply Hn.
      apply Exists_exists. exists c'. split; [done|]. by destruct (Hcf c'). }
    split; rewrite ?Hv, ?Hq, ?(frame_pmids _ _ Hf); [by apply Forall_app_2; [|constructor]| | | |done];
      apply NoDup_fmap_snoc; try done; apply Hkey; try apply _;
      intros c'; unfold conflict, vault_label, vault_path, vault_connection;
      [destruct (decide (label (info c) = label (info c')))
      |destruct (decide (vault_dir (info c) = vault_dir (info c')))
      |destruct (decide (tcp_connection (info c) = tcp_connection (info c')))]; tauto.
  - intros k _ (c' & Hc' & Hk). rewrite Hv in Hc'.
    apply elem_of_app in Hc' as [Hc'|Hc']; [left; by exists c'|].
    apply list_elem_of_singleton in Hc' as ->.
    right. unfold child_connections in Hk. by rewrite He in Hk.
Qed.

(** Updating a vault in place, with its connection kept or changed to a new one. *)
Lemma good_alter w w' f j new :
  pm_wf w → frame w w' → vaults w' = alter f j (vaults w) → w'.(queue) = w.(queue) →
  (∀ c, vaults w !! j = Some c → child_ok w.(pmids) (f c)) →
  (∀ c, vault_label (f c) = vault_label c ∧ vault_path (f c) = vault_path c) →
  (∀ c k, k ∈ child_connections (f c) → k ∈ child_connections c ∨ k ∈ new) →
  (∀ c, vault_connection (f c) = vault_connection c) ∨
    (∀ c, vault_connection (f c) ∉ vault_connection <$> vaults w) →
  good new w w'.
Proof.
  intros [H1 H2 H3 H4 H5] Hf Hv Hq Hok Hkey Hcs Hconn. split; [|done|].
  - split; rewrite ?Hv, ?Hq, ?(frame_pmids _ _ Hf); [| | | |done].
    + apply Forall_lookup. intros j' c' Hj'. destruct (decide (j = j')) as [<-|].
      * rewrite list_lookup_alter_eq in Hj'.
        destruct (vaults w !! j) as [c|] eqn:Hj; simplify_eq/=. by apply Hok.
      * rewrite list_lookup_alter_ne in Hj' by done. by eapply Forall_lookup_1.
    + rewrite fmap_alter_same; [done|]. apply Hkey.
    + rewrite fmap_alter_same; [done|]. apply Hkey.
    + destruct Hconn as [Hs|Hs]; [by rewrite fmap_alter_same|by apply NoDup_fmap_alter_fresh].
  - intros k _ (c' & Hc' & Hk). rewrite Hv in Hc'.
    apply list_elem_of_lookup in Hc' as [j' Hj']. destruct (decide (j = j')) as [<-|].
    + rewrite list_lookup_alter_eq in Hj'.
      destruct (vaults w !! j) as [c|] eqn:Hj; simplify_eq/=.
      destruct (Hcs c k Hk); [left|by right].
      exists c. split; [by eapply list_elem_of_lookup_2|done].
    + rewrite list_lookup_alter_ne in Hj' by done. left. exists c'.
      split; [by eapply list_elem_of_lookup_2|done].
Qed.
End invariant.

(** * Every operation keeps the invariant *)

(** [m] does not reach undefined behaviour and ends well. *)
Definition safe `{P : Platform} {T} (new : list ConnectionPtr) (m : M World T) (w : World) : Prop :=
  wp m (λ r w', is_Fault r = false ∧ good new w w') w.

Section safety.
Context `{P : Platform} `{B : Build} `{A : !Archives} `{AL : !ArchiveLaws}.
Implicit Types w : World.

Lemma safe_run {T} new (m : M World T) w r w' :
  m w = (r, w') → is_Fault r = false → good new w w' → safe new m w.
Proof. unfold safe, wp. by intros ->. Qed.

(** Sequences: what runs next is safe in every world the first part may leave. *)
Lemma safe_bind {T U} new (m : M World T) (k : T → M World U) w :
  safe new m w → (∀ a w', m w = (Ok a, w') → good new w w' → safe new (k a) w') →
  safe new (m ≫= k) w.
Proof.
  unfold safe, wp, mbind, M_bind. destruct (m w) as [[a|e|f] w']; [|done..].
  intros [_ Hg] Hk. destruct (Hk a w' eq_refl Hg) as [? ?]. split; [done|].
  by eapply good_trans.
Qed.

Lemma safe_try_catch {T} new (m : M World T) h w :
  safe new m w → (∀ e w', m w = (Throw e, w') → good new w w' → safe new (h e) w') →
  safe new (try_catch m h) w.
Proof.
  unfold safe, wp, try_catch. destruct (m w) as [[a|e|f] w']; [done| |done].
  intros [_ Hg] Hh. destruct (Hh e w' eq_refl Hg) as [? ?]. split; [done|].
  by eapply good_trans.
Qed.

Lemma safe_ret {T} new (a : T) w : pm_wf w → safe new (mret a) w.
Proof. intros Hw. by split; [|apply good_refl]. Qed.

Lemma safe_throw {T} new e w : pm_wf w → safe new (throw (A:=T) e) w.
Proof. intros Hw. by split; [|apply good_refl]. Qed.

(** Effects on the outside only. *)
Lemma good_outside new w w' :
  pm_wf w → frame w w' → w'.(pm) = w.(pm) → w'.(queue) = w.(queue) → good new w w'.
Proof.
  intros Hw Hf Hp Hq. split; [|done|].
  - eapply pm_wf_same; try done; [by rewrite (frame_pmids _ _ Hf)|]. unfold vaults. by rewrite Hp.
  - intros k _ Hk. left. unfold holds, vaults in *. by rewrite Hp in Hk.
Qed.

Lemma Serialise_empty m :
  save_body m = Ok [] → ∃ bs, Serialise m = Ok bs.
Proof.
  intros Hm. unfold Serialise. destruct (ar_MessageTag_saves (tag m)) as [b ->]. cbn.
  rewrite Hm. by eexists.
Qed.

Lemma AddProcess_safe i r w :
  pm_wf w → ptr_ok w.(pmids) i.(pmid_and_signer) → 0 ≤ r →
  safe [i.(tcp_connection)] (AddProcess i r) w.
Proof.
  intros Hw Hi Hr. unfold safe, wp. rewrite AddProcess_run by (done || by apply pm_wf_pointers).
  destruct (decide (bad_arguments i r)) as [|Hb]; [by split; [|apply good_refl]|].
  destruct (decide (clashes w i)) as [|Hc]; [by split; [|apply good_refl]|].
  destruct (bp_execute _ _ _) as [[pid|e] os'] eqn:Hx; (split; [done|]); [|by apply good_outside].
  unfold bad_arguments in Hb.
  apply (good_add w _ (started_child i r pid)); try done; split; cbn; try done; try tauto.
  - destruct (NonEmptyString_IsInitialised (label i)) eqn:E; [done|]. tauto.
  - destruct (Path_empty (vault_dir i)) eqn:E; [|done]. tauto.
  - unfold ptr_ok in Hi. destruct (pmid_and_signer i) as [k|] eqn:E; [by exists k|tauto].
  - lia.
  - by constructor.
Qed.

Lemma HandleVaultStarted_safe conn pid w :
  pm_wf w → conn ≠ null_connection → conn ∉ vault_connection <$> vaults w →
  safe [conn] (HandleVaultStarted conn pid) w.
Proof.
  intros Hw Hn Hnew. unfold safe, wp. rewrite HandleVaultStarted_run.
  destruct (list_find _ _) as [[j c]|] eqn:Hf; (split; [done|]); [|by apply good_refl].
  eapply (good_alter w _ (connected conn) j); try done; [| |by right].
  - intros c' Hj. destruct (pm_wf_child _ _ _ Hw Hj) as [? ? Hp ? ? ? ? ?]. by split.
  - intros c' k. unfold child_connections. cbn. rewrite !elem_of_cons.
    intros [->|?]; [right; set_solver|left; by right].
Qed.

Lemma AssignOwner_safe lab owner u w : pm_wf w → safe [] (AssignOwner lab owner u) w.
Proof.
  intros Hw. unfold safe, wp. rewrite AssignOwner_run.
  destruct (list_find _ _) as [[j c]|] eqn:Hf; (split; [done|]); [|by apply good_refl].
  eapply (good_alter w _ (set_info (set_owner owner u)) j); try done; [| |by left].
  - intros c' Hj. destruct (pm_wf_child _ _ _ Hw Hj) as [? ? Hp ? ? ? ? ?]. by split.
  - intros c' k Hk. by left.
Qed.

Definition functor_connections (f : option OnExitFunctor) : list ConnectionPtr :=
  match f with Some f => [(functor_info f).(tcp_connection)] | None => [] end.

Lemma StopProcess_safe conn f w :
  pm_wf w → conn ≠ null_connection →
  (∀ g, f = Some g → ptr_ok w.(pmids) (functor_info g).(pmid_and_signer)) →
  safe (functor_connections f) (StopProcess conn f) w.
Proof.
  intros Hw Hn Hfun. unfold safe, wp. rewrite StopProcess_run.
  destruct (list_find _ _) as [[j c]|] eqn:Hfind; [|by split; [|apply good_refl]].
  apply list_find_Some in Hfind as (Hj & Hc & _). cbn zeta.
  destruct (Serialise_empty VaultShutdownRequest_) as [bs ->]; [done|].
  destruct (N.eqb_spec conn null_connection) as [|_]; [done|]. split; [done|].
  set (g := set_timer (stop_timer (label (info c)))).
  eapply (good_alter w _ (g ∘ stopping f) j); try done; [| | |by left].
  - cbn. by rewrite list_alter_alter_eq.
  - intros c' Hj'. simplify_eq. destruct (pm_wf_child _ _ _ Hw Hj) as [? ? Hp ? ? ? ? ?].
    split; try done; cbn; first [by repeat constructor|naive_solver].
  - intros c' k. unfold child_connections, functor_connections. cbn. rewrite !elem_of_cons.
    destruct f; cbn; intros [?|?]; set_solver.
Qed.
End safety.

(** * Exits *)

(** The vaults launched so far. *)
Definition is_launch `{P : Platform} (e : Effect) : bool :=
  match e with Executed _ _ => true | _ => false end.
Definition launched `{P : Platform} (w : World) : nat := length (List.filter is_launch w.(trace)).

(** What [ProcessManager] relies on of the functors given to [StopProcess]: they are
    safe to call, and at most start one vault, from a restart count of zero. *)
Class ExitFunctors `{P : Platform}
    (run_functor : OnExitFunctor → error_code → Z → M World unit) : Prop := {
  functor_safe f ec z w :
    pm_wf w → ptr_ok w.(pmids) (functor_info f).(pmid_and_signer) →
    safe [(functor_info f).(tcp_connection)] (run_functor f ec z) w;
  functor_starts f ec z w :
    pm_wf w → ptr_ok w.(pmids) (functor_info f).(pmid_and_signer) →
    wp (run_functor f ec z) (λ _ w',
      w'.(queue) = w.(queue) ∧
      ((vaults w' = vaults w ∧ launched w' = launched w) ∨
       (∃ pid, vaults w' = vaults w ++ [started_child (functor_info f) 0 pid] ∧
          launched w' = S (launched w)))) w;
}.

Section exit_safety.
Context `{P : Platform} `{B : Build} `{A : !Archives} `{AL : !ArchiveLaws}.
Context (run_functor : OnExitFunctor → error_code → Z → M World unit).
Context `{F : !ExitFunctors run_functor}.
Implicit Types w : World.

Lemma good_weaken_held w w1 w2 new :
  good [] w w1 → good new w1 w2 → (∀ k, k ∈ new → holds w k) → good [] w w2.
Proof.
  intros [H1 H2 H3] [H4 H5 H6] Hnew. split; [done|by etrans|].
  intros k Hn Hk. left. destruct (H6 k Hn Hk) as [Hk'|?]; [|by apply Hnew].
  destruct (H3 k Hn Hk'); set_solver.
Qed.

Lemma after_exit_good w i c terminate :
  pm_wf w → good [] w (after_exit i c terminate w).
Proof. intros Hw. by apply (good_delete w _ i). Qed.

Lemma after_exit_ptr_ok w j i c terminate :
  pm_wf w → vaults w !! j = Some c →
  ptr_ok (pmids (after_exit i c terminate w)) (exit_info c).(pmid_and_signer).
Proof.
  intros Hw Hj. unfold exit_info. case_bool_decide; [done|].
  apply has_pmid_ptr_ok. by destruct (pm_wf_child _ _ _ Hw Hj).
Qed.

Lemma Invoke_safe f ec terminate w :
  pm_wf w → (∀ g, f = Some g → ptr_ok w.(pmids) (functor_info g).(pmid_and_signer)) →
  safe (functor_connections f) (InvokeOnExitFunctor run_functor f ec terminate) w.
Proof.
  intros Hw Hf. destruct f as [g|]; cbn [InvokeOnExitFunctor functor_connections];
    [|by apply safe_ret].
  apply safe_try_catch; [|intros e w' _ Hg; apply safe_ret, Hg].
  destruct terminate; [|destruct (ec =? 0)]; by apply functor_safe; [|apply Hf].
Qed.

Lemma RestartIfRequired_run r i w :
  RestartIfRequired r i w =
    (Ok tt, if decide (0 ≤ r < kMaxVaultRestarts)
            then set_queue (λ q, q ++ [RestartVault i r]) w else w).
Proof.
  unfold RestartIfRequired. destruct (decide _) as [Hr|Hr].
  - destruct (Z.ltb_spec r 0); [lia|].
    destruct (r >=? kMaxVaultRestarts) eqn:E; [lia|done].
  - destruct (Z.ltb_spec r 0); [done|].
    destruct (r >=? kMaxVaultRestarts) eqn:E; [done|lia].
Qed.

Lemma good_queue new w k :
  pm_wf w → work_ok w.(pmids) k → good new w (set_queue (λ q, q ++ [k]) w).
Proof.
  intros [H1 H2 H3 H4 H5] Hk. split; [|done|].
  - split; try done. cbn. by apply Forall_app_2; [|constructor].
  - intros k' _ Hh. by left.
Qed.

Lemma RestartIfRequired_safe r i w :
  pm_wf w → (0 ≤ r < kMaxVaultRestarts → work_ok w.(pmids) (RestartVault i r)) →
  safe [] (RestartIfRequired r i) w.
Proof.
  intros Hw Hk. unfold safe, wp. rewrite RestartIfRequired_run. split; [done|].
  cbn. destruct (decide _); [apply good_queue; auto|by apply good_refl].
Qed.

Lemma exit_work_ok w j c r :
  pm_wf w → vaults w !! j = Some c → 0 ≤ r < kMaxVaultRestarts →
  work_ok w.(pmids) (RestartVault (exit_info c) r).
Proof.
  intros Hw Hj Hr. split_and!; [|by unfold exit_info; case_bool_decide|lia..].
  exact (after_exit_ptr_ok w j j c true Hw Hj).
Qed.

(** An exit is safe, and leaves the vaults no connection they did not hold. *)
Lemma OnProcessExit_safe lab ec terminate w :
  pm_wf w → safe [] (OnProcessExit run_functor lab ec terminate) w.
Proof.
  intros Hw. unfold safe, wp. rewrite OnProcessExit_run by by apply pm_wf_has_pmid.
  destruct (list_find _ _) as [[i c]|] eqn:Hf; [|by split; [|apply good_refl]].
  apply list_find_Some in Hf as (Hi & _).
  pose proof (after_exit_good w i c terminate Hw) as Hg.
  pose proof (pm_wf_child _ _ _ Hw Hi) as Hc.
  set (w1 := after_exit i c terminate w) in *.
  assert (Hsafe : safe (functor_connections (on_exit c))
            (InvokeOnExitFunctor run_functor (on_exit c) ec terminate;;
             RestartIfRequired (exit_restarts c) (exit_info c)) w1).
  { apply safe_bind; [apply Invoke_safe; [apply Hg|apply Hc]|].
    intros [] w2 _ Hg2. unfold safe. eapply wp_mono; [apply RestartIfRequired_safe|].
    - apply Hg2.
    - intros Hr. rewrite (frame_pmids _ _ (good_frame _ _ _ Hg2)).
      by apply (exit_work_ok w i).
    - intros r w3 [? Hg3]. split; [done|]. eapply good_mono; [|exact Hg3]. set_solver. }
  destruct Hsafe as [Hr Hgood]. split; [done|].
  eapply good_weaken_held; [exact Hg|exact Hgood|].
  intros k Hk. exists c. split; [by eapply list_elem_of_lookup_2|]. by right.
Qed.

Lemma OnRestart_safe i r w :
  pm_wf w → work_ok w.(pmids) (RestartVault i r) → safe [] (OnRestart i r) w.
Proof.
  intros Hw (Hp & Hc & Hr). unfold OnRestart. apply safe_try_catch.
  - unfold safe. eapply wp_mono; [apply AddProcess_safe; [done..|lia]|].
    intros r' w' [? Hg]. split; [done|]. destruct Hg as [? ? Hk]. split; [done..|].
    intros k Hn Hh. destruct (Hk k Hn Hh) as [|Hin]; [by left|].
    apply list_elem_of_singleton in Hin. by rewrite Hc in Hin.
  - intros e w' _ Hg. apply safe_ret, Hg.
Qed.

Lemma OnStartTimer_safe lab r w : pm_wf w → safe [] (OnStartTimer run_functor lab r) w.
Proof.
  intros Hw. destruct r; [by apply OnProcessExit_safe|by apply safe_ret..].
Qed.

Lemma OnStopTimer_safe lab r w : pm_wf w → safe [] (OnStopTimer run_functor lab r) w.
Proof.
  intros Hw. destruct r; [by apply OnProcessExit_safe|by apply safe_ret..].
Qed.

Lemma HandleConnectionClosed_safe conn w :
  pm_wf w → safe [] (HandleConnectionClosed run_functor conn) w.
Proof.
  intros Hw. unfold HandleConnectionClosed. apply safe_try_catch.
  - apply safe_bind; unfold safe, wp; rewrite DoFindConnection_run.
    { destruct (list_find _ _) as [[? ?]|]; by split; [|apply good_refl]. }
    intros i w'. destruct (list_find _ _) as [[j c]|] eqn:Hf; [|done].
    intros ? _. simplify_eq. apply list_find_Some in Hf as (Hi & _).
    apply safe_bind; unfold safe, wp; rewrite (child_at_run _ _ _ Hi);
      [by split; [|apply good_refl]|].
    intros ? w1 ? _. simplify_eq. apply safe_bind; [by apply OnProcessExit_safe|].
    intros [] w2 _ Hg2. apply safe_ret, Hg2.
  - intros e w' _ Hg. case_bool_decide; [apply safe_ret|apply safe_throw]; apply Hg.
Qed.
End exit_safety.

Section more_exit_safety.
Context `{P : Platform} `{B : Build} `{A : !Archives} `{AL : !ArchiveLaws}.
Context (run_functor : OnExitFunctor → error_code → Z → M World unit).
Context `{F : !ExitFunctors run_functor}.
Implicit Types w : World.

Lemma safe_gets {T} new (f : World → T) w : pm_wf w → safe new (gets f) w.
Proof. intros Hw. by split; [|apply good_refl]. Qed.

Lemma safe_modify new f w :
  pm_wf w → frame w (f w) → vaults (f w) = vaults w → (f w).(queue) = w.(queue) →
  safe new (modify f) w.
Proof.
  intros Hw Hf Hv Hq. split; [done|]. split; [|done|].
  - eapply pm_wf_same; try done. intros n Hn. change (is_Some (pmids (f w) !! n)). by rewrite (frame_pmids _ _ Hf).
  - intros k _ (c & Hc & Hk). left. exists c. split; [by rewrite <- Hv|done].
Qed.

Lemma safe_os_call' {T} new (f : OS → T * OS) w : pm_wf w → safe new (os_call' f) w.
Proof.
  intros Hw. unfold safe, wp, os_call'. destruct (f (os w)) as [a o].
  split; [done|]. by apply good_outside.
Qed.

Lemma safe_finally {T} new (c : M World unit) (m : M World T) w :
  safe new m w → (∀ w', good new w w' → safe new c w') → safe new (finally c m) w.
Proof.
  unfold safe, wp, finally, on_scope_exit. destruct (m w) as [[a|e|f] w']; [| |done].
  - intros [_ Hg] Hc. destruct (Hc w' Hg) as [Hr Hg2].
    destruct (c w') as [[?|?|?] w'']; [..|done]; (split; [done|]); by eapply good_trans.
  - intros [_ Hg] Hc. destruct (Hc w' Hg) as [Hr Hg2].
    destruct (c w') as [[?|?|?] w'']; [..|done]; (split; [done|]); by eapply good_trans.
Qed.

Lemma InitSignalHandler_safe w : pm_wf w → safe [] InitSignalHandler w.
Proof. intros Hw. by apply safe_modify. Qed.

Lemma OnSignal_safe r signum w : pm_wf w → safe [] (OnSignal run_functor r signum) w.
Proof.
  intros Hw. unfold OnSignal. apply safe_bind; [by apply safe_modify|].
  intros [] w1 _ Hg1. destruct r; [|apply safe_ret, Hg1..].
  apply safe_finally; [|intros w' Hg; apply InitSignalHandler_safe, Hg].
  destruct (negb _); [apply safe_ret, Hg1|].
  apply safe_bind; [apply safe_os_call', Hg1|]. intros [pid ec] w2 _ Hg2.
  apply safe_bind; [apply safe_gets, Hg2|]. intros own w3 _ Hg3.
  destruct (to_u64 pid =? own); [apply safe_ret, Hg3|].
  apply safe_bind; [apply safe_gets, Hg3|]. intros [[j c]|] w4 _ Hg4;
    [apply OnProcessExit_safe, Hg4; done|apply safe_ret, Hg4].
Qed.
End more_exit_safety.

(** * Stopping every vault *)
Section stop_all.
Context `{P : Platform} `{B : Build} `{A : !Archives} `{AL : !ArchiveLaws}.
Implicit Types w : World.

(** What a stop without functor makes of a vault. *)
Definition stopped (c : Child) : Child := set_timer (stop_timer (vault_label c)) (stopping None c).

Definition shutdown_bytes : bytes :=
  match Serialise VaultShutdownRequest_ with Ok bs => bs | _ => [] end.

Definition after_stops (l1 l2 : list Child) (w : World) : World :=
  set_vaults (λ _, (stopped <$> l1) ++ l2)
    (set_trace (λ t, t ++ ((λ c, Sent (vault_connection c) shutdown_bytes) <$> l1)) w).

Lemma find_connection_after_stops l1 c l2 w :
  NoDup (vault_connection <$> l1 ++ c :: l2) →
  list_find (λ v, tcp_connection (info v) = vault_connection c) (vaults (after_stops l1 (c :: l2) w)) =
    Some (length l1, c).
Proof.
  intros Hnd. unfold vaults, after_stops, set_vaults, set_pm; cbn.
  assert (H : list_find (λ v, vault_connection v = vault_connection c)
               ((stopped <$> l1) ++ c :: l2) = Some (length l1, c)); [|exact H].
  apply list_find_key.
  - rewrite fmap_app in Hnd |- *. rewrite <- list_fmap_compose. exact Hnd.
  - apply list_lookup_middle. by rewrite length_fmap.
Qed.

(** One round of [StopAll]. *)
Lemma stop_round l1 c l2 w :
  NoDup (vault_connection <$> l1 ++ c :: l2) →
  StopProcess (vault_connection c) None (after_stops l1 (c :: l2) w) =
    if (vault_connection c =? null_connection)%N
    then (Fault null_deref, set_vaults (alter (stopping None) (length l1)) (after_stops l1 (c :: l2) w))
    else (Ok tt, after_stops (l1 ++ [c]) l2 w).
Proof.
  intros Hnd. rewrite StopProcess_run, find_connection_after_stops by done. cbn zeta.
  destruct (Serialise_empty VaultShutdownRequest_) as [bs Hbs]; [done|]. rewrite Hbs.
  destruct (N.eqb_spec (vault_connection c) null_connection); [done|].
  assert (Hsb : shutdown_bytes = bs) by (unfold shutdown_bytes; by rewrite Hbs).
  f_equal. unfold after_stops. rewrite Hsb. unfold set_vaults, set_trace, set_pm. cbn.
  assert (Hl : length l1 = length (stopped <$> l1)) by by rewrite length_fmap.
  rewrite list_alter_alter_eq, Hl.
  rewrite alter_app_r_alt, Nat.sub_diag by done. cbn.
  rewrite !fmap_app. cbn. rewrite <- !app_assoc. done.
Qed.

Lemma stop_rounds l1 l2 w :
  NoDup (vault_connection <$> l1 ++ l2) →
  let run := for_each (λ conn, StopProcess conn None) (vault_connection <$> l2) (after_stops l1 l2 w) in
  if decide (Exists (λ c, vault_connection c = null_connection) l2)
  then is_Fault run.1 = true
  else run = (Ok tt, after_stops (l1 ++ l2) [] w).
Proof.
  revert l1. induction l2 as [|c l2 IH]; intros l1 Hnd; cbn zeta.
  - rewrite decide_False by by intros ?%Exists_nil. cbn. by rewrite app_nil_r.
  - cbn [fmap list_fmap for_each]. unfold mbind, M_bind. rewrite stop_round by done.
    destruct (N.eqb_spec (vault_connection c) null_connection) as [Hc|Hc].
    + rewrite decide_True by by left. done.
    + specialize (IH (l1 ++ [c])). rewrite <- app_assoc in IH. specialize (IH Hnd).
      cbn zeta in IH.
      assert (E : Exists (λ c, vault_connection c = null_connection) (c :: l2) ↔
                  Exists (λ c, vault_connection c = null_connection) l2).
      { rewrite Exists_cons. tauto. }
      destruct (decide (Exists _ l2)) as [H|H].
      * rewrite decide_True by tauto. exact IH.
      * rewrite decide_False by tauto. exact IH.
Qed.

Lemma after_stops_nil w : after_stops [] (vaults w) w = w.
Proof.
  unfold after_stops. rewrite set_vaults_id by done. apply set_trace_nil.
Qed.
End stop_all.
