(* ===== verification/Vaults.v ===== *)
(** The behaviour of starting, stopping and losing a vault, stated on the invariant
    of [Supervision.v]. *)
From S2P Require Export Supervision.
From S2P Require Import Demo.

Section vaults.
Context `{P : Platform} `{B : Build} `{A : !Archives}.
Implicit Types (w : World) (i : VaultInfo) (c : Child).

(** C10: [AddProcess] refuses bad arguments with [invalid_argument] and a vault that
    conflicts with a managed one with [already_initialised]; when it throws, for
    whatever reason, every member of the process but the machine is as before; when
    it returns, exactly one vault was added: launched, waiting for its connection
    under a timer of [kRpcTimeout] seconds, with the given restart count. *)
Theorem AddProcess_spec i r w :
  pm_wf w → ptr_ok w.(pmids) i.(pmid_and_signer) →
  match AddProcess i r w with
  | (Ok _, w') =>
      ¬ bad_arguments i r ∧ ¬ clashes w i ∧
      ∃ pid os', bp_execute w.(pm).(kVaultExecutablePath_) (command_line w i) w.(os) = (Normally pid, os') ∧
        vaults w' = vaults w ++ [mkChild i None (mkTimer kRpcTimeout [on_start_timer i.(label)])
                                   r [] kStarting pid] ∧
        w'.(trace) = w.(trace) ++ [Executed pid (command_line w i)] ∧ w'.(os) = os'
  | (Throw e, w') =>
      w' = set_os (λ _, w'.(os)) w ∧
      (bad_arguments i r → e = maidsafe_error invalid_argument ∧ w' = w) ∧
      (¬ bad_arguments i r → clashes w i → e = maidsafe_error already_initialised ∧ w' = w) ∧
      (¬ bad_arguments i r → ¬ clashes w i →
         (bp_execute w.(pm).(kVaultExecutablePath_) (command_line w i) w.(os)).1 = Throws e)
  | (Fault _, _) => False
  end.
Proof.
  intros Hw Hi. rewrite AddProcess_run by (done || by apply pm_wf_pointers).
  destruct (decide (bad_arguments i r)); [split_and!; [by destruct w|done..]|].
  destruct (decide (clashes w i)); [split_and!; [by destruct w|done..]|].
  destruct (bp_execute _ _ _) as [[pid|e] os'].
  - split_and!; try done. by exists pid, os'.
  - by split_and!.
Qed.

(** C13: a vault without a connection yet - each vault that is being started, or
    restarted - cannot be added while another one is still starting, whatever its
    label, directory and keys: null connections count as equal. *)
Theorem one_start_at_a_time i r w c :
  pm_wf w → ptr_ok w.(pmids) i.(pmid_and_signer) → ¬ bad_arguments i r →
  c ∈ vaults w → vault_connection c = null_connection → i.(tcp_connection) = null_connection →
  AddProcess i r w = (Throw (maidsafe_error already_initialised), w).
Proof.
  intros Hw Hi Hb Hc Hn Hin. rewrite AddProcess_run by (done || by apply pm_wf_pointers).
  rewrite decide_False by done. rewrite decide_True; [done|].
  apply Exists_exists. exists c. split; [done|]. right; right; right.
  by rewrite Hin.
Qed.

(** C11: when the process of a vault exits without a functor to call, exactly that
    vault is removed; if it was not being stopped and has restarts left, its
    restart is posted, without its connection; nothing else is posted.  An exit of
    an unknown label changes nothing. *)
Theorem OnProcessExit_spec run_functor lab ec terminate w :
  pm_wf w →
  match list_find (λ c, vault_label c = lab) (vaults w) with
  | None => OnProcessExit run_functor lab ec terminate w = (Ok tt, w)
  | Some (j, c) =>
      c.(on_exit) = None →
      ∃ w', OnProcessExit run_functor lab ec terminate w = (Ok tt, w') ∧
        vaults w = take j (vaults w) ++ c :: drop (S j) (vaults w) ∧
        vaults w' = take j (vaults w) ++ drop (S j) (vaults w) ∧
        (∀ c', c' ∈ vaults w' → vault_label c' ≠ lab) ∧
        w'.(trace) = w.(trace) ++ exit_trace c terminate w ∧
        w'.(queue) = w.(queue) ++
          (if decide (c.(status) ≠ kStopping ∧ c.(restart_count) < kMaxVaultRestarts)
           then [RestartVault (set_connection null_connection c.(info)) c.(restart_count)]
           else [])
  end.
Proof.
  intros Hw. rewrite OnProcessExit_run by by apply pm_wf_has_pmid.
  unfold vault_label. destruct (list_find _ _) as [[j c]|] eqn:Hf; [|done].
  intros He. rewrite He. apply list_find_Some in Hf as (Hj & Hl & _).
  pose proof (ok_restarts _ _ (pm_wf_child _ _ _ Hw Hj)) as Hr.
  cbn [InvokeOnExitFunctor]. unfold mbind, M_bind, mret, M_ret.
  rewrite RestartIfRequired_run. eexists. split; [reflexivity|].
  rewrite <- delete_take_drop, take_drop_middle by done.
  assert (Hlabels : ∀ c', c' ∈ delete j (vaults w) → vault_label c' ≠ lab).
  { intros c' Hc' <-. apply list_elem_of_lookup in Hc' as [j' Hj'].
    pose proof (wf_labels _ Hw) as Hnd. apply (delete_Permutation _ _ _) in Hj as Hp.
    rewrite Hp in Hnd. apply NoDup_cons in Hnd as [Hnd _]. apply Hnd.
    apply list_elem_of_fmap. exists c'. split; [done|by eapply list_elem_of_lookup_2]. }
  unfold exit_restarts, exit_info.
  destruct (decide (status c ≠ kStopping ∧ restart_count c < kMaxVaultRestarts)) as [Hd|Hd].
  - rewrite bool_decide_false by tauto. rewrite decide_True by tauto. by split_and!.
  - rewrite decide_False; [by split_and!; rewrite ?app_nil_r|].
    case_bool_decide; [lia|tauto].
Qed.

(** The two ways of stopping every vault differ in their pauses only. *)
Lemma StopAll_same w : StopAll w = StopAllWithInterval w.
Proof.
  unfold StopAll, StopAllWithInterval. mrun. destruct (stop_all_flag_ (pm w)); [done|].
  mrun. by rewrite for_each_fmap.
Qed.

Lemma StopAllWithInterval_run w :
  StopAllWithInterval w =
    if w.(pm).(stop_all_flag_) then (Ok tt, w) else
    match for_each (λ conn, StopProcess conn None) (vault_connection <$> vaults w) w with
    | (Ok _, w') => (Ok tt, set_stop_all_flag true (set_signal_waiting false w'))
    | r => r
    end.
Proof.
  unfold StopAllWithInterval. mrun. destruct (stop_all_flag_ (pm w)); [done|]. mrun.
  unfold vault_connection. by destruct (for_each _ _ w) as [[[]|?|?] w'].
Qed.

(** C12: [StopAll] and [StopAllWithInterval] run once.  When every vault has connected,
    they tell each of them to shut down, in order, mark it as stopping and start
    its timer, and the wait for signals ends; with a vault that has not connected
    they use a null pointer. *)
Theorem StopAll_spec `{AL : !ArchiveLaws} w :
  pm_wf w →
  StopAllWithInterval w = StopAll w ∧
  (w.(pm).(stop_all_flag_) = true → StopAll w = (Ok tt, w)) ∧
  (w.(pm).(stop_all_flag_) = false →
   (is_Fault (StopAll w).1 = true ↔ null_connection ∈ vault_connection <$> vaults w) ∧
   (null_connection ∉ vault_connection <$> vaults w →
    ∃ w', StopAll w = (Ok tt, w') ∧ vaults w' = stopped <$> vaults w ∧
      w'.(trace) = w.(trace) ++ ((λ c, Sent (vault_connection c) shutdown_bytes) <$> vaults w) ∧
      w'.(pm).(stop_all_flag_) = true ∧ w'.(pm).(signal_waiting_) = false)).
Proof.
  intros Hw. split; [by rewrite StopAll_same|]. rewrite StopAll_same.
  rewrite StopAllWithInterval_run. split; [by intros ->|]. intros ->.
  pose proof (stop_rounds [] (vaults w) w (wf_connections _ Hw)) as Hrun. cbn zeta in Hrun.
  rewrite after_stops_nil in Hrun.
  assert (Hex : null_connection ∈ vault_connection <$> vaults w ↔
                Exists (λ c, vault_connection c = null_connection) (vaults w)).
  { rewrite list_elem_of_fmap, Exists_exists. naive_solver. }
  destruct (decide (Exists _ _)) as [He|He].
  - destruct (for_each _ _ w) as [[?|?|?] w']; try done. tauto.
  - rewrite Hrun. split; [split; [done|tauto]|]. intros _. eexists. split; [done|].
    unfold vaults, after_stops. cbn. by rewrite app_nil_r.
Qed.
End vaults.
