(* ===== verification/VaultConfig.v ===== *)
(** [struct VaultConfig] ([vault_config.h], [vault_config.cc]): what a vault process is
    told about itself, with its copies, moves and swap, and the helpers that read
    key files. *)
From S2P Require Export World.
From S2P Require Import Demo.

Section vault_config.
Context `{P : Platform} `{B : Build}.

(** [enum class TestType : int32_t] *)
Inductive TestType : Set :=
| kNone | kKillConnection | kSendInvalidMessage | kStopProcess | kIgnoreStopRequest.

(** [struct TestConfig] *)
Record TestConfig := mkTestConfig {
  test_type : TestType;
  public_pmid_list : list PublicPmid;
}.

(** [TestConfig()] *)
Definition TestConfig_default : TestConfig := mkTestConfig kNone [].

(** The members under [TESTING] keep their default in a build without it. *)
Record VaultConfig := mkVaultConfig {
  vc_pmid : Pmid;
  vc_vault_dir : Path;
  vc_max_disk_usage : Z;
  vc_test_config : TestConfig;
  vc_send_hostname_to_visualiser_server : bool;
  vc_vlog_session_id : string;
}.

Definition testing_member {A} (d a : A) : A := if TESTING then a else d.

(** [VaultConfig(const passport::Pmid&, const path&, const DiskUsage&)] *)
Definition VaultConfig_make (pmid_in : Pmid) (vault_dir_in : Path) (max_disk_usage_in : Z) :
  VaultConfig := mkVaultConfig pmid_in vault_dir_in max_disk_usage_in TestConfig_default false "".

(** [VaultConfig(const VaultConfig& other)] *)
Definition VaultConfig_copy (other : VaultConfig) : VaultConfig := {|
  vc_pmid := other.(vc_pmid);
  vc_vault_dir := other.(vc_vault_dir);
  vc_max_disk_usage := other.(vc_max_disk_usage);
  vc_test_config := testing_member TestConfig_default other.(vc_test_config);
  vc_send_hostname_to_visualiser_server :=
    testing_member false other.(vc_send_hostname_to_visualiser_server);
  vc_vlog_session_id := other.(vc_vlog_session_id);
|}.

(** [VaultConfig(VaultConfig&& other)]: the new object and what is left in [other]. *)
Definition VaultConfig_move (other : VaultConfig) : VaultConfig * VaultConfig :=
  ({| vc_pmid := other.(vc_pmid);
      vc_vault_dir := other.(vc_vault_dir);
      vc_max_disk_usage := other.(vc_max_disk_usage);
      vc_test_config := testing_member TestConfig_default other.(vc_test_config);
      vc_send_hostname_to_visualiser_server :=
        testing_member false other.(vc_send_hostname_to_visualiser_server);
      vc_vlog_session_id := other.(vc_vlog_session_id); |},
   {| vc_pmid := Pmid_moved_from other.(vc_pmid);
      vc_vault_dir := Path_moved_from other.(vc_vault_dir);
      vc_max_disk_usage := other.(vc_max_disk_usage);
      vc_test_config := testing_member other.(vc_test_config)
                          (mkTestConfig other.(vc_test_config).(test_type) []);
      vc_send_hostname_to_visualiser_server := other.(vc_send_hostname_to_visualiser_server);
      vc_vlog_session_id := string_moved_from other.(vc_vlog_session_id); |}).

(** [swap(VaultConfig& lhs, VaultConfig& rhs)], member by member. *)
Definition VaultConfig_swap (lhs rhs : VaultConfig) : VaultConfig * VaultConfig :=
  ({| vc_pmid := rhs.(vc_pmid);
      vc_vault_dir := rhs.(vc_vault_dir);
      vc_max_disk_usage := rhs.(vc_max_disk_usage);
      vc_test_config := testing_member lhs.(vc_test_config) rhs.(vc_test_config);
      vc_send_hostname_to_visualiser_server :=
        testing_member lhs.(vc_send_hostname_to_visualiser_server)
          rhs.(vc_send_hostname_to_visualiser_server);
      vc_vlog_session_id := rhs.(vc_vlog_session_id); |},
   {| vc_pmid := lhs.(vc_pmid);
      vc_vault_dir := lhs.(vc_vault_dir);
      vc_max_disk_usage := lhs.(vc_max_disk_usage);
      vc_test_config := testing_member rhs.(vc_test_config) lhs.(vc_test_config);
      vc_send_hostname_to_visualiser_server :=
        testing_member rhs.(vc_send_hostname_to_visualiser_server)
          lhs.(vc_send_hostname_to_visualiser_server);
      vc_vlog_session_id := lhs.(vc_vlog_session_id); |}).

(** [VaultConfig& operator=(VaultConfig other)] *)
Definition VaultConfig_assign (this other : VaultConfig) : VaultConfig :=
  (VaultConfig_swap this (VaultConfig_copy other)).1.

(** [Pmid GetPmidFromKeysFile(const path keys_path, size_t identity_index)] *)
Definition GetPmidFromKeysFile (keys_path : Path) (identity_index : nat) : M World Pmid :=
  key_chains ← os_call (ReadKeyChainList keys_path);
  match key_chains !! identity_index with
  | None => raise invalid_argument
  | Some key_chain => mret (AnmaidToPmid_pmid key_chain)
  end.

(** [GetPublicPmidsFromKeysFile(const path keys_path)] *)
Definition GetPublicPmidsFromKeysFile (keys_path : Path) : M World (list PublicPmid) :=
  key_chains ← os_call (ReadKeyChainList keys_path);
  mret ((λ k, PublicPmid_of_Pmid (AnmaidToPmid_pmid k)) <$> key_chains).

(** A value of this build. *)
Definition VaultConfig_of_build (c : VaultConfig) : Prop :=
  TESTING = false →
  c.(vc_test_config) = TestConfig_default ∧ c.(vc_send_hostname_to_visualiser_server) = false.

(** Assigning a configuration, by whatever member-wise operations, gives the
    target every member of the source; moving and swapping lose nothing. *)
Theorem VaultConfig_transfers this other :
  VaultConfig_of_build this → VaultConfig_of_build other →
  VaultConfig_copy other = other ∧ VaultConfig_assign this other = other ∧
  (VaultConfig_move other).1 = other ∧ VaultConfig_swap this other = (other, this).
Proof.
  unfold VaultConfig_of_build, VaultConfig_assign, VaultConfig_move, VaultConfig_copy,
    VaultConfig_swap, testing_member. destruct this, other; cbn. destruct TESTING; [done|].
  intros Ht Ho. by destruct Ht as [-> ->], Ho as [-> ->].
Qed.

(** An index selects its key chain of the file, and one beyond the last is
    refused; the public keys are those of every chain, in order. *)
Theorem GetPmidFromKeysFile_spec path n w chains os' :
  ReadKeyChainList path w.(os) = (Normally chains, os') →
  GetPmidFromKeysFile path n w =
    (match (AnmaidToPmid_pmid <$> chains) !! n with
     | Some p => Ok p
     | None => Throw (maidsafe_error invalid_argument)
     end, set_os (λ _, os') w) ∧
  GetPublicPmidsFromKeysFile path w =
    (Ok (PublicPmid_of_Pmid <$> (AnmaidToPmid_pmid <$> chains)), set_os (λ _, os') w) ∧
  ((n < length chains)%nat ↔ is_Ok (GetPmidFromKeysFile path n w).1 = true).
Proof.
  intros H. unfold GetPmidFromKeysFile, GetPublicPmidsFromKeysFile, os_call. mrun. rewrite H. cbn.
  rewrite <- list_fmap_compose, list_lookup_fmap.
  destruct (chains !! n) as [k|] eqn:E; cbn; (split_and!; [done|done|]).
  - apply lookup_lt_Some in E. tauto.
  - apply lookup_ge_None in E. split; [lia|done].
Qed.
End vault_config.
