(* ===== verification/Utils.v ===== *)
(** [utils.h] and [utils.cc]: the test environment and its globals, labels, the
    initial port, and the values that responses carry. *)
From S2P Require Export VaultConfig.
From S2P Require Import Demo.

(** [std::toupper] of the "C" locale. *)
Definition toupper (c : Ascii.ascii) : Ascii.ascii :=
  let n := Ascii.nat_of_ascii c in
  if (97 <=? n)%nat && (n <=? 122)%nat then Ascii.ascii_of_nat (n - 32) else c.

Fixpoint string_map (f : Ascii.ascii → Ascii.ascii) (s : string) : string :=
  match s with
  | EmptyString => EmptyString
  | String c s => String (f c) (string_map f s)
  end.

Section utils.
Context `{P : Platform} `{B : Build}.

(** [GetValue(const Challenge&)] *)
Definition GetValue_Challenge (challenge : Challenge) : Res PlainText :=
  mret challenge.(plaintext).

(** [GetValue(const VaultStartedResponse&)] *)
Definition GetValue_VaultStartedResponse (r : VaultStartedResponse) : Res VaultConfig :=
  match r.(vsr_pmid) with
  | None => Fault null_deref
  | Some pmid =>
      let c := VaultConfig_make pmid r.(vsr_vault_dir) r.(vsr_max_disk_usage) in
      mret (mkVaultConfig c.(vc_pmid) c.(vc_vault_dir) c.(vc_max_disk_usage)
              (if TESTING then mkTestConfig c.(vc_test_config).(test_type) r.(vsr_public_pmids)
               else c.(vc_test_config))
              (if USE_VLOGGING && TESTING then r.(vsr_send_hostname_to_visualiser_server)
               else c.(vc_send_hostname_to_visualiser_server))
              (if USE_VLOGGING then r.(vsr_vlog_session_id) else c.(vc_vlog_session_id)))
  end.

(** The loop of [GenerateLabel]. *)
Fixpoint label_loop (n : nat) (label : string) : M World string :=
  match n with
  | O => mret label
  | S n => s ← os_call' (RandomAlphaNumericString 4); label_loop n (label +:+ ("-" +:+ s))
  end.

(** [NonEmptyString GenerateLabel()] *)
Definition GenerateLabel : M World NonEmptyString :=
  label ← os_call' (RandomAlphaNumericString 4);
  label ← label_loop 4 label;
  lift_res (of_lib (NonEmptyString_of_string (string_map toupper label))).

(** ** The globals; [TESTING] builds only *)

Definition GetTestVaultManagerPort : M World Z := gets (λ w, w.(env).(g_test_vault_manager_port)).
Definition GetTestEnvironmentRootDir : M World Path := gets (λ w, w.(env).(g_test_env_root_dir)).
Definition GetPathToVault : M World Path := gets (λ w, w.(env).(g_path_to_vault)).
Definition GetPublicPmids : M World (list PublicPmid) := gets (λ w, w.(env).(g_public_pmids)).

(** [g_pmids_and_signers.at(index)]: a negative [int] becomes a huge [size_t]. *)
Definition GetPmidAndSigner (index : Z) : M World PmidAndSigner :=
  l ← gets (λ w, w.(env).(g_pmids_and_signers));
  if to_u64 index <? Z.of_nat (length l) then
    match l !! Z.to_nat (to_u64 index) with
    | Some p => mret p
    | None => throw std_exception
    end
  else throw std_exception.

(** [tcp::Port GetInitialListeningPort()] *)
Definition GetInitialListeningPort : M World Z :=
  if TESTING then
    port ← GetTestVaultManagerPort;
    if port =? 0 then mret (to_u16 (kLivePort + 100)) else GetTestVaultManagerPort
  else mret (to_u16 kLivePort).

(** The loop of [SetEnvironment]. *)
Fixpoint create_pmids (n : nat) : M World unit :=
  match n with
  | O => mret tt
  | S n =>
      p ← os_call' CreatePmidAndSigner;
      modify (set_env (λ e, mkTestEnvironment e.(test_env_flag) e.(g_test_vault_manager_port)
        e.(g_test_env_root_dir) e.(g_path_to_vault) e.(g_using_default_environment)
        (e.(g_pmids_and_signers) ++ [p]) (e.(g_public_pmids) ++ [PublicPmid_of_Pmid p.1])));;
      create_pmids n
  end.

(** [void test::SetEnvironment(port, root_dir, path_to_vault, pmid_list_size)]: the flag
    is set when the closure of [call_once] returns. *)
Definition SetEnvironment (test_vault_manager_port : Z) (test_env_root_dir path_to_vault : Path)
    (pmid_list_size : Z) : M World unit :=
  called ← gets (λ w, w.(env).(test_env_flag));
  if called : bool then mret tt else
    there ← os_call (fs_exists test_env_root_dir);
    dir ← (if there : bool then os_call (fs_is_directory test_env_root_dir) else mret false);
    (if negb there || negb dir then raise not_a_directory else mret tt);;
    modify (set_env (λ e, mkTestEnvironment e.(test_env_flag) test_vault_manager_port
      test_env_root_dir path_to_vault e.(g_using_default_environment)
      e.(g_pmids_and_signers) e.(g_public_pmids)));;
    create_pmids (Z.to_nat pmid_list_size);;
    modify (set_env (λ e, mkTestEnvironment true e.(g_test_vault_manager_port)
      e.(g_test_env_root_dir) e.(g_path_to_vault) false
      e.(g_pmids_and_signers) e.(g_public_pmids))).
End utils.

(** * Labels *)

Definition is_lower (c : Ascii.ascii) : bool :=
  let n := Ascii.nat_of_ascii c in (97 <=? n)%nat && (n <=? 122)%nat.

Fixpoint string_forall (f : Ascii.ascii → bool) (s : string) : bool :=
  match s with EmptyString => true | String c s => f c && string_forall f s end.

Lemma toupper_not_lower c : is_lower (toupper c) = false.
Proof. destruct c as [[] [] [] [] [] [] [] []]; reflexivity. Qed.

Lemma string_map_forall f g s : (∀ c, g (f c) = true) → string_forall g (string_map f s) = true.
Proof. intros H. induction s as [|c s IH]; cbn; [done|]. by rewrite H. Qed.

Lemma string_map_length f s : String.length (string_map f s) = String.length s.
Proof. induction s as [|c s IH]; cbn; [done|]. by rewrite IH. Qed.

Lemma string_length_app s t :
  String.length (s +:+ t) = (String.length s + String.length t)%nat.
Proof. induction s as [|c s IH]; [done|]. change (S (String.length (s +:+ t)) = S (String.length s + String.length t))%nat. by rewrite IH. Qed.

Section utils_theorems.
Context `{P : Platform} `{B : Build}.
Implicit Types w : World.

Lemma label_loop_run n l w :
  (∀ o, String.length (RandomAlphaNumericString 4 o).1 = 4%nat) →
  ∃ l' o', label_loop n l w = (Ok l', set_os (λ _, o') w) ∧
           String.length l' = (String.length l + 5 * n)%nat.
Proof.
  intros Hr. revert l w. induction n as [|n IH]; intros l w.
  - exists l, w.(os). split; [by destruct w|lia].
  - cbn [label_loop]. unfold mbind, M_bind, os_call'.
    destruct (RandomAlphaNumericString 4 (os w)) as [s o] eqn:E.
    destruct (IH (l +:+ ("-" +:+ s)) (set_os (λ _, o) w)) as (l' & o' & Hrun & Hl).
    exists l', o'. split; [exact Hrun|]. rewrite Hl, !string_length_app.
    pose proof (Hr (os w)) as Hs. rewrite E in Hs. cbn in *. lia.
Qed.

(** A generated label is the [NonEmptyString] of five groups of four characters
    joined by dashes, 24 characters without a lower-case letter, whatever the
    random source gives. *)
Theorem GenerateLabel_shape w :
  (∀ o, String.length (RandomAlphaNumericString 4 o).1 = 4%nat) →
  ∃ s o', GenerateLabel w = (of_lib (NonEmptyString_of_string s), set_os (λ _, o') w) ∧
    String.length s = 24%nat ∧ string_forall (λ c, negb (is_lower c)) s = true.
Proof.
  intros Hr. unfold GenerateLabel, mbind, M_bind, os_call', lift_res.
  destruct (RandomAlphaNumericString 4 (os w)) as [s o] eqn:E.
  destruct (label_loop_run 4 s (set_os (λ _, o) w) Hr) as (l & o' & -> & Hl).
  exists (string_map toupper l), o'. split_and!; [done| |].
  - rewrite string_map_length, Hl. pose proof (Hr (os w)) as Hs. rewrite E in Hs. cbn in *. lia.
  - apply string_map_forall. intros c. by rewrite toupper_not_lower.
Qed.

(** * The test environment *)

(** [GetPmidAndSigner] gives the entry of a valid index and throws for any other
    [int], negative ones included; it changes nothing. *)
Theorem GetPmidAndSigner_spec (index : Z) w :
  (-2 ^ 31 ≤ index < 2 ^ 31) → Z.of_nat (length w.(env).(g_pmids_and_signers)) < 2 ^ 63 →
  GetPmidAndSigner index w =
    (if decide (0 ≤ index) then
       match w.(env).(g_pmids_and_signers) !! Z.to_nat index with
       | Some p => Ok p
       | None => Throw std_exception
       end
     else Throw std_exception, w).
Proof.
  intros Hi Hl. unfold GetPmidAndSigner. mrun. unfold to_u64.
  destruct (decide (0 ≤ index)) as [Hp|Hp].
  - rewrite Z.mod_small by lia. destruct (Z.ltb_spec index (Z.of_nat (length (g_pmids_and_signers (env w))))).
    + by destruct (_ !! _).
    + by rewrite (lookup_ge_None_2 _ _) by lia.
  - assert (E : index mod 2 ^ 64 = index + 2 ^ 64).
    { symmetry. apply Z.mod_unique with (q := -1); lia. }
    rewrite E. destruct (Z.ltb_spec (index + 2 ^ 64) (Z.of_nat (length (g_pmids_and_signers (env w))))); [lia|done].
Qed.

(** What the environment looks like after [n] rounds of the loop. *)
Lemma create_pmids_run n w :
  w.(env).(g_public_pmids) = (λ p, PublicPmid_of_Pmid p.1) <$> w.(env).(g_pmids_and_signers) →
  ∃ l o, create_pmids n w =
      (Ok tt, set_os (λ _, o) (set_env (λ e, mkTestEnvironment e.(test_env_flag)
        e.(g_test_vault_manager_port) e.(g_test_env_root_dir) e.(g_path_to_vault)
        e.(g_using_default_environment) (e.(g_pmids_and_signers) ++ l)
        ((λ p, PublicPmid_of_Pmid p.1) <$> (e.(g_pmids_and_signers) ++ l))) w)) ∧
    length l = n.
Proof.
  revert w. induction n as [|n IH]; intros w Hw.
  - exists [], w.(os). split; [|done]. cbn. unfold mret, M_ret, set_os, set_env. cbn.
    rewrite app_nil_r, <- Hw. by destruct w as [? ? ? ? [] ? ? ? ? ? ?].
  - cbn [create_pmids]. unfold mbind, M_bind, os_call', modify.
    destruct (CreatePmidAndSigner (os w)) as [p o].
    match goal with |- context [create_pmids n ?w'] => destruct (IH w') as (l & o' & Hrun & Hl) end.
    { cbn. by rewrite Hw, fmap_app. }
    exists (p :: l), o'. split; [|by cbn; rewrite Hl].
    rewrite Hrun. f_equal. unfold set_os, set_env. cbn. by rewrite <- app_assoc.
Qed.

(** The environment is set at most once.  The first call with an existing
    directory stores the port and the paths and creates the given number of keys,
    each with its public part; a call with a missing directory throws and leaves
    the environment alone, so that it may be set later; when it has been set a
    call does nothing. *)
Theorem SetEnvironment_spec port root vault n w :
  w.(env).(g_public_pmids) = [] → w.(env).(g_pmids_and_signers) = [] →
  (w.(env).(test_env_flag) = true → SetEnvironment port root vault n w = (Ok tt, w)) ∧
  (w.(env).(test_env_flag) = false →
   match SetEnvironment port root vault n w with
   | (Ok _, w') =>
       ∃ keys, w' = set_os (λ _, w'.(os)) (set_env (λ _, mkTestEnvironment true port root vault
                      false keys ((λ p, PublicPmid_of_Pmid p.1) <$> keys)) w) ∧
         length keys = Z.to_nat n ∧ SetEnvironment port root vault n w' = (Ok tt, w')
   | (Throw _, w') => w'.(env) = w.(env)
   | (Fault _, _) => False
   end).
Proof.
  intros Hp Hk. unfold SetEnvironment. mrun. split; [by intros ->|]. intros ->.
  unfold os_call. destruct (fs_exists root (os w)) as [[[]|e] o1]; mrun; try done.
  destruct (fs_is_directory root _) as [[[]|e] o2]; mrun; try done.
  match goal with |- context [create_pmids _ ?w'] =>
    destruct (create_pmids_run (Z.to_nat n) w') as (l & o' & Hrun & Hl) end.
  { cbn. by rewrite Hp, Hk. }
  rewrite Hrun. exists l. split_and!; [|done|done].
  destruct w as [? ? ? ? [] ? ? ? ? ? ?]. cbn in Hp, Hk. by subst.
Qed.
End utils_theorems.
