(* ===== verification/VaultManager.v ===== *)
(** [class VaultManager] ([vault_manager.h], [vault_manager.cc]): construction, tear-down
    and the handlers of connections and messages, which compose the operations of
    [NewConnections], [ClientConnections], [ProcessManager] and [ConfigFileHandler].
    [run_functor] says what the exit functors do. *)
From S2P Require Export Utils ConfigFile ProcessManager.
From S2P Require NewConnections ClientConnections.
From S2P Require Import Demo.

Section vault_manager.
Context `{P : Platform} `{B : Build} `{A : !Archives}.

(** ** Helpers of the unnamed namespace *)

Definition GetPath (p : string) : M World Path :=
  if TESTING then
    root ← GetTestEnvironmentRootDir;
    base ← (if Path_empty root then mret (Path_of_string GetUserAppDir_string)
            else GetTestEnvironmentRootDir);
    mret (Path_append base p)
  else mret (Path_append (Path_of_string GetSystemAppSupportDir_string) p).

Definition GetConfigFilePath : M World Path := GetPath kConfigFilename.

Definition GetVaultDir (debug_id : string) : M World Path := GetPath debug_id.

Definition GetVaultExecutablePath : M World Path :=
  vault ← (if TESTING then GetPathToVault else mret Path_default);
  if TESTING && negb (Path_empty vault) then GetPathToVault
  else mret (GetOtherExecutablePath "vault").

Definition PutPmidAndSigner (pmid_and_signer : PmidAndSigner) : M World unit := mret tt.

(** ** Exit functors: the closure of [ChangeChunkstorePath] *)
Definition run_functor (f : OnExitFunctor) (error : error_code) (exit_code : Z) : M World unit :=
  match f with
  | ChangeChunkstorePath_on_exit vault_info =>
      AddProcess vault_info 0;;
      all ← GetAll;
      WriteConfigFile all
  end.

(** ** Construction and destruction *)

(** The [do ... while] loop of the constructor, with the number of rounds left: whether
    the keys were stored. *)
Fixpoint put_until_stored (fuel : nat) (pmid_and_signer : PmidPtr) : M World bool :=
  match fuel with
  | O => mret false
  | S fuel =>
      stored ← try_ (p ← deref_pmid pmid_and_signer; PutPmidAndSigner p;; mret true)
               catch _ ⇒ mret false;
      if stored : bool then mret true else put_until_stored fuel pmid_and_signer
  end.

(** The first vault of a release build. *)
Definition StartFirstVault : M World unit :=
  keys ← os_call' CreatePmidAndSigner;
  pmid_and_signer ← make_shared_pmid keys;
  _ ← put_until_stored 1 pmid_and_signer;
  p ← deref_pmid pmid_and_signer;
  dir ← GetVaultDir (DebugId (Pmid_name p.1));
  there ← os_call (fs_exists dir);
  (if there : bool then mret tt else os_call (fs_create_directories dir));;
  available ← os_call (fs_space_available dir);
  lab ← GenerateLabel;
  AddProcess (set_label lab (set_owner Identity_default (to_u64 (9 * available) / 10)
                (set_dir dir (set_pmid pmid_and_signer VaultInfo_default)))) 0;;
  all ← GetAll;
  WriteConfigFile all.

(** [VaultManager::VaultManager()] *)
Definition VaultManager_make : M World unit :=
  config_path ← GetConfigFilePath;
  ConfigFileHandler_make config_path;;
  modify (set_network_stable false);;
  modify (set_tear_down false);;
  port ← GetInitialListeningPort;
  listening_port ← os_call (tcp_listen port);
  vault ← GetVaultExecutablePath;
  ProcessManager_make vault listening_port;;
  modify (set_cc (λ _, ClientConnections.ClientConnections_make));;
  modify (set_nc (λ _, NewConnections.NewConnections_make));;
  vaults ← ReadConfigFile;
  match vaults with
  | [] => if TESTING then mret tt else StartFirstVault
  | _ => for_each (λ vault_info, AddProcess vault_info 0) vaults
  end.

(** [void TearDownWithInterval()] *)
Definition TearDownWithInterval : M World unit :=
  modify (set_tear_down true);;
  emit StoppedListening;;
  NewConnections.CloseAll;;
  ClientConnections.CloseAll;;
  StopAllWithInterval.

(** [VaultManager::~VaultManager()] *)
Definition VaultManager_destroy : M World unit :=
  torn_down ← gets tear_down_with_interval_;
  if torn_down : bool then mret tt else
    emit StoppedListening;;
    NewConnections.CloseAll;;
    ClientConnections.CloseAll;;
    StopAll.

(** ** Connections *)

(** [void HandleNewConnection(tcp::ConnectionPtr)] *)
Definition HandleNewConnection (connection : ConnectionPtr) : M World unit :=
  NewConnections.Add connection;;
  if (connection =? null_connection)%N then crash null_deref else emit (Started connection).

(** [void HandleConnectionClosed(tcp::ConnectionPtr)] *)
Definition HandleConnectionClosed (connection : ConnectionPtr) : M World unit :=
  vault ← ProcessManager.HandleConnectionClosed run_functor connection;
  client ← (if vault : bool then mret true else ClientConnections.Remove connection);
  if client : bool then mret tt else
    _ ← NewConnections.Remove connection; mret tt.

(** [void RemoveFromNewConnections(tcp::ConnectionPtr)] *)
Definition RemoveFromNewConnections (connection : ConnectionPtr) : M World unit :=
  removed ← NewConnections.Remove connection;
  if removed : bool then mret tt else raise connection_not_found.

(** ** Messages from clients *)

(** [void HandleValidateConnectionRequest(tcp::ConnectionPtr)] *)
Definition HandleValidateConnectionRequest (connection : ConnectionPtr) : M World unit :=
  RemoveFromNewConnections connection;;
  b ← os_call' (RandomBytes 100 200);
  let plain_text := PlainText_of_bytes b in
  ClientConnections.Add connection plain_text;;
  Send connection (Challenge_ (mkChallenge plain_text)).

(** [void HandleChallengeResponse(tcp::ConnectionPtr, ChallengeResponse&&)] *)
Definition HandleChallengeResponse (connection : ConnectionPtr) (r : ChallengeResponse) :
  M World unit :=
  match r.(public_maid) with
  | None => crash null_deref
  | Some maid => ClientConnections.Validate connection maid r.(signature)
  end.

(** A handler's local [VaultInfo vault_info], next to the process. *)
Definition in_process {T} (m : M World T) : M (World * VaultInfo) T :=
  zoom fst (λ w s, (w, s.2)) m.
Definition local : M (World * VaultInfo) VaultInfo := gets snd.
Definition assign_local (f : VaultInfo → VaultInfo) : M (World * VaultInfo) unit :=
  modify (λ s, (s.1, f s.2)).
Definition with_local {T} (v : VaultInfo) (m : M (World * VaultInfo) T) : M World T := λ w,
  let '(r, (w', _)) := m (w, v) in (r, w').

(** The code of a caught exception; [error] starts as [unknown]. *)
Definition error_of (e : exn) : error_code :=
  match e with maidsafe_error c => c | std_exception => unknown end.

(** The parts of the [try] of [HandleStartVaultRequest]: the keys of the vault, those
    of the requested index or fresh ones, *)
Definition StartVaultKeys (q : StartVaultRequest) : M (World * VaultInfo) unit :=
  (match (if TESTING then q.(svr_pmid_list_index) else None) with
   | Some index =>
       keys ← in_process (GetPmidAndSigner index);
       p ← in_process (make_shared_pmid keys);
       assign_local (set_pmid p)
   | None => mret tt
   end);;
  vault_info ← local;
  (if bool_decide (vault_info.(pmid_and_signer) = None) then
     keys ← in_process (os_call' CreatePmidAndSigner);
     p ← in_process (make_shared_pmid keys);
     assign_local (set_pmid p);;
     k ← in_process (deref_pmid p);
     in_process (PutPmidAndSigner k)
   else mret tt).

(** its directory, *)
Definition StartVaultDir (q : StartVaultRequest) : M (World * VaultInfo) unit :=
  if Path_empty q.(svr_vault_dir) then
    vault_info ← local;
    k ← in_process (deref_pmid vault_info.(pmid_and_signer));
    dir ← in_process (GetVaultDir (hex_Substr (Pmid_name k.1)));
    assign_local (set_dir dir);;
    there ← in_process (os_call (fs_exists dir));
    if there : bool then mret tt else in_process (os_call (fs_create_directories dir))
  else assign_local (set_dir q.(svr_vault_dir)).

(** its logging options, *)
Definition StartVaultVlog (q : StartVaultRequest) : M (World * VaultInfo) unit :=
  if USE_VLOGGING then
    assign_local (λ i, set_vlog q.(svr_vlog_session_id)
                         i.(send_hostname_to_visualiser_server) i);;
    if TESTING then
      assign_local (λ i, set_vlog i.(vlog_session_id)
                           q.(svr_send_hostname_to_visualiser_server) i)
    else mret tt
  else mret tt.

(** and the whole body: the local is moved into [AddProcess]. *)
Definition TryStartVault (connection : ConnectionPtr) (q : StartVaultRequest) :
  M (World * VaultInfo) unit :=
  client_name ← in_process (ClientConnections.FindValidated connection);
  assign_local (set_label q.(svr_vault_label));;
  assign_local (λ i, set_owner i.(owner_name) q.(svr_max_disk_usage) i);;
  assign_local (λ i, set_owner client_name i.(max_disk_usage) i);;
  StartVaultKeys q;;
  StartVaultDir q;;
  StartVaultVlog q;;
  vault_info ← local;
  assign_local (λ i, (VaultInfo_move i).2);;
  in_process (AddProcess (VaultInfo_move vault_info).1 0);;
  all ← in_process GetAll;
  in_process (WriteConfigFile all).

(** [void HandleStartVaultRequest(tcp::ConnectionPtr, StartVaultRequest&&)] *)
Definition HandleStartVaultRequest (connection : ConnectionPtr) (q : StartVaultRequest) :
  M World unit :=
  with_local VaultInfo_default (
    error ← try_ (TryStartVault connection q;; mret None) catch e ⇒ mret (Some (error_of e));
    match error with
    | None => mret tt
    | Some error =>
        vault_info ← local;
        in_process (Send connection
          (VaultRunningResponse_ (VaultRunningResponse_error vault_info.(label) error)))
    end).

(** [void ChangeChunkstorePath(VaultInfo)] *)
Definition ChangeChunkstorePath (vault_info : VaultInfo) : M World unit :=
  Send vault_info.(tcp_connection) VaultShutdownRequest_;;
  StopProcess vault_info.(tcp_connection) (Some (ChangeChunkstorePath_on_exit vault_info)).

(** [std::move] of [*pmid_and_signer] into a parameter: the shared object is left in its
    moved-from state. *)
Definition move_shared_pmid (p : PmidPtr) : M World PmidAndSigner :=
  keys ← deref_pmid p;
  modify (set_pmids (λ l, match p with
                          | Some i => alter PmidAndSigner_moved_from i l
                          | None => l
                          end));;
  mret keys.

(** The body of the [try] of [HandleTakeOwnershipRequest], with its own
    [vault_info]. *)
Definition TryTakeOwnership (connection : ConnectionPtr) (q : TakeOwnershipRequest) :
  M World unit :=
  client_name ← ClientConnections.FindValidated connection;
  let lab := q.(tor_vault_label) in
  let new_vault_dir := q.(tor_vault_dir) in
  let new_max_disk_usage := q.(tor_max_disk_usage) in
  vault_info ← Find lab;
  if negb (bool_decide (vault_info.(vault_dir) = new_vault_dir)) then
    ChangeChunkstorePath (set_owner client_name new_max_disk_usage (set_dir new_vault_dir vault_info))
  else
    (if negb (vault_info.(max_disk_usage) =? new_max_disk_usage) && negb (new_max_disk_usage =? 0)
     then Send vault_info.(tcp_connection) (MaxDiskUsageUpdate_ (mkMaxDiskUsageUpdate new_max_disk_usage))
     else mret tt);;
    AssignOwner lab client_name new_max_disk_usage;;
    all ← GetAll;
    WriteConfigFile all;;
    keys ← move_shared_pmid vault_info.(pmid_and_signer);
    response ← os_call' (VaultRunningResponse_keys lab keys);
    Send connection (VaultRunningResponse_ response).

(** [void HandleTakeOwnershipRequest(tcp::ConnectionPtr, TakeOwnershipRequest&&)]: the
    [vault_info] of the error response is the outer one, never assigned. *)
Definition HandleTakeOwnershipRequest (connection : ConnectionPtr) (q : TakeOwnershipRequest) :
  M World unit :=
  error ← try_ (TryTakeOwnership connection q;; mret None) catch e ⇒ mret (Some (error_of e));
  match error with
  | None => mret tt
  | Some error =>
      Send connection (VaultRunningResponse_
        (VaultRunningResponse_error VaultInfo_default.(label) error))
  end.

(** [void HandleSetNetworkAsStable()]: the closure runs at once on the service's
    only thread. *)
Definition HandleSetNetworkAsStable : M World unit :=
  all_clients ← ClientConnections.GetAll;
  for_each (λ client, Send client NetworkStableResponse_) all_clients;;
  modify (set_network_stable true).

(** [void HandleNetworkStableRequest(tcp::ConnectionPtr)] *)
Definition HandleNetworkStableRequest (connection : ConnectionPtr) : M World unit :=
  stable ← gets network_stable_;
  if stable : bool then Send connection NetworkStableResponse_ else mret tt.

(** ** Messages from vaults *)

(** [void HandleVaultStarted(tcp::ConnectionPtr, VaultStarted&&)] *)
Definition HandleVaultStarted (connection : ConnectionPtr) (v : VaultStarted) : M World unit :=
  RemoveFromNewConnections connection;;
  vault_info ← ProcessManager.HandleVaultStarted connection v.(process_id);
  key ← SymmKeyAndIV;
  keys ← deref_pmid vault_info.(pmid_and_signer);
  pmids ← GetPublicPmids;
  Send vault_info.(tcp_connection)
    (VaultStartedResponse_ (VaultStartedResponse_make keys.1 pmids vault_info key));;
  if Identity_IsInitialised vault_info.(owner_name) then
    try_ (client ← ClientConnections.FindValidatedName vault_info.(owner_name);
          keys ← deref_pmid vault_info.(pmid_and_signer);
          response ← os_call' (VaultRunningResponse_keys vault_info.(label) keys);
          Send client (VaultRunningResponse_ response))
    catch _ ⇒ mret tt
  else mret tt.

(** [void HandleJoinedNetwork(tcp::ConnectionPtr)] *)
Definition HandleJoinedNetwork (connection : ConnectionPtr) : M World unit :=
  try_ (vault_info ← FindConnection connection;
        keys ← deref_pmid vault_info.(pmid_and_signer);
        let log_message := "Vault running as " +:+ hex_Substr (Pmid_name keys.1) in
        client ← ClientConnections.FindValidatedName vault_info.(owner_name);
        Send client (LogMessage_ (mkLogMessage log_message)))
  catch _ ⇒ mret tt.

(** [void HandleLogMessage(tcp::ConnectionPtr, LogMessage&&)] *)
Definition HandleLogMessage (connection : ConnectionPtr) (log_message : LogMessage) :
  M World unit :=
  try_ (vault_info ← FindConnection connection;
        client ← ClientConnections.FindValidatedName vault_info.(owner_name);
        Send client (LogMessage_ log_message))
  catch _ ⇒ mret tt.

(** ** Dispatch *)

(** The [switch] of [HandleReceivedMessage] on the parsed tag. *)
Definition dispatch (connection : ConnectionPtr) (tag : MessageTag) (body : bytes) : M World unit :=
  match tag with
  | kValidateConnectionRequest => HandleValidateConnectionRequest connection
  | kChallengeResponse =>
      m ← lift_res (Parse ChallengeResponse_codec body); HandleChallengeResponse connection m
  | kStartVaultRequest =>
      m ← lift_res (Parse StartVaultRequest_codec body); HandleStartVaultRequest connection m
  | kTakeOwnershipRequest =>
      m ← lift_res (Parse TakeOwnershipRequest_codec body); HandleTakeOwnershipRequest connection m
  | kVaultStarted =>
      m ← lift_res (Parse VaultStarted_codec body); HandleVaultStarted connection m
  | kJoinedNetwork => HandleJoinedNetwork connection
  | kSetNetworkAsStable => if TESTING then HandleSetNetworkAsStable else mret tt
  | kNetworkStableRequest => if TESTING then HandleNetworkStableRequest connection else mret tt
  | kLogMessage =>
      m ← lift_res (Parse LogMessage_codec body); HandleLogMessage connection m
  | _ => mret tt
  end.

(** [void HandleReceivedMessage(tcp::ConnectionPtr, tcp::Message&&)] *)
Definition HandleReceivedMessage (connection : ConnectionPtr) (message : bytes) : M World unit :=
  try_ ('(tag, body) ← lift_res (ParseTag message); dispatch connection tag body)
  catch _ ⇒ mret tt.
End vault_manager.

(** One round of [put_until_stored] is enough, since [PutPmidAndSigner] never fails; and any
    number of rounds gives the same. *)
Lemma put_until_stored_enough `{P : Platform} n p keys (w : World) :
  deref_pmid p w = (Ok keys, w) → put_until_stored (S n) p w = (Ok true, w).
Proof.
  intros H. cbn [put_until_stored]. unfold mbind, M_bind, try_catch. rewrite H. done.
Qed.
