(* ===== verification/System.v ===== *)
(** The running VaultManager as a transition system: the events that the network, the
    operating system and the timers deliver, each handled by the code's handler, and
    the invariant that holds in every state it reaches. *)
From S2P Require Export Vaults VaultManager.
From S2P Require NewConnections ClientConnections.
From S2P Require Import Demo.

(** * Events *)
Section events.
Context `{P : Platform} `{B : Build} `{A : !Archives}.

Inductive Event : Type :=
| NewConnection (connection : ConnectionPtr)
| MessageReceived (connection : ConnectionPtr) (message : bytes)
| ConnectionClosed (connection : ConnectionPtr)
| SignalReceived (r : WaitResult) (signum : Z)
| VaultTimer (index : nat) (r : WaitResult)
| NewConnectionTimer (connection : ConnectionPtr) (r : WaitResult)
| UnvalidatedTimer (connection : ConnectionPtr) (r : WaitResult)
| RunNext.

(** The handler of a finished wait. *)
Definition run_handler (h : Handler) (r : WaitResult) : M World unit :=
  match h with
  | on_start_timer lab => OnStartTimer run_functor lab r
  | on_stop_timer lab => OnStopTimer run_functor lab r
  | on_new_connection_timer connection => NewConnections.OnTimer connection r
  | on_unvalidated_client_timer connection => ClientConnections.OnTimer connection r
  end.

Definition run_work (k : Work) : M World unit :=
  match k with
  | WaitHandler h r => run_handler h r
  | RestartVault vault_info restarts => OnRestart vault_info restarts
  end.

(** The waits of a timer end with [r]: their handlers become ready. *)
Definition fire (t : Timer) (r : WaitResult) : M World unit :=
  modify (set_queue (λ q, q ++ ((λ h, WaitHandler h r) <$> t.(waits)))).

(** What the process does on an event. *)
Definition handle (e : Event) : M World unit :=
  match e with
  | NewConnection connection => HandleNewConnection connection
  | MessageReceived connection message => HandleReceivedMessage connection message
  | ConnectionClosed connection => VaultManager.HandleConnectionClosed connection
  | SignalReceived r signum =>
      waiting ← gets (λ w, w.(pm).(signal_waiting_));
      if waiting : bool then OnSignal run_functor r signum else mret tt
  | VaultTimer index r =>
      c ← gets (λ w, vaults w !! index);
      match c with
      | Some c =>
          update_child index (set_timer timer_cancel);;
          fire c.(timer) r
      | None => mret tt
      end
  | NewConnectionTimer connection r =>
      t ← gets (λ w, w.(nc).(connections_) !! connection);
      match t with
      | Some t =>
          modify (NewConnections.set_connections <[connection := timer_cancel t]>);;
          fire t r
      | None => mret tt
      end
  | UnvalidatedTimer connection r =>
      t ← gets (λ w, w.(cc).(unvalidated_clients_) !! connection);
      match t with
      | Some (challenge, t) =>
          modify (ClientConnections.set_unvalidated <[connection := (challenge, timer_cancel t)]>);;
          fire t r
      | None => mret tt
      end
  | RunNext =>
      q ← gets queue;
      match q with
      | k :: q' => modify (set_queue (λ _, q'));; run_work k
      | [] => mret tt
      end
  end.
End events.

(** * The invariant *)
Section invariant.
Context `{P : Platform}.
Implicit Types w : World.

Abbreviation accepted w k := (is_Some (w.(nc).(connections_) !! k)).
Abbreviation client w k := (is_Some (ClientConnections.table w.(cc) !! k)).

Record system_wf (w : World) : Prop := {
  sys_pm : pm_wf w;
  sys_cc : ClientConnections.cc_wf w.(cc);
  sys_nc : w.(nc).(connections_) !! null_connection = None;
  sys_nc_timers : map_Forall (λ _ t, Forall handler_ok t.(waits)) w.(nc).(connections_);
  sys_cc_timers : map_Forall (λ _ t, Forall handler_ok t.2.(waits)) w.(cc).(unvalidated_clients_);
  (** A connection has one role at most: silent so far, a client's or a vault's. *)
  sys_accepted : ∀ k, accepted w k → ¬ client w k ∧ ¬ (k ≠ null_connection ∧ holds w k);
  sys_client : ∀ k, client w k → ¬ (k ≠ null_connection ∧ holds w k);
}.

(** What the environment guarantees: an accepted connection is a new object, and
    events come from connections that exist. *)
Definition event_ok (w : World) (e : Event) : Prop :=
  match e with
  | NewConnection k =>
      k ≠ null_connection ∧ ¬ accepted w k ∧ ¬ client w k ∧ ¬ holds w k
  | MessageReceived k _ | ConnectionClosed k => k ≠ null_connection
  | _ => True
  end.

(** [m] does not reach undefined behaviour and keeps the invariant of the process. *)
Abbreviation ssafe := (isafe system_wf).

(** A good end of an operation of the manager of processes keeps the invariant of
    the process, when the connections it takes on have no other role. *)
Lemma good_system new w w' :
  system_wf w → good new w w' → (∀ k, k ∈ new → ¬ accepted w k ∧ ¬ client w k) → system_wf w'.
Proof.
  intros [H1 H2 H3 H4 H5 H6 H7] [Hg Hf Hc] Hnew. destruct Hf as [F1 F2 F3 F4 F5 F6].
  split; rewrite ?F3, ?F4; try done.
  - intros k Hk. destruct (H6 k Hk) as [? Hh]. split; [done|]. intros [Hn Hk'].
    destruct (Hc k Hn Hk'); [tauto|]. by destruct (Hnew k).
  - intros k Hk. intros [Hn Hk']. destruct (Hc k Hn Hk') as [|Hin].
    + by apply (H7 k).
    + by destruct (Hnew k Hin).
Qed.

Lemma safe_system {T} (m : M World T) w : system_wf w → safe [] m w → ssafe m w.
Proof.
  intros Hw [Hr Hg]. split; [done|]. eapply good_system; [done..|]. by intros k ?%elem_of_nil.
Qed.

(** Changes of parts the invariant does not read. *)
Lemma system_same w w' :
  system_wf w → (∀ n : nat, is_Some (w.(pmids) !! n) → is_Some (w'.(pmids) !! n)) →
  w'.(pm) = w.(pm) → w'.(queue) = w.(queue) → w'.(cc) = w.(cc) → w'.(nc) = w.(nc) →
  system_wf w'.
Proof.
  intros [H1 H2 H3 H4 H5 H6 H7] Hs Hp Hq Hc Hn.
  assert (Hv : vaults w' = vaults w) by (unfold vaults; by rewrite Hp).
  assert (Hh : ∀ k, holds w' k ↔ holds w k) by (unfold holds; by rewrite Hv).
  split; rewrite ?Hc, ?Hn; try done.
  - by eapply pm_wf_same.
  - intros k Hk. rewrite Hh. auto.
  - intros k Hk. rewrite Hh. auto.
Qed.
End invariant.

(** * The exit functors implement their interface *)
Section functors.
Context `{P : Platform} `{B : Build} `{A : !Archives}.
Context `{AL : !ArchiveLaws} `{AS : !ArchiveSafety}.
Implicit Types w : World.

Lemma save_vault_safe store key v : has_pmid store v → is_Fault (save_vault store key v) = false.
Proof.
  intros (k & Hk & [p Hp]). unfold save_vault. rewrite Hk. cbn -[entry_codec]. rewrite Hp.
  assert (Hc : codec_safe entry_codec) by (unfold entry_codec; codec_solve).
  apply Res_bind_safe; [apply Hc|]. intros b1 _. apply Res_bind_safe; [|done].
  destruct (Identity_IsInitialised _); [apply ar_Identity_safe|done].
Qed.

Lemma save_vaults_safe store key l :
  Forall (has_pmid store) l → is_Fault (save_vaults store key l) = false.
Proof.
  induction 1 as [|v l Hv Hl IH]; [done|]. cbn [save_vaults].
  apply Res_bind_safe; [by apply save_vault_safe|]. intros b1 _.
  by apply Res_bind_safe.
Qed.

Lemma ConfigFile_save_safe store c :
  Forall (has_pmid store) c.(vaults_in_file) → is_Fault (ConfigFile_save store c) = false.
Proof.
  intros Hc. unfold ConfigFile_save.
  assert (codec_safe (ar_AES256KeyAndIV ⊗ ar_u64)) as Hh by codec_solve.
  apply Res_bind_safe; [apply Hh|]. intros b1 _. by apply Res_bind_safe; [apply save_vaults_safe|].
Qed.

(** Writing the file touches the machine and the trace only. *)
Lemma WriteConfigFile_outside l w :
  let w' := (WriteConfigFile l w).2 in
  frame w w' ∧ w'.(pm) = w.(pm) ∧ w'.(queue) = w.(queue).
Proof.
  unfold WriteConfigFile, write_config, os_call', emit. mrun.
  destruct (ConfigFile_save _ _) as [bs|e|f]; mrun; [|by split_and!..].
  destruct (WriteFile _ _ _) as [[] o]; mrun; by split_and!.
Qed.

Lemma WriteConfigFile_launched l w : launched (WriteConfigFile l w).2 = launched w.
Proof.
  unfold WriteConfigFile, write_config, os_call', emit, launched. mrun.
  destruct (ConfigFile_save _ _) as [bs|e|f]; mrun; [|done..].
  destruct (WriteFile _ _ _) as [[] o]; mrun; [|done].
  by rewrite List.filter_app, app_nil_r.
Qed.

Lemma WriteConfigFile_safe new l w :
  pm_wf w → Forall (has_pmid w.(pmids)) l → safe new (WriteConfigFile l) w.
Proof.
  intros Hw Hl. destruct (WriteConfigFile_outside l w) as (Hf & Hp & Hq).
  split; [|by apply good_outside]. clear Hf Hp Hq.
  unfold WriteConfigFile, write_config, os_call', emit. mrun.
  pose proof (ConfigFile_save_safe w.(pmids) (mkConfigFile (kSymmKeyAndIV_ (cfg w)) l) Hl) as Hs.
  destruct (ConfigFile_save _ _) as [bs|e|f]; mrun; [|done..].
  by destruct (WriteFile _ _ _) as [[] o].
Qed.

(** [WriteConfigFile(process_manager_->GetAll())] *)
Lemma WriteAll_safe new w :
  pm_wf w → safe new (all ← GetAll; WriteConfigFile all) w.
Proof.
  intros Hw. apply safe_bind; [by apply safe_gets|]. intros all w' E Hg.
  unfold GetAll, gets in E. simplify_eq. apply WriteConfigFile_safe; [done|].
  apply Forall_fmap. apply pm_wf_has_pmid in Hw. done.
Qed.

#[export] Instance run_functor_ok : ExitFunctors run_functor.
Proof.
  split; intros [i] ec z w Hw Hi; cbn [run_functor functor_info] in *.
  - apply safe_bind; [by apply AddProcess_safe|]. intros [] w' _ Hg. apply WriteAll_safe, Hg.
  - apply wp_bind. unfold wp at 1. rewrite AddProcess_run by (done || by apply pm_wf_pointers).
    destruct (decide _); [by split; [|left]|]. destruct (decide _); [by split; [|left]|].
    destruct (bp_execute _ _ _) as [[pid|e] os']; [|by split; [|left]].
    cbn [fst snd]. apply wp_bind. unfold wp at 1, GetAll, gets. cbn [fst snd].
    match goal with |- wp (WriteConfigFile ?l) _ ?w1 =>
      destruct (WriteConfigFile_outside l w1) as (_ & Hp & Hq);
      pose proof (WriteConfigFile_launched l w1) as Hl end.
    split; [exact Hq|]. right. exists pid. split; [exact (f_equal vaults_ Hp)|].
    rewrite Hl. unfold launched. cbn. by rewrite List.filter_app, length_app, Nat.add_comm.
Qed.
End functors.

(** * Every handler keeps it *)
Section handlers.
Context `{P : Platform} `{B : Build} `{A : !Archives}.
Context `{AL : !ArchiveLaws} `{AS : !ArchiveSafety}.
Implicit Types w : World.

Abbreviation accepted w k := (is_Some (w.(nc).(connections_) !! k)).
Abbreviation client w k := (is_Some (ClientConnections.table w.(cc) !! k)).
Abbreviation ssafe := (isafe system_wf).

(** ** Changes of the client connections and of the new connections *)

Lemma system_cc w c' :
  system_wf w → ClientConnections.cc_wf c' →
  map_Forall (λ _ t, Forall handler_ok t.2.(waits)) c'.(unvalidated_clients_) →
  (∀ k, is_Some (ClientConnections.table c' !! k) →
     client w k ∨ (¬ accepted w k ∧ ¬ (k ≠ null_connection ∧ holds w k))) →
  system_wf (set_cc (λ _, c') w).
Proof.
  intros [H1 H2 H3 H4 H5 H6 H7] Hwf Ht Hk. split; try done.
  - by eapply pm_wf_same.
  - intros k Ha. destruct (H6 k Ha) as [? ?]. split; [|done]. intros Hc.
    destruct (Hk k Hc); tauto.
  - intros k Hc. destruct (Hk k Hc) as [Hcl|[_ Hn]]; [|done]. by apply H7.
Qed.

Lemma system_nc w n' :
  system_wf w → n' !! null_connection = None →
  map_Forall (λ _ t, Forall handler_ok t.(waits)) n' →
  (∀ k, is_Some (n' !! k) →
     accepted w k ∨ (¬ client w k ∧ ¬ (k ≠ null_connection ∧ holds w k))) →
  system_wf (set_nc (λ _, mkNewConnections n') w).
Proof.
  intros [H1 H2 H3 H4 H5 H6 H7] Hwf Ht Hk. split; try done.
  - by eapply pm_wf_same.
  - intros k Ha. destruct (Hk k Ha) as [Hac|?]; [|done]. by apply H6.
Qed.

Lemma system_nc_delete w k :
  system_wf w → system_wf (NewConnections.set_connections (delete k) w).
Proof.
  intros Hw. pose proof Hw as [H1 H2 H3 H4 H5 H6 H7]. apply system_nc; [done|..].
  - apply lookup_delete_None. by right.
  - by apply map_Forall_delete.
  - intros j [t Hj]. apply lookup_delete_Some in Hj as [_ Hj]. left. by eexists.
Qed.

Lemma Remove_new_ssafe k w : system_wf w → ssafe (NewConnections.Remove k) w.
Proof.
  intros Hw. unfold isafe, wp. rewrite NewConnections.NewRemove_run. split; [done|].
  by apply system_nc_delete.
Qed.

Lemma Add_new_ssafe k w :
  system_wf w → k ≠ null_connection → ¬ accepted w k → ¬ client w k → ¬ holds w k →
  ssafe (NewConnections.Add k) w.
Proof.
  intros Hw Hn Ha Hc Hh. unfold isafe, wp. rewrite NewConnections.NewAdd_run.
  destruct (connections_ (nc w) !! k) eqn:E; [destruct Ha; by eexists|]. split; [done|].
  pose proof Hw as [H1 H2 H3 H4 H5 H6 H7]. apply system_nc; [done|..].
  - by rewrite lookup_insert_ne.
  - apply map_Forall_insert_2; [|done]. by constructor.
  - intros j [t Hj]. apply lookup_insert_Some in Hj as [[<- _]|[_ Hj]]; [right; tauto|left; by eexists].
Qed.

Lemma Close_ssafe k w : system_wf w → k ≠ null_connection → ssafe (Close k) w.
Proof.
  intros Hw Hk. unfold Close. destruct (N.eqb_spec k null_connection); [done|].
  split; [done|]. by eapply system_same.
Qed.

Lemma Send_ssafe k m w :
  system_wf w → k ≠ null_connection → message_ok m → ssafe (Send k m) w.
Proof.
  intros Hw Hk Hm. unfold Send. apply isafe_bind; [apply isafe_lift_res; [by apply Serialise_safe|done]|].
  intros bs w' _ Hw'. destruct (N.eqb_spec k null_connection); [done|].
  split; [done|]. by eapply system_same.
Qed.

Lemma os_call_ssafe {T} (f : OS → Lib T * OS) w : system_wf w → ssafe (os_call f) w.
Proof.
  intros Hw. unfold isafe, wp, os_call. destruct (f (os w)) as [r o]. split; [apply of_lib_safe|].
  by eapply system_same.
Qed.

Lemma os_call'_ssafe {T} (f : OS → T * OS) w : system_wf w → ssafe (os_call' f) w.
Proof.
  intros Hw. unfold isafe, wp, os_call'. destruct (f (os w)) as [r o]. split; [done|].
  by eapply system_same.
Qed.

Lemma client_not_null w k : system_wf w → client w k → k ≠ null_connection.
Proof.
  intros Hw [s Hs] ->. destruct (sys_cc _ Hw) as (_ & H1 & H2).
  rewrite ClientConnections.table_lookup, H1, H2 in Hs. done.
Qed.

Lemma Add_client_ssafe k ch w :
  system_wf w → k ≠ null_connection → ¬ accepted w k → ¬ client w k → ¬ holds w k →
  ssafe (ClientConnections.Add k ch) w.
Proof.
  intros Hw Hn Ha Hc Hh.
  assert (Ht : ClientConnections.table (cc w) !! k = None) by by apply eq_None_not_Some.
  unfold isafe, wp. rewrite ClientConnections.Add_run by done. split; [done|].
  pose proof Hw as [H1 H2 H3 H4 H5 H6 H7]. apply system_cc; [done|..].
  - pose proof (ClientConnections.refines_Add w k ch H2 Hn Ht) as (_ & _ & Hwf & _).
    cbn in Hwf. unfold mbind, M_bind in Hwf. by rewrite ClientConnections.Add_run in Hwf by done.
  - apply map_Forall_insert_2; [|done]. by constructor.
  - intros j Hj. destruct (decide (j = k)) as [->|Hne]; [right; tauto|]. left.
    rewrite ClientConnections.table_lookup in Hj |- *. cbn in Hj.
    by rewrite lookup_insert_ne in Hj by done.
Qed.

Lemma Validate_ssafe k m s w : system_wf w → ssafe (ClientConnections.Validate k m s) w.
Proof.
  intros Hw. pose proof Hw as [H1 H2 H3 H4 H5 H6 H7].
  destruct (unvalidated_clients_ (cc w) !! k) as [[ch t]|] eqn:Hu.
  - assert (Hcl : client w k).
    { rewrite ClientConnections.table_lookup, Hu. by destruct (clients_ (cc w) !! k). }
    assert (Hc : clients_ (cc w) !! k = None).
    { destruct (clients_ (cc w) !! k) eqn:E; [|done]. destruct H2 as [Hd _].
      rewrite Hd in Hu; [done|by eexists]. }
    destruct (CheckSignature ch s (PublicMaid_public_key m)) eqn:Hs.
    + unfold isafe, wp. erewrite ClientConnections.Validate_run_good by done. split; [done|].
      apply (system_cc w (mkClientConnections (delete k (unvalidated_clients_ (cc w)))
               (<[k:=PublicMaid_Name m]> (clients_ (cc w))))); [done|..].
      * pose proof (ClientConnections.refines_Validate w k m s H2) as (_ & _ & Hwf & _).
        cbn in Hwf. unfold mbind, M_bind in Hwf.
        by erewrite ClientConnections.Validate_run_good in Hwf by done.
      * by apply map_Forall_delete.
      * intros j Hj. left. destruct (decide (j = k)) as [->|Hne]; [done|].
        rewrite ClientConnections.table_lookup in Hj |- *. cbn in Hj.
        by rewrite lookup_insert_ne, lookup_delete_ne in Hj by done.
    + eapply isafe_run; [by eapply ClientConnections.Validate_run_bad, Hs; [|by eapply client_not_null]|done|].
      by eapply system_same.
  - eapply isafe_run; [by apply ClientConnections.Validate_run_unknown|done..].
Qed.

Lemma Remove_client_ssafe k w : system_wf w → ssafe (ClientConnections.Remove k) w.
Proof.
  intros Hw. pose proof Hw as [H1 H2 H3 H4 H5 H6 H7].
  pose proof (ClientConnections.refines_Remove w k H2) as (_ & Ht & Hwf & _).
  cbn in Ht, Hwf. unfold mbind, M_bind in Ht, Hwf. unfold isafe, wp.
  rewrite ClientConnections.Remove_run in *. unfold ClientConnections.cw in *.
  assert (Hsub : ∀ c', ClientConnections.table c' = delete k (ClientConnections.table (cc w)) →
    ∀ j, is_Some (ClientConnections.table c' !! j) → client w j).
  { intros c' -> j [x Hj]. apply lookup_delete_Some in Hj as [_ Hj]. by eexists. }
  destruct (clients_ (cc w) !! k); [|destruct (unvalidated_clients_ (cc w) !! k)];
    (split; [done|]); [apply system_cc; try done; intros j Hj; left; by eapply Hsub, Hj|
                       apply system_cc; try done; [by apply map_Forall_delete|intros j Hj; left; by eapply Hsub, Hj]|done].
Qed.

(** ** The connections handlers *)

Lemma fresh_not_connection w k :
  k ≠ null_connection → ¬ holds w k → k ∉ vault_connection <$> vaults w.
Proof.
  intros Hn Hh (c & -> & Hc)%list_elem_of_fmap. apply Hh. exists c. split; [done|by left].
Qed.

Lemma HandleNewConnection_ssafe k w :
  system_wf w → event_ok w (NewConnection k) → ssafe (HandleNewConnection k) w.
Proof.
  intros Hw (Hn & Ha & Hc & Hh). unfold HandleNewConnection.
  apply isafe_bind; [by apply Add_new_ssafe|]. intros [] w' _ Hw'.
  destruct (N.eqb_spec k null_connection); [done|]. split; [done|]. by eapply system_same.
Qed.

Lemma VM_HandleConnectionClosed_ssafe k w :
  system_wf w → ssafe (VaultManager.HandleConnectionClosed k) w.
Proof.
  intros Hw. unfold VaultManager.HandleConnectionClosed.
  apply isafe_bind; [apply safe_system; [done|apply HandleConnectionClosed_safe, Hw; apply _]|].
  intros [] w1 _ Hw1; [by apply isafe_bind; [apply isafe_ret|intros [] ? ? ?; apply isafe_ret]|].
  apply isafe_bind; [by apply Remove_client_ssafe|]. intros [] w2 _ Hw2; [by apply isafe_ret|].
  apply isafe_bind; [by apply Remove_new_ssafe|]. intros ? w3 _ Hw3. by apply isafe_ret.
Qed.

(** A connection taken off the silent ones has no role any more. *)
Lemma RemoveFromNewConnections_run k w :
  RemoveFromNewConnections k w =
    (if decide (accepted w k) then Ok tt else Throw (maidsafe_error connection_not_found),
     NewConnections.set_connections (delete k) w).
Proof.
  unfold RemoveFromNewConnections, mbind, M_bind. rewrite NewConnections.NewRemove_run.
  destruct (decide (accepted w k)); [by rewrite bool_decide_true|by rewrite bool_decide_false].
Qed.

Lemma taken_off k w w' a :
  system_wf w → RemoveFromNewConnections k w = (Ok a, w') →
  system_wf w' ∧ ¬ accepted w' k ∧ ¬ client w' k ∧ (k ≠ null_connection → ¬ holds w' k).
Proof.
  intros Hw. rewrite RemoveFromNewConnections_run. destruct (decide (accepted w k)) as [Ha|]; [|done].
  intros ?. simplify_eq. destruct (sys_accepted _ Hw k Ha) as [Hc Hh].
  split_and!; [by apply system_nc_delete| |done|intros Hn Hk; by apply Hh].
  cbn. rewrite lookup_delete_eq. by intros [].
Qed.

Lemma RemoveFromNewConnections_ssafe k w : system_wf w → ssafe (RemoveFromNewConnections k) w.
Proof.
  intros Hw. unfold isafe, wp. rewrite RemoveFromNewConnections_run.
  split; [by destruct (decide _)|by apply system_nc_delete].
Qed.

Lemma HandleValidateConnectionRequest_ssafe k w :
  system_wf w → k ≠ null_connection → ssafe (HandleValidateConnectionRequest k) w.
Proof.
  intros Hw Hn. unfold HandleValidateConnectionRequest.
  apply isafe_bind; [by apply RemoveFromNewConnections_ssafe|]. intros [] w1 E _.
  destruct (taken_off _ _ _ _ Hw E) as (Hw1 & Ha & Hc & Hh). specialize (Hh Hn).
  apply isafe_bind; [by apply os_call'_ssafe|]. intros b w2 E2 Hw2.
  unfold os_call' in E2. destruct (RandomBytes 100 200 (os w1)). simplify_eq. cbn zeta.
  apply isafe_bind; [by apply Add_client_ssafe|]. intros [] w3 _ Hw3.
  by apply Send_ssafe.
Qed.

(** ** The vaults' handlers *)

Lemma FindValidatedName_run n w :
  ∃ r, ClientConnections.FindValidatedName n w = (r, w) ∧
    match r with Ok k => client w k | Throw _ => True | Fault _ => False end.
Proof.
  unfold ClientConnections.FindValidatedName. mrun.
  destruct (list_find _ _) as [[i [k m]]|] eqn:Hf; mrun; (eexists; split; [done|]); [|done].
  apply list_find_Some in Hf as (Hi & _). cbn. rewrite ClientConnections.table_lookup.
  assert (Hk : clients_ (cc w) !! k = Some m).
  { apply elem_of_entries. by eapply list_elem_of_lookup_2. }
  by rewrite Hk.
Qed.

(** Looking a client up and sending it a message. *)
Lemma notify_client_ssafe n (f : ConnectionPtr → M World unit) w :
  system_wf w → (∀ k, k ≠ null_connection → ssafe (f k) w) →
  ssafe (client ← ClientConnections.FindValidatedName n; f client) w.
Proof.
  intros Hw Hf. destruct (FindValidatedName_run n w) as (r & E & Hr).
  apply isafe_bind; [by unfold isafe, wp; rewrite E; destruct r|].
  intros k w' E' _. rewrite E in E'. simplify_eq. apply Hf. by eapply client_not_null.
Qed.

Lemma deref_ssafe p w : system_wf w → is_Some (p ≫= λ i, w.(pmids) !! i) → ssafe (deref_pmid p) w.
Proof.
  intros Hw [k Hk]. unfold deref_pmid, ssafe, wp. destruct p as [i|]; cbn in *; [|done].
  by rewrite Hk.
Qed.

Lemma has_pmid_deref store i : has_pmid store i → is_Some (i.(pmid_and_signer) ≫= λ k, store !! k).
Proof. intros (k & -> & Hk). done. Qed.

Lemma deref_pmid_same p w a w' : deref_pmid p w = (Ok a, w') → w' = w.
Proof.
  unfold deref_pmid. destruct p as [i|]; [|done]. destruct (pmids w !! i); [|done]. by intros [= -> ->].
Qed.

Lemma FindConnection_facts k w i w' :
  system_wf w → FindConnection k w = (Ok i, w') → w' = w ∧ has_pmid w.(pmids) i ∧
    ∃ c, c ∈ vaults w ∧ i = c.(info) ∧ i.(tcp_connection) = k.
Proof.
  intros Hw. rewrite FindConnection_run.
  destruct (list_find _ _) as [[j c]|] eqn:Hf; [|done]. intros ?. simplify_eq.
  apply list_find_Some in Hf as (Hj & Hc & _). split_and!; [done| |].
  - by destruct (pm_wf_child _ _ _ (sys_pm _ Hw) Hj).
  - exists c. split_and!; [by eapply list_elem_of_lookup_2|done..].
Qed.

Lemma FindConnection_ssafe k w : system_wf w → ssafe (FindConnection k) w.
Proof.
  intros Hw. unfold isafe, wp. rewrite FindConnection_run.
  by destruct (list_find _ _) as [[? ?]|].
Qed.

Lemma HandleLogMessage_ssafe k m w : system_wf w → ssafe (HandleLogMessage k m) w.
Proof.
  intros Hw. unfold HandleLogMessage. apply isafe_try_catch; [|intros; by apply isafe_ret].
  apply isafe_bind; [by apply FindConnection_ssafe|]. intros i w1 _ Hw1.
  apply notify_client_ssafe; [done|]. intros c Hc. by apply Send_ssafe.
Qed.

Lemma HandleJoinedNetwork_ssafe k w : system_wf w → ssafe (HandleJoinedNetwork k) w.
Proof.
  intros Hw. unfold HandleJoinedNetwork. apply isafe_try_catch; [|intros; by apply isafe_ret].
  apply isafe_bind; [by apply FindConnection_ssafe|]. intros i w1 E Hw1.
  destruct (FindConnection_facts _ _ _ _ Hw E) as (-> & Hp & _).
  apply isafe_bind; [by apply deref_ssafe, has_pmid_deref|]. intros p w2 _ Hw2. cbn zeta.
  apply notify_client_ssafe; [done|]. intros c Hc. by apply Send_ssafe.
Qed.

Lemma VaultRunningResponse_keys_ok lab keys o r o' :
  VaultRunningResponse_keys lab keys o = (r, o') → message_ok (VaultRunningResponse_ r).
Proof.
  unfold VaultRunningResponse_keys, VaultKeys_make. destruct (RandomBytes _ _ o).
  intros ?. simplify_eq. intros k Hk. cbn in Hk. by simplify_eq.
Qed.

Lemma Send_keys_ssafe k lab keys w :
  system_wf w → k ≠ null_connection →
  ssafe (response ← os_call' (VaultRunningResponse_keys lab keys);
         Send k (VaultRunningResponse_ response)) w.
Proof.
  intros Hw Hk. apply isafe_bind; [by apply os_call'_ssafe|]. intros r w1 E Hw1.
  unfold os_call' in E. destruct (VaultRunningResponse_keys lab keys (os w)) eqn:Er.
  simplify_eq. apply Send_ssafe; [done..|]. by eapply VaultRunningResponse_keys_ok.
Qed.

Lemma VM_HandleVaultStarted_ssafe k v w :
  system_wf w → k ≠ null_connection → ssafe (VaultManager.HandleVaultStarted k v) w.
Proof.
  intros Hw Hn. unfold VaultManager.HandleVaultStarted.
  apply isafe_bind; [by apply RemoveFromNewConnections_ssafe|]. intros [] w1 E _.
  destruct (taken_off _ _ _ _ Hw E) as (Hw1 & Ha & Hc & Hh). specialize (Hh Hn).
  assert (Hs : safe [k] (ProcessManager.HandleVaultStarted k (process_id v)) w1).
  { apply HandleVaultStarted_safe; [apply Hw1|done|by apply fresh_not_connection]. }
  apply isafe_bind.
  { destruct Hs as [Hr Hg]. split; [done|]. eapply good_system; [done..|].
    by intros j ->%list_elem_of_singleton. }
  intros i w2 E2 Hw2.
  assert (Hi : i.(tcp_connection) = k ∧ has_pmid w2.(pmids) i).
  { rewrite HandleVaultStarted_run in E2. destruct (list_find _ _) as [[j c]|] eqn:Hf; [|done].
    simplify_eq. split; [done|]. apply list_find_Some in Hf as (Hj & _).
    by destruct (pm_wf_child _ _ _ (sys_pm _ Hw1) Hj). }
  destruct Hi as [Hk Hp].
  apply isafe_bind; [by apply isafe_gets|]. intros key w3 E3 Hw3. unfold SymmKeyAndIV, gets in E3. simplify_eq.
  apply isafe_bind; [by apply deref_ssafe, has_pmid_deref|]. intros keys w4 E4 Hw4.
  apply deref_pmid_same in E4 as ->.
  apply isafe_bind; [by apply isafe_gets|]. intros pmids' w5 E5 Hw5. unfold GetPublicPmids, gets in E5. simplify_eq.
  apply isafe_bind; [by apply Send_ssafe; [done..|eexists]|]. intros [] w6 E6 Hw6.
  destruct (Identity_IsInitialised _); [|by apply isafe_ret].
  apply isafe_try_catch; [|intros; by apply isafe_ret].
  apply notify_client_ssafe; [done|]. intros c Hcn.
  assert (Hp6 : w6.(pmids) = w5.(pmids)).
  { unfold Send, emit in E6. revert E6. mrun. destruct (Serialise _); [|done..].
    destruct (N.eqb _ _); [done|]. by intros [= <-]. }
  apply isafe_bind; [apply deref_ssafe, has_pmid_deref; [done|by rewrite Hp6]|].
  intros keys' w7 _ Hw7. by apply Send_keys_ssafe.
Qed.

Lemma HandleSetNetworkAsStable_ssafe w : system_wf w → ssafe HandleSetNetworkAsStable w.
Proof.
  intros Hw. unfold HandleSetNetworkAsStable.
  apply isafe_bind; [by apply isafe_gets|]. intros l w1 E _. unfold ClientConnections.GetAll, gets in E.
  simplify_eq. apply isafe_bind.
  - apply isafe_for_each; [|done]. intros k w' Hk Hw'. apply Send_ssafe; [done| |done].
    apply (client_not_null w1); [done|]. rewrite ClientConnections.table_lookup.
    apply elem_of_app in Hk as [Hk|Hk]; apply list_elem_of_fmap in Hk as ([k' x] & -> & Hk);
      apply elem_of_entries in Hk; cbn; rewrite Hk; [done|].
    by destruct (clients_ (cc w1) !! k').
  - intros [] w2 _ Hw2. split; [done|]. by eapply system_same.
Qed.

Lemma HandleNetworkStableRequest_ssafe k w :
  system_wf w → k ≠ null_connection → ssafe (HandleNetworkStableRequest k) w.
Proof.
  intros Hw Hk. unfold HandleNetworkStableRequest.
  apply isafe_bind; [by apply isafe_gets|]. intros [] w1 _ Hw1; [by apply Send_ssafe|by apply isafe_ret].
Qed.
End handlers.

(** * Requests *)
Section requests.
Context `{P : Platform} `{B : Build} `{A : !Archives}.
Context `{AL : !ArchiveLaws} `{AS : !ArchiveSafety}.
Implicit Types w : World.

Abbreviation client w k := (is_Some (ClientConnections.table w.(cc) !! k)).
Abbreviation ssafe := (isafe system_wf).

(** [TakeOwnershipRequest] for a vault that has not connected, from a client that is
    validated, when it has to tell the vault something. *)
Definition takes_unconnected (w : World) (k : ConnectionPtr) (q : TakeOwnershipRequest) : Prop :=
  is_Some (w.(cc).(clients_) !! k) ∧
  ∃ c, c ∈ vaults w ∧ vault_label c = q.(tor_vault_label) ∧ vault_connection c = null_connection ∧
    (vault_path c ≠ q.(tor_vault_dir) ∨
     (c.(info).(max_disk_usage) ≠ q.(tor_max_disk_usage) ∧ q.(tor_max_disk_usage) ≠ 0)).

Lemma FindValidated_ssafe k w : system_wf w → ssafe (ClientConnections.FindValidated k) w.
Proof.
  intros Hw. unfold isafe, wp. rewrite ClientConnections.FindValidated_run.
  by destruct (_ !! k) as [[]|].
Qed.

Lemma FindValidated_facts k w n w' :
  ClientConnections.FindValidated k w = (Ok n, w') →
  w' = w ∧ w.(cc).(clients_) !! k = Some n.
Proof.
  rewrite ClientConnections.FindValidated_run.
  destruct (_ !! k) as [[ch|m]|] eqn:E; [done| |done]. intros ?. simplify_eq.
  by apply ClientConnections.table_Validated in E.
Qed.

Lemma Find_ssafe lab w : system_wf w → ssafe (Find lab) w.
Proof.
  intros Hw. unfold isafe, wp. rewrite Find_run. by destruct (list_find _ _) as [[? ?]|].
Qed.

Lemma Find_facts lab w i w' :
  system_wf w → Find lab w = (Ok i, w') →
  w' = w ∧ has_pmid w.(pmids) i ∧ ∃ c, c ∈ vaults w ∧ i = c.(info) ∧ vault_label c = lab.
Proof.
  intros Hw. rewrite Find_run.
  destruct (list_find _ _) as [[j c]|] eqn:Hf; [|done]. intros ?. simplify_eq.
  apply list_find_Some in Hf as (Hj & Hc & _). split_and!; [done| |].
  - by destruct (pm_wf_child _ _ _ (sys_pm _ Hw) Hj).
  - exists c. split_and!; [by eapply list_elem_of_lookup_2|done..].
Qed.

Lemma Send_pmids k m w : pmids (Send k m w).2 = pmids w.
Proof.
  unfold Send, emit. mrun. destruct (Serialise m); [|done..]. by destruct (N.eqb _ _).
Qed.

(** A vault's connection has no other role. *)
Lemma vault_connection_role w c :
  system_wf w → c ∈ vaults w → vault_connection c ≠ null_connection →
  ∀ k, k ∈ [vault_connection c] →
    ¬ is_Some (w.(nc).(connections_) !! k) ∧ ¬ client w k.
Proof.
  intros Hw Hc Hn k ->%list_elem_of_singleton.
  assert (Hh : holds w (vault_connection c)) by (exists c; split; [done|by left]).
  split; intros Hr; [by apply (sys_accepted _ Hw) in Hr as [_ ?]; auto|].
  by apply (sys_client _ Hw) in Hr; auto.
Qed.

Lemma ChangeChunkstorePath_ssafe i c w :
  system_wf w → c ∈ vaults w → i.(tcp_connection) = vault_connection c →
  vault_connection c ≠ null_connection → has_pmid w.(pmids) i →
  ssafe (ChangeChunkstorePath i) w.
Proof.
  intros Hw Hc Hi Hn Hp. unfold ChangeChunkstorePath.
  apply isafe_bind; [by apply Send_ssafe; [|rewrite Hi|]|]. intros [] w1 E Hw1.
  assert (Hsame : vaults w1 = vaults w ∧ nc w1 = nc w ∧ cc w1 = cc w ∧ pmids w1 = pmids w).
  { revert E. unfold Send, emit. mrun. destruct (Serialise _); [|done..].
    destruct (N.eqb _ _); [done|]. by intros [= <-]. }
  destruct Hsame as (Hv & Hnc & Hcc & Hpm).
  assert (Hs : safe [vault_connection c]
    (StopProcess (tcp_connection i) (Some (ChangeChunkstorePath_on_exit i))) w1).
  { rewrite <- Hi in *.
    apply (StopProcess_safe _ (Some (ChangeChunkstorePath_on_exit i))); [apply Hw1|done|].
    intros g [= <-]. rewrite Hpm. by apply has_pmid_ptr_ok. }
  destruct Hs as [Hr Hg]. split; [done|]. eapply good_system; [done..|].
  apply vault_connection_role; [done|by rewrite Hv|done].
Qed.

Lemma move_shared_pmid_ssafe p w :
  system_wf w → is_Some (p ≫= λ i, w.(pmids) !! i) → ssafe (move_shared_pmid p) w.
Proof.
  intros Hw Hp. unfold move_shared_pmid.
  apply isafe_bind; [by apply deref_ssafe|]. intros keys w1 E Hw1.
  apply deref_pmid_same in E as ->. split; [done|]. eapply system_same; try done.
  intros n Hn. change (is_Some (match p with
    | Some i => alter PmidAndSigner_moved_from i (pmids w) | None => pmids w end !! n)).
  destruct p as [j|]; [|done]. destruct (decide (j = n)) as [->|].
  - rewrite list_lookup_alter_eq. by destruct Hn as [x ->].
  - by rewrite list_lookup_alter_ne.
Qed.

Lemma safe_nil_ssafe {T} (m : M World T) w : system_wf w → safe [] m w → ssafe m w.
Proof. apply safe_system. Qed.

Lemma TryTakeOwnership_ssafe k q w :
  system_wf w → k ≠ null_connection → ¬ takes_unconnected w k q → ssafe (TryTakeOwnership k q) w.
Proof.
  intros Hw Hk Hq. unfold TryTakeOwnership. cbn zeta.
  apply isafe_bind; [by apply FindValidated_ssafe|]. intros n w1 E1 _.
  apply FindValidated_facts in E1 as [-> Hcl].
  apply isafe_bind; [by apply Find_ssafe|]. intros i w2 E2 _.
  destruct (Find_facts _ _ _ _ Hw E2) as (-> & Hp & c & Hc & -> & Hl).
  case_bool_decide as Hd; cbn [negb].
  - assert (Hn : negb (max_disk_usage (info c) =? tor_max_disk_usage q)
                 && negb (tor_max_disk_usage q =? 0) = true → vault_connection c ≠ null_connection).
    { intros Hb Hn. apply Hq. split; [by eexists|]. exists c. split_and!; [done..|]. right. lia. }
    apply isafe_bind.
    { destruct (negb _ && _); [by apply Send_ssafe; [|apply Hn|]|by apply isafe_ret]. }
    intros [] w3 E3 Hw3.
    apply isafe_bind; [by apply safe_nil_ssafe, AssignOwner_safe, Hw3|]. intros [] w4 E4 Hw4.
    apply isafe_bind; [by apply isafe_gets|]. intros all w5 E5 _.
    unfold GetAll, gets in E5. simplify_eq.
    apply isafe_bind.
    { apply safe_nil_ssafe; [done|]. apply WriteConfigFile_safe; [apply Hw4|].
      apply Forall_fmap, pm_wf_has_pmid, Hw4. }
    intros [] w6 E6 Hw6.
    assert (Hpm : pmids w6 = pmids w).
    { pose proof (WriteConfigFile_outside (info <$> vaults w5) w5) as ([F _ _ _ _ _] & _).
      rewrite E6 in F. cbn in F. rewrite F.
      rewrite AssignOwner_run in E4. destruct (list_find _ _) as [[? ?]|]; simplify_eq; cbn.
      destruct (negb _ && _); [|by unfold mret, M_ret in E3; simplify_eq].
      match type of E3 with Send ?k ?m ?v = _ => pose proof (Send_pmids k m v) as Hs end.
      by rewrite E3 in Hs. }
    apply isafe_bind; [apply move_shared_pmid_ssafe, has_pmid_deref; [done|by rewrite Hpm]|].
    intros keys w7 _ Hw7. by apply Send_keys_ssafe.
  - eapply ChangeChunkstorePath_ssafe; [done|exact Hc|done| |done].
    intros Hn. apply Hq. split; [by eexists|]. exists c. split_and!; [done..|]. by left.
Qed.

Lemma HandleTakeOwnershipRequest_ssafe k q w :
  system_wf w → k ≠ null_connection → ¬ takes_unconnected w k q →
  ssafe (HandleTakeOwnershipRequest k q) w.
Proof.
  intros Hw Hk Hq. unfold HandleTakeOwnershipRequest. apply isafe_bind.
  - apply isafe_try_catch; [|intros; by apply isafe_ret].
    apply isafe_bind; [by apply TryTakeOwnership_ssafe|]. intros [] w1 _ Hw1. by apply isafe_ret.
  - intros [e|] w1 _ Hw1; [by apply Send_ssafe|by apply isafe_ret].
Qed.

(** ** Starting a vault, with the handler's local [vault_info] *)

Definition local_ok (s : World * VaultInfo) : Prop :=
  system_wf s.1 ∧ ptr_ok s.1.(pmids) s.2.(pmid_and_signer) ∧ s.2.(tcp_connection) = null_connection.
Abbreviation lsafe := (isafe local_ok).

Lemma in_process_safe {T} (m : M World T) s :
  local_ok s → ssafe m s.1 →
  (∀ n : nat, is_Some (pmids s.1 !! n) → is_Some (pmids (m s.1).2 !! n)) →
  lsafe (in_process m) s.
Proof.
  intros (Hw & Hp & Hc) [Hr Hw'] Hs. unfold isafe, wp, in_process. cbn.
  destruct (m s.1) as [r w'] eqn:E. cbn in *. split; [done|]. split; [done|]. split; [|done].
  unfold ptr_ok in *. cbn. destruct (pmid_and_signer s.2); auto.
Qed.

Lemma in_process_run {T} (m : M World T) s a s' :
  in_process m s = (Ok a, s') → m s.1 = (Ok a, s'.1) ∧ s'.2 = s.2.
Proof. unfold in_process. cbn. destruct (m s.1) as [r w']. intros ?. by simplify_eq. Qed.

Lemma assign_local_safe f s :
  local_ok s → ptr_ok s.1.(pmids) (f s.2).(pmid_and_signer) →
  (f s.2).(tcp_connection) = null_connection → lsafe (assign_local f) s.
Proof. intros (Hw & Hp & Hc) Hf Hn. split; [done|]. by split_and!. Qed.

Lemma GetPmidAndSigner_same index w : (GetPmidAndSigner index w).2 = w.
Proof.
  unfold GetPmidAndSigner. mrun. destruct (_ <? _); [|done]. by destruct (_ !! _).
Qed.

Lemma reads_ssafe {T} (m : M World T) w :
  system_wf w → (m w).2 = w → is_Fault (m w).1 = false → ssafe m w.
Proof. intros Hw Hs Hr. split; [done|]. by rewrite Hs. Qed.

Lemma GetPmidAndSigner_nofault index w : is_Fault (GetPmidAndSigner index w).1 = false.
Proof. unfold GetPmidAndSigner. mrun. destruct (_ <? _); [|done]. by destruct (_ !! _). Qed.

(** A new shared object, and the local that points to it. *)
Lemma share_keys_safe keys s :
  local_ok s →
  isafe (λ s, local_ok s ∧ has_pmid s.1.(pmids) s.2)
    (p ← in_process (make_shared_pmid keys); assign_local (set_pmid p)) s.
Proof.
  intros (Hw & Hp & Hc). destruct s as [w i]. cbn in *.
  assert (Hn : is_Some ((pmids w ++ [keys]) !! length (pmids w)))
    by (rewrite list_lookup_middle by done; by eexists).
  split; [done|]. split; [split_and!|]; cbn; try done.
  - eapply system_same; try done. intros n [x Hx]. cbn. exists x. by apply lookup_app_l_Some.
  - by eexists.
Qed.

(** Reading the new object back changes nothing. *)
Lemma share_put_run keys s :
  (p ← in_process (make_shared_pmid keys); assign_local (set_pmid p);;
   k ← in_process (deref_pmid p); in_process (PutPmidAndSigner k)) s =
  (Ok tt, ((p ← in_process (make_shared_pmid keys); assign_local (set_pmid p)) s).2).
Proof.
  destruct s as [w i]. unfold mbind, M_bind, in_process, make_shared_pmid, assign_local, modify. cbn.
  assert (E : (pmids w ++ [keys]) !! length (pmids w) = Some keys) by by apply list_lookup_middle.
  by rewrite E.
Qed.

Lemma os_call_pmids {T} (f : OS → Lib T * OS) w : pmids (os_call f w).2 = pmids w.
Proof. unfold os_call. by destruct (f (os w)). Qed.
Lemma os_call'_pmids {T} (f : OS → T * OS) w : pmids (os_call' f w).2 = pmids w.
Proof. unfold os_call'. by destruct (f (os w)). Qed.

Lemma GetPath_run p w : ∃ d, GetPath p w = (Ok d, w).
Proof.
  unfold GetPath, GetTestEnvironmentRootDir. mrun. destruct TESTING; mrun; [|by eexists].
  destruct (Path_empty _); mrun; by eexists.
Qed.

Lemma StartVaultKeys_safe q s :
  local_ok s →
  wp (StartVaultKeys q) (λ r s', is_Fault r = false ∧ local_ok s' ∧
                        (is_Ok r = true → has_pmid s'.1.(pmids) s'.2)) s.
Proof.
  intros Hs. unfold StartVaultKeys. apply wp_bind.
  assert (H1 : lsafe (match (if TESTING then q.(svr_pmid_list_index) else None) with
    | Some index => keys ← in_process (GetPmidAndSigner index);
        p ← in_process (make_shared_pmid keys); assign_local (set_pmid p)
    | None => mret tt end) s).
  { destruct (if TESTING then _ else _) as [index|]; [|by apply isafe_ret].
    apply isafe_bind.
    - apply in_process_safe; [done| |by rewrite GetPmidAndSigner_same].
      apply reads_ssafe; [apply Hs|apply GetPmidAndSigner_same|apply GetPmidAndSigner_nofault].
    - intros keys s' _ Hs'. eapply isafe_wp; [by apply share_keys_safe|].
      by intros r s'' ? [? ?]. }
  eapply isafe_wp; [exact H1|]. intros [[]|e|f] s1 Hr1 Hs1; [|by split_and!|done].
  apply wp_bind. unfold wp at 1, local, gets. cbn [fst snd].
  case_bool_decide as Hnone.
  - apply wp_bind. unfold wp at 1.
    assert (H2 : lsafe (in_process (os_call' CreatePmidAndSigner)) s1).
    { apply in_process_safe; [done| |by rewrite os_call'_pmids]. apply os_call'_ssafe, Hs1. }
    destruct H2 as [Hr2 Hs2]. destruct (in_process _ s1) as [[keys|e|f] s2]; [|by split_and!|done].
    cbn [fst snd]. unfold wp. rewrite share_put_run.
    destruct (share_keys_safe keys s2 Hs2) as [_ [Hl Hp]]. by split_and!.
  - split_and!; [done|done|]. intros _. destruct Hs1 as (_ & Hp & _).
    unfold ptr_ok in Hp. destruct (pmid_and_signer s1.2) as [n|] eqn:E; [by exists n|done].
Qed.

Lemma StartVaultDir_safe q s :
  local_ok s → has_pmid s.1.(pmids) s.2 → lsafe (StartVaultDir q) s.
Proof.
  intros Hs Hp. unfold StartVaultDir. destruct (Path_empty _); [|by apply assign_local_safe; apply Hs].
  apply isafe_bind; [by apply isafe_gets|]. intros i s1 E _. unfold local, gets in E. simplify_eq.
  apply isafe_bind.
  { apply in_process_safe; [done|apply deref_ssafe, has_pmid_deref, Hp; apply Hs|].
    unfold deref_pmid. destruct Hp as (n & -> & [x ->]). done. }
  intros keys s2 E2 Hs2. apply isafe_bind.
  { unfold GetVaultDir. destruct (GetPath_run (hex_Substr (Pmid_name keys.1)) s2.1) as [d Hd].
    apply in_process_safe; [done| |by rewrite Hd]. by apply reads_ssafe; [apply Hs2|rewrite Hd..]. }
  intros dir s3 _ Hs3.
  apply isafe_bind; [by apply assign_local_safe; apply Hs3|]. intros [] s4 _ Hs4.
  apply isafe_bind.
  { apply in_process_safe; [done|apply os_call_ssafe, Hs4|by rewrite os_call_pmids]. }
  intros [] s5 _ Hs5; [by apply isafe_ret|].
  apply in_process_safe; [done|apply os_call_ssafe, Hs5|by rewrite os_call_pmids].
Qed.

Lemma StartVaultVlog_safe q s : local_ok s → lsafe (StartVaultVlog q) s.
Proof.
  intros Hs. unfold StartVaultVlog. destruct USE_VLOGGING; [|by apply isafe_ret].
  apply isafe_bind; [by apply assign_local_safe; apply Hs|]. intros [] s1 _ Hs1.
  destruct TESTING; [by apply assign_local_safe; apply Hs1|by apply isafe_ret].
Qed.

Lemma safe_null_ssafe {T} (m : M World T) w :
  system_wf w → safe [null_connection] m w → ssafe m w.
Proof.
  intros Hw [Hr Hg]. split; [done|]. apply (good_system [] w); [done| |by intros k ?%elem_of_nil].
  destruct Hg as [? ? Hc]. split; [done..|]. intros k Hn Hk.
  destruct (Hc k Hn Hk) as [|Hin]; [by left|]. by apply list_elem_of_singleton in Hin.
Qed.

Lemma TryStartVault_safe k q s : local_ok s → lsafe (TryStartVault k q) s.
Proof.
  intros Hs. unfold TryStartVault. apply isafe_bind.
  { apply in_process_safe; [done|apply FindValidated_ssafe, Hs|].
    by rewrite ClientConnections.FindValidated_run. }
  intros n s1 _ Hs1.
  apply isafe_bind; [by apply assign_local_safe; apply Hs1|]. intros [] sa _ Hsa.
  apply isafe_bind; [by apply assign_local_safe; apply Hsa|]. intros [] sb _ Hsb.
  apply isafe_bind; [by apply assign_local_safe; apply Hsb|]. intros [] sc _ Hsc.
  apply wp_bind. eapply wp_mono; [by apply StartVaultKeys_safe|].
  intros [[]|e|f] s2 (Hr & Hs2 & Hp); [|by split|done].
  apply isafe_bind; [by apply StartVaultDir_safe; [|apply Hp]|]. intros [] s3 _ Hs3.
  apply isafe_bind; [by apply StartVaultVlog_safe|]. intros [] s4 _ Hs4.
  apply isafe_bind; [by apply isafe_gets|]. intros i s5 E _. unfold local, gets in E. simplify_eq.
  apply isafe_bind; [by apply assign_local_safe|]. intros [] s6 E6 Hs6.
  unfold assign_local, modify in E6. simplify_eq.
  assert (Hsafe : safe [null_connection] (AddProcess (VaultInfo_move s5.2).1 0) s5.1).
  { destruct Hs4 as (Hw & Hptr & Hnull). rewrite <- Hnull.
    apply (AddProcess_safe (VaultInfo_move s5.2).1); [apply Hw|done|lia]. }
  apply isafe_bind.
  { apply in_process_safe; [done|by apply safe_null_ssafe; [apply Hs4|]|].
    destruct Hsafe as [_ [_ [F _ _ _ _ _] _]]. intros n' Hn'.
    change (is_Some (pmids (AddProcess (VaultInfo_move s5.2).1 0 s5.1).2 !! n')).
    by rewrite F. }
  intros [] s7 _ Hs7. apply isafe_bind; [by apply in_process_safe; [|apply isafe_gets, Hs7|]|].
  intros all s8 E8 Hs8. apply in_process_run in E8 as [E8 E8'].
  unfold GetAll, gets in E8. injection E8 as <- E8.
  apply in_process_safe; [done| |].
  - apply safe_system; [apply Hs8|]. apply WriteConfigFile_safe; [apply Hs8|].
    rewrite <- E8. apply Forall_fmap, pm_wf_has_pmid, Hs7.
  - destruct (WriteConfigFile_outside (info <$> vaults s7.1) s8.1) as ([F _ _ _ _ _] & _).
    by rewrite F.
Qed.

Lemma with_local_safe {T} (m : M (World * VaultInfo) T) v w :
  lsafe m (w, v) → ssafe (with_local v m) w.
Proof.
  unfold isafe, wp, with_local. destruct (m (w, v)) as [r [w' i]]. intros [? Hl].
  split; [done|apply Hl].
Qed.

Lemma HandleStartVaultRequest_ssafe k q w :
  system_wf w → k ≠ null_connection → ssafe (HandleStartVaultRequest k q) w.
Proof.
  intros Hw Hk. unfold HandleStartVaultRequest.
  assert (Hs : local_ok (w, VaultInfo_default)) by by split_and!.
  match goal with |- isafe _ (with_local _ ?m) _ => assert (Hm : lsafe m (w, VaultInfo_default)) end.
  { apply isafe_bind.
    - apply isafe_try_catch; [|intros; by apply isafe_ret].
      apply isafe_bind; [by apply TryStartVault_safe|]. intros [] s1 _ Hs1. by apply isafe_ret.
    - intros [e|] s1 _ Hs1; [|by apply isafe_ret].
      apply isafe_bind; [by apply isafe_gets|]. intros i s2 E2 _. unfold local, gets in E2. simplify_eq.
      apply in_process_safe; [done|by apply Send_ssafe; [apply Hs1|..]|by rewrite Send_pmids]. }
  by apply with_local_safe.
Qed.
End requests.

(** * Every event *)
Section events_safe.
Context `{P : Platform} `{B : Build} `{A : !Archives}.
Context `{AL : !ArchiveLaws} `{AS : !ArchiveSafety}.
Implicit Types w : World.
Abbreviation ssafe := (isafe system_wf).

(** The two messages that make the process use a null pointer: a [ChallengeResponse]
    without a key, and a [TakeOwnershipRequest] for a vault that has not
    connected. *)
Definition null_maid_response (bs : bytes) : Prop :=
  ∃ body m, ParseTag bs = Ok (kChallengeResponse, body) ∧
    Parse ChallengeResponse_codec body = Ok m ∧ m.(public_maid) = None.

Definition unconnected_request (w : World) (k : ConnectionPtr) (bs : bytes) : Prop :=
  ∃ body q, ParseTag bs = Ok (kTakeOwnershipRequest, body) ∧
    Parse TakeOwnershipRequest_codec body = Ok q ∧ takes_unconnected w k q.

Definition event_safe (w : World) (e : Event) : Prop :=
  match e with
  | MessageReceived k bs => ¬ null_maid_response bs ∧ ¬ unconnected_request w k bs
  | _ => True
  end.

Lemma HandleReceivedMessage_ssafe k bs w :
  system_wf w → k ≠ null_connection → event_safe w (MessageReceived k bs) →
  ssafe (HandleReceivedMessage k bs) w.
Proof.
  intros Hw Hk [Hmaid Hown]. unfold HandleReceivedMessage.
  apply isafe_try_catch; [|intros; by apply isafe_ret].
  apply isafe_bind; [apply isafe_lift_res; [apply ar_MessageTag_safe|done]|].
  intros [t body] w1 E _. unfold lift_res in E. injection E as Ht <-.
  destruct t; cbn [dispatch]; try by apply isafe_ret.
  - by apply HandleValidateConnectionRequest_ssafe.
  - apply isafe_bind; [apply isafe_lift_res; [apply Parse_safe, ChallengeResponse_safe|done]|].
    intros m w2 E2 _. unfold lift_res in E2. injection E2 as Hm <-.
    unfold HandleChallengeResponse. destruct (public_maid m) as [maid|] eqn:Em.
    + by apply Validate_ssafe.
    + destruct Hmaid. by exists body, m.
  - apply isafe_bind; [apply isafe_lift_res; [apply Parse_safe, StartVaultRequest_safe|done]|].
    intros q w2 _ Hw2. by apply HandleStartVaultRequest_ssafe.
  - apply isafe_bind; [apply isafe_lift_res; [apply Parse_safe, TakeOwnershipRequest_safe|done]|].
    intros q w2 E2 _. unfold lift_res in E2. injection E2 as Hq <-.
    apply HandleTakeOwnershipRequest_ssafe; [done..|]. intros Ht'. apply Hown. by exists body, q.
  - apply isafe_bind; [apply isafe_lift_res; [apply Parse_safe, VaultStarted_safe|done]|].
    intros q w2 _ Hw2. by apply VM_HandleVaultStarted_ssafe.
  - by apply HandleJoinedNetwork_ssafe.
  - apply isafe_bind; [apply isafe_lift_res; [apply Parse_safe, LogMessage_safe|done]|].
    intros q w2 _ Hw2. by apply HandleLogMessage_ssafe.
  - destruct TESTING; [by apply HandleSetNetworkAsStable_ssafe|by apply isafe_ret].
  - destruct TESTING; [by apply HandleNetworkStableRequest_ssafe|by apply isafe_ret].
Qed.

Lemma run_work_ssafe k w :
  system_wf w → work_ok w.(pmids) k → ssafe (run_work k) w.
Proof.
  intros Hw Hk. pose proof (sys_pm _ Hw) as Hpm. destruct k as [[lab|lab|k|k] r|i r]; cbn [run_work run_handler].
  - apply safe_system; [done|]. by apply OnStartTimer_safe; [apply _|].
  - apply safe_system; [done|]. by apply OnStopTimer_safe; [apply _|].
  - destruct r; cbn [NewConnections.OnTimer]; first [by apply Close_ssafe|by apply isafe_ret].
  - destruct r; cbn [ClientConnections.OnTimer]; first [by apply Close_ssafe|by apply isafe_ret].
  - apply safe_system; [done|]. by apply OnRestart_safe.
Qed.

(** Waits become ready handlers. *)
Lemma fire_ssafe t r w : system_wf w → Forall handler_ok t.(waits) → ssafe (fire t r) w.
Proof.
  intros [[H1 H2 H3 H4 H5] H6 H7 H8 H9 H10 H11] Ht. apply isafe_modify. split; try done.
  split; try done. cbn. apply Forall_app_2; [done|]. by apply Forall_fmap.
Qed.

Lemma VaultTimer_ssafe j r w : system_wf w → ssafe (handle (VaultTimer j r)) w.
Proof.
  intros Hw. pose proof Hw as [Hpm Hcc Hnc Ht1 Ht2 H6 H7]. cbn [handle].
  apply isafe_bind; [by apply isafe_gets|]. intros [c|] w1 E _; unfold gets in E;
    injection E as Hj <-; [|by apply isafe_ret].
  pose proof (pm_wf_child _ _ _ Hpm Hj) as [? ? ? ? ? ? ? Htm].
  apply isafe_bind; [|intros [] w2 _ Hw2; by apply fire_ssafe].
  apply isafe_modify, (good_system [] w); [done| |by intros ? ?%elem_of_nil].
  apply (good_alter w _ (set_timer timer_cancel) j); try done; [| |by left].
  + intros c' Hj'. simplify_eq. by split.
  + intros c' k Hk. by left.
Qed.

Lemma NewConnectionTimer_ssafe k r w : system_wf w → ssafe (handle (NewConnectionTimer k r)) w.
Proof.
  intros Hw. pose proof Hw as [Hpm Hcc Hnc Ht1 Ht2 H6 H7]. cbn [handle].
  apply isafe_bind; [by apply isafe_gets|]. intros [t|] w1 E _; unfold gets in E;
    injection E as Hk <-; [|by apply isafe_ret].
  apply isafe_bind; [|intros [] w2 _ Hw2; apply fire_ssafe; [done|by eapply Ht1]].
  apply isafe_modify, system_nc; [done|..].
  + rewrite lookup_insert_ne; [done|]. intros ->. congruence.
  + by apply map_Forall_insert_2.
  + intros k' [t' Hk']. left. apply lookup_insert_Some in Hk' as [[<- _]|[_ ?]]; by eexists.
Qed.

Lemma UnvalidatedTimer_ssafe k r w : system_wf w → ssafe (handle (UnvalidatedTimer k r)) w.
Proof.
  intros Hw. pose proof Hw as [Hpm Hcc Hnc Ht1 Ht2 H6 H7]. cbn [handle].
  apply isafe_bind; [by apply isafe_gets|]. intros [[ch t]|] w1 E _; unfold gets in E;
    injection E as Hk <-; [|by apply isafe_ret].
  apply isafe_bind; [|intros [] w2 _ Hw2; apply fire_ssafe; [done|by apply (Ht2 k (ch, t))]].
  apply isafe_modify. destruct Hcc as (Hd & Hn1 & Hn2).
  apply (system_cc w (mkClientConnections (<[k:=(ch, timer_cancel t)]> (unvalidated_clients_ (cc w)))
           (clients_ (cc w)))); [done|..].
  + split_and!; [|done|]; cbn.
    * intros k' Hk'. rewrite lookup_insert_ne; [by apply Hd|]. intros ->.
      apply Hd in Hk'. congruence.
    * rewrite lookup_insert_ne; [done|]. intros ->. congruence.
  + by apply map_Forall_insert_2.
  + intros k' Hk'. left. rewrite ClientConnections.table_lookup in Hk' |- *. cbn in Hk'.
    destruct (decide (k = k')) as [<-|]; [|by rewrite lookup_insert_ne in Hk' by done].
    rewrite Hk. by destruct (clients_ (cc w) !! k).
Qed.

Lemma RunNext_ssafe w : system_wf w → ssafe (handle RunNext) w.
Proof.
  intros Hw. pose proof Hw as [Hpm Hcc Hnc Ht1 Ht2 H6 H7]. cbn [handle].
  apply isafe_bind; [by apply isafe_gets|]. intros [|x q] w1 E _; unfold gets in E;
    injection E as Hq <-; [by apply isafe_ret|].
  pose proof (wf_queue _ Hpm) as Hall. rewrite Hq in Hall. inversion_clear Hall as [|? ? Hx Hrest].
  apply isafe_bind.
  + apply isafe_modify. destruct Hpm as [? ? ? ? ?]. by split.
  + intros [] w2 E Hw2. unfold modify in E. simplify_eq. by apply run_work_ssafe.
Qed.

Lemma handle_ssafe e w :
  system_wf w → event_ok w e → event_safe w e → ssafe (handle e) w.
Proof.
  intros Hw He Hs.
  destruct e as [k|k bs|k|r signum|j r|k r|k r|].
  - by apply HandleNewConnection_ssafe.
  - by apply HandleReceivedMessage_ssafe.
  - by apply VM_HandleConnectionClosed_ssafe.
  - pose proof (sys_pm _ Hw). apply isafe_bind; [by apply isafe_gets|]. intros [] w1 E _; unfold gets in E; simplify_eq;
      [|by apply isafe_ret].
    apply safe_system; [done|]. by apply OnSignal_safe; [apply _|].
  - by apply VaultTimer_ssafe.
  - by apply NewConnectionTimer_ssafe.
  - by apply UnvalidatedTimer_ssafe.
  - by apply RunNext_ssafe.
Qed.
End events_safe.
