(* ===== verification/Behaviour.v ===== *)
(** The behaviour of the running VaultManager: its invariant over every run, the
    messages that break it, who may change what, and the end of restarts. *)
From S2P Require Export System.
From S2P Require NewConnections ClientConnections.
From S2P Require Import Demo.

Section faults.
Context `{P : Platform} `{B : Build} `{A : !Archives}.
Context `{AL : !ArchiveLaws} `{AS : !ArchiveSafety}.
Implicit Types w : World.

Lemma Send_null m w :
  Send null_connection m w = (match Serialise m with Ok _ => Fault null_deref | Throw e => Throw e | Fault f => Fault f end, w).
Proof. unfold Send. mrun. by destruct (Serialise m). Qed.

Lemma Find_label_run w c :
  system_wf w → c ∈ vaults w → Find (vault_label c) w = (Ok c.(info), w).
Proof.
  intros Hw [j Hj]%list_elem_of_lookup. rewrite Find_run.
  assert (E : list_find (λ v, vault_label v = vault_label c) (vaults w) = Some (j, c))
    by by apply list_find_key; [apply Hw|].
  change (list_find (λ v, label (info v) = vault_label c) (vaults w) = Some (j, c)) in E.
  by rewrite E.
Qed.

Lemma FindValidated_client k n w :
  w.(cc).(clients_) !! k = Some n → ClientConnections.FindValidated k w = (Ok n, w).
Proof.
  intros Hk. rewrite ClientConnections.FindValidated_run.
  unfold ClientConnections.cw. rewrite ClientConnections.table_lookup, Hk. done.
Qed.

(** Such a request fails before it has changed anything. *)
Lemma TryTakeOwnership_unconnected k q w :
  system_wf w → takes_unconnected w k q →
  ∃ r, TryTakeOwnership k q w = (r, w) ∧ is_Ok r = false.
Proof.
  intros Hw ([n Hn] & c & Hc & Hl & Hnull & Hd). unfold TryTakeOwnership, mbind, M_bind.
  rewrite (FindValidated_client _ _ _ Hn). cbn zeta. rewrite <- Hl, (Find_label_run _ _ Hw Hc).
  unfold vault_connection in Hnull. unfold vault_path in Hd.
  case_bool_decide as Hdir; cbn [negb].
  - assert (E : negb (max_disk_usage (info c) =? tor_max_disk_usage q)
                && negb (tor_max_disk_usage q =? 0) = true) by (destruct Hd; [done|lia]).
    rewrite E, Hnull, Send_null. destruct (Serialise _); by eexists.
  - unfold ChangeChunkstorePath, mbind, M_bind.
    change (tcp_connection _) with (tcp_connection (info c)). rewrite Hnull, Send_null.
    destruct (Serialise _); by eexists.
Qed.

Lemma HandleTakeOwnership_wf k q w :
  system_wf w → k ≠ null_connection →
  let '(r, w') := HandleTakeOwnershipRequest k q w in is_Fault r = false → system_wf w'.
Proof.
  intros Hw Hk. destruct (HandleTakeOwnershipRequest k q w) as [r w'] eqn:E. intros Hr.
  assert (Hd : takes_unconnected w k q ∨ ¬ takes_unconnected w k q).
  { unfold takes_unconnected.
    destruct (decide (is_Some (w.(cc).(clients_) !! k))); [|right; tauto].
    destruct (decide (Exists (λ c, vault_label c = q.(tor_vault_label) ∧
      vault_connection c = null_connection ∧ (vault_path c ≠ q.(tor_vault_dir) ∨
     (c.(info).(max_disk_usage) ≠ q.(tor_max_disk_usage) ∧ q.(tor_max_disk_usage) ≠ 0))) (vaults w)))
      as [He|He]; rewrite Exists_exists in He; naive_solver. }
  destruct Hd as [Hd|Hd].
  - destruct (TryTakeOwnership_unconnected _ _ _ Hw Hd) as (r1 & E1 & Hr1).
    unfold HandleTakeOwnershipRequest, try_catch, mbind, M_bind in E. rewrite E1 in E.
    destruct r1 as [[]|e|f]; [done| |by simplify_eq]. unfold mret, M_ret in E. cbn iota beta in E.
    match type of E with Send ?k ?m ?v = _ =>
      pose proof (Send_ssafe k m v Hw Hk) as Hs end.
    unfold isafe, wp in Hs. rewrite E in Hs. apply Hs. done.
  - pose proof (HandleTakeOwnershipRequest_ssafe k q w Hw Hk Hd) as Hs.
    unfold isafe, wp in Hs. rewrite E in Hs. apply Hs.
Qed.

(** A message ends in the invariant, or in undefined behaviour. *)
Lemma HandleReceivedMessage_wf k bs w :
  system_wf w → k ≠ null_connection →
  let '(r, w') := HandleReceivedMessage k bs w in is_Fault r = false → system_wf w'.
Proof.
  intros Hw Hk. destruct (HandleReceivedMessage k bs w) as [r w'] eqn:E. intros Hr.
  destruct (ParseTag bs) as [[t body]|e|f] eqn:Ht.
  2-3: unfold HandleReceivedMessage, try_catch, mbind, M_bind, lift_res in E;
       rewrite Ht in E; unfold mret, M_ret in E; by simplify_eq/=.
  assert (Hmaid : null_maid_response bs → is_Fault r = true).
  { intros (body' & m & Ht' & Hp & Hm). rewrite Ht in Ht'. simplify_eq.
    unfold HandleReceivedMessage, try_catch, mbind, M_bind, lift_res in E.
    rewrite Ht in E. cbn [dispatch] in E. unfold mbind, M_bind, lift_res in E. rewrite Hp in E.
    unfold HandleChallengeResponse in E. cbn iota beta in E. rewrite Hm in E. by simplify_eq/=. }
  destruct (decide (t = kTakeOwnershipRequest)) as [->|Hne].
  - unfold HandleReceivedMessage, try_catch, mbind, M_bind, lift_res in E.
    rewrite Ht in E. cbn [dispatch] in E. unfold mbind, M_bind, lift_res in E.
    destruct (Parse TakeOwnershipRequest_codec body) as [q|e|f]; [|by unfold mret, M_ret in E; simplify_eq/=..].
    pose proof (HandleTakeOwnership_wf k q w Hw Hk) as Hh.
    destruct (HandleTakeOwnershipRequest k q w) as [[[]|e|f] w1];
      unfold mret, M_ret in E; simplify_eq/=; auto.
  - pose proof (HandleReceivedMessage_ssafe k bs w Hw Hk) as Hs.
    unfold isafe, wp in Hs. rewrite E in Hs. apply Hs. split.
    + intros Hn. by rewrite Hmaid in Hr.
    + intros (body' & q & Ht' & _). rewrite Ht in Ht'. by simplify_eq.
Qed.

Lemma handle_wf e w :
  system_wf w → event_ok w e → is_Fault (handle e w).1 = false → system_wf (handle e w).2.
Proof.
  intros Hw He Hr.
  destruct e as [k|k bs|k|r signum|j r|k r|k r|];
    try by apply (handle_ssafe _ w Hw He).
  pose proof (HandleReceivedMessage_wf k bs w Hw He) as Hh. cbn [handle] in *.
  destruct (HandleReceivedMessage k bs w). by apply Hh.
Qed.

(** C2: in a process that satisfies the invariant, handling any event the environment
    may deliver has no undefined behaviour and keeps the invariant - one role per
    connection, no two vaults sharing a label, a directory or a connection, restart
    counts within the limit, a keys object for every vault - unless the event is one of two messages:
    a [ChallengeResponse] without a key, or a [TakeOwnershipRequest] for a vault that
    has not connected; even then the invariant holds if the process survives. *)
Theorem handle_keeps_invariant e w :
  system_wf w → event_ok w e →
  (event_safe w e → is_Fault (handle e w).1 = false) ∧
  (is_Fault (handle e w).1 = false → system_wf (handle e w).2).
Proof. intros Hw He. split; [intros Hs; by apply handle_ssafe|by apply handle_wf]. Qed.
End faults.

(** * Construction *)
Section construction.
Context `{P : Platform} `{B : Build} `{A : !Archives}.
Implicit Types w : World.

(** What the rest of the process sees of an operation on files. *)
Definition files_only {T} (m : M World T) : Prop :=
  ∀ w, let w' := (m w).2 in
    w'.(queue) = w.(queue) ∧ w'.(pm) = w.(pm) ∧ w'.(cc) = w.(cc) ∧ w'.(nc) = w.(nc) ∧
    w'.(pmids) = w.(pmids).

Lemma files_only_bind {T U} (m : M World T) (k : T → M World U) :
  files_only m → (∀ a, files_only (k a)) → files_only (m ≫= k).
Proof.
  intros Hm Hk w. unfold mbind, M_bind. specialize (Hm w).
  destruct (m w) as [[a|e|f] w']; [|done..]. destruct Hm as (H1 & H2 & H3 & H4 & H5).
  destruct (Hk a w') as (K1 & K2 & K3 & K4 & K5). cbn in *. split_and!; congruence.
Qed.

Lemma files_only_ret {T} (a : T) : files_only (mret a).
Proof. done. Qed.
Lemma files_only_throw {T} e : files_only (throw (A:=T) e).
Proof. done. Qed.
Lemma files_only_crash {T} f : files_only (crash (A:=T) f).
Proof. done. Qed.
Lemma files_only_gets {T} (f : World → T) : files_only (gets f).
Proof. done. Qed.
Lemma files_only_lift {T} (r : Res T) : files_only (lift_res r).
Proof. done. Qed.
Lemma files_only_os_call {T} (f : OS → Lib T * OS) : files_only (os_call f).
Proof. intros w. unfold os_call. by destruct (f (os w)). Qed.
Lemma files_only_os_call' {T} (f : OS → T * OS) : files_only (os_call' f).
Proof. intros w. unfold os_call'. by destruct (f (os w)). Qed.
Lemma files_only_emit e : files_only (emit e).
Proof. done. Qed.
Lemma files_only_cfg f : files_only (modify (set_cfg f)).
Proof. done. Qed.
End construction.

Create HintDb files discriminated.
#[export] Hint Resolve files_only_bind files_only_ret files_only_throw files_only_crash
  files_only_gets files_only_lift files_only_os_call files_only_os_call' files_only_emit
  files_only_cfg : files.

(** Show that an operation is on files only, branch by branch. *)
Ltac files_solve :=
  repeat first
    [ solve [eauto with files]
    | apply files_only_bind; [|intros ?]
    | match goal with
      | |- files_only (raise _) => apply files_only_throw
      | |- files_only (assert_ ?b) => unfold assert_; destruct b
      | |- files_only (match ?x with _ => _ end) => destruct x
      | |- files_only (let '_ := ?x in _) => destruct x
      end ].

Section start.
Context `{P : Platform} `{B : Build} `{A : !Archives}.
Context `{AL : !ArchiveLaws} `{AS : !ArchiveSafety}.
Implicit Types w : World.

Lemma ConfigFileHandler_make_files path : files_only (ConfigFileHandler_make path).
Proof.
  unfold ConfigFileHandler_make, InitialiseKeyAndIv, no_config_file, ParseConfigFile,
    CreateConfigFile, write_config. files_solve.
Qed.

Lemma ReadConfigFile_files : files_only ReadConfigFile.
Proof. unfold ReadConfigFile, ParseConfigFile. files_solve. Qed.

(** Whatever the file holds, no vault comes out of it. *)
Lemma ReadConfigFile_empty w l w' : ReadConfigFile w = (Ok l, w') → l = [].
Proof.
  unfold ReadConfigFile, ParseConfigFile, os_call. mrun.
  destruct (ReadFile _ _) as [[bs|e] o]; mrun; [|intros; by simplify_eq].
  destruct (ConfigFile_load bs) as [[c rest]|e|f] eqn:E; mrun; [|intros; by simplify_eq..].
  case_bool_decide; mrun; intros ?; simplify_eq. by eapply ConfigFile_load_no_vaults.
Qed.

Lemma system_empty w :
  vaults w = [] → w.(queue) = [] → w.(cc) = ClientConnections.ClientConnections_make →
  w.(nc) = NewConnections.NewConnections_make → system_wf w.
Proof.
  intros Hv Hq Hc Hn.
  assert (Hh : ∀ k, ¬ holds w k) by (intros k (c & H & _); rewrite Hv in H; by apply elem_of_nil in H).
  split; rewrite ?Hc, ?Hn; try done.
  - split; rewrite ?Hv, ?Hq; constructor.
  - intros k [t Ht]. by cbn in Ht.
  - intros k [t Ht]. rewrite ClientConnections.table_lookup in Ht. by cbn in Ht.
Qed.

Lemma ProcessManager_make_facts path port w w' :
  ProcessManager_make path port w = (Ok tt, w') →
  vaults w' = [] ∧ w'.(queue) = w.(queue) ∧ w'.(pmids) = w.(pmids).
Proof.
  unfold ProcessManager_make, InitSignalHandler, os_call'. mrun.
  destruct (fs_exists_ec _ _) as [[found e1] o1]. cbn.
  destruct (negb found || _); mrun; [intros; by simplify_eq|].
  destruct (fs_is_regular_file_ec _ _) as [[regular e2] o2]. cbn.
  destruct (negb regular || _); mrun; [intros; by simplify_eq|].
  destruct (fs_is_symlink_ec _ _) as [[symlink e3] o3]. cbn.
  destruct (symlink || _); mrun; intros; by simplify_eq.
Qed.

(** A step on files only. *)
Lemma files_system {T} (m : M World T) w r w' :
  files_only m → m w = (r, w') → system_wf w →
  system_wf w' ∧ vaults w' = vaults w ∧ w'.(pmids) = w.(pmids) ∧ w'.(queue) = w.(queue).
Proof.
  intros Hm E Hw. specialize (Hm w). rewrite E in Hm. destruct Hm as (H1 & H2 & H3 & H4 & H5).
  cbn in *. split_and!; [|unfold vaults; by rewrite H2|done..].
  eapply system_same; try done. by rewrite H5.
Qed.

Lemma label_loop_files n l : files_only (label_loop n l).
Proof. revert l. induction n as [|n IH]; intros l; cbn [label_loop]; files_solve. Qed.

Lemma GenerateLabel_files : files_only GenerateLabel.
Proof.
  unfold GenerateLabel. apply files_only_bind; [files_solve|]. intros s.
  apply files_only_bind; [apply label_loop_files|]. intros l. files_solve.
Qed.

Lemma WriteConfigFile_files l : files_only (WriteConfigFile l).
Proof. unfold WriteConfigFile, write_config. files_solve. Qed.

Lemma GetPath_files p : files_only (GetPath p).
Proof. unfold GetPath, GetTestEnvironmentRootDir. files_solve. Qed.

Lemma deref_files p : files_only (deref_pmid p).
Proof. intros w. unfold deref_pmid. destruct p; [|done]. by destruct (pmids w !! _). Qed.

Lemma put_files n p : files_only (put_until_stored n p).
Proof.
  induction n as [|n IH]; cbn [put_until_stored]; [files_solve|].
  apply files_only_bind; [|intros []; [files_solve|done]].
  intros w. unfold try_catch, mbind, M_bind. pose proof (deref_files p w) as Hd.
  by destruct (deref_pmid p w) as [[?|?|?] w1].
Qed.

(** Adding a first vault without a connection. *)
Lemma AddProcess_first i w w' :
  system_wf w → vaults w = [] → ptr_ok w.(pmids) i.(pmid_and_signer) →
  i.(tcp_connection) = null_connection → AddProcess i 0 w = (Ok tt, w') →
  system_wf w' ∧ w'.(pmids) = w.(pmids) ∧ ∃ pid, vaults w' = [started_child i 0 pid].
Proof.
  intros Hw Hv Hp Hi E. split.
  - assert (Hs : isafe system_wf (AddProcess i 0) w).
    { apply safe_null_ssafe; [done|]. rewrite <- Hi.
      apply AddProcess_safe; [apply Hw|done|lia]. }
    destruct Hs as [_ Hs]. by rewrite E in Hs.
  - rewrite AddProcess_run in E by (done || apply pm_wf_pointers, Hw).
    destruct (decide _); [done|]. destruct (decide _); [done|].
    destruct (bp_execute _ _ _) as [[pid|e] os']; simplify_eq. split; [done|]. exists pid. cbn.
    unfold vaults in Hv |- *. cbn. by rewrite Hv.
Qed.

(** A step on files, followed by others. *)
Lemma files_then {T U} (m : M World T) (k : T → M World U) w b w' :
  files_only m → system_wf w → (m ≫= k) w = (Ok b, w') →
  ∃ a w1, m w = (Ok a, w1) ∧ k a w1 = (Ok b, w') ∧ system_wf w1 ∧ vaults w1 = vaults w ∧
    w1.(pmids) = w.(pmids).
Proof.
  intros Hm Hw H. apply M_bind_Ok in H as (a & w1 & E & H).
  destruct (files_system m w (Ok a) w1 Hm E Hw) as (? & ? & ? & _). by exists a, w1.
Qed.

(** Go past the next step, on files. *)
Ltac past H x w E Hw Hv Hp :=
  apply files_then in H as (x & w & E & H & Hw & Hv & Hp);
  [|first [done|apply put_files|apply deref_files|apply GetPath_files|apply files_only_os_call
          |apply files_only_os_call'|apply GenerateLabel_files|by files_solve]|assumption].

(** What [StartFirstVault] makes of new keys and a label. *)
Definition first_vault (n : nat) (dir : Path) (usage : Z) (lab : NonEmptyString) : VaultInfo :=
  set_label lab (set_owner Identity_default usage (set_dir dir (set_pmid (Some n) VaultInfo_default))).

(** The release build's first vault. *)
Lemma StartFirstVault_facts w w' :
  system_wf w → vaults w = [] → StartFirstVault w = (Ok tt, w') →
  system_wf w' ∧ ∃ os n dir usage lab pid w1,
    vaults w' = [started_child (first_vault n dir usage lab) 0 pid] ∧
    w'.(pmids) !! n = Some (CreatePmidAndSigner os).1 ∧
    (GetVaultDir (DebugId (Pmid_name (CreatePmidAndSigner os).1.1)) w1).1 = Ok dir.
Proof.
  intros Hw Hv H. unfold StartFirstVault in H.
  past H keys w1 E Hw1 Hv1 Hp1. rewrite os_call'_run in E. injection E as Hk _.
  apply M_bind_Ok in H as (p & w2 & E & H). unfold make_shared_pmid in E. injection E as <- E.
  assert (Hw2 : system_wf w2 ∧ vaults w2 = vaults w1 ∧ pmids w2 !! length (pmids w1) = Some keys).
  { subst w2. split_and!; [|done|cbn; by rewrite list_lookup_middle].
    eapply system_same; try done. intros n [x Hx]. cbn. exists x. by apply lookup_app_l_Some. }
  destruct Hw2 as (Hw2 & Hv2 & Hp2). clear E. set (n := length (pmids w1)) in *.
  past H stored w3 E3 Hw3 Hv3 Hp3. past H k w4 E4 Hw4 Hv4 Hp4.
  assert (k = keys) as ->.
  { unfold deref_pmid in E4. rewrite Hp3, Hp2 in E4. by injection E4. }
  past H dir w5 E5 Hw5 Hv5 Hp5. past H there w6 E6 Hw6 Hv6 Hp6. past H t w7 E7 Hw7 Hv7 Hp7.
  past H available w8 E8 Hw8 Hv8 Hp8. past H lab w9 E9 Hw9 Hv9 Hp9.
  apply M_bind_Ok in H as ([] & w10 & E & H).
  assert (Hn : pmids w9 !! n = Some keys) by congruence.
  change (AddProcess _ 0 w9) with
    (AddProcess (first_vault n dir (to_u64 (9 * available) / 10) lab) 0 w9) in E.
  apply AddProcess_first in E as (Hw10 & Hk10 & pid & Hv10); [|done|congruence|cbn; by eexists|done].
  past H known w11 E11 Hw11 Hv11 Hp11.
  destruct (files_system _ _ _ _ (WriteConfigFile_files _) H Hw11) as (Hw12 & Hv12 & Hp12 & _).
  split; [done|]. rewrite Hv12, Hv11, Hv10, Hp12, Hp11, Hk10.
  exists (os w), n, dir, (to_u64 (9 * available) / 10), lab, pid, w4. rewrite Hk. split_and!; [done..|].
  unfold GetVaultDir in E5 |- *. by rewrite E5.
Qed.

Lemma GetInitialListeningPort_files : files_only GetInitialListeningPort.
Proof. unfold GetInitialListeningPort, GetTestVaultManagerPort. files_solve. Qed.

Lemma GetVaultExecutablePath_files : files_only GetVaultExecutablePath.
Proof. unfold GetVaultExecutablePath, GetPathToVault. files_solve. Qed.

(** The vault a release build starts with. *)
Definition one_fresh_vault w : Prop :=
  ∃ os n usage lab pid,
    let keys := (CreatePmidAndSigner os).1 in
    let dir := Path_append (Path_of_string GetSystemAppSupportDir_string) (DebugId (Pmid_name keys.1)) in
    vaults w = [started_child (first_vault n dir usage lab) 0 pid] ∧ w.(pmids) !! n = Some keys.

(** A manager that was constructed satisfies the invariant, with no vault in a testing
    build and one starting vault in a release build - whatever the configuration
    file lists. *)
Lemma VaultManager_make_facts w w' :
  w.(queue) = [] → VaultManager_make w = (Ok tt, w') →
  system_wf w' ∧ if TESTING then vaults w' = [] ∧ w'.(queue) = [] else one_fresh_vault w'.
Proof.
  intros Hq H. unfold VaultManager_make in H.
  apply M_bind_Ok in H as (path & w1 & E & H).
  pose proof (GetPath_files kConfigFilename w) as (F & _).
  change (GetPath kConfigFilename w) with (GetConfigFilePath w) in F. rewrite E in F. cbn in F.
  rewrite Hq in F. clear Hq E.
  apply M_bind_Ok in H as ([] & w2 & E & H).
  pose proof (ConfigFileHandler_make_files path w1) as (F2 & _). rewrite E in F2. cbn in F2.
  rewrite F in F2. clear E F.
  apply M_bind_Ok in H as ([] & w3 & E & H). unfold modify in E. injection E as <-.
  apply M_bind_Ok in H as ([] & w4 & E & H). unfold modify in E. injection E as <-.
  apply M_bind_Ok in H as (port & w5 & E & H).
  pose proof (GetInitialListeningPort_files (set_tear_down false (set_network_stable false w2))) as (F5 & _).
  rewrite E in F5. cbn in F5. rewrite F2 in F5. clear E F2.
  apply M_bind_Ok in H as (lport & w6 & E & H).
  pose proof (files_only_os_call (tcp_listen port) w5) as (F6 & _). rewrite E in F6. cbn in F6.
  rewrite F5 in F6. clear E F5.
  apply M_bind_Ok in H as (vault & w7 & E & H).
  pose proof (GetVaultExecutablePath_files w6) as (F7 & _). rewrite E in F7. cbn in F7.
  rewrite F6 in F7. clear E F6.
  apply M_bind_Ok in H as ([] & w8 & E & H).
  apply ProcessManager_make_facts in E as (Hv & Hq & _). rewrite F7 in Hq.
  apply M_bind_Ok in H as ([] & w9 & E & H). unfold modify in E. injection E as <-.
  apply M_bind_Ok in H as ([] & w10 & E & H). unfold modify in E. injection E as <-.
  match type of H with _ ?w0 = _ => assert (Hwf : system_wf w0) by by apply system_empty end.
  apply M_bind_Ok in H as (vs & w11 & E & H).
  pose proof (ReadConfigFile_empty _ _ _ E) as ->.
  destruct (files_system _ _ _ _ ReadConfigFile_files E Hwf) as (Hw11 & Hv11 & _ & Hq11).
  cbn in Hv11. unfold vaults in Hv11 at 2. cbn in Hv11. fold (vaults w8) in Hv11. rewrite Hv in Hv11.
  destruct TESTING eqn:HT.
  - unfold mret, M_ret in H. simplify_eq. split_and!; [done..|]. by rewrite Hq11.
  - destruct (StartFirstVault_facts w11 w' Hw11 Hv11 H) as (? & os & n & dir & u & lab & pid & wd & Hvd & Hn & Hd).
    split; [done|]. unfold GetVaultDir, GetPath in Hd. rewrite HT in Hd. injection Hd as <-.
    by exists os, n, u, lab, pid.
Qed.
End start.

(** * Runs *)
Section runs.
Context `{P : Platform} `{B : Build} `{A : !Archives}.
Implicit Types w : World.

(** One event, handled to the end. *)
Inductive step (w w' : World) : Prop :=
| step_event e r :
    event_ok w e → handle e w = (r, w') → is_Fault r = false → step w w'.

(** The states of a process that was constructed on a machine and has handled any
    events since. *)
Definition reachable (w : World) : Prop :=
  ∃ w0 w1, w0.(queue) = [] ∧ VaultManager_make w0 = (Ok tt, w1) ∧ rtc step w1 w.

Lemma reachable_wf `{AL : !ArchiveLaws} `{AS : !ArchiveSafety} w : reachable w → system_wf w.
Proof.
  intros (w0 & w1 & Hq & Hmake & Hsteps).
  apply VaultManager_make_facts in Hmake as [Hw1 _]; [|done].
  induction Hsteps as [|w1 w2 w3 [e r He E Hr] _ IH]; [done|]. apply IH.
  pose proof (handle_wf e w1 Hw1 He) as Hk. rewrite E in Hk. by apply Hk.
Qed.

(** C23: a manager that starts knows none of the vaults of the one before it, although their
    configuration file was written: whatever is on the machine and whatever vaults the file
    lists, a testing build starts without any vault, and a release build starts a single new
    one, with new keys, no owner, and the directory named after the keys. *)
Theorem manager_starts_afresh `{AL : !ArchiveLaws} `{AS : !ArchiveSafety} w w' :
  w.(queue) = [] → VaultManager_make w = (Ok tt, w') →
  if TESTING then vaults w' = [] else one_fresh_vault w'.
Proof.
  intros Hq Hm. pose proof (VaultManager_make_facts w w' Hq Hm) as [_ H]. destruct TESTING; [apply H|done].
Qed.

(** C1: in every reachable state of the process, no two vaults have the same label,
    directory or connection, every vault has a pointer to a keys object that is there, and at
    most five restarts, and a connection is silent, a client's or a vault's, but never two of
    these.  (The keys object may be moved-from, after [TakeOwnership_same_dir].) *)
Theorem reachable_invariant `{AL : !ArchiveLaws} `{AS : !ArchiveSafety} w :
  reachable w →
  NoDup (vault_label <$> vaults w) ∧ NoDup (vault_path <$> vaults w) ∧
  NoDup (vault_connection <$> vaults w) ∧
  (∀ c, c ∈ vaults w → has_pmid w.(pmids) c.(info) ∧
     0 ≤ c.(restart_count) ≤ kMaxVaultRestarts ∧ c.(status) ≠ kBeforeStarted) ∧
  (∀ k, is_Some (w.(nc).(connections_) !! k) →
     ClientConnections.table w.(cc) !! k = None ∧ k ∉ vault_connection <$> vaults w) ∧
  (∀ k, is_Some (ClientConnections.table w.(cc) !! k) → k ∉ vault_connection <$> vaults w).
Proof.
  intros Hw%reachable_wf.
  pose proof Hw as [[H1 H2 H3 H4 H5] Hcc Hnc _ _ H6 H7]. split_and!; try done.
  - intros c Hc. rewrite Forall_forall in H1. by destruct (H1 c Hc).
  - intros k Hk. destruct (H6 k Hk) as [Hc Hh]. split; [by apply eq_None_not_Some|].
    intros (c & -> & Hc')%list_elem_of_fmap. apply Hh. split.
    + intros E. rewrite E, Hnc in Hk. by destruct Hk.
    + exists c. split; [done|by left].
  - intros k Hk (c & -> & Hc')%list_elem_of_fmap. apply (H7 _ Hk). split.
    + by apply (client_not_null w).
    + exists c. split; [done|by left].
Qed.
End runs.
