(* ===== verification/Frames.v ===== *)
(** What each operation leaves alone: [stable v m] says that [m] does not change the
    part [v] of the process, whatever way it ends. *)
From S2P Require Export VaultManager.
From S2P Require NewConnections ClientConnections.

Section stable.
Context {St V : Type} (v : St → V).

Definition stable {T} (m : M St T) : Prop := ∀ s, v (m s).2 = v s.

Lemma stable_bind {T U} (m : M St T) (k : T → M St U) :
  stable m → (∀ a, stable (k a)) → stable (m ≫= k).
Proof.
  intros Hm Hk s. unfold mbind, M_bind. specialize (Hm s).
  destruct (m s) as [[a|e|f] s']; [|done..]. rewrite <- Hm. apply Hk.
Qed.

Lemma stable_try_catch {T} (m : M St T) h :
  stable m → (∀ e, stable (h e)) → stable (try_catch m h).
Proof.
  intros Hm Hh s. unfold try_catch. specialize (Hm s).
  destruct (m s) as [[a|e|f] s']; [done| |done]. rewrite <- Hm. apply Hh.
Qed.

Lemma stable_on_scope_exit {T} c (m : M St T) :
  stable m → stable c → stable (on_scope_exit c m).
Proof.
  intros Hm Hc s. unfold on_scope_exit. specialize (Hm s).
  destruct (m s) as [[a|e|f] s']; [done| |done]. specialize (Hc s').
  destruct (c s') as [[?|?|?] s'']; cbn in *; congruence.
Qed.

Lemma stable_finally {T} c (m : M St T) : stable m → stable c → stable (finally c m).
Proof.
  intros Hm Hc s. unfold finally. pose proof (stable_on_scope_exit c m Hm Hc s) as Hs.
  destruct (on_scope_exit c m s) as [[a|e|f] s']; [|done..]. specialize (Hc s').
  destruct (c s') as [[?|?|?] s'']; cbn in *; congruence.
Qed.

Lemma stable_for_each {T} (f : T → M St unit) l :
  (∀ x, stable (f x)) → stable (for_each f l).
Proof. intros Hf. induction l as [|x l IH]; [done|]. by apply stable_bind. Qed.

Lemma stable_modify f : (∀ s, v (f s) = v s) → stable (modify f).
Proof. intros Hf s. apply Hf. Qed.

Lemma stable_ret {T} (a : T) : stable (mret a).
Proof. done. Qed.
Lemma stable_throw {T} e : stable (throw (A:=T) e).
Proof. done. Qed.
Lemma stable_crash {T} f : stable (crash (A:=T) f).
Proof. done. Qed.
Lemma stable_gets {T} (f : St → T) : stable (gets f).
Proof. done. Qed.
Lemma stable_lift {T} (r : Res T) : stable (lift_res r).
Proof. done. Qed.
End stable.

Section stable_world.
Context `{P : Platform}.
Context {V : Type} (v : World → V).
Implicit Types w : World.

Lemma stable_os_call {T} (f : OS → Lib T * OS) :
  (∀ w o, v (set_os (λ _, o) w) = v w) → stable v (os_call f).
Proof. intros Hv w. unfold os_call. destruct (f (os w)). apply Hv. Qed.

Lemma stable_os_call' {T} (f : OS → T * OS) :
  (∀ w o, v (set_os (λ _, o) w) = v w) → stable v (os_call' f).
Proof. intros Hv w. unfold os_call'. destruct (f (os w)). apply Hv. Qed.

Lemma stable_make_shared p :
  (∀ w f, v (set_pmids f w) = v w) → stable v (make_shared_pmid p).
Proof. intros Hv w. apply Hv. Qed.

Lemma stable_deref p : stable v (deref_pmid p).
Proof. intros w. unfold deref_pmid. destruct p; [|done]. by destruct (pmids w !! _). Qed.

Lemma stable_child_at i : stable v (child_at i).
Proof. intros w. unfold child_at. by destruct (vaults w !! i). Qed.

(** In a handler with a local [vault_info]. *)
Lemma stable_in_process {T} (m : M World T) :
  stable v m → stable (λ s : World * VaultInfo, v s.1) (in_process m).
Proof. intros Hm s. unfold in_process. cbn. specialize (Hm s.1). by destruct (m s.1). Qed.

Lemma stable_with_local {T} i (m : M (World * VaultInfo) T) :
  stable (λ s : World * VaultInfo, v s.1) m → stable v (with_local i m).
Proof. intros Hm w. specialize (Hm (w, i)). unfold with_local. by destruct (m (w, i)) as [r [w' j]]. Qed.
End stable_world.

(** Show stability branch by branch; [tac] closes the calls of other operations. *)
Ltac stable_with tac :=
  repeat lazymatch goal with
    | |- stable _ (mbind _ _) => apply stable_bind; [|intros ?]
    | |- stable _ (try_catch _ _) => apply stable_try_catch; [|intros ?]
    | |- stable _ (on_scope_exit _ _) => apply stable_on_scope_exit
    | |- stable _ (finally _ _) => apply stable_finally
    | |- stable _ (for_each _ _) => apply stable_for_each; intros ?
    | |- stable _ (mret _) => apply stable_ret
    | |- stable _ (throw _) => apply stable_throw
    | |- stable _ (raise _) => apply stable_throw
    | |- stable _ (crash _) => apply stable_crash
    | |- stable _ (gets _) => apply stable_gets
    | |- stable _ (lift_res _) => apply stable_lift
    | |- stable _ (deref_pmid _) => apply stable_deref
    | |- stable _ (child_at _) => apply stable_child_at
    | |- stable _ (modify _) => apply stable_modify; intros ?; first [reflexivity | by tac]
    | |- stable _ (emit _) => apply stable_modify; intros ?; first [reflexivity | by tac]
    | |- stable _ (update_child _ _) => apply stable_modify; intros ?; first [reflexivity | by tac]
    | |- stable _ (os_call _) => apply stable_os_call; intros ? ?; first [reflexivity | by tac]
    | |- stable _ (os_call' _) => apply stable_os_call'; intros ? ?; first [reflexivity | by tac]
    | |- stable _ (make_shared_pmid _) =>
        apply stable_make_shared; intros ? ?; first [reflexivity | by tac]
    | |- stable _ (in_process _) => apply stable_in_process
    | |- stable _ (with_local _ _) => apply stable_with_local
    | |- stable _ (assign_local _) => apply stable_modify; intros ?; reflexivity
    | |- stable _ local => apply stable_gets
    | |- stable _ (assert_ ?b) => unfold assert_; destruct b
    | |- stable _ (match ?x with _ => _ end) => destruct x
    | |- stable _ _ => tac
    end.
Ltac stable_solve := stable_with ltac:(fail).

(** ** The vaults' operations leave the clients and the silent connections alone *)
Section frames.
Context `{P : Platform} `{B : Build} `{A : !Archives}.

(** The parts of the process that neither vaults nor files touch, the store of the keys objects
    included. *)
Definition clients_part (w : World) := (w.(cc), w.(nc), w.(env), w.(network_stable_), w.(pmids)).

Lemma Send_stable {V} (v : World → V) k m :
  (∀ w f, v (set_trace f w) = v w) → stable v (Send k m).
Proof.
  intros Hv. unfold Send. apply stable_bind; [apply stable_lift|]. intros bs.
  destruct (N.eqb _ _); [apply stable_crash|]. apply stable_modify. intros w. apply Hv.
Qed.

Lemma Close_stable {V} (v : World → V) k :
  (∀ w f, v (set_trace f w) = v w) → stable v (Close k).
Proof.
  intros Hv. unfold Close. destruct (N.eqb _ _); [apply stable_crash|].
  apply stable_modify. intros w. apply Hv.
Qed.

Lemma Check_stable {V} (v : World → V) n e : stable v (CheckNewVaultDoesntConflict n e).
Proof. unfold CheckNewVaultDoesntConflict. stable_solve. Qed.

Lemma AddProcess_stable i r : stable clients_part (AddProcess i r).
Proof.
  unfold AddProcess, StartProcess, update_child.
  stable_with ltac:(first [apply Check_stable]).
Qed.

Lemma DoFind_stable {V} (v : World → V) lab : stable v (DoFind lab).
Proof. unfold DoFind. stable_solve. Qed.
Lemma DoFindConnection_stable {V} (v : World → V) k : stable v (DoFindConnection k).
Proof. unfold DoFindConnection. stable_solve. Qed.
Lemma Find_stable {V} (v : World → V) lab : stable v (Find lab).
Proof. unfold Find. stable_with ltac:(first [apply DoFind_stable]). Qed.
Lemma FindConnection_stable {V} (v : World → V) k : stable v (FindConnection k).
Proof. unfold FindConnection. stable_with ltac:(first [apply DoFindConnection_stable]). Qed.

Lemma StopProcess_stable k f : stable clients_part (StopProcess k f).
Proof.
  unfold StopProcess, update_child.
  stable_with ltac:(first [apply DoFindConnection_stable | apply Send_stable; done]).
Qed.

Lemma WriteConfigFile_stable {V} (v : World → V) l :
  (∀ w o, v (set_os (λ _, o) w) = v w) → (∀ w f, v (set_trace f w) = v w) →
  stable v (WriteConfigFile l).
Proof.
  intros Ho Ht. unfold WriteConfigFile, write_config, emit.
  stable_with ltac:(first [apply Ho | apply Ht]).
Qed.

Lemma run_functor_stable f ec z : stable clients_part (run_functor f ec z).
Proof.
  unfold run_functor, GetAll. destruct f.
  stable_with ltac:(first [apply AddProcess_stable | apply WriteConfigFile_stable; done]).
Qed.

Lemma OnProcessExit_stable lab ec t : stable clients_part (OnProcessExit run_functor lab ec t).
Proof.
  unfold OnProcessExit, IsRunning, TerminateProcess, InvokeOnExitFunctor, RestartIfRequired.
  stable_with ltac:(first [apply run_functor_stable | apply Close_stable; done]).
Qed.

Lemma HandleConnectionClosed_stable k :
  stable clients_part (ProcessManager.HandleConnectionClosed run_functor k).
Proof.
  unfold ProcessManager.HandleConnectionClosed.
  stable_with ltac:(first [apply OnProcessExit_stable | apply DoFindConnection_stable]).
Qed.

Lemma OnSignal_stable r s : stable clients_part (OnSignal run_functor r s).
Proof.
  unfold OnSignal, InitSignalHandler.
  stable_with ltac:(first [apply OnProcessExit_stable]).
Qed.

Lemma OnRestart_stable i r : stable clients_part (OnRestart i r).
Proof. unfold OnRestart. stable_with ltac:(first [apply AddProcess_stable]). Qed.

Lemma HandleVaultStarted_stable k pid : stable clients_part (ProcessManager.HandleVaultStarted k pid).
Proof. unfold ProcessManager.HandleVaultStarted, update_child. stable_solve. Qed.

Lemma AssignOwner_stable lab n u : stable clients_part (AssignOwner lab n u).
Proof. unfold AssignOwner, update_child. stable_with ltac:(first [apply DoFind_stable]). Qed.

Lemma FindValidated_stable {V} (v : World → V) k : stable v (ClientConnections.FindValidated k).
Proof. unfold ClientConnections.FindValidated. stable_solve. Qed.
Lemma FindValidatedName_stable {V} (v : World → V) n :
  stable v (ClientConnections.FindValidatedName n).
Proof. unfold ClientConnections.FindValidatedName. stable_solve. Qed.

Lemma GetPath_stable {V} (v : World → V) p : stable v (GetPath p).
Proof. unfold GetPath, GetTestEnvironmentRootDir. stable_solve. Qed.

Lemma GetPmidAndSigner_stable {V} (v : World → V) i : stable v (GetPmidAndSigner i).
Proof. unfold GetPmidAndSigner. stable_solve. Qed.
End frames.
