(* ===== verification/Authority.v ===== *)
(** Who may change what: a connection becomes a client only by signing its challenge,
    and a vault gets an owner only from that owner's validated connection. *)
From S2P Require Export Frames System.
From S2P Require NewConnections ClientConnections.
From S2P Require Import Demo.

(** * Becoming a client *)
Section clients.
Context `{P : Platform} `{B : Build} `{A : !Archives}.
Implicit Types w : World.

Definition validated (w : World) : gmap ConnectionPtr Identity := w.(cc).(clients_).

Lemma stable_clients_part {T} (m : M World T) : stable clients_part m → stable validated m.
Proof. intros Hm w. specialize (Hm w). unfold clients_part, validated in *. congruence. Qed.

Lemma AddNew_stable k : stable validated (NewConnections.Add k).
Proof. unfold NewConnections.Add. stable_solve. Qed.
Lemma RemoveNew_stable k : stable validated (NewConnections.Remove k).
Proof. unfold NewConnections.Remove. stable_solve. Qed.
Lemma AddClient_stable k ch : stable validated (ClientConnections.Add k ch).
Proof. unfold ClientConnections.Add. stable_solve. Qed.

Ltac validated_solve :=
  stable_with ltac:(first
    [ apply stable_clients_part, HandleConnectionClosed_stable
    | apply stable_clients_part, OnProcessExit_stable
    | apply stable_clients_part, OnSignal_stable
    | apply stable_clients_part, OnRestart_stable
    | apply stable_clients_part, AddProcess_stable
    | apply stable_clients_part, HandleVaultStarted_stable
    | apply stable_clients_part, AssignOwner_stable
    | apply stable_clients_part, StopProcess_stable
    | apply FindValidated_stable | apply FindValidatedName_stable
    | apply Find_stable | apply FindConnection_stable
    | apply WriteConfigFile_stable; done | apply Send_stable; done | apply Close_stable; done
    | apply GetPath_stable | apply GetPmidAndSigner_stable
    | apply AddNew_stable | apply RemoveNew_stable | apply AddClient_stable ]).

Lemma HandleStartVaultRequest_stable k q : stable validated (HandleStartVaultRequest k q).
Proof.
  unfold HandleStartVaultRequest, TryStartVault, StartVaultKeys, StartVaultDir, StartVaultVlog,
    PutPmidAndSigner, GetAll, GetVaultDir. validated_solve.
Qed.

Lemma HandleTakeOwnershipRequest_stable k q : stable validated (HandleTakeOwnershipRequest k q).
Proof.
  unfold HandleTakeOwnershipRequest, TryTakeOwnership, ChangeChunkstorePath, move_shared_pmid,
    GetAll. cbn zeta. validated_solve.
Qed.

(** No handler but the one of [ChallengeResponse] changes who is validated. *)
Lemma dispatch_stable k t body :
  t ≠ kChallengeResponse → stable validated (dispatch k t body).
Proof.
  intros Ht. destruct t; cbn [dispatch]; try done; stable_with ltac:(first
    [ apply HandleStartVaultRequest_stable | apply HandleTakeOwnershipRequest_stable | idtac ]).
  - unfold HandleValidateConnectionRequest, RemoveFromNewConnections. cbn zeta. validated_solve.
  - unfold VaultManager.HandleVaultStarted, RemoveFromNewConnections, SymmKeyAndIV, GetPublicPmids.
    validated_solve.
  - unfold HandleJoinedNetwork. cbn zeta. validated_solve.
  - unfold HandleLogMessage. validated_solve.
  - unfold HandleSetNetworkAsStable, ClientConnections.GetAll. validated_solve.
  - unfold HandleNetworkStableRequest. validated_solve.
Qed.

Lemma HandleReceivedMessage_stable k bs :
  (∀ body, ParseTag bs ≠ Ok (kChallengeResponse, body)) →
  stable validated (HandleReceivedMessage k bs).
Proof.
  intros Ht. unfold HandleReceivedMessage. apply stable_try_catch; [|done].
  intros w. unfold mbind, M_bind, lift_res.
  destruct (ParseTag bs) as [[t body]|e|f]; [|done..].
  apply dispatch_stable. intros ->. by apply (Ht body).
Qed.

Lemma run_work_stable k : stable validated (run_work k).
Proof.
  destruct k as [[lab|lab|k|k] r|i r]; cbn [run_work run_handler].
  - unfold OnStartTimer. validated_solve.
  - unfold OnStopTimer. validated_solve.
  - unfold NewConnections.OnTimer. validated_solve.
  - unfold ClientConnections.OnTimer. validated_solve.
  - validated_solve.
Qed.

(** What an event may do to the set of validated clients. *)
Lemma handle_validated e w :
  match e with
  | MessageReceived k bs =>
      (∀ body, ParseTag bs ≠ Ok (kChallengeResponse, body)) →
      validated (handle e w).2 = validated w
  | ConnectionClosed k =>
      validated (handle e w).2 = validated w ∨ validated (handle e w).2 = delete k (validated w)
  | _ => validated (handle e w).2 = validated w
  end.
Proof.
  destruct e as [k|k bs|k|r signum|j r|k r|k r|]; cbn [handle].
  - revert w. change (stable validated (HandleNewConnection k)).
    unfold HandleNewConnection. validated_solve.
  - intros Ht. by apply HandleReceivedMessage_stable.
  - unfold VaultManager.HandleConnectionClosed, mbind, M_bind.
    pose proof (stable_clients_part _ (HandleConnectionClosed_stable k) w) as Hs.
    destruct (ProcessManager.HandleConnectionClosed _ _ w) as [[[]|e|f] w1]; cbn in Hs |- *;
      [by left| |by left..].
    rewrite ClientConnections.Remove_run. unfold ClientConnections.cw.
    destruct (clients_ (cc w1) !! k); [right; by rewrite <- Hs|left].
    destruct (unvalidated_clients_ (cc w1) !! k); [exact Hs|].
    cbn. rewrite NewConnections.NewRemove_run. exact Hs.
  - revert w. change (stable validated (handle (SignalReceived r signum))). cbn [handle].
    validated_solve.
  - revert w. change (stable validated (handle (VaultTimer j r))). cbn [handle].
    unfold fire. validated_solve.
  - revert w. change (stable validated (handle (NewConnectionTimer k r))). cbn [handle].
    unfold fire. validated_solve.
  - revert w. change (stable validated (handle (UnvalidatedTimer k r))). cbn [handle].
    unfold fire. validated_solve.
  - revert w. change (stable validated (handle RunNext)). cbn [handle].
    stable_with ltac:(apply run_work_stable).
Qed.

Lemma newly_validated e w k n :
  validated (handle e w).2 !! k = Some n → validated w !! k ≠ Some n →
  ∃ bs body r maid challenge t,
    e = MessageReceived k bs ∧ ParseTag bs = Ok (kChallengeResponse, body) ∧
    Parse ChallengeResponse_codec body = Ok r ∧ r.(public_maid) = Some maid ∧
    n = PublicMaid_Name maid ∧ w.(cc).(unvalidated_clients_) !! k = Some (challenge, t) ∧
    CheckSignature challenge r.(signature) (PublicMaid_public_key maid) = true.
Proof.
  intros Hn Hold. pose proof (handle_validated e w) as Hv.
  destruct e as [k'|k' bs|k'|r signum|j r|k' r|k' r|]; try by rewrite Hv in Hn.
  2: { destruct Hv as [Hv|Hv]; rewrite Hv in Hn; [done|].
       apply lookup_delete_Some in Hn as [_ Hn]. done. }
  destruct (ParseTag bs) as [[t body]|x|x] eqn:Ht; [|by rewrite Hv in Hn..].
  destruct (decide (t = kChallengeResponse)) as [->|Hne];
    [|rewrite Hv in Hn by (intros; congruence); done].
  clear Hv. cbn [handle] in Hn.
  unfold HandleReceivedMessage, try_catch, mbind, M_bind, lift_res in Hn. rewrite Ht in Hn.
  cbn [dispatch] in Hn. unfold mbind, M_bind, lift_res in Hn.
  destruct (Parse ChallengeResponse_codec body) as [r|x|x] eqn:Hp; [|done..].
  unfold HandleChallengeResponse in Hn. destruct (public_maid r) as [maid|] eqn:Hm; [|done].
  destruct (unvalidated_clients_ (cc w) !! k') as [[ch tm]|] eqn:Hu.
  2: { by rewrite ClientConnections.Validate_run_unknown in Hn by done. }
  unfold ClientConnections.Validate, mbind, M_bind, gets in Hn. rewrite Hu in Hn.
  destruct (CheckSignature ch (signature r) (PublicMaid_public_key maid)) eqn:Hs.
  - revert Hn. unfold on_scope_exit. mrun.
    destruct (bool_decide (is_Some (clients_ (cc w) !! k'))) eqn:Hb; mrun; [done|].
    unfold validated. cbn. intros Hn. apply lookup_insert_Some in Hn as [[<- <-]|[_ Hn]]; [|done].
    by exists bs, body, r, maid, ch, tm.
  - revert Hn. unfold Close, emit. mrun. destruct (N.eqb k' null_connection); mrun; done.
Qed.

(** C3: the only way to become a validated client is to answer the challenge: when
    handling an event leaves a connection validated under a name it did not have
    before, the event is a [ChallengeResponse] on that connection, the connection was
    waiting for one, and the signature on the challenge it was sent verifies with
    the key of the Maid of that name. *)
Theorem clients_are_authenticated e w k n :
  validated (handle e w).2 !! k = Some n → validated w !! k ≠ Some n →
  ∃ bs body r maid challenge t,
    e = MessageReceived k bs ∧ ParseTag bs = Ok (kChallengeResponse, body) ∧
    Parse ChallengeResponse_codec body = Ok r ∧ r.(public_maid) = Some maid ∧
    n = PublicMaid_Name maid ∧ w.(cc).(unvalidated_clients_) !! k = Some (challenge, t) ∧
    CheckSignature challenge r.(signature) (PublicMaid_public_key maid) = true.
Proof. apply newly_validated. Qed.
End clients.

(** * Owning a vault *)
Section owners.
Context `{P : Platform} `{B : Build} `{A : !Archives}.
Context (S : NonEmptyString → Identity → Prop).
Implicit Types w : World.

(** [owned]: whoever the process has as the owner of a label - of a vault, of one that
    waits for its restart, of one that an exit functor will start - is allowed
    by [S]. *)
Definition info_owned (i : VaultInfo) : Prop := S i.(label) i.(owner_name).

Definition child_owned (c : Child) : Prop :=
  info_owned c.(info) ∧ ∀ f, c.(on_exit) = Some f → info_owned (functor_info f).

Definition work_owned (k : Work) : Prop :=
  match k with RestartVault i _ => info_owned i | WaitHandler _ _ => True end.

Definition owned (w : World) : Prop :=
  Forall child_owned (vaults w) ∧ Forall work_owned w.(queue).

Lemma owned_same w w' : owned w → w'.(pm) = w.(pm) → w'.(queue) = w.(queue) → owned w'.
Proof. unfold owned, vaults. by intros ? -> ->. Qed.

Lemma owned_os_call {T} (f : OS → Lib T * OS) : preserves owned (os_call f).
Proof. intros w Hw. unfold wp, os_call. destruct (f (os w)). by eapply owned_same. Qed.
Lemma owned_os_call' {T} (f : OS → T * OS) : preserves owned (os_call' f).
Proof. intros w Hw. unfold wp, os_call'. destruct (f (os w)). by eapply owned_same. Qed.
Lemma owned_modify f :
  (∀ w, (f w).(pm) = w.(pm)) → (∀ w, (f w).(queue) = w.(queue)) → preserves owned (modify f).
Proof. intros Hp Hq w Hw. apply (owned_same w); [done|apply Hp|apply Hq]. Qed.
Lemma owned_deref p : preserves owned (deref_pmid p).
Proof.
  intros w Hw. unfold wp, deref_pmid. destruct p; [|done]. by destruct (pmids w !! _).
Qed.
Lemma owned_make_shared p : preserves owned (make_shared_pmid p).
Proof. intros w Hw. by eapply owned_same. Qed.

(** An update of a vault in place that keeps its owner. *)
Lemma owned_update_child j f :
  (∀ c, child_owned c → child_owned (f c)) → preserves owned (update_child j f).
Proof.
  intros Hf w [Hv Hq]. split; [|done]. unfold vaults in *. cbn. by apply Forall_alter_keeps.
Qed.

Lemma owned_delete j : preserves owned (modify (set_vaults (delete j))).
Proof. intros w [Hv Hq]. split; [|done]. unfold vaults in *. cbn. by apply Forall_delete. Qed.

Lemma owned_pm_flags f : (∀ p, (f p).(vaults_) = p.(vaults_)) → preserves owned (modify (set_pm f)).
Proof. intros Hf w [Hv Hq]. split; [|done]. unfold vaults in *. cbn. by rewrite Hf. Qed.

Lemma owned_child_at j : yields owned child_owned (child_at j).
Proof.
  intros w Hw. unfold wp, child_at. destruct (vaults w !! j) as [c|] eqn:E; [|done].
  split; [done|]. intros c' [= <-]. destruct Hw as [Hv _]. by eapply Forall_lookup_1.
Qed.

Lemma owned_GetAll : yields owned (Forall info_owned) GetAll.
Proof.
  intros w Hw. split; [done|]. intros l E. injection E as <-. destruct Hw as [Hv _].
  apply Forall_fmap. eapply Forall_impl; [done|]. by intros c [].
Qed.
End owners.

(** Close goals [preserves (owned S) m], operation by operation; [tac] closes what is
    particular to one. *)
Ltac owned_with tac :=
  repeat lazymatch goal with
    | |- preserves _ (mbind _ (child_at _)) =>
        eapply preserves_yields_bind; [apply owned_child_at|intros ? ?]
    | |- preserves _ (mbind _ _) => apply preserves_bind; [|intros ?]
    | |- preserves _ (try_catch _ _) => apply preserves_try_catch; [|intros ?]
    | |- preserves _ (on_scope_exit _ _) => apply preserves_on_scope_exit
    | |- preserves _ (finally _ _) => apply preserves_finally
    | |- preserves _ (for_each _ _) => apply preserves_for_each; intros ?
    | |- preserves _ (mret _) => apply preserves_ret
    | |- preserves _ (throw _) => apply preserves_throw
    | |- preserves _ (raise _) => apply preserves_throw
    | |- preserves _ (crash _) => apply preserves_crash
    | |- preserves _ (gets _) => apply preserves_gets
    | |- preserves _ (lift_res _) => apply preserves_lift_res
    | |- preserves _ (deref_pmid _) => apply owned_deref
    | |- preserves _ (os_call _) => apply owned_os_call
    | |- preserves _ (os_call' _) => apply owned_os_call'
    | |- preserves _ (make_shared_pmid _) => apply owned_make_shared
    | |- preserves _ (modify (set_vaults (delete _))) => apply owned_delete
    | |- preserves _ (emit _) => apply owned_modify; intros ?; reflexivity
    | |- preserves _ (modify _) =>
        first [apply owned_modify; intros ?; reflexivity | apply owned_pm_flags; intros ?; reflexivity | tac]
    | |- preserves _ (update_child _ _) => first [tac | apply owned_update_child; intros ? [? ?]; by split]
    | |- preserves _ (assert_ ?b) => unfold assert_; destruct b
    | |- preserves _ (match ?x with _ => _ end) => destruct x
    | |- preserves _ _ => tac
    end.

Section owned_operations.
Context `{P : Platform} `{B : Build} `{A : !Archives}.
Context (S : NonEmptyString → Identity → Prop).
Implicit Types w : World.
Abbreviation owned := (owned S).
Abbreviation info_owned := (info_owned S).

Lemma Send_owned k m : preserves owned (Send k m).
Proof. unfold Send. owned_with ltac:(fail). Qed.
Lemma Close_owned k : preserves owned (Close k).
Proof. unfold Close. owned_with ltac:(fail). Qed.
Lemma WriteConfigFile_owned l : preserves owned (WriteConfigFile l).
Proof. unfold WriteConfigFile, write_config. owned_with ltac:(fail). Qed.
Lemma Check_owned n e : preserves owned (CheckNewVaultDoesntConflict n e).
Proof. unfold CheckNewVaultDoesntConflict. owned_with ltac:(fail). Qed.

Lemma push_owned i r :
  info_owned i → preserves owned (modify (set_vaults (λ l, l ++ [Child_make i r]))).
Proof.
  intros Hi w [Hv Hq]. split; [|done]. unfold vaults in *. cbn.
  apply Forall_app_2; [done|]. by constructor.
Qed.

Lemma AddProcess_owned i r : info_owned i → preserves owned (AddProcess i r).
Proof.
  intros Hi. unfold AddProcess, StartProcess.
  owned_with ltac:(first [apply Check_owned | by apply push_owned]).
Qed.

Lemma run_functor_owned f ec z : info_owned (functor_info f) → preserves owned (run_functor f ec z).
Proof.
  intros Hf. destruct f as [i]. cbn in *. unfold GetAll.
  owned_with ltac:(first [by apply AddProcess_owned | apply WriteConfigFile_owned]).
Qed.

Lemma Invoke_owned f ec t :
  (∀ g, f = Some g → info_owned (functor_info g)) →
  preserves owned (InvokeOnExitFunctor run_functor f ec t).
Proof.
  intros Hf. destruct f as [g|]; cbn [InvokeOnExitFunctor]; [|apply preserves_ret].
  owned_with ltac:(by apply run_functor_owned, Hf).
Qed.

Lemma Restart_owned r i : (0 ≤ r → info_owned i) → preserves owned (RestartIfRequired r i).
Proof.
  intros Hi w [Hv Hq]. unfold wp. rewrite RestartIfRequired_run. cbn.
  destruct (decide _) as [Hr|]; [|done]. split; [done|]. cbn.
  apply Forall_app_2; [done|]. constructor; [|done]. apply Hi, Hr.
Qed.

Lemma OnProcessExit_owned lab ec t : preserves owned (OnProcessExit run_functor lab ec t).
Proof.
  unfold OnProcessExit. apply preserves_bind; [apply preserves_gets|].
  intros [[j c0]|]; [|apply preserves_ret].
  eapply preserves_yields_bind; [apply owned_child_at|]. intros c [Hc Hf].
  eapply (preserves_yields_bind _ (λ '(r, i), 0 ≤ r → info_owned i)).
  - case_bool_decide; [by apply yields_ret|]. cbn zeta.
    eapply yields_bind; [apply preserves_yields, owned_deref|]. intros k _.
    destruct (N.eqb _ _); [by apply yields_ret|].
    eapply yields_bind; [apply preserves_yields, Close_owned|]. intros [] _. by apply yields_ret.
  - intros [r i] Hi. unfold IsRunning, TerminateProcess.
    apply preserves_bind; [owned_with ltac:(fail)|]. intros b.
    apply preserves_bind; [owned_with ltac:(fail)|]. intros [].
    eapply preserves_yields_bind; [apply owned_child_at|]. intros c' [Hc' Hf'].
    owned_with ltac:(first [apply Close_owned | by apply Invoke_owned | by apply Restart_owned]).
Qed.

Lemma HandleConnectionClosed_owned k :
  preserves owned (ProcessManager.HandleConnectionClosed run_functor k).
Proof.
  unfold ProcessManager.HandleConnectionClosed, DoFindConnection.
  owned_with ltac:(apply OnProcessExit_owned).
Qed.

Lemma OnSignal_owned r s : preserves owned (OnSignal run_functor r s).
Proof.
  unfold OnSignal, InitSignalHandler, set_signal_waiting. owned_with ltac:(apply OnProcessExit_owned).
Qed.

Lemma OnRestart_owned i r : info_owned i → preserves owned (OnRestart i r).
Proof. intros Hi. unfold OnRestart. owned_with ltac:(by apply AddProcess_owned). Qed.

Lemma PM_HandleVaultStarted_owned k pid : preserves owned (ProcessManager.HandleVaultStarted k pid).
Proof. unfold ProcessManager.HandleVaultStarted. owned_with ltac:(fail). Qed.

Lemma AssignOwner_owned lab n u : S lab n → preserves owned (AssignOwner lab n u).
Proof.
  intros Hs w [Hv Hq]. unfold wp. rewrite AssignOwner_run.
  destruct (list_find _ _) as [[j c]|] eqn:Hf; [|done]. split; [|done]. unfold vaults in *. cbn.
  apply list_find_Some in Hf as (Hj & Hl & _). apply Forall_alter; [done|].
  intros c' Hj' [_ Hfun]. unfold vaults in Hj. rewrite Hj in Hj'. simplify_eq. by split.
Qed.

Lemma StopProcess_owned k f :
  (∀ g, f = Some g → info_owned (functor_info g)) → preserves owned (StopProcess k f).
Proof.
  intros Hf. unfold StopProcess, DoFindConnection.
  owned_with ltac:(first [apply Send_owned | apply owned_update_child; intros ? [? ?]; by split]).
Qed.
End owned_operations.

Section ownership.
Context `{P : Platform} `{B : Build} `{A : !Archives}.
Implicit Types w : World.

(** [owns w l n]: the process has [n] as the owner of a vault labelled [l]: one it
    manages, one an exit functor will start, or one that waits for its restart. *)
Definition owns (w : World) (l : NonEmptyString) (n : Identity) : Prop :=
  (∃ c, c ∈ vaults w ∧ vault_label c = l ∧ c.(info).(owner_name) = n) ∨
  (∃ c f, c ∈ vaults w ∧ c.(on_exit) = Some f ∧
     (functor_info f).(label) = l ∧ (functor_info f).(owner_name) = n) ∨
  (∃ i r, RestartVault i r ∈ w.(queue) ∧ i.(label) = l ∧ i.(owner_name) = n).

Lemma owned_owns w : owned (owns w) w.
Proof.
  split; apply Forall_forall.
  - intros c Hc. split; [left; by exists c|]. intros f Hf. right; left. by exists c, f.
  - intros [h r|i r] Hk; [done|]. right; right. by exists i, r.
Qed.

Lemma owns_owned S w l n : owned S w → owns w l n → S l n.
Proof.
  intros [Hv Hq] Hw. rewrite Forall_forall in Hv. rewrite Forall_forall in Hq.
  destruct Hw as [(c & Hc & <- & <-)|[(c & f & Hc & Hf & <- & <-)|(i & r & Hk & <- & <-)]].
  - apply (Hv c Hc).
  - by apply (Hv c Hc).
  - apply (Hq _ Hk).
Qed.

Section handlers.
Context (S : NonEmptyString → Identity → Prop) (k : ConnectionPtr).

(** [allowed l w]: [S] allows the name under which [k] is validated in [w] to own [l]. *)
Definition allowed (l : NonEmptyString) (w : World) : Prop := ∀ n, validated w !! k = Some n → S l n.

Lemma FindValidated_cases w :
  (∃ n, ClientConnections.FindValidated k w = (Ok n, w) ∧ validated w !! k = Some n) ∨
  (∃ e, ClientConnections.FindValidated k w = (Throw e, w)).
Proof.
  rewrite ClientConnections.FindValidated_run.
  destruct (_ !! k) as [[ch|n]|] eqn:E; [right|left|right]; [by eexists| |by eexists].
  exists n. split; [done|]. by apply ClientConnections.table_Validated in E.
Qed.

Lemma ChangeChunkstorePath_owned i : info_owned S i → preserves (owned S) (ChangeChunkstorePath i).
Proof.
  intros Hi. unfold ChangeChunkstorePath.
  owned_with ltac:(first [apply Send_owned | by apply StopProcess_owned; intros g [= <-]]).
Qed.

Lemma Find_yields lab : yields (owned S) (λ i, i.(label) = lab) (Find lab).
Proof.
  intros w Hw. unfold wp, Find, DoFind, child_at, mbind, M_bind, gets.
  destruct (list_find _ (vaults w)) as [[j c]|] eqn:E; [|done].
  apply list_find_Some in E as (Hj & Hl & _). unfold mret, M_ret. rewrite Hj. split; [done|]. by intros i [= <-].
Qed.

Lemma TakeOwnership_rest n q :
  S q.(tor_vault_label) n →
  preserves (owned S) (
    vault_info ← Find q.(tor_vault_label);
    if negb (bool_decide (vault_info.(vault_dir) = q.(tor_vault_dir))) then
      ChangeChunkstorePath (set_owner n q.(tor_max_disk_usage) (set_dir q.(tor_vault_dir) vault_info))
    else
      (if negb (vault_info.(max_disk_usage) =? q.(tor_max_disk_usage)) && negb (q.(tor_max_disk_usage) =? 0)
       then Send vault_info.(tcp_connection)
              (MaxDiskUsageUpdate_ (mkMaxDiskUsageUpdate q.(tor_max_disk_usage)))
       else mret tt);;
      AssignOwner q.(tor_vault_label) n q.(tor_max_disk_usage);;
      all ← GetAll;
      WriteConfigFile all;;
      keys ← move_shared_pmid vault_info.(pmid_and_signer);
      response ← os_call' (VaultRunningResponse_keys q.(tor_vault_label) keys);
      Send k (VaultRunningResponse_ response)).
Proof.
  intros Hn. eapply preserves_yields_bind; [apply Find_yields|]. intros i Hi.
  unfold move_shared_pmid, GetAll.
  owned_with ltac:(first
    [ apply Send_owned | by apply AssignOwner_owned | apply WriteConfigFile_owned
    | apply ChangeChunkstorePath_owned; unfold info_owned; cbn; by rewrite Hi ]).
Qed.

Lemma HandleTakeOwnershipRequest_owned q w :
  allowed q.(tor_vault_label) w → owned S w → owned S (HandleTakeOwnershipRequest k q w).2.
Proof.
  intros Ha Hw. unfold HandleTakeOwnershipRequest. apply (wp_bind _ _ (λ _ w', owned S w')).
  eapply wp_mono with (Q := λ _ w', owned S w').
  - apply wp_try_catch. unfold TryTakeOwnership. apply wp_bind, wp_bind.
    unfold wp at 1. destruct (FindValidated_cases w) as [(n & -> & Hn)|(e & ->)]; [|done].
    cbn zeta. eapply wp_mono; [apply (TakeOwnership_rest n q (Ha n Hn) w Hw)|].
    by intros [[]|e|f] w' Hw'.
  - intros [[e|]|e|f] w' Hw'; try done. by apply (Send_owned S).
Qed.

(** The local of [HandleStartVaultRequest] once the client is known. *)
Definition local_owned (l : NonEmptyString) (n : Identity) (s : World * VaultInfo) : Prop :=
  owned S s.1 ∧ s.2.(label) = l ∧ s.2.(owner_name) = n.

Lemma in_process_owned {T} l n (m : M World T) :
  preserves (owned S) m → preserves (local_owned l n) (in_process m).
Proof.
  intros Hm s (Hw & Hl & Hn). unfold wp, in_process. cbn. specialize (Hm s.1 Hw).
  unfold wp in Hm. by destruct (m s.1).
Qed.

Lemma assign_local_owned l n f :
  (∀ i, (f i).(label) = i.(label) ∧ (f i).(owner_name) = i.(owner_name)) →
  preserves (local_owned l n) (assign_local f).
Proof.
  intros Hf s (Hw & <- & <-). destruct (Hf s.2) as [? ?]. by split_and!.
Qed.

Lemma local_read l n : preserves (local_owned l n) local.
Proof. apply preserves_gets. Qed.

Ltac local_owned_solve :=
  repeat lazymatch goal with
    | |- preserves _ (mbind _ _) => apply preserves_bind; [|intros ?]
    | |- preserves _ (in_process _) =>
        apply in_process_owned; unfold GetVaultDir, GetPath, GetTestEnvironmentRootDir,
          GetPmidAndSigner, PutPmidAndSigner; owned_with ltac:(fail)
    | |- preserves _ (assign_local _) => apply assign_local_owned; by intros ?
    | |- preserves _ local => apply local_read
    | |- preserves _ (mret _) => apply preserves_ret
    | |- preserves _ (match ?x with _ => _ end) => destruct x
    end.

(** With the process alone as the invariant. *)
Definition process_owned (s : World * VaultInfo) : Prop := owned S s.1.

Lemma in_process_keeps {T} (m : M World T) :
  preserves (owned S) m → preserves process_owned (in_process m).
Proof.
  intros Hm s Hw. unfold wp, in_process. cbn. specialize (Hm s.1 Hw).
  unfold wp in Hm. by destruct (m s.1).
Qed.

Lemma process_owned_wp {T} l n (m : M (World * VaultInfo) T) s :
  wp m (λ _ s', local_owned l n s') s → wp m (λ _ s', process_owned s') s.
Proof. intros Hm. eapply wp_mono; [exact Hm|]. by intros r s' (? & _). Qed.

(** The end of [TryStartVault]: the local is moved into [AddProcess]. *)
Lemma StartVault_finish l n s :
  S l n → local_owned l n s →
  wp (vault_info ← local;
      assign_local (λ i, (VaultInfo_move i).2);;
      in_process (AddProcess (VaultInfo_move vault_info).1 0);;
      all ← in_process GetAll;
      in_process (WriteConfigFile all)) (λ _ s', process_owned s') s.
Proof.
  intros Hs (Hw & Hl & Hn). apply wp_bind. unfold wp at 1, local, gets. cbn [fst snd].
  apply wp_bind. unfold wp at 1, assign_local, modify. cbn [fst snd].
  match goal with |- wp ?m ?Q ?st => assert (Hp : preserves process_owned m); [|by apply (Hp st)] end.
  apply preserves_bind.
  - apply in_process_keeps, AddProcess_owned. unfold info_owned. cbn. by rewrite Hl, Hn.
  - intros []. apply preserves_bind; [apply in_process_keeps, preserves_gets|]. intros all.
    apply in_process_keeps, WriteConfigFile_owned.
Qed.

Lemma TryStartVault_owned q s :
  allowed q.(svr_vault_label) s.1 → owned S s.1 → wp (TryStartVault k q) (λ _ s', process_owned s') s.
Proof.
  intros Ha Hw. destruct s as [w i]. unfold TryStartVault. apply wp_bind.
  unfold wp at 1, in_process. cbn -[mbind].
  destruct (FindValidated_cases w) as [(n & -> & Hn)|(e & ->)]; [|done]. cbn [fst snd].
  do 3 (apply wp_bind; unfold wp at 1, assign_local, modify; cbn [fst snd]).
  match goal with |- wp _ _ ?st => assert (Hst : local_owned q.(svr_vault_label) n st) by done end.
  assert (Hkeys : preserves (local_owned (svr_vault_label q) n) (StartVaultKeys q))
    by (unfold StartVaultKeys; local_owned_solve).
  assert (Hdir : preserves (local_owned (svr_vault_label q) n) (StartVaultDir q))
    by (unfold StartVaultDir; local_owned_solve).
  assert (Hvlog : preserves (local_owned (svr_vault_label q) n) (StartVaultVlog q))
    by (unfold StartVaultVlog; local_owned_solve).
  apply wp_bind. eapply wp_mono; [by apply Hkeys|]. intros [[]|e|f] s1 Hs1; [|apply Hs1..].
  apply wp_bind. eapply wp_mono; [by apply Hdir|]. intros [[]|e|f] s2 Hs2; [|apply Hs2..].
  apply wp_bind. eapply wp_mono; [by apply Hvlog|]. intros [[]|e|f] s3 Hs3; [|apply Hs3..].
  by apply (StartVault_finish (svr_vault_label q) n); [apply Ha|].
Qed.

Lemma HandleStartVaultRequest_owned q w :
  allowed q.(svr_vault_label) w → owned S w → owned S (HandleStartVaultRequest k q w).2.
Proof.
  intros Ha Hw. unfold HandleStartVaultRequest, with_local.
  match goal with |- context [let '(_, _) := ?m ?s in _] =>
    assert (Hm : wp m (λ _ s', process_owned s') s) end.
  { apply wp_bind. eapply wp_mono with (Q := λ _ s', process_owned s').
    - apply wp_try_catch, wp_bind. eapply wp_mono; [by apply TryStartVault_owned|].
      by intros [[]|e|f] s' Hs'.
    - intros [[e|]|e|f] s' Hs'; try done. apply wp_bind.
      unfold wp at 1, local, gets. cbn [fst snd]. by apply in_process_keeps, Hs'; apply Send_owned. }
  unfold wp in Hm.
  match goal with |- context [let '(_, _) := ?x in _] => by destruct x as [r [w' i]] end.
Qed.

(** The body of a message asks for the vault [l]. *)
Definition body_asks (t : MessageTag) (body : bytes) (l : NonEmptyString) : Prop :=
  match t with
  | kStartVaultRequest => ∃ q, Parse StartVaultRequest_codec body = Ok q ∧ q.(svr_vault_label) = l
  | kTakeOwnershipRequest => ∃ q, Parse TakeOwnershipRequest_codec body = Ok q ∧ q.(tor_vault_label) = l
  | _ => False
  end.

Lemma dispatch_owned t body w :
  (∀ l, body_asks t body l → allowed l w) → owned S w → owned S (dispatch k t body w).2.
Proof.
  intros Ha Hw. destruct t; cbn [dispatch]; try done.
  all: try match goal with
    | |- owned _ ((lift_res ?p ≫= _) ?v).2 =>
        unfold mbind, M_bind, lift_res; destruct p as [m|e|f] eqn:Hp; [|done..]
    end.
  - apply preserves_at; [|exact Hw].
    unfold HandleValidateConnectionRequest, RemoveFromNewConnections, NewConnections.Remove,
      ClientConnections.Add. cbn zeta. owned_with ltac:(apply Send_owned).
  - apply preserves_at; [|exact Hw].
    unfold HandleChallengeResponse, ClientConnections.Validate.
    owned_with ltac:(apply Close_owned).
  - apply HandleStartVaultRequest_owned; [|done]. apply Ha. by exists m.
  - apply HandleTakeOwnershipRequest_owned; [|done]. apply Ha. by exists m.
  - apply preserves_at; [|exact Hw].
    unfold VaultManager.HandleVaultStarted, RemoveFromNewConnections, NewConnections.Remove,
      SymmKeyAndIV, GetPublicPmids, ClientConnections.FindValidatedName.
    owned_with ltac:(first [apply Send_owned | apply PM_HandleVaultStarted_owned]).
  - apply preserves_at; [|exact Hw].
    unfold HandleJoinedNetwork, ClientConnections.FindValidatedName, FindConnection,
      DoFindConnection. cbn zeta. owned_with ltac:(apply Send_owned).
  - apply preserves_at; [|exact Hw].
    unfold HandleLogMessage, ClientConnections.FindValidatedName, FindConnection,
      DoFindConnection. owned_with ltac:(apply Send_owned).
  - apply preserves_at; [|exact Hw].
    unfold HandleSetNetworkAsStable, ClientConnections.GetAll. owned_with ltac:(apply Send_owned).
  - apply preserves_at; [|exact Hw].
    unfold HandleNetworkStableRequest. owned_with ltac:(apply Send_owned).
Qed.

(** The message asks for the vault [l]: to start it, or to take it over. *)
Definition asks_for (bs : bytes) (l : NonEmptyString) : Prop :=
  ∃ t body, ParseTag bs = Ok (t, body) ∧ body_asks t body l.

Lemma HandleReceivedMessage_owned bs w :
  (∀ l, asks_for bs l → allowed l w) → owned S w → owned S (HandleReceivedMessage k bs w).2.
Proof.
  intros Ha Hw. unfold HandleReceivedMessage, try_catch, mbind, M_bind, lift_res.
  destruct (ParseTag bs) as [[t body]|e|f] eqn:Ht; [|done..].
  assert (Hb : ∀ l, body_asks t body l → allowed l w) by (intros l Hl; apply Ha; by exists t, body).
  pose proof (dispatch_owned t body w Hb Hw) as Hd.
  by destruct (dispatch k t body w) as [[?|?|?] w'].
Qed.
End handlers.

Section events.
Context (S : NonEmptyString → Identity → Prop).

Lemma fire_owned t r : preserves (owned S) (fire t r).
Proof.
  intros w [Hv Hq]. split; [done|]. cbn. apply Forall_app_2; [done|].
  apply Forall_fmap. by apply Forall_true.
Qed.

Lemma run_work_owned k : work_owned S k → preserves (owned S) (run_work k).
Proof.
  intros Hk. destruct k as [[lab|lab|k|k] r|i r]; cbn [run_work run_handler].
  - unfold OnStartTimer. owned_with ltac:(apply OnProcessExit_owned).
  - unfold OnStopTimer. owned_with ltac:(apply OnProcessExit_owned).
  - unfold NewConnections.OnTimer. owned_with ltac:(apply Close_owned).
  - unfold ClientConnections.OnTimer. owned_with ltac:(apply Close_owned).
  - by apply OnRestart_owned.
Qed.

Lemma handle_owned e w :
  (∀ k bs l, e = MessageReceived k bs → asks_for bs l → allowed S k l w) → owned S w → owned S (handle e w).2.
Proof.
  intros Ha Hw. destruct e as [k|k bs|k|r signum|j r|k r|k r|]; cbn [handle].
  - apply preserves_at; [|exact Hw]. unfold HandleNewConnection, NewConnections.Add. cbn zeta.
    owned_with ltac:(fail).
  - by apply HandleReceivedMessage_owned; [intros l; apply (Ha _ bs)|].
  - apply preserves_at; [|exact Hw].
    unfold VaultManager.HandleConnectionClosed, ClientConnections.Remove, NewConnections.Remove.
    owned_with ltac:(apply HandleConnectionClosed_owned).
  - apply preserves_at; [|exact Hw]. owned_with ltac:(apply OnSignal_owned).
  - apply preserves_at; [|exact Hw]. owned_with ltac:(apply fire_owned).
  - apply preserves_at; [|exact Hw]. owned_with ltac:(apply fire_owned).
  - apply preserves_at; [|exact Hw]. owned_with ltac:(apply fire_owned).
  - destruct Hw as [Hv Hq]. unfold mbind, M_bind, gets.
    destruct (queue w) as [|x q] eqn:E; [split; [done|]; cbn; by rewrite E|].
    apply Forall_cons in Hq as [Hx Hq]. unfold modify.
    apply (preserves_at (owned S) (run_work x)); [by apply run_work_owned|by split].
Qed.
End events.

(** C4: a name becomes the owner of a vault label only through a request for the vault of this
    very label - to start it, or to take it over - on a connection that is validated under this
    very name; no other event, and no message of a connection that is not validated, makes
    anybody an owner. *)
Theorem ownership_is_authorised e w l n :
  owns (handle e w).2 l n → ¬ owns w l n →
  ∃ k bs, e = MessageReceived k bs ∧ asks_for bs l ∧ validated w !! k = Some n.
Proof.
  intros Hn Hold.
  set (allowed_owner := λ l n, owns w l n ∨ ∃ k bs, e = MessageReceived k bs ∧ asks_for bs l ∧ validated w !! k = Some n).
  assert (Hw : owned allowed_owner w).
  { destruct (owned_owns w) as [Hv Hq]. split; (eapply Forall_impl; [done|]).
    - intros c [Hc Hf]. split; [by left|]. intros f Hf'. left. by apply Hf.
    - intros [h r|i r] Hk; [done|by left]. }
  assert (Ha : owned allowed_owner (handle e w).2).
  { apply handle_owned; [|done]. intros k bs l' -> Hask m Hm. right. by exists k, bs. }
  by destruct (owns_owned _ _ _ _ Ha Hn).
Qed.
End ownership.
