(* ===== verification/Restarts.v ===== *)
(** Vaults that nobody looks after: how often they are restarted when they keep
    exiting, losing their connection or never connecting, and why that ends. *)
From S2P Require Export System.
From S2P Require NewConnections ClientConnections.
From S2P Require Import Demo.

Section measures.
Context `{P : Platform}.
Implicit Types w : World.

Definition has_functor (c : Child) : bool := match c.(on_exit) with Some _ => true | None => false end.

(** The launches a vault, or a posted restart, may still cause. *)
Definition child_chances (c : Child) : nat :=
  Z.to_nat (kMaxVaultRestarts - c.(restart_count)) + (if has_functor c then 6 else 0).
Definition work_chances (k : Work) : nat :=
  match k with
  | RestartVault _ r => Z.to_nat (kMaxVaultRestarts - r)
  | WaitHandler _ _ => 0
  end.
Definition chances (w : World) : nat :=
  sum_list_with child_chances (vaults w) + sum_list_with work_chances w.(queue).

(** The events they may still cause. *)
Definition child_budget (c : Child) : nat :=
  4 * Z.to_nat (6 - c.(restart_count)) + 2 * length c.(timer).(waits)
  + (if has_functor c then 28 else 0).
Definition work_budget (k : Work) : nat :=
  match k with
  | RestartVault _ r => 4 * Z.to_nat (6 - r) - 1
  | WaitHandler _ _ => 1
  end.
Definition budget (w : World) : nat :=
  sum_list_with child_budget (vaults w) + sum_list_with work_budget w.(queue).

Lemma sum_delete {T} (f : T → nat) (l : list T) i x :
  l !! i = Some x → (sum_list_with f l = f x + sum_list_with f (delete i l))%nat.
Proof. intros Hi. exact (sum_list_with_Permutation_proper f _ _ (delete_Permutation l i x Hi)). Qed.

Lemma sum_alter {T} (f : T → nat) (g : T → T) (l : list T) i x :
  l !! i = Some x → (sum_list_with f (alter g i l) + f x = sum_list_with f l + f (g x))%nat.
Proof.
  revert i. induction l as [|y l IH]; intros [|i] Hi; [done..| |].
  - cbn in Hi. simplify_eq. cbn. lia.
  - cbn in Hi |- *. specialize (IH i Hi). lia.
Qed.

Lemma sum_map {T U} (f : U → nat) (g : T → U) (l : list T) :
  sum_list_with f (g <$> l) = sum_list_with (λ x, f (g x)) l.
Proof. induction l as [|x l IH]; [done|]. cbn. by rewrite IH. Qed.

Lemma sum_const {T} (l : list T) : sum_list_with (λ _, 1%nat) l = length l.
Proof. induction l as [|x l IH]; [done|]. cbn. by rewrite IH. Qed.
Lemma sum_zero {T} (l : list T) : sum_list_with (λ _, 0%nat) l = 0%nat.
Proof. induction l as [|x l IH]; [done|]. cbn. by rewrite IH. Qed.
End measures.

(** * The effect of an exit on the measures *)
Section exits.
Context `{P : Platform} `{B : Build} `{A : !Archives}.
Context `{AL : !ArchiveLaws} `{AS : !ArchiveSafety}.
Implicit Types w : World.

Lemma launched_app w l :
  launched (set_trace (λ t, t ++ l) w) = (launched w + length (List.filter is_launch l))%nat.
Proof. unfold launched. cbn. by rewrite List.filter_app, length_app. Qed.

Lemma launched_after_exit i c t w : launched (after_exit i c t w) = launched w.
Proof.
  change (launched (after_exit i c t w)) with
    (launched (set_trace (λ l, l ++ exit_trace c t w) w)).
  rewrite launched_app. unfold exit_trace.
  repeat case_bool_decide; destruct (_ && _); cbn; lia.
Qed.

(** Calling the functor of a vault: at most one launch. *)
Lemma Invoke_effect f ec t w :
  pm_wf w → (∀ g, f = Some g → ptr_ok w.(pmids) (functor_info g).(pmid_and_signer)) →
  ∃ w', InvokeOnExitFunctor run_functor f ec t w = (Ok tt, w') ∧ w'.(queue) = w.(queue) ∧
    ((vaults w' = vaults w ∧ launched w' = launched w) ∨
     (∃ g pid, f = Some g ∧ vaults w' = vaults w ++ [started_child (functor_info g) 0 pid] ∧
        launched w' = S (launched w))).
Proof.
  intros Hw Hf. destruct f as [g|]; [|exists w; cbn; split_and!; auto].
  assert (Hrun : ∃ e z, InvokeOnExitFunctor run_functor (Some g) ec t w =
            try_catch (run_functor g e z) (λ _, mret tt) w).
  { cbn. destruct t; [by eexists _, _|]. destruct (ec =? 0); by eexists _, _. }
  destruct Hrun as (e & z & ->). unfold try_catch.
  pose proof (functor_safe g e z w Hw (Hf g eq_refl)) as [Hr _].
  pose proof (functor_starts g e z w Hw (Hf g eq_refl)) as [Hq Hs].
  destruct (run_functor g e z w) as [[[]|x|x] w']; [| |done]; cbn in *;
    exists w'; (split_and!; [done|done|]); destruct Hs as [?|(pid & ? & ?)]; eauto 10.
Qed.

(** The complete effect of the exit of a known vault. *)
Lemma OnProcessExit_effect lab ec t w i c :
  pm_wf w → list_find (λ c, c.(info).(label) = lab) (vaults w) = Some (i, c) →
  ∃ w' new, OnProcessExit run_functor lab ec t w = (Ok tt, w') ∧
    vaults w' = delete i (vaults w) ++ new ∧
    w'.(queue) = w.(queue) ++ (if decide (0 ≤ exit_restarts c < kMaxVaultRestarts)
                               then [RestartVault (exit_info c) (exit_restarts c)] else []) ∧
    ((new = [] ∧ launched w' = launched w) ∨
     (∃ g pid, c.(on_exit) = Some g ∧ new = [started_child (functor_info g) 0 pid] ∧
        launched w' = S (launched w))).
Proof.
  intros Hw Hf. rewrite OnProcessExit_run by by apply pm_wf_has_pmid. rewrite Hf.
  apply list_find_Some in Hf as (Hi & _).
  pose proof (good_wf _ _ _ (after_exit_good w i c t Hw)) as Hw1.
  destruct (Invoke_effect c.(on_exit) ec t (after_exit i c t w) Hw1) as (w' & E & Hq & Hv).
  { apply (pm_wf_child _ _ _ Hw Hi). }
  unfold mbind, M_bind. rewrite E, RestartIfRequired_run.
  rewrite launched_after_exit in Hv.
  exists (if decide (0 ≤ exit_restarts c < kMaxVaultRestarts)
          then set_queue (λ q, q ++ [RestartVault (exit_info c) (exit_restarts c)]) w' else w').
  destruct Hv as [[Hv Hl]|(g & pid & Hg & Hv & Hl)].
  - exists []. split_and!; [done|destruct (decide _); by rewrite app_nil_r| |left; by destruct (decide _)].
    destruct (decide _); cbn; rewrite Hq; [done|by rewrite app_nil_r].
  - exists [started_child (functor_info g) 0 pid].
    split_and!; [done|by destruct (decide _)| |right; exists g, pid; by destruct (decide _)].
    destruct (decide _); cbn; rewrite Hq; [done|by rewrite app_nil_r].
Qed.

(** [shrinks w w']: less is left to happen, and no launch is unaccounted for. *)
Definition shrinks (w w' : World) : Prop :=
  (budget w' < budget w)%nat ∧ (launched w' + chances w' ≤ launched w + chances w)%nat.
Definition same_measures (w w' : World) : Prop :=
  vaults w' = vaults w ∧ w'.(queue) = w.(queue) ∧ launched w' = launched w.

Lemma shrinks_same_l w w1 w2 : same_measures w w1 → shrinks w1 w2 → shrinks w w2.
Proof.
  intros (Hv & Hq & Hl) [H1 H2]. unfold shrinks, budget, chances in *. by rewrite Hv, Hq, Hl in *.
Qed.
Lemma shrinks_same_r w w1 w2 : shrinks w w1 → same_measures w1 w2 → shrinks w w2.
Proof.
  intros [H1 H2] (Hv & Hq & Hl). unfold shrinks, budget, chances in *. by rewrite Hv, Hq, Hl in *.
Qed.

Lemma exit_shrinks lab ec t w i c :
  pm_wf w → list_find (λ c, c.(info).(label) = lab) (vaults w) = Some (i, c) →
  shrinks w (OnProcessExit run_functor lab ec t w).2.
Proof.
  intros Hw Hf. destruct (OnProcessExit_effect lab ec t w i c Hw Hf) as (w' & new & -> & Hv & Hq & Hn).
  apply list_find_Some in Hf as (Hi & _). pose proof (ok_restarts _ _ (pm_wf_child _ _ _ Hw Hi)) as Hr.
  unfold shrinks, budget, chances. cbn [snd]. rewrite Hv, Hq, !sum_list_with_app.
  rewrite (sum_delete child_budget _ _ _ Hi), (sum_delete child_chances _ _ _ Hi).
  unfold kMaxVaultRestarts in *.
  assert (Hres : (sum_list_with work_budget (if decide (0 ≤ exit_restarts c < 5)%Z
      then [RestartVault (exit_info c) (exit_restarts c)] else []) < 4 * Z.to_nat (6 - restart_count c))%nat ∧
    (sum_list_with work_chances (if decide (0 ≤ exit_restarts c < 5)%Z
      then [RestartVault (exit_info c) (exit_restarts c)] else []) ≤ Z.to_nat (5 - restart_count c))%nat).
  { unfold exit_restarts. case_bool_decide;
      [destruct (decide (0 ≤ -1 < 5))|destruct (decide (0 ≤ restart_count c < 5))];
      cbn [sum_list_with work_budget work_chances]; unfold kMaxVaultRestarts; lia. }
  destruct Hres as [Hr1 Hr2].
  assert (Hb : (4 * Z.to_nat (6 - restart_count c) + (if has_functor c then 28 else 0) ≤ child_budget c)%nat)
    by (unfold child_budget; lia).
  assert (Hc : child_chances c = (Z.to_nat (5 - restart_count c) + (if has_functor c then 6 else 0))%nat)
    by done.
  destruct Hn as [[-> Hl]|(g & pid & Hg & -> & Hl)]; cbn [sum_list_with]; [lia|].
  assert (Hn : child_budget (started_child (functor_info g) 0 pid) = 26%nat ∧
               child_chances (started_child (functor_info g) 0 pid) = 5%nat) by done.
  destruct Hn as [-> ->]. unfold has_functor in *. rewrite Hg in *. lia.
Qed.
End exits.

(** * A process nobody talks to *)
Section unattended.
Context `{P : Platform} `{B : Build} `{A : !Archives}.
Implicit Types w : World.

(** The events that have an effect on the vaults without any message: a vault's
    connection closes, the process of a vault is reaped, the timer of a vault
    that has a wait fires, and ready work is run. *)
Definition disturbs (w : World) (e : Event) : Prop :=
  match e with
  | ConnectionClosed k => k ∈ vault_connection <$> vaults w
  | SignalReceived wait_done signum =>
      w.(pm).(signal_waiting_) = true ∧ signum = SIGCHLD ∧
      let pid := to_u64 (os_wait w.(os)).1.1 in
      pid ≠ process_GetProcessId (os_wait w.(os)).2 ∧ pid ∈ GetProcessId <$> vaults w
  | VaultTimer j _ => ∃ c, vaults w !! j = Some c ∧ c.(timer).(waits) ≠ []
  | RunNext => w.(queue) ≠ []
  | _ => False
  end.

Definition unattended (w w' : World) : Prop :=
  ∃ e, disturbs w e ∧ event_ok w e ∧ w' = (handle e w).2.

Context `{AL : !ArchiveLaws} `{AS : !ArchiveSafety}.

Lemma find_label w c j :
  system_wf w → vaults w !! j = Some c →
  list_find (λ v, v.(info).(label) = vault_label c) (vaults w) = Some (j, c).
Proof.
  intros Hw Hj.
  assert (E : list_find (λ v, vault_label v = vault_label c) (vaults w) = Some (j, c))
    by by apply list_find_key; [apply Hw|]. exact E.
Qed.

(** The handler of a closed connection is that of the exit of its vault. *)
Lemma close_run w c j w' :
  system_wf w → vaults w !! j = Some c →
  OnProcessExit run_functor (vault_label c) (-1) true w = (Ok tt, w') →
  VaultManager.HandleConnectionClosed (vault_connection c) w = (Ok tt, w').
Proof.
  intros Hw Hj E.
  assert (Hc : list_find (λ v, v.(info).(tcp_connection) = vault_connection c) (vaults w) = Some (j, c)).
  { assert (E' : list_find (λ v, vault_connection v = vault_connection c) (vaults w) = Some (j, c))
      by by apply list_find_key; [apply Hw|]. exact E'. }
  unfold VaultManager.HandleConnectionClosed, ProcessManager.HandleConnectionClosed,
    try_catch, mbind, M_bind. rewrite DoFindConnection_run, Hc, (child_at_run _ _ _ Hj).
  change (label (info c)) with (vault_label c). by rewrite E.
Qed.

(** The machine and the manager when the process that a [SIGCHLD] is about was reaped. *)
Definition reaped (o : OS) (w : World) : World := set_os (λ _, o) (set_signal_waiting false w).

Lemma signal_run w c j pid st o w' :
  os_wait w.(os) = ((pid, st), o) → to_u64 pid ≠ process_GetProcessId o →
  list_find (λ v, GetProcessId v = to_u64 pid) (vaults w) = Some (j, c) →
  OnProcessExit run_functor (vault_label c) (BOOST_PROCESS_EXITSTATUS st) false (reaped o w) = (Ok tt, w') →
  OnSignal run_functor wait_done SIGCHLD w = (Ok tt, set_signal_waiting true w').
Proof.
  intros Hwait Hown Hf E. unfold OnSignal, finally, on_scope_exit, mbind, M_bind, modify, gets, os_call'.
  rewrite Z.eqb_refl. cbn [negb].
  change (os (set_signal_waiting false w)) with (os w). rewrite Hwait. fold (reaped o w).
  change (process_GetProcessId (os (reaped o w))) with (process_GetProcessId o).
  destruct (Z.eqb_spec (to_u64 pid) (process_GetProcessId o)) as [|_]; [done|].
  change (vaults (reaped o w)) with (vaults w). rewrite Hf.
  change (label (info c)) with (vault_label c). by rewrite E.
Qed.

Lemma closed_shrinks k w :
  system_wf w → k ∈ vault_connection <$> vaults w →
  shrinks w (VaultManager.HandleConnectionClosed k w).2.
Proof.
  intros Hw (c & -> & [j Hj]%list_elem_of_lookup)%list_elem_of_fmap.
  pose proof (find_label _ _ _ Hw Hj) as Hl.
  pose proof (exit_shrinks (vault_label c) (-1) true w j c (sys_pm _ Hw) Hl) as Hs.
  destruct (OnProcessExit_effect (vault_label c) (-1) true w j c (sys_pm _ Hw) Hl)
    as (w' & new & E & _). rewrite E in Hs. by rewrite (close_run w c j w').
Qed.

Lemma signal_shrinks w :
  system_wf w → disturbs w (SignalReceived wait_done SIGCHLD) →
  shrinks w (OnSignal run_functor wait_done SIGCHLD w).2.
Proof.
  intros Hw (_ & _ & Hown & Hin). destruct (os_wait (os w)) as [[pid ec] o] eqn:Ewait.
  cbn [fst snd] in Hown, Hin.
  assert (Hw1 : pm_wf (reaped o w)) by (eapply pm_wf_same; [apply Hw|done..]).
  destruct (list_find (λ v, GetProcessId v = to_u64 pid) (vaults w)) as [[j c]|] eqn:Hf.
  2: { apply list_find_None in Hf. apply list_elem_of_fmap in Hin as (c & E & Hc).
       rewrite Forall_forall in Hf. by destruct (Hf c Hc). }
  apply list_find_Some in Hf as Hj. destruct Hj as (Hj & _).
  pose proof (find_label _ _ _ Hw Hj) as Hl.
  pose proof (exit_shrinks (vault_label c) (BOOST_PROCESS_EXITSTATUS ec) false (reaped o w) j c Hw1 Hl) as Hs.
  destruct (OnProcessExit_effect (vault_label c) (BOOST_PROCESS_EXITSTATUS ec) false (reaped o w) j c Hw1 Hl)
    as (w' & new & E & _). rewrite E in Hs. rewrite (signal_run w c j pid ec o w') by done.
  apply (shrinks_same_l w (reaped o w)); [done|]. by eapply shrinks_same_r.
Qed.

Lemma timer_shrinks w j c r :
  vaults w !! j = Some c → c.(timer).(waits) ≠ [] →
  shrinks w (handle (VaultTimer j r) w).2.
Proof.
  intros Hj Hne. cbn [handle]. unfold mbind, M_bind, gets. rewrite Hj.
  unfold update_child, fire, modify. cbn [snd].
  unfold shrinks, budget, chances. cbn [queue set_queue]. unfold vaults in *. cbn.
  rewrite !sum_list_with_app, !sum_map.
  pose proof (sum_alter child_budget (set_timer timer_cancel) _ _ _ Hj) as H1.
  pose proof (sum_alter child_chances (set_timer timer_cancel) _ _ _ Hj) as H2.
  assert (E1 : child_budget c = (child_budget (set_timer timer_cancel c) + 2 * length c.(timer).(waits))%nat).
  { unfold child_budget. cbn. unfold has_functor. cbn. lia. }
  assert (E2 : child_chances (set_timer timer_cancel c) = child_chances c) by done.
  assert (E3 : sum_list_with (λ x, work_budget (WaitHandler x r)) (waits (timer c)) = length (waits (timer c)))
    by apply sum_const.
  assert (E4 : sum_list_with (λ x, work_chances (WaitHandler x r)) (waits (timer c)) = 0%nat)
    by apply sum_zero.
  rewrite E3, E4. destruct (waits (timer c)); [done|]. cbn [length] in *.
  unfold launched. cbn. lia.
Qed.

(** No more is left to happen. *)
Definition shrinks_weakly (w w' : World) : Prop :=
  (budget w' ≤ budget w)%nat ∧ (launched w' + chances w' ≤ launched w + chances w)%nat.

Lemma same_weakly w w' : same_measures w w' → shrinks_weakly w w'.
Proof. intros (Hv & Hq & Hl). unfold shrinks_weakly, budget, chances. rewrite Hv, Hq, Hl. lia. Qed.

Lemma exit_weakly lab ec t w :
  pm_wf w → shrinks_weakly w (OnProcessExit run_functor lab ec t w).2.
Proof.
  intros Hw. destruct (list_find (λ c, c.(info).(label) = lab) (vaults w)) as [[i c]|] eqn:Hf.
  - destruct (exit_shrinks lab ec t w i c Hw Hf) as [H1 H2]. split; lia.
  - rewrite OnProcessExit_run by by apply pm_wf_has_pmid. rewrite Hf. by apply same_weakly.
Qed.

Lemma Close_weakly k w : shrinks_weakly w (Close k w).2.
Proof.
  apply same_weakly. unfold Close, emit. destruct (N.eqb _ _); [done|].
  split_and!; [done..|]. cbn. unfold launched. cbn. by rewrite List.filter_app, app_nil_r.
Qed.

Lemma handler_weakly h r w : pm_wf w → shrinks_weakly w (run_handler h r w).2.
Proof.
  intros Hw. destruct h; cbn [run_handler];
    [unfold OnStartTimer|unfold OnStopTimer|unfold NewConnections.OnTimer|unfold ClientConnections.OnTimer];
    destruct r; first [by apply exit_weakly|apply Close_weakly|by apply same_weakly].
Qed.

Lemma next_shrinks w x q :
  system_wf w → w.(queue) = x :: q → shrinks w (handle RunNext w).2.
Proof.
  intros Hw Hq. cbn [handle]. unfold mbind, M_bind, gets. rewrite Hq. unfold modify.
  set (w1 := set_queue (λ _, q) w).
  pose proof (sys_pm _ Hw) as Hpm. pose proof (wf_queue _ Hpm) as Hall. rewrite Hq in Hall.
  apply Forall_cons in Hall as [Hx Hrest].
  assert (Hw1 : pm_wf w1) by (destruct Hpm; by split).
  assert (Hb : budget w = (budget w1 + work_budget x)%nat).
  { unfold budget. rewrite Hq. cbn. fold (vaults w). unfold vaults. cbn. lia. }
  assert (Hc : chances w = (chances w1 + work_chances x)%nat).
  { unfold chances. rewrite Hq. cbn. fold (vaults w). unfold vaults. cbn. lia. }
  assert (Hl : launched w1 = launched w) by done.
  destruct x as [h r|i r]; cbn [run_work].
  - destruct (handler_weakly h r w1 Hw1) as [H1 H2]. cbn in Hb, Hc. split; lia.
  - destruct Hx as (Hp & Hnull & Hr). unfold OnRestart, try_catch.
    rewrite AddProcess_run by (done || by apply pm_wf_pointers).
    assert (Hfail : shrinks w w1).
    { split; [|lia]. unfold kMaxVaultRestarts in *. cbn [work_budget] in Hb. lia. }
    destruct (decide _); [exact Hfail|]. destruct (decide _); [exact Hfail|].
    destruct (bp_execute _ _ _) as [[pid|e] os'];
      [|eapply shrinks_same_r; [exact Hfail|done]].
    set (w2 := set_vaults _ _).
    assert (Hv2 : vaults w2 = vaults w1 ++ [started_child i (r + 1) pid]) by done.
    assert (Hq2 : queue w2 = queue w1) by done.
    assert (Hn : child_budget (started_child i (r + 1) pid) = (4 * Z.to_nat (6 - (r + 1)) + 2)%nat ∧
                 child_chances (started_child i (r + 1) pid) = Z.to_nat (5 - (r + 1))).
    { unfold child_budget, child_chances, kMaxVaultRestarts.
      cbn [restart_count timer waits on_exit has_functor started_child length]. lia. }
    destruct Hn as [Hn1 Hn2].
    assert (H2 : budget w2 = (budget w1 + (4 * Z.to_nat (6 - (r + 1)) + 2))%nat).
    { unfold budget. rewrite Hv2, Hq2, sum_list_with_app. cbn [sum_list_with]. lia. }
    assert (H3 : chances w2 = (chances w1 + Z.to_nat (5 - (r + 1)))%nat).
    { unfold chances. rewrite Hv2, Hq2, sum_list_with_app. cbn [sum_list_with]. lia. }
    assert (H4 : launched w2 = S (launched w1)).
    { unfold launched, w2. cbn. by rewrite List.filter_app, length_app, Nat.add_comm. }
    unfold kMaxVaultRestarts in *. cbn [work_budget work_chances] in Hb, Hc.
    unfold kMaxVaultRestarts in Hc. cbn [snd]. split; lia.
Qed.

Lemma unattended_shrinks w w' :
  system_wf w → unattended w w' → system_wf w' ∧ shrinks w w'.
Proof.
  intros Hw (e & Hd & He & ->). split.
  - apply (handle_ssafe e w Hw He). by destruct e.
  - destruct e as [k|k bs|k|r signum|j r|k r|k r|]; try done.
    + by apply closed_shrinks.
    + destruct r; try done. pose proof Hd as (Hwait & -> & _). cbn [handle].
      unfold mbind, M_bind, gets. rewrite Hwait. by apply signal_shrinks.
    + destruct Hd as (c & Hj & Hne). by eapply timer_shrinks.
    + destruct (queue w) as [|x q] eqn:Hq; [done|]. by eapply next_shrinks.
Qed.

(** C8: left to itself - vaults exit, lose their connections, fail to connect, are
    restarted - the process comes to rest: the events that concern its vaults are at
    most [budget w], and among them it launches at most [chances w] processes: five
    less the restarts it has had for each vault, plus six for a vault that is being
    moved to a new directory. *)
Theorem restarts_end n w w' :
  system_wf w → nsteps unattended n w w' →
  (n ≤ budget w)%nat ∧ (launched w' ≤ launched w + chances w)%nat ∧ system_wf w'.
Proof.
  intros Hw Hn.
  assert (H : (n + budget w' ≤ budget w)%nat ∧
              (launched w' + chances w' ≤ launched w + chances w)%nat ∧ system_wf w').
  { induction Hn as [w|n w w1 w' Hstep _ IH]; [by split_and!|].
    destruct (unattended_shrinks _ _ Hw Hstep) as [Hw1 [H1 H2]].
    destruct (IH Hw1) as (? & ? & ?). split_and!; [lia..|done]. }
  destruct H as (? & ? & ?). split_and!; [lia..|done].
Qed.
End unattended.
