(* ===== verification/Lifecycle.v ===== *)
(** The life of a vault, seen from outside: which event may add a vault to the managed ones and
    which may take one away, and that nothing a vault was started with ever changes. *)
From S2P Require Export Authority Restarts.
From S2P Require Import Demo.

(** * What stays with a vault *)
Section identity.
Context `{P : Platform}.

(** What a vault keeps from its start to its end. *)
Record VaultId := mkVaultId {
  id_label : NonEmptyString;
  id_dir : Path;
  id_keys_pointer : PmidPtr;
  id_restarts : Z;
  id_process : Z;
}.

Definition started_id (i : VaultInfo) (restarts pid : Z) : VaultId :=
  mkVaultId i.(label) i.(vault_dir) i.(pmid_and_signer) restarts pid.
Definition vault_id (c : Child) : VaultId := started_id c.(info) c.(restart_count) c.(process).

(** The vaults of the process, oldest first. *)
Definition ids (w : World) : list VaultId := vault_id <$> vaults w.

Lemma ids_alter f j w : (∀ c, vault_id (f c) = vault_id c) → ids (set_vaults (alter f j) w) = ids w.
Proof. intros Hf. unfold ids, vaults. cbn. by apply fmap_alter_same. Qed.
End identity.

(** * The automaton *)
Section automaton.
Context `{P : Platform}.

(** [ends w e c]: [e] tells the manager that [c] has ended: its connection closed, its process
    was reaped, or a timer of it ran out. *)
Definition ends (w : World) (e : Event) (c : Child) : Prop :=
  match e with
  | ConnectionClosed k => vault_connection c = k
  | SignalReceived r signum =>
      r = wait_done ∧ signum = SIGCHLD ∧ GetProcessId c = to_u64 (os_wait w.(os)).1.1
  | RunNext => ∃ h q, w.(queue) = WaitHandler h wait_done :: q ∧
      (h = on_start_timer (vault_label c) ∨ h = on_stop_timer (vault_label c))
  | _ => False
  end.

(** What an event may do to the vaults. *)
Inductive life (w : World) (e : Event) : list VaultId → Prop :=
| life_same : life w e (ids w)
| life_requested k bs i pid :
    e = MessageReceived k bs → is_Some (validated w !! k) →
    life w e (ids w ++ [started_id i 0 pid])
| life_ended j c : vaults w !! j = Some c → ends w e c → life w e (delete j (ids w))
| life_moved j c f pid :
    vaults w !! j = Some c → ends w e c → c.(on_exit) = Some f →
    life w e (delete j (ids w) ++ [started_id (functor_info f) 0 pid])
| life_restarted i r q pid :
    e = RunNext → w.(queue) = RestartVault i r :: q → life w e (ids w ++ [started_id i (r + 1) pid]).
End automaton.

(** * Adding at most one vault *)
Section once.
Context {St V : Type} (v : St → list V) (X : V → Prop).

(** [m] adds nothing to the list, or one thing that [X] holds of. *)
Definition adds (s s' : St) : Prop := v s' = v s ∨ ∃ x, X x ∧ v s' = v s ++ [x].
Definition once {T} (m : M St T) : Prop := ∀ s, adds s (m s).2.

Lemma once_stable {T} (m : M St T) : stable v m → once m.
Proof. intros Hm s. left. apply Hm. Qed.

Lemma once_before {T U} (m : M St T) (k : T → M St U) : once m → (∀ a, stable v (k a)) → once (m ≫= k).
Proof.
  intros Hm Hk s. unfold mbind, M_bind. specialize (Hm s). destruct (m s) as [[a|e|f] s']; [|done..].
  cbn [snd] in Hm. specialize (Hk a s'). unfold adds in *. by rewrite Hk.
Qed.

Lemma once_after {T U} (m : M St T) (k : T → M St U) : stable v m → (∀ a, once (k a)) → once (m ≫= k).
Proof.
  intros Hm Hk s. unfold mbind, M_bind. specialize (Hm s). destruct (m s) as [[a|e|f] s']; [|by left..].
  cbn [snd] in Hm. specialize (Hk a s'). unfold adds in *. by rewrite <- Hm.
Qed.

Lemma once_try_catch {T} (m : M St T) h : once m → (∀ e, stable v (h e)) → once (try_catch m h).
Proof.
  intros Hm Hh s. unfold try_catch. specialize (Hm s). destruct (m s) as [[a|e|f] s']; [done| |done].
  cbn [snd] in Hm. specialize (Hh e s'). unfold adds in *. by rewrite Hh.
Qed.
End once.

Section once_local.
Context `{P : Platform} {V : Type} (v : World → list V) (X : V → Prop).

Lemma once_in_process {T} (m : M World T) :
  once v X m → once (λ s : World * VaultInfo, v s.1) X (in_process m).
Proof. intros Hm s. specialize (Hm s.1). unfold in_process. cbn. by destruct (m s.1). Qed.

Lemma once_with_local {T} i (m : M (World * VaultInfo) T) :
  once (λ s : World * VaultInfo, v s.1) X m → once v X (with_local i m).
Proof. intros Hm w. specialize (Hm (w, i)). unfold with_local. by destruct (m (w, i)) as [r [w' j]]. Qed.
End once_local.

(** * The handlers *)
Section handlers.
Context `{P : Platform} `{B : Build} `{A : !Archives}.
Implicit Types (w : World) (i : VaultInfo).

Lemma update_ids j f : (∀ c, vault_id (f c) = vault_id c) → stable ids (update_child j f).
Proof. intros Hf. apply stable_modify. intros w. by apply ids_alter. Qed.

Lemma AddProcess_once i r : once ids (λ x, ∃ pid, x = started_id i r pid) (AddProcess i r).
Proof.
  unfold AddProcess.
  apply once_after; [stable_solve|]. intros []. apply once_after; [stable_solve|]. intros [].
  apply once_after; [stable_solve|]. intros l.
  apply once_after; [stable_with ltac:(apply Check_stable)|]. intros [] w.
  unfold mbind, M_bind, gets, modify, on_scope_exit. rewrite StartProcess_run.
  destruct (bp_execute _ _ _) as [[pid|e] o].
  - right. exists (started_id i r pid). split; [by exists pid|]. unfold ids, vaults. cbn. by rewrite fmap_app.
  - left. unfold ids, vaults. cbn. by rewrite delete_length_app.
Qed.

(** Close [stable ids] of an operation, call by call. *)
Ltac ids_with tac :=
  stable_with ltac:(first
    [ apply DoFindConnection_stable | apply DoFind_stable | apply Find_stable | apply FindConnection_stable
    | apply FindValidated_stable | apply FindValidatedName_stable | apply GetPath_stable
    | apply GetPmidAndSigner_stable | by apply Send_stable | by apply Close_stable
    | by apply WriteConfigFile_stable | by apply update_ids | tac ]).

Lemma StopProcess_ids k f : stable ids (StopProcess k f).
Proof. unfold StopProcess. ids_with ltac:(fail). Qed.

Lemma HandleVaultStarted_ids k pid : stable ids (ProcessManager.HandleVaultStarted k pid).
Proof. unfold ProcessManager.HandleVaultStarted. ids_with ltac:(fail). Qed.

Lemma AssignOwner_ids lab n u : stable ids (AssignOwner lab n u).
Proof. unfold AssignOwner. ids_with ltac:(fail). Qed.

Ltac ids_solve :=
  ids_with ltac:(first [apply StopProcess_ids | apply HandleVaultStarted_ids | apply AssignOwner_ids]).

(** Only a request to start a vault adds one. *)
Lemma dispatch_ids k t body : t ≠ kStartVaultRequest → stable ids (dispatch k t body).
Proof.
  intros Ht. destruct t; cbn [dispatch]; try done.
  - unfold HandleValidateConnectionRequest, RemoveFromNewConnections, NewConnections.Remove,
      ClientConnections.Add. cbn zeta. ids_solve.
  - unfold HandleChallengeResponse, ClientConnections.Validate. ids_solve.
  - unfold HandleTakeOwnershipRequest, TryTakeOwnership, ChangeChunkstorePath, move_shared_pmid, GetAll.
    cbn zeta. ids_solve.
  - unfold VaultManager.HandleVaultStarted, RemoveFromNewConnections, NewConnections.Remove, SymmKeyAndIV,
      GetPublicPmids. ids_solve.
  - unfold HandleJoinedNetwork. cbn zeta. ids_solve.
  - unfold HandleLogMessage. ids_solve.
  - unfold HandleSetNetworkAsStable, ClientConnections.GetAll. ids_solve.
  - unfold HandleNetworkStableRequest. ids_solve.
Qed.

(** The vault that a request asks for. *)
Definition fresh_vault (x : VaultId) : Prop := ∃ i pid, x = started_id i 0 pid.

Lemma AddProcess_fresh i : once ids fresh_vault (AddProcess i 0).
Proof.
  intros w. destruct (AddProcess_once i 0 w) as [H|(x & (pid & Hx) & H)]; [by left|].
  right. exists x. split; [by exists i, pid|done].
Qed.

Lemma TryStartVault_once k q :
  once (λ s : World * VaultInfo, ids s.1) fresh_vault (TryStartVault k q).
Proof.
  unfold TryStartVault.
  do 9 (apply once_after; [unfold StartVaultKeys, StartVaultDir, StartVaultVlog, PutPmidAndSigner, GetVaultDir;
    ids_solve|intros ?]).
  apply once_before; [apply once_in_process, AddProcess_fresh|]. intros []. unfold GetAll. ids_solve.
Qed.

(** A request on a connection that is not validated starts nothing. *)
Lemma HandleStartVaultRequest_life k q w :
  let w' := (HandleStartVaultRequest k q w).2 in
  ids w' = ids w ∨ is_Some (validated w !! k) ∧ ∃ x, fresh_vault x ∧ ids w' = ids w ++ [x].
Proof.
  assert (H : adds ids fresh_vault w (HandleStartVaultRequest k q w).2).
  { revert w. change (once ids fresh_vault (HandleStartVaultRequest k q)).
    unfold HandleStartVaultRequest. apply once_with_local, once_before; [|intros []; ids_solve].
    apply once_try_catch; [|intros ?; ids_solve]. apply once_before; [apply TryStartVault_once|].
    intros []. ids_solve. }
  destruct (FindValidated_cases k w) as [(n & _ & Hn)|(e & He)].
  { destruct H as [H|H]; [by left|right]. split; [by eexists|exact H]. }
  left. assert (Et : TryStartVault k q (w, VaultInfo_default) = (Throw e, (w, VaultInfo_default))).
  { unfold TryStartVault, in_process, mbind, M_bind. cbn. by rewrite He. }
  unfold HandleStartVaultRequest, with_local. erewrite M_bind_run;
    [|unfold try_catch; unfold mbind at 1, M_bind at 1; rewrite Et; reflexivity]. cbn iota beta.
  match goal with |- context [?m (w, VaultInfo_default)] =>
    assert (Hs : stable (λ s : World * VaultInfo, ids s.1) m) by ids_solve; specialize (Hs (w, VaultInfo_default));
    by destruct (m (w, VaultInfo_default)) as [? [? ?]] end.
Qed.

Lemma HandleReceivedMessage_life k bs w :
  life w (MessageReceived k bs) (ids (HandleReceivedMessage k bs w).2).
Proof.
  unfold HandleReceivedMessage, try_catch. unfold mbind at 1, M_bind at 1, lift_res.
  destruct (ParseTag bs) as [[t body]|e|f]; [|by apply life_same..].
  assert (H : life w (MessageReceived k bs) (ids (dispatch k t body w).2)).
  { destruct (decide (t = kStartVaultRequest)) as [->|Ht]; [|rewrite dispatch_ids by done; by apply life_same].
    cbn [dispatch]. unfold mbind, M_bind, lift_res.
    destruct (Parse _ _) as [q|e|f]; [|by apply life_same..].
    destruct (HandleStartVaultRequest_life k q w) as [->|(Hk & x & (i & pid & ->) & ->)];
      [by apply life_same|by eapply life_requested]. }
  by destruct (dispatch k t body w) as [[?|?|?] w'].
Qed.

Context `{AL : !ArchiveLaws} `{AS : !ArchiveSafety}.

Ltac ids_same :=
  match goal with |- life _ _ (ids (?m _).2) =>
    let H := fresh in assert (H : stable ids m) by ids_solve; rewrite H end.

(** The exit of the vault of a label, in a process with the vaults of [w0]. *)
Lemma OnProcessExit_life w0 e lab ec t w :
  pm_wf w → vaults w = vaults w0 →
  (∀ j c, list_find (λ v, v.(info).(label) = lab) (vaults w0) = Some (j, c) → ends w0 e c) →
  life w0 e (ids (OnProcessExit run_functor lab ec t w).2).
Proof.
  intros Hw Hv He. destruct (list_find (λ v, v.(info).(label) = lab) (vaults w)) as [[j c]|] eqn:Hf.
  - destruct (OnProcessExit_effect lab ec t w j c Hw Hf) as (w' & new & -> & Hv' & _ & Hn).
    rewrite Hv in Hf, Hv'. pose proof (He j c Hf) as Hends. apply list_find_Some in Hf as (Hj & _).
    assert (Hd : delete j (ids w0) = vault_id <$> delete j (vaults w0)) by by rewrite list_fmap_delete.
    cbn [snd]. unfold ids at 1. rewrite Hv', fmap_app, <- Hd.
    destruct Hn as [[-> _]|(f & pid & Hf & -> & _)]; [rewrite app_nil_r; by eapply life_ended|].
    by eapply life_moved.
  - rewrite OnProcessExit_run by by apply pm_wf_has_pmid. rewrite Hf. cbn. unfold ids. rewrite Hv.
    apply life_same.
Qed.

Lemma HandleConnectionClosed_life k w :
  system_wf w → life w (ConnectionClosed k) (ids (VaultManager.HandleConnectionClosed k w).2).
Proof.
  intros Hw. unfold VaultManager.HandleConnectionClosed. unfold mbind at 1, M_bind at 1.
  assert (H : life w (ConnectionClosed k) (ids (ProcessManager.HandleConnectionClosed run_functor k w).2)).
  { unfold ProcessManager.HandleConnectionClosed, try_catch, mbind, M_bind. rewrite DoFindConnection_run.
    destruct (list_find _ _) as [[j c]|] eqn:Hf; [|by apply life_same].
    apply list_find_Some in Hf as (Hj & Hk & _). rewrite (child_at_run _ _ _ Hj).
    assert (H : life w (ConnectionClosed k) (ids (OnProcessExit run_functor (label (info c)) (-1) true w).2)).
    { apply OnProcessExit_life; [apply Hw|done|]. intros j' c' Hf.
      pose proof (find_label _ _ _ Hw Hj) as Hl. change (label (info c)) with (vault_label c) in Hf.
      rewrite Hl in Hf. by simplify_eq. }
    destruct (OnProcessExit _ _ _ _ _) as [[?|e|?] w']; try done. by case_bool_decide. }
  destruct (ProcessManager.HandleConnectionClosed _ _ _) as [[b|e|f] w']; [|done..]. cbn [snd] in H.
  match goal with |- context [?m w'] => assert (Hs : stable ids m) end.
  { unfold ClientConnections.Remove, NewConnections.Remove. ids_solve. }
  by rewrite Hs.
Qed.

Lemma OnSignal_life r signum w :
  system_wf w → life w (SignalReceived r signum) (ids (OnSignal run_functor r signum w).2).
Proof.
  intros Hw. unfold OnSignal, finally, on_scope_exit. unfold mbind at 1, M_bind at 1, modify at 1.
  destruct r; try by apply (life_same w). destruct (Z.eqb_spec signum SIGCHLD) as [->|]; [|by apply (life_same w)].
  cbn [negb]. unfold mbind, M_bind, os_call', gets. change (os (set_signal_waiting false w)) with (os w).
  destruct (os_wait (os w)) as [[pid ec] o] eqn:Ewait. cbn [fst snd].
  set (w1 := set_os (λ _, o) (set_signal_waiting false w)).
  assert (Hw1 : pm_wf w1) by (eapply pm_wf_same; [apply Hw|done..]).
  destruct (_ =? _); [by apply (life_same w)|].
  destruct (list_find _ (vaults w1)) as [[j c]|] eqn:Hf; [|by apply (life_same w)].
  apply list_find_Some in Hf as (Hj & Hpid & _).
  assert (H : life w (SignalReceived wait_done SIGCHLD)
    (ids (OnProcessExit run_functor (label (info c)) (BOOST_PROCESS_EXITSTATUS ec) false w1).2)).
  { apply OnProcessExit_life; [done|done|]. intros j' c' Hf. change (vaults w1) with (vaults w) in Hj.
    pose proof (find_label _ _ _ Hw Hj) as Hl. change (label (info c)) with (vault_label c) in Hf.
    rewrite Hl in Hf. simplify_eq. cbn. by rewrite Ewait. }
  by destruct (OnProcessExit _ _ _ _ w1) as [[?|?|?] w'].
Qed.

Lemma RunNext_life w : system_wf w → life w RunNext (ids (handle RunNext w).2).
Proof.
  intros Hw. cbn [handle]. unfold mbind, M_bind, gets, modify.
  destruct (queue w) as [|k q] eqn:Hq; [by apply (life_same w)|]. set (w1 := set_queue (λ _, q) w).
  assert (Hw1 : pm_wf w1).
  { pose proof (wf_queue _ (sys_pm _ Hw)) as Hall. rewrite Hq in Hall. apply Forall_cons in Hall as [_ Hall].
    by destruct (sys_pm _ Hw); split. }
  assert (Hexit : ∀ h lab ec t, k = WaitHandler h wait_done → (h = on_start_timer lab ∨ h = on_stop_timer lab) →
    life w RunNext (ids (OnProcessExit run_functor lab ec t w1).2)).
  { intros h lab ec t -> Hh. apply OnProcessExit_life; [done|done|]. intros j c Hf.
    apply list_find_Some in Hf as (_ & <- & _). exists h, q. by split. }
  destruct k as [[lab|lab|c|c] r|i r]; cbn [run_work run_handler].
  - destruct r; try by apply (life_same w). by eapply Hexit; [|left].
  - destruct r; try by apply (life_same w). by eapply Hexit; [|right].
  - unfold NewConnections.OnTimer. ids_same. by apply (life_same w).
  - unfold ClientConnections.OnTimer. ids_same. by apply (life_same w).
  - unfold OnRestart, try_catch. destruct (AddProcess_once i (r + 1) w1) as [H|(x & (pid & ->) & H)];
      destruct (AddProcess i (r + 1) w1) as [[?|?|?] w']; cbn [snd mret M_ret] in *; rewrite H;
      first [by apply (life_same w)|by apply (life_restarted w _ i r q)].
Qed.

(** ** The keys objects behind the pointers *)

Section store.
Lemma stable_store {T} (m : M World T) : stable clients_part m → stable pmids m.
Proof. intros Hm w. specialize (Hm w). unfold clients_part in Hm. congruence. Qed.

(** [m] leaves the list alone or adds to it. *)
Definition extends {St V T} (v : St → list V) (m : M St T) : Prop := ∀ s, v s `prefix_of` v (m s).2.

Lemma extends_stable {St V T} (v : St → list V) (m : M St T) : stable v m → extends v m.
Proof. intros Hm s. by rewrite Hm. Qed.

Lemma extends_bind {St V T U} (v : St → list V) (m : M St T) (k : T → M St U) :
  extends v m → (∀ a, extends v (k a)) → extends v (m ≫= k).
Proof.
  intros Hm Hk s. unfold mbind, M_bind. specialize (Hm s). destruct (m s) as [[a|e|f] s']; [|done..].
  etrans; [apply Hm|apply Hk].
Qed.

Lemma extends_try_catch {St V T} (v : St → list V) (m : M St T) h :
  extends v m → (∀ e, extends v (h e)) → extends v (try_catch m h).
Proof.
  intros Hm Hh s. unfold try_catch. specialize (Hm s). destruct (m s) as [[a|e|f] s']; [done| |done].
  etrans; [apply Hm|apply Hh].
Qed.

Lemma extends_with_local {V T} (v : World → list V) i (m : M (World * VaultInfo) T) :
  extends (λ s : World * VaultInfo, v s.1) m → extends v (with_local i m).
Proof. intros Hm w. specialize (Hm (w, i)). unfold with_local. by destruct (m (w, i)) as [r [w' j]]. Qed.

Lemma extends_make_shared p : extends (λ s : World * VaultInfo, s.1.(pmids)) (in_process (make_shared_pmid p)).
Proof. intros [w i]. cbn. by apply prefix_app_r. Qed.
End store.

Ltac store_solve :=
  stable_with ltac:(first
    [ apply stable_store, HandleConnectionClosed_stable | apply stable_store, OnProcessExit_stable
    | apply stable_store, OnSignal_stable | apply stable_store, OnRestart_stable
    | apply stable_store, AddProcess_stable | apply stable_store, HandleVaultStarted_stable
    | apply stable_store, StopProcess_stable
    | apply FindValidated_stable | apply FindValidatedName_stable | apply Find_stable | apply FindConnection_stable
    | by apply WriteConfigFile_stable | by apply Send_stable | by apply Close_stable
    | apply GetPath_stable | apply GetPmidAndSigner_stable ]).

Lemma HandleStartVaultRequest_extends k q : extends pmids (HandleStartVaultRequest k q).
Proof.
  unfold HandleStartVaultRequest, TryStartVault, StartVaultKeys, StartVaultDir, StartVaultVlog, PutPmidAndSigner,
    GetVaultDir, GetAll.
  apply extends_with_local.
  repeat first [apply extends_make_shared | apply extends_bind; [|intros ?] | apply extends_try_catch; [|intros ?]
    | match goal with |- extends _ (match ?x with _ => _ end) => destruct x end
    | apply extends_stable; store_solve].
Qed.

(** The message is a request to take a vault over. *)
Definition takes_over (bs : bytes) : Prop := ∃ body, ParseTag bs = Ok (kTakeOwnershipRequest, body).

Lemma dispatch_store k t body : t ≠ kTakeOwnershipRequest → extends pmids (dispatch k t body).
Proof.
  intros Ht. destruct t; cbn [dispatch]; try done; try (apply extends_stable;
    unfold HandleValidateConnectionRequest, HandleChallengeResponse, VaultManager.HandleVaultStarted,
      HandleJoinedNetwork, HandleLogMessage, HandleSetNetworkAsStable, HandleNetworkStableRequest,
      RemoveFromNewConnections, NewConnections.Remove, ClientConnections.Add, ClientConnections.Validate,
      ClientConnections.GetAll, SymmKeyAndIV, GetPublicPmids; cbn zeta; store_solve; fail).
  apply extends_bind; [by apply extends_stable, stable_lift|]. intros q. apply HandleStartVaultRequest_extends.
Qed.
(** A request of a connection that is not validated takes nothing. *)
Lemma TakeOwnership_refused_store k q w :
  validated w !! k = None → pmids (HandleTakeOwnershipRequest k q w).2 = pmids w.
Proof.
  intros Hk. unfold HandleTakeOwnershipRequest, TryTakeOwnership, try_catch, mbind, M_bind.
  destruct (FindValidated_cases k w) as [(n & _ & Hn)|(e & ->)]; [congruence|]. cbn beta iota.
  by apply Send_pmids.
Qed.

Lemma HandleReceivedMessage_store k bs w :
  ¬ (takes_over bs ∧ is_Some (validated w !! k)) → pmids w `prefix_of` pmids (HandleReceivedMessage k bs w).2.
Proof.
  intros Ht. unfold HandleReceivedMessage, try_catch. unfold mbind at 1, M_bind at 1, lift_res.
  destruct (ParseTag bs) as [[t body]|e|f] eqn:E; [|done..].
  assert (H : pmids w `prefix_of` pmids (dispatch k t body w).2).
  { destruct (decide (t = kTakeOwnershipRequest)) as [->|Hn]; [|by apply dispatch_store].
    cbn [dispatch]. unfold mbind, M_bind, lift_res. destruct (Parse _ _) as [q|e|f]; [|done..].
    rewrite TakeOwnership_refused_store; [done|]. apply eq_None_not_Some. intros Hk. apply Ht.
    split; [by exists body|done]. }
  by destruct (dispatch k t body w) as [[?|?|?] w'].
Qed.

Lemma handle_store e w :
  (∀ k bs, e = MessageReceived k bs → ¬ (takes_over bs ∧ is_Some (validated w !! k))) →
  pmids w `prefix_of` pmids (handle e w).2.
Proof.
  intros Ht. destruct e as [k|k bs|k|r signum|j r|k r|k r|]; cbn [handle].
  2: { by apply HandleReceivedMessage_store, (Ht k bs). }
  all: match goal with |- _ `prefix_of` pmids (?m _).2 =>
    assert (Hm : stable pmids m); [|by rewrite Hm] end.
  - unfold HandleNewConnection, NewConnections.Add. cbn zeta. store_solve.
  - unfold VaultManager.HandleConnectionClosed, ClientConnections.Remove, NewConnections.Remove. store_solve.
  - store_solve.
  - unfold fire. store_solve.
  - unfold fire. store_solve.
  - unfold fire. store_solve.
  - apply stable_bind; [apply stable_gets|]. intros [|[[lab|lab|k|k] r|i r] q]; [apply stable_ret|..];
      (apply stable_bind; [apply stable_modify; by intros ?|]; intros ?; cbn [run_work run_handler]).
    + unfold OnStartTimer. store_solve.
    + unfold OnStopTimer. store_solve.
    + unfold NewConnections.OnTimer. store_solve.
    + unfold ClientConnections.OnTimer. store_solve.
    + store_solve.
Qed.

(** C6: the life of a vault is a run of the automaton [life]: a request of a validated client
    adds one vault that has never been restarted; a vault is taken away only by the close of its own
    connection, by the reaping of its own process or by a timer of its own - never by a
    message -, and only then may the functor it was stopped with start it anew; a posted
    restart adds one with one restart more; and whatever else happens, each vault keeps its label,
    its directory, the pointer to its keys, its process and its place.  The keys objects that
    these pointers share are left as they are, and only new ones are added, by every event but one: the
    request of a validated client to take a vault over, which may empty one. *)
Theorem vault_lifecycle e w :
  system_wf w →
  life w e (ids (handle e w).2) ∧
  ((∀ k bs, e = MessageReceived k bs → ¬ (takes_over bs ∧ is_Some (validated w !! k))) →
   pmids w `prefix_of` pmids (handle e w).2).
Proof.
  intros Hw. split; [|apply handle_store]. destruct e as [k|k bs|k|r signum|j r|k r|k r|]; cbn [handle].
  - unfold HandleNewConnection, NewConnections.Add. cbn zeta. ids_same.
    apply life_same.
  - apply HandleReceivedMessage_life.
  - by apply HandleConnectionClosed_life.
  - unfold mbind, M_bind, gets. destruct (signal_waiting_ _); [by apply OnSignal_life|apply life_same].
  - unfold fire. ids_same. apply life_same.
  - unfold fire. ids_same. apply life_same.
  - unfold fire. ids_same. apply life_same.
  - by apply RunNext_life.
Qed.
End handlers.
