(* ===== verification/TearDown.v ===== *)
(** Tearing the manager down: once every vault was told to stop, nothing is started any more, and
    the vaults go one by one until none is left. *)
From S2P Require Export Vaults Lifecycle.
From S2P Require Import Demo.

Section tear_down.
Context `{P : Platform} `{B : Build} `{A : !Archives} `{AL : !ArchiveLaws} `{AS : !ArchiveSafety}.
Implicit Types (w : World) (c : Child).

(** A vault that was told to stop, with nothing to do after its exit. *)
Definition told_to_stop c : Prop := c.(status) = kStopping ∧ c.(on_exit) = None.

(** A process that starts no vault by itself. *)
Record winding_down w : Prop := {
  wd_vaults : Forall told_to_stop (vaults w);
  wd_queue : Forall (λ k, ∃ h r, k = WaitHandler h r) w.(queue);
  wd_signals : w.(pm).(signal_waiting_) = false;
}.

(** What a step of such a process does. *)
Record winds w w' : Prop := {
  wi_down : winding_down w';
  wi_launched : launched w' = launched w;
  wi_vaults : sublist (ids w') (ids w);
}.

Lemma winds_same w w' :
  winding_down w → vaults w' = vaults w → w'.(queue) = w.(queue) →
  w'.(pm).(signal_waiting_) = w.(pm).(signal_waiting_) → launched w' = launched w → winds w w'.
Proof.
  intros [H1 H2 H3] Hv Hq Hs Hl. split; [split; congruence|done|]. unfold ids. by rewrite Hv.
Qed.

Lemma OnProcessExit_signals lab ec t :
  stable (λ w, w.(pm).(signal_waiting_)) (OnProcessExit run_functor lab ec t).
Proof.
  unfold OnProcessExit, IsRunning, TerminateProcess, InvokeOnExitFunctor, RestartIfRequired, run_functor,
    GetAll, AddProcess, StartProcess, update_child.
  stable_with ltac:(first [apply Check_stable | by apply WriteConfigFile_stable | by apply Close_stable]).
Qed.

Lemma exit_winds lab ec t w :
  pm_wf w → winding_down w →
  (OnProcessExit run_functor lab ec t w).1 = Ok tt ∧ winds w (OnProcessExit run_functor lab ec t w).2.
Proof.
  intros Hw Hd. pose proof (OnProcessExit_signals lab ec t w) as Hs.
  destruct (list_find (λ v, v.(info).(label) = lab) (vaults w)) as [[j c]|] eqn:Hf.
  - destruct (OnProcessExit_effect lab ec t w j c Hw Hf) as (w' & new & E & Hv & Hq & Hn).
    apply list_find_Some in Hf as (Hj & _). destruct Hd as [H1 H2 H3].
    pose proof (Forall_lookup_1 _ _ _ _ H1 Hj) as [Hstop Hnone].
    destruct Hn as [[-> Hl]|(f & pid & Hf & _)]; [|congruence].
    rewrite E in Hs |- *. rewrite app_nil_r in Hv.
    unfold exit_restarts in Hq. rewrite bool_decide_true in Hq by done.
    rewrite decide_False, app_nil_r in Hq by lia. split; [done|]. split; [split| |].
    + cbn [snd]. rewrite Hv. by apply Forall_delete.
    + cbn [snd]. by rewrite Hq.
    + exact (eq_trans Hs H3).
    + done.
    + unfold ids. cbn [snd]. rewrite Hv, list_fmap_delete. apply sublist_delete.
  - rewrite OnProcessExit_run by by apply pm_wf_has_pmid. rewrite Hf. split; [done|]. by apply winds_same.
Qed.

Lemma closed_winds k w :
  system_wf w → winding_down w → k ∈ vault_connection <$> vaults w →
  winds w (VaultManager.HandleConnectionClosed k w).2.
Proof.
  intros Hw Hd (c & -> & [j Hj]%list_elem_of_lookup)%list_elem_of_fmap.
  assert (Hc : list_find (λ v, v.(info).(tcp_connection) = vault_connection c) (vaults w) = Some (j, c)).
  { assert (E : list_find (λ v, vault_connection v = vault_connection c) (vaults w) = Some (j, c))
      by by apply list_find_key; [apply Hw|]. exact E. }
  destruct (exit_winds (label (info c)) (-1) true w (sys_pm _ Hw) Hd) as [E H].
  unfold VaultManager.HandleConnectionClosed, ProcessManager.HandleConnectionClosed, try_catch, mbind, M_bind.
  rewrite DoFindConnection_run, Hc, (child_at_run _ _ _ Hj).
  by destruct (OnProcessExit _ _ _ _ w) as [[[]|?|?] w'].
Qed.

Lemma timer_winds j r w : winding_down w → winds w (handle (VaultTimer j r) w).2.
Proof.
  intros Hd. cbn [handle]. unfold mbind, M_bind, gets. destruct (vaults w !! j) as [c|] eqn:Hj; [|by apply winds_same].
  destruct Hd as [H1 H2 H3]. unfold update_child, fire, modify. split; [split| |].
  - unfold vaults in *. cbn. apply Forall_alter_keeps; [done|]. by intros c' [].
  - cbn. apply Forall_app_2; [done|]. apply Forall_fmap, Forall_true. intros h. by eexists _, _.
  - done.
  - done.
  - cbn. apply reflexive_eq. by apply (ids_alter (set_timer timer_cancel)).
Qed.

Lemma next_winds w : system_wf w → winding_down w → winds w (handle RunNext w).2.
Proof.
  intros Hw Hd. cbn [handle]. unfold mbind, M_bind, gets, modify.
  destruct (queue w) as [|k q] eqn:Hq; [by apply winds_same|]. set (w1 := set_queue (λ _, q) w).
  destruct Hd as [H1 H2 H3]. rewrite Hq in H2. apply Forall_cons in H2 as [(h & r & ->) H2].
  assert (Hd1 : winding_down w1) by by split.
  assert (Hw1 : pm_wf w1).
  { pose proof (wf_queue _ (sys_pm _ Hw)) as Hall. rewrite Hq in Hall. apply Forall_cons in Hall as [_ Hall].
    by destruct (sys_pm _ Hw); split. }
  assert (H : winds w1 (run_work (WaitHandler h r) w1).2).
  { cbn [run_work]. destruct h; cbn [run_handler];
      [unfold OnStartTimer|unfold OnStopTimer|unfold NewConnections.OnTimer|unfold ClientConnections.OnTimer];
      destruct r; try by apply winds_same.
    1-2: by apply exit_winds.
    all: unfold Close, emit; destruct (N.eqb _ _); apply winds_same; try done;
      cbn; unfold launched; cbn; by rewrite List.filter_app, app_nil_r. }
  destruct H as [? Hl Hi]. by split.
Qed.

Lemma unattended_winds w w' :
  system_wf w → winding_down w → unattended w w' → winds w w'.
Proof.
  intros Hw Hd (e & He & _ & ->). destruct e as [k|k bs|k|r signum|j r|k r|k r|]; try done.
  - by apply closed_winds.
  - destruct r; try done. destruct He as (Hs & _). by rewrite (wd_signals _ Hd) in Hs.
  - by apply timer_winds.
  - by apply next_winds.
Qed.

Lemma launches_none l : Forall (λ x, is_launch x = false) l → length (List.filter is_launch l) = 0%nat.
Proof. induction 1 as [|x l Hx _ IH]; [done|]. cbn. by rewrite Hx. Qed.

(** ** Telling every vault to stop *)

Lemma StopAll_connected w :
  pm_wf w → w.(pm).(stop_all_flag_) = false → null_connection ∉ vault_connection <$> vaults w →
  StopAll w = (Ok tt, set_stop_all_flag true (set_signal_waiting false (after_stops (vaults w) [] w))).
Proof.
  intros Hw Hf Hn. rewrite StopAll_same, StopAllWithInterval_run, Hf.
  pose proof (stop_rounds [] (vaults w) w (wf_connections _ Hw)) as Hrun. cbn zeta in Hrun.
  rewrite after_stops_nil, decide_False in Hrun.
  - by rewrite Hrun.
  - intros (c & Hc & E)%Exists_exists. apply Hn, list_elem_of_fmap. by exists c.
Qed.

Lemma StopAll_ssafe w :
  system_wf w → null_connection ∉ vault_connection <$> vaults w → isafe system_wf StopAll w.
Proof.
  intros Hw Hn. rewrite list_elem_of_fmap in Hn. unfold StopAll. apply isafe_bind; [by apply isafe_gets|].
  intros [] w1 E _; unfold gets in E; injection E as _ <-; [by apply isafe_ret|].
  apply isafe_bind; [by apply isafe_gets|]. intros vs w1 E _. unfold gets in E. injection E as <- <-.
  apply isafe_bind.
  { apply isafe_for_each; [|done]. intros c w' Hc Hw'. apply safe_nil_ssafe; [done|].
    apply (StopProcess_safe _ None); [apply Hw'| |done]. intros E. apply Hn. by exists c. }
  intros [] w2 _ Hw2. apply isafe_bind; [apply safe_nil_ssafe, safe_modify; by try apply Hw2|].
  intros [] w3 _ Hw3. apply safe_nil_ssafe, safe_modify; by try apply Hw3.
Qed.

Lemma StopAll_winds w :
  system_wf w → w.(pm).(stop_all_flag_) = false → null_connection ∉ vault_connection <$> vaults w →
  Forall (λ k, ∃ h r, k = WaitHandler h r) w.(queue) →
  ∃ w', StopAll w = (Ok tt, w') ∧ system_wf w' ∧ winds w w' ∧
    w'.(trace) = w.(trace) ++ ((λ c, Sent (vault_connection c) shutdown_bytes) <$> vaults w).
Proof.
  intros Hw Hf Hn Hq. pose proof (StopAll_ssafe w Hw Hn) as [_ Hw'].
  rewrite (StopAll_connected w (sys_pm _ Hw) Hf Hn) in Hw' |- *. eexists. split; [reflexivity|].
  split; [exact Hw'|]. split; [|done].
  assert (Hv : vaults (after_stops (vaults w) [] w) = stopped <$> vaults w)
    by (unfold vaults, after_stops; cbn; by rewrite app_nil_r).
  split; [split| |].
  - change (Forall told_to_stop (vaults (after_stops (vaults w) [] w))). rewrite Hv.
    by apply Forall_fmap, Forall_true.
  - done.
  - done.
  - etransitivity; [exact (launched_app w ((λ c, Sent (vault_connection c) shutdown_bytes) <$> vaults w))|].
    rewrite launches_none; [lia|]. by apply Forall_fmap, Forall_true.
  - apply reflexive_eq. change (vault_id <$> vaults (after_stops (vaults w) [] w) = ids w).
    rewrite Hv, <- list_fmap_compose. by apply list_fmap_ext.
Qed.

Lemma Close_run k w : k ≠ null_connection → Close k w = (Ok tt, set_trace (λ t, t ++ [Closed k]) w).
Proof. intros Hk. unfold Close. by destruct (N.eqb_spec k null_connection). Qed.

(** Closing connections. *)
Lemma for_each_close {T} (l : list (ConnectionPtr * T)) w :
  Forall (λ x, x.1 ≠ null_connection) l →
  for_each (λ x, Close x.1) l w = (Ok tt, set_trace (λ t, t ++ ((λ x, Closed x.1) <$> l)) w).
Proof.
  revert w. induction l as [|[k x] l IH]; intros w Hl; [cbn; by rewrite set_trace_nil|].
  apply Forall_cons in Hl as [Hk Hl]. cbn [for_each]. rewrite (M_bind_run _ _ _ _ _ (Close_run k w Hk)).
  rewrite IH by done. by rewrite set_trace_app.
Qed.

Lemma CloseAll_run {T} (get : World → list (ConnectionPtr * T)) w :
  Forall (λ x, x.1 ≠ null_connection) (get w) →
  (l ← gets get; for_each (λ x, Close x.1) l) w =
    (Ok tt, set_trace (λ t, t ++ ((λ x, Closed x.1) <$> get w)) w).
Proof. apply for_each_close. Qed.

(** What tearing down does before it stops the vaults. *)
Lemma close_everything w :
  system_wf w →
  ∃ l, (emit StoppedListening;; NewConnections.CloseAll;; ClientConnections.CloseAll;; StopAll) w =
       StopAll (set_trace (λ t, t ++ l) w) ∧ Forall (λ x, is_launch x = false) l.
Proof.
  intros Hw. set (w0 := set_trace (λ t, t ++ [StoppedListening]) w).
  set (c1 := entries (connections_ (nc w))). set (c2 := entries (unvalidated_clients_ (cc w))).
  set (c3 := entries (clients_ (cc w))).
  assert (H1 : Forall (λ x, x.1 ≠ null_connection) c1).
  { apply Forall_forall. intros [k x] Hk%elem_of_entries. cbn. intros ->. by rewrite (sys_nc _ Hw) in Hk. }
  assert (Htable : ∀ k, is_Some (ClientConnections.table (cc w) !! k) → k ≠ null_connection)
    by (intros k ?; by apply (client_not_null w)).
  assert (H2 : Forall (λ x, x.1 ≠ null_connection) c2).
  { apply Forall_forall. intros [k [ch t]] Hk%elem_of_entries. cbn. apply Htable.
    rewrite ClientConnections.table_lookup. rewrite Hk. destruct (clients_ (cc w) !! k); by eexists. }
  assert (H3 : Forall (λ x, x.1 ≠ null_connection) c3).
  { apply Forall_forall. intros [k n] Hk%elem_of_entries. cbn. apply Htable.
    rewrite ClientConnections.table_lookup. rewrite Hk. by eexists. }
  eexists. split.
  - rewrite (M_bind_run _ _ w tt w0) by done. unfold NewConnections.CloseAll, ClientConnections.CloseAll.
    erewrite M_bind_run by by apply CloseAll_run. cbn beta.
    erewrite M_bind_run.
    2: { unfold mbind at 1, M_bind at 1, gets at 1. erewrite M_bind_run by by apply for_each_close.
         by apply CloseAll_run. }
    unfold w0. by rewrite !set_trace_app.
  - rewrite !Forall_app, !Forall_fmap. split_and!; first [by repeat constructor|by apply Forall_true].
Qed.

(** ** The end *)

Lemma winds_steps n w w' :
  system_wf w → winding_down w → nsteps unattended n w w' →
  (n + budget w' ≤ budget w)%nat ∧ system_wf w' ∧ winds w w'.
Proof.
  intros Hw Hd Hn. induction Hn as [w|n w w1 w' Hstep _ IH]; [by split_and!; [lia|done|by apply winds_same]|].
  destruct (unattended_shrinks _ _ Hw Hstep) as [Hw1 [H1 _]].
  destruct (unattended_winds _ _ Hw Hd Hstep) as [Hd1 Hl1 Hi1].
  destruct (IH Hw1 Hd1) as (? & ? & [? Hl2 Hi2]). split_and!; [lia|done|].
  split; [done|congruence|by transitivity (ids w1)].
Qed.

(** A vault that is left can still lose its connection. *)
Lemma rest_is_empty w :
  system_wf w → winding_down w → (∀ w', ¬ unattended w w') → vaults w = [].
Proof.
  intros Hw Hd Hrest. destruct (vaults w) as [|c l] eqn:Hv; [done|]. exfalso.
  assert (Hc : c ∈ vaults w) by (rewrite Hv; by left).
  apply (Hrest (handle (ConnectionClosed (vault_connection c)) w).2).
  exists (ConnectionClosed (vault_connection c)). split_and!; [|cbn|done].
  - apply list_elem_of_fmap. by exists c.
  - intros E. apply list_elem_of_lookup in Hc as [j Hj].
    pose proof (ok_connection _ _ (pm_wf_child _ _ _ (sys_pm _ Hw) Hj) E) as Hs.
    pose proof (Forall_lookup_1 _ _ _ _ (wd_vaults _ Hd) Hj) as [Hs' _]. congruence.
Qed.

(** C9: tearing the manager down with every vault connected and no restart posted tells each
    vault to shut down; from then on, whatever ways the vaults go - their connections close,
    they do not stop in time -, no process is launched and no vault restarted, after at most
    [budget] events nothing is left to happen, and then no vault is left. *)
Theorem tear_down_ends w :
  system_wf w → w.(pm).(stop_all_flag_) = false → null_connection ∉ vault_connection <$> vaults w →
  Forall (λ k, ∃ h r, k = WaitHandler h r) w.(queue) →
  ∃ w1, TearDownWithInterval w = (Ok tt, w1) ∧
    (∀ c, c ∈ vaults w → Sent (vault_connection c) shutdown_bytes ∈ w1.(trace)) ∧
    ∀ n w2, nsteps unattended n w1 w2 →
      (n ≤ budget w1)%nat ∧ launched w2 = launched w ∧ sublist (ids w2) (ids w) ∧
      ((∀ w3, ¬ unattended w2 w3) → vaults w2 = []).
Proof.
  intros Hw Hf Hn Hq. set (w0 := set_tear_down true w).
  assert (Hw0 : system_wf w0) by by eapply system_same.
  destruct (close_everything w0 Hw0) as (l & E & Hl). set (w' := set_trace (λ t, t ++ l) w0) in *.
  assert (Hw' : system_wf w') by by eapply system_same.
  destruct (StopAll_winds w' Hw' Hf Hn Hq) as (w1 & E1 & Hw1 & [Hd Hlaunch Hids] & Htr).
  assert (Hl' : launched w' = launched w).
  { etransitivity; [apply (launched_app w0)|]. rewrite launches_none by done. apply Nat.add_0_r. }
  exists w1. split_and!.
  - unfold TearDownWithInterval. rewrite (M_bind_run _ _ w tt w0) by done. rewrite <- E1, <- E.
    unfold mbind, M_bind. destruct (emit _ w0) as [[[]|?|?] s1]; [|done..].
    destruct (NewConnections.CloseAll s1) as [[[]|?|?] s2]; [|done..].
    destruct (ClientConnections.CloseAll s2) as [[[]|?|?] s3]; [|done..]. by rewrite StopAll_same.
  - intros c Hc. rewrite Htr. apply elem_of_app. right. apply list_elem_of_fmap. by exists c.
  - intros n w2 Hsteps. destruct (winds_steps n w1 w2 Hw1 Hd Hsteps) as (Hb & Hw2 & [Hd2 Hl2 Hi2]).
    split_and!; [lia|congruence|by transitivity (ids w1)|by apply rest_is_empty].
Qed.
End tear_down.
