(* ===== verification/Requests.v ===== *)
(** What the requests of clients and vaults do, branch by branch. *)
From S2P Require Export Behaviour Authority.
From S2P Require NewConnections ClientConnections.
From S2P Require Import Demo.

Section start_vault.
Context `{P : Platform} `{B : Build} `{A : !Archives}.
Implicit Types w : World.

(** The vault a request with a directory asks for, with keys [p] and owner [n]. *)
Definition requested_vault (q : StartVaultRequest) (n : Identity) (p : PmidPtr) : VaultInfo := {|
  pmid_and_signer := p;
  vault_dir := q.(svr_vault_dir);
  max_disk_usage := q.(svr_max_disk_usage);
  owner_name := n;
  label := q.(svr_vault_label);
  vlog_session_id := if USE_VLOGGING then q.(svr_vlog_session_id) else "";
  send_hostname_to_visualiser_server :=
    if USE_VLOGGING && TESTING then q.(svr_send_hostname_to_visualiser_server) else false;
  tcp_connection := null_connection;
|}.

(** An error answer. *)
Definition answer_error (k : ConnectionPtr) (lab : NonEmptyString) (e : exn) : M World unit :=
  Send k (VaultRunningResponse_ (VaultRunningResponse_error lab (error_of e))).

(** What follows the choice of the keys. *)
Definition start_and_save (k : ConnectionPtr) (i : VaultInfo) : M World unit :=
  try_ (AddProcess i 0;; all ← GetAll; WriteConfigFile all)
  catch e ⇒ answer_error k (NonEmptyString_moved_from i.(label)) e.

Lemma requested_move q n p :
  (VaultInfo_move (requested_vault q n p)).1 = requested_vault q n p.
Proof.
  unfold VaultInfo_move, requested_vault, vlog_member. cbn.
  by destruct USE_VLOGGING, TESTING.
Qed.

Lemma in_process_Ok {T} (m : M World T) w i r w' :
  m w = (r, w') → in_process m (w, i) = (r, (w', i)).
Proof. unfold in_process. cbn. by intros ->. Qed.

Lemma StartVaultKeys_run q w i :
  i.(pmid_and_signer) = None → (TESTING = true → q.(svr_pmid_list_index) = None) →
  StartVaultKeys q (w, i) =
    (Ok tt, (set_pmids (λ l, l ++ [(CreatePmidAndSigner w.(os)).1])
               (set_os (λ _, (CreatePmidAndSigner w.(os)).2) w),
             set_pmid (Some (length w.(pmids))) i)).
Proof.
  intros Hi Hidx. unfold StartVaultKeys.
  replace (if TESTING then svr_pmid_list_index q else None) with (@None Z)
    by (destruct TESTING; [by rewrite Hidx|done]).
  rewrite (M_bind_run _ _ _ tt (w, i)) by done.
  rewrite (M_bind_run _ _ _ i (w, i)) by done. rewrite bool_decide_true by done.
  erewrite M_bind_run; [|apply in_process_Ok, os_call'_run].
  rewrite share_put_run. reflexivity.
Qed.

Lemma StartVaultVlog_run q w i :
  StartVaultVlog q (w, i) =
    (Ok tt, (w, if USE_VLOGGING
                then set_vlog q.(svr_vlog_session_id)
                       (if TESTING then q.(svr_send_hostname_to_visualiser_server)
                        else i.(send_hostname_to_visualiser_server)) i
                else i)).
Proof. unfold StartVaultVlog. by destruct USE_VLOGGING, TESTING. Qed.

(** The body of the [try], for a client that is validated and asks for fresh keys in a
    directory of its choice. *)
Lemma TryStartVault_run k q w n :
  validated w !! k = Some n → Path_empty q.(svr_vault_dir) = false →
  (TESTING = true → q.(svr_pmid_list_index) = None) →
  let keys := (CreatePmidAndSigner w.(os)).1 in
  let w1 := set_pmids (λ l, l ++ [keys]) (set_os (λ _, (CreatePmidAndSigner w.(os)).2) w) in
  let i := requested_vault q n (Some (length w.(pmids))) in
  TryStartVault k q (w, VaultInfo_default) =
    let '(r, w2) := (AddProcess i 0;; all ← GetAll; WriteConfigFile all) w1 in
    (r, (w2, (VaultInfo_move i).2)).
Proof.
  intros Hn Hdir Hidx. cbn zeta. unfold TryStartVault.
  rewrite (M_bind_run _ _ _ n (w, VaultInfo_default))
    by (by apply in_process_Ok, FindValidated_client).
  do 3 (erewrite M_bind_run by (unfold assign_local, modify; reflexivity)). cbn [fst snd].
  erewrite M_bind_run; [|by apply StartVaultKeys_run].
  erewrite M_bind_run; [|unfold StartVaultDir; rewrite Hdir; unfold assign_local, modify; reflexivity].
  erewrite M_bind_run; [|apply StartVaultVlog_run].
  erewrite M_bind_run; [|unfold local, gets; reflexivity].
  erewrite M_bind_run; [|unfold assign_local, modify; reflexivity].
  cbn [fst snd].
  match goal with |- context [AddProcess (VaultInfo_move ?i).1 0] =>
    assert (Ei : i = requested_vault q n (Some (length w.(pmids)))) end.
  { unfold requested_vault, set_vlog, set_dir, set_pmid, set_owner, set_label. cbn.
    by destruct USE_VLOGGING, TESTING. }
  rewrite Ei, requested_move. clear Ei.
  unfold mbind, M_bind, in_process, zoom. cbn [fst snd].
  destruct (AddProcess _ 0 _) as [[[]|e|f] w2]; [|done..]. cbn [fst snd].
  destruct (GetAll w2) as [[all|e|f] w3]; [|done..]. cbn [fst snd].
  by destruct (WriteConfigFile all w3) as [r w4].
Qed.

(** The handler around the body of its [try]. *)
Lemma HandleStartVault_run k q w r w2 i2 :
  TryStartVault k q (w, VaultInfo_default) = (r, (w2, i2)) →
  HandleStartVaultRequest k q w =
    match r with
    | Ok _ => (Ok tt, w2)
    | Throw e => answer_error k i2.(label) e w2
    | Fault f => (Fault f, w2)
    end.
Proof.
  intros E. unfold HandleStartVaultRequest, with_local, try_catch, mbind, M_bind.
  rewrite E. destruct r as [[]|e|f]; [done| |done].
  unfold answer_error, in_process, local, gets, mret, M_ret. cbn [fst snd zoom].
  by destruct (Send _ _ w2).
Qed.

(** C24: a validated client that asks for a vault in a directory of its choice gets one
    with fresh keys (when it asks for none of the keys that a testing build has at an index),
    owned by it, under the label it sent, and the list of vaults is
    written to the configuration file.  When that fails the client is told why - but
    the answer carries the label that was moved away into the failed call. *)
Theorem StartVault_validated k q w n :
  validated w !! k = Some n → Path_empty q.(svr_vault_dir) = false →
  (TESTING = true → q.(svr_pmid_list_index) = None) →
  HandleStartVaultRequest k q w =
    start_and_save k (requested_vault q n (Some (length w.(pmids))))
      (set_pmids (λ l, l ++ [(CreatePmidAndSigner w.(os)).1])
         (set_os (λ _, (CreatePmidAndSigner w.(os)).2) w)).
Proof.
  intros Hn Hdir Hidx. pose proof (TryStartVault_run k q w n Hn Hdir Hidx) as H. cbv zeta in H.
  unfold start_and_save, try_catch.
  match type of H with _ = (let '(_, _) := ?x in _) => destruct x as [r w2] end.
  rewrite (HandleStartVault_run _ _ _ _ _ _ H).
  by destruct r as [[]|e|f].
Qed.

(** C25: a connection that is not validated gets no vault: nothing changes but the
    error answer it is sent, which names no label. *)
Theorem StartVault_unvalidated k q w :
  validated w !! k = None →
  HandleStartVaultRequest k q w =
    answer_error k NonEmptyString_default
      (maidsafe_error (if w.(cc).(unvalidated_clients_) !! k is Some _ then unvalidated_client
                       else connection_not_found)) w.
Proof.
  intros Hn.
  assert (E : TryStartVault k q (w, VaultInfo_default) =
    (Throw (maidsafe_error (if w.(cc).(unvalidated_clients_) !! k is Some _ then unvalidated_client
                            else connection_not_found)), (w, VaultInfo_default))).
  { unfold TryStartVault. unfold mbind at 1, M_bind at 1. unfold in_process at 1.
    cbn -[mbind]. rewrite ClientConnections.FindValidated_run.
    unfold ClientConnections.cw. rewrite ClientConnections.table_lookup.
    unfold validated in Hn. rewrite Hn. by destruct (unvalidated_clients_ (cc w) !! k) as [[ch t]|]. }
  by rewrite (HandleStartVault_run _ _ _ _ _ _ E).
Qed.
End start_vault.

(** * Taking ownership *)
Section take_ownership.
Context `{P : Platform} `{B : Build} `{A : !Archives}.
Context `{AL : !ArchiveLaws} `{AS : !ArchiveSafety}.
Implicit Types w : World.

(** C29: a client that is not validated, or names an unknown label, takes nothing: the
    process is unchanged but for the error answer, which names no label. *)
Theorem TakeOwnership_refused k q w :
  system_wf w →
  validated w !! k = None ∨ q.(tor_vault_label) ∉ vault_label <$> vaults w →
  ∃ e, HandleTakeOwnershipRequest k q w = answer_error k NonEmptyString_default e w.
Proof.
  intros Hw Hno. unfold HandleTakeOwnershipRequest, TryTakeOwnership.
  assert (H : ∃ e, (n ← ClientConnections.FindValidated k; i ← Find q.(tor_vault_label); mret (n, i)) w =
              (Throw e, w)).
  { unfold mbind, M_bind. destruct (FindValidated_cases k w) as [(n & -> & Hn)|(e & ->)];
      [|by exists e].
    destruct Hno as [Hno|Hno]; [congruence|]. rewrite Find_run.
    destruct (list_find _ _) as [[j c]|] eqn:Hf; [|by eexists].
    destruct Hno. apply list_find_Some in Hf as (Hj & Hl & _). rewrite <- Hl.
    apply list_elem_of_fmap. exists c. split; [done|by eapply list_elem_of_lookup_2]. }
  destruct H as (e & H). exists e. unfold answer_error.
  unfold mbind, M_bind, try_catch in *.
  destruct (ClientConnections.FindValidated k w) as [[n|e1|f] w1] eqn:E1; [|by simplify_eq|done].
  destruct (Find (tor_vault_label q) w1) as [[i|e2|f] w2]; [done|by simplify_eq|done].
Qed.

(** The vault of a label. *)
Definition managed (w : World) (lab : NonEmptyString) (j : nat) (c : Child) : Prop :=
  vaults w !! j = Some c ∧ vault_label c = lab.

Lemma managed_find w lab j c :
  system_wf w → managed w lab j c →
  list_find (λ v, v.(info).(label) = lab) (vaults w) = Some (j, c).
Proof.
  intros Hw [Hj <-].
  assert (E : list_find (λ v, vault_label v = vault_label c) (vaults w) = Some (j, c))
    by by apply list_find_key; [apply Hw|]. exact E.
Qed.

Lemma AssignOwner_managed w lab j c n u :
  system_wf w → managed w lab j c →
  AssignOwner lab n u w = (Ok tt, set_vaults (alter (set_info (set_owner n u)) j) w).
Proof. intros Hw Hm. by rewrite AssignOwner_run, (managed_find _ _ _ _ Hw Hm). Qed.

Lemma alter_insert_at {X} (f : X → X) i (l : list X) x :
  l !! i = Some x → alter f i l = <[i := f x]> l.
Proof.
  intros Hx. apply list_eq. intros m. destruct (decide (m = i)) as [->|].
  - rewrite list_lookup_alter_eq, Hx, list_lookup_insert_eq; [done|]. by eapply lookup_lt_Some.
  - by rewrite list_lookup_alter_ne, list_lookup_insert_ne.
Qed.

(** What a request for the directory the vault has comes down to: the vault is told its disk usage,
    gets its owner, and the keys are saved and sent. *)
Definition tell_usage (q : TakeOwnershipRequest) (c : Child) : M World unit :=
  if negb (c.(info).(max_disk_usage) =? q.(tor_max_disk_usage)) && negb (q.(tor_max_disk_usage) =? 0)
  then Send (vault_connection c) (MaxDiskUsageUpdate_ (mkMaxDiskUsageUpdate q.(tor_max_disk_usage)))
  else mret tt.
Definition save_and_answer (k : ConnectionPtr) (lab : NonEmptyString) (p : PmidPtr) : M World unit :=
  all ← GetAll;
  WriteConfigFile all;;
  keys ← move_shared_pmid p;
  response ← os_call' (VaultRunningResponse_keys lab keys);
  Send k (VaultRunningResponse_ response).

Lemma same_dir_run k q w n j c :
  system_wf w → validated w !! k = Some n → managed w q.(tor_vault_label) j c →
  vault_path c = q.(tor_vault_dir) →
  TryTakeOwnership k q w =
    (tell_usage q c;; AssignOwner q.(tor_vault_label) n q.(tor_max_disk_usage);;
     save_and_answer k q.(tor_vault_label) c.(info).(pmid_and_signer)) w.
Proof.
  intros Hw Hn [Hj Hl] Hd. unfold TryTakeOwnership.
  rewrite (M_bind_run _ _ _ _ _ (FindValidated_client _ _ _ Hn)). cbv zeta. rewrite <- Hl.
  rewrite (M_bind_run _ _ _ _ _ (Find_label_run w c Hw (list_elem_of_lookup_2 _ _ _ Hj))).
  unfold vault_path in Hd. rewrite Hd, bool_decide_true by done. done.
Qed.

Lemma tell_usage_stable {V} (v : World → V) q c : (∀ w f, v (set_trace f w) = v w) → stable v (tell_usage q c).
Proof. intros Hv. unfold tell_usage. destruct (_ && _); [by apply Send_stable|apply stable_ret]. Qed.

(** Once the owner is assigned, only the keys and what is outside change. *)
Lemma answer_vaults k lab p : stable vaults (save_and_answer k lab p).
Proof.
  unfold save_and_answer, GetAll, move_shared_pmid.
  stable_with ltac:(first [by apply WriteConfigFile_stable | by apply Send_stable]).
Qed.

Lemma owner_assigned w w1 lab n u j c :
  system_wf w → managed w lab j c → vaults w1 = vaults w →
  ∃ w2, AssignOwner lab n u w1 = (Ok tt, w2) ∧ vaults w2 = alter (set_info (set_owner n u)) j (vaults w) ∧
    w2.(pmids) = w1.(pmids).
Proof.
  intros Hw Hm Hv. rewrite AssignOwner_run, Hv, (managed_find w lab j c Hw Hm). eexists. split; [done|].
  split; [|done]. unfold vaults at 1. cbn. fold (vaults w1). by rewrite Hv.
Qed.

Lemma answer_sends k lab i keys w w' :
  w.(pmids) !! i = Some keys → save_and_answer k lab (Some i) w = (Ok tt, w') →
  w'.(pmids) = <[i := PmidAndSigner_moved_from keys]> w.(pmids) ∧
  ∃ before key bs, Serialise (VaultRunningResponse_ (mkVaultRunningResponse lab
                        (Some (mkVaultKeys key (Some keys))) None)) = Ok bs ∧
    w'.(trace) = before ++ [Sent k bs].
Proof.
  intros Hkeys H. unfold save_and_answer in H.
  apply M_bind_Ok in H as (all & w1 & E & H). unfold GetAll, gets in E. injection E as _ <-.
  apply M_bind_Ok in H as ([] & w2 & E & H).
  pose proof (WriteConfigFile_files all w) as (_ & _ & _ & _ & F). rewrite E in F. cbn in F. clear E.
  apply M_bind_Ok in H as (ks & w3 & E & H). unfold move_shared_pmid in E.
  rewrite (M_bind_run _ _ _ keys w2) in E by (unfold deref_pmid; by rewrite F, Hkeys).
  apply M_bind_Ok in E as ([] & wx & Em & E). unfold modify in Em. injection Em as <-.
  unfold mret, M_ret in E. injection E as <- <-.
  apply M_bind_Ok in H as (r & w4 & E & H). rewrite os_call'_run in E. injection E as Hr <-.
  unfold Send, emit, lift_res in H. apply M_bind_Ok in H as (bs & w5 & E & H). injection E as Hbs <-.
  destruct (N.eqb k null_connection); [done|]. unfold modify in H. injection H as <-. split.
  - cbn. rewrite F. by apply alter_insert_at.
  - unfold VaultRunningResponse_keys, VaultKeys_make in Hr. destruct (RandomBytes _ _ _) as [b o]. cbn in Hr.
    subst r. eexists _, _, bs. split; [exact Hbs|reflexivity].
Qed.

(** A vault that has not connected cannot be told its disk usage. *)
Definition cannot_be_told (q : TakeOwnershipRequest) (c : Child) : Prop :=
  vault_connection c = null_connection ∧ c.(info).(max_disk_usage) ≠ q.(tor_max_disk_usage) ∧
  q.(tor_max_disk_usage) ≠ 0.

Lemma same_dir_safe k q w n j c :
  system_wf w → validated w !! k = Some n → managed w q.(tor_vault_label) j c →
  vault_path c = q.(tor_vault_dir) → ¬ cannot_be_told q c → is_Fault (TryTakeOwnership k q w).1 = false.
Proof.
  intros Hw Hn [Hj Hl] Hd Ht. apply (TryTakeOwnership_ssafe k q w Hw).
  - apply (client_not_null w); [done|]. rewrite ClientConnections.table_lookup. unfold validated in Hn. by rewrite Hn.
  - intros (_ & c' & [j' Hj']%list_elem_of_lookup & Hl' & Hk & Hcase).
    assert (c' = c) as ->.
    { pose proof (managed_find w _ j c Hw (conj Hj Hl)) as H1. pose proof (managed_find w _ j' c' Hw (conj Hj' Hl')) as H2.
      congruence. }
    destruct Hcase as [?|[? ?]]; [done|]. by apply Ht.
Qed.

Lemma same_dir_unconnected k q w n j c bs :
  system_wf w → validated w !! k = Some n → managed w q.(tor_vault_label) j c →
  vault_path c = q.(tor_vault_dir) → cannot_be_told q c →
  Serialise (MaxDiskUsageUpdate_ (mkMaxDiskUsageUpdate q.(tor_max_disk_usage))) = Ok bs →
  TryTakeOwnership k q w = (Fault null_deref, w).
Proof.
  intros Hw Hn Hm Hd (Hk & Hu & H0) Hs. rewrite (same_dir_run k q w n j c Hw Hn Hm Hd).
  unfold tell_usage. rewrite (proj2 (Z.eqb_neq _ _) Hu), (proj2 (Z.eqb_neq _ _) H0). cbn [negb andb].
  unfold Send, mbind, M_bind, lift_res. rewrite Hs, Hk. done.
Qed.

Lemma same_dir_taken k q w n j c w' :
  system_wf w → validated w !! k = Some n → managed w q.(tor_vault_label) j c →
  vault_path c = q.(tor_vault_dir) → TryTakeOwnership k q w = (Ok tt, w') →
  vaults w' = alter (set_info (set_owner n q.(tor_max_disk_usage))) j (vaults w) ∧
  ∃ i keys, c.(info).(pmid_and_signer) = Some i ∧ w.(pmids) !! i = Some keys ∧
    w'.(pmids) = <[i := PmidAndSigner_moved_from keys]> w.(pmids) ∧
    ∃ before key bs, Serialise (VaultRunningResponse_ (mkVaultRunningResponse q.(tor_vault_label)
                          (Some (mkVaultKeys key (Some keys))) None)) = Ok bs ∧
      w'.(trace) = before ++ [Sent k bs].
Proof.
  intros Hw Hn Hm Hd E. rewrite (same_dir_run k q w n j c Hw Hn Hm Hd) in E.
  apply M_bind_Ok in E as ([] & w1 & E1 & E).
  pose proof (tell_usage_stable vaults q c ltac:(done) w) as Hv. rewrite E1 in Hv.
  pose proof (tell_usage_stable pmids q c ltac:(done) w) as Hp. rewrite E1 in Hp. cbn in Hv, Hp.
  destruct (owner_assigned w w1 _ n (tor_max_disk_usage q) j c Hw Hm Hv) as (w2 & E2 & Hv2 & Hp2).
  rewrite (M_bind_run _ _ _ _ _ E2) in E.
  pose proof (answer_vaults k (tor_vault_label q) (pmid_and_signer (info c)) w2) as Hv'.
  rewrite E in Hv'. cbn in Hv'. split; [by rewrite Hv'|].
  destruct (ok_pmid _ _ (pm_wf_child _ _ _ (sys_pm _ Hw) (proj1 Hm))) as (i & Hi & [keys Hkeys]).
  rewrite Hi in E. destruct (answer_sends k (tor_vault_label q) i keys w2 w') as [H1 H2]; [by rewrite Hp2, Hp|done|].
  exists i, keys. split_and!; [done..|by rewrite H1, Hp2, Hp|done].
Qed.

Lemma same_dir_fails k q w n j c e w' :
  system_wf w → validated w !! k = Some n → managed w q.(tor_vault_label) j c →
  vault_path c = q.(tor_vault_dir) → TryTakeOwnership k q w = (Throw e, w') →
  vaults w' = vaults w ∨ vaults w' = alter (set_info (set_owner n q.(tor_max_disk_usage))) j (vaults w).
Proof.
  intros Hw Hn Hm Hd E. rewrite (same_dir_run k q w n j c Hw Hn Hm Hd) in E.
  pose proof (tell_usage_stable vaults q c ltac:(done) w) as Hv. unfold mbind at 1, M_bind at 1 in E.
  destruct (tell_usage q c w) as [[[]|e1|f1] w1]; cbn in Hv; [|left; by simplify_eq|done].
  destruct (owner_assigned w w1 _ n (tor_max_disk_usage q) j c Hw Hm Hv) as (w2 & E2 & Hv2 & _).
  rewrite (M_bind_run _ _ _ _ _ E2) in E.
  pose proof (answer_vaults k (tor_vault_label q) (pmid_and_signer (info c)) w2) as Hv'.
  rewrite E in Hv'. cbn in Hv'. right. by rewrite Hv'.
Qed.

#[local] Instance cannot_be_told_dec q c : Decision (cannot_be_told q c).
Proof. unfold cannot_be_told. apply _. Qed.

(** C26: a validated client that names the directory the vault already has becomes its owner, when the
    request succeeds, with the disk usage it asked for, and is sent its keys; the other vaults stay as
    they are, and the keys object, which is shared with the manager's own record of the vault, is left
    moved-from: the manager has lost the keys.  When the request fails with an exception the client is
    answered with an error that names no label, although it may be the owner all the same.  The only
    undefined behaviour is that of a vault that has not connected and would be told another disk usage. *)
Theorem TakeOwnership_same_dir k q w n j c :
  system_wf w → validated w !! k = Some n → managed w q.(tor_vault_label) j c →
  vault_path c = q.(tor_vault_dir) →
  let owned := alter (set_info (set_owner n q.(tor_max_disk_usage))) j (vaults w) in
  match TryTakeOwnership k q w with
  | (Ok _, w') =>
      HandleTakeOwnershipRequest k q w = (Ok tt, w') ∧ vaults w' = owned ∧
      ∃ i keys, c.(info).(pmid_and_signer) = Some i ∧ w.(pmids) !! i = Some keys ∧
        w'.(pmids) = <[i := PmidAndSigner_moved_from keys]> w.(pmids) ∧
        ∃ before key bs, Serialise (VaultRunningResponse_ (mkVaultRunningResponse q.(tor_vault_label)
                              (Some (mkVaultKeys key (Some keys))) None)) = Ok bs ∧
          w'.(trace) = before ++ [Sent k bs]
  | (Throw e, w') =>
      HandleTakeOwnershipRequest k q w = answer_error k NonEmptyString_default e w' ∧
      (vaults w' = vaults w ∨ vaults w' = owned)
  | (Fault _, _) => cannot_be_told q c
  end.
Proof.
  intros Hw Hn Hm Hd owned. pose proof (same_dir_safe k q w n j c Hw Hn Hm Hd) as Hsafe.
  unfold HandleTakeOwnershipRequest, answer_error.
  destruct (TryTakeOwnership k q w) as [[[]|e|f] w'] eqn:E.
  - split; [|by apply (same_dir_taken k q w n j c w')].
    unfold try_catch, mbind, M_bind. by rewrite E.
  - split; [|by eapply same_dir_fails]. unfold try_catch, mbind, M_bind. by rewrite E.
  - destruct (decide (cannot_be_told q c)) as [|Ht]; [done|]. discriminate (Hsafe Ht).
Qed.

(** The vault as its new owner wants it. *)
Definition moved_vault (q : TakeOwnershipRequest) (n : Identity) (c : Child) : VaultInfo :=
  set_owner n q.(tor_max_disk_usage) (set_dir q.(tor_vault_dir) c.(info)).

(** A validated client that names another directory makes the manager stop the
    vault: it is sent the shutdown request twice, marked as stopping under the stop
    timer, and remembered to be started again from the new directory for its new
    owner; the client gets no answer yet.  If the vault has not connected, the
    manager uses a null pointer instead. *)
Theorem TakeOwnership_new_dir k q w n j c :
  system_wf w → validated w !! k = Some n → managed w q.(tor_vault_label) j c →
  vault_path c ≠ q.(tor_vault_dir) →
  let stop c := set_timer (stop_timer (vault_label c))
                  (stopping (Some (ChangeChunkstorePath_on_exit (moved_vault q n c))) c) in
  HandleTakeOwnershipRequest k q w =
    if (vault_connection c =? null_connection)%N then (Fault null_deref, w) else
    (Ok tt, set_vaults (alter (λ _, stop c) j)
              (set_trace (λ t, t ++ [Sent (vault_connection c) shutdown_bytes;
                                     Sent (vault_connection c) shutdown_bytes]) w)).
Proof.
  intros Hw Hn Hm Hd. cbv zeta. pose proof Hm as [Hj Hl].
  unfold HandleTakeOwnershipRequest, try_catch. unfold mbind at 1, M_bind at 1.
  unfold mbind at 1, M_bind at 1. unfold TryTakeOwnership.
  rewrite (M_bind_run _ _ _ _ _ (FindValidated_client _ _ _ Hn)). cbv zeta. rewrite <- Hl.
  rewrite (M_bind_run _ _ _ _ _ (Find_label_run w c Hw (list_elem_of_lookup_2 _ _ _ Hj))).
  unfold vault_path in Hd. rewrite bool_decide_false by done. cbn [negb].
  unfold ChangeChunkstorePath. unfold mbind at 1, M_bind at 1.
  change (tcp_connection _) with (vault_connection c).
  destruct (Serialise_empty VaultShutdownRequest_) as [bs Hbs]; [done|].
  assert (Hsb : shutdown_bytes = bs) by (unfold shutdown_bytes; by rewrite Hbs). rewrite Hsb.
  unfold Send at 1, emit at 1, lift_res, modify. unfold mbind at 1, M_bind at 1. rewrite Hbs.
  destruct (N.eqb_spec (vault_connection c) null_connection) as [|Hc]; [done|].
  rewrite StopProcess_run. change (vaults (set_trace _ w)) with (vaults w).
  assert (E : list_find (λ v, tcp_connection (info v) = vault_connection c) (vaults w) = Some (j, c)).
  { assert (E' : list_find (λ v, vault_connection v = vault_connection c) (vaults w) = Some (j, c))
      by by apply list_find_key; [apply Hw|]. exact E'. }
  rewrite E. cbv zeta. rewrite Hbs.
  destruct (N.eqb_spec (vault_connection c) null_connection); [done|].
  unfold mret, M_ret. f_equal. destruct w as [? ? ? ? ? [] ? ? ? ? ?].
  unfold set_vaults, set_trace, set_pm. cbn in *. rewrite <- app_assoc. f_equal. f_equal.
  rewrite list_alter_alter_eq. apply list_eq. intros m. destruct (decide (m = j)) as [->|].
  - rewrite !list_lookup_alter_eq. unfold vaults in Hj. cbn in Hj. by rewrite Hj.
  - by rewrite !list_lookup_alter_ne.
Qed.

(** When such a vault exits, for whatever reason and however it ends, it is removed
    and only its replacement is launched, by [AddProcess] from a restart count of
    zero; the old vault is not restarted. *)
Theorem moved_vault_exit lab ec t w j c i :
  system_wf w → managed w lab j c → c.(status) = kStopping →
  c.(on_exit) = Some (ChangeChunkstorePath_on_exit i) →
  OnProcessExit run_functor lab ec t w =
    (Ok tt, ((AddProcess i 0;; all ← GetAll; WriteConfigFile all) (after_exit j c t w)).2).
Proof.
  intros Hw Hm Hs Hf. pose proof Hm as [Hj Hl].
  rewrite OnProcessExit_run by apply pm_wf_has_pmid, Hw. rewrite (managed_find _ _ _ _ Hw Hm).
  unfold mbind at 1, M_bind at 1. rewrite Hf. unfold exit_restarts, exit_info.
  rewrite bool_decide_true by done. cbn [InvokeOnExitFunctor].
  assert (E : ∀ e z, try_catch (run_functor (ChangeChunkstorePath_on_exit i) e z) (λ _, mret tt)
                       (after_exit j c t w) =
    (Ok tt, ((AddProcess i 0;; all ← GetAll; WriteConfigFile all) (after_exit j c t w)).2)).
  { intros e z. unfold try_catch. cbn [run_functor].
    assert (Hsafe : is_Fault (run_functor (ChangeChunkstorePath_on_exit i) e z (after_exit j c t w)).1 = false).
    { apply (functor_safe (ChangeChunkstorePath_on_exit i)).
      - apply (good_wf [] w), after_exit_good, Hw.
      - apply (ok_functor _ _ (pm_wf_child _ _ _ (sys_pm _ Hw) Hj)), Hf. }
    cbn [run_functor] in Hsafe.
    by destruct ((AddProcess i 0;; all ← GetAll; WriteConfigFile all) _) as [[[]|x|x] w']. }
  destruct t; [by rewrite E, RestartIfRequired_run|].
  by destruct (ec =? 0); rewrite E, RestartIfRequired_run.
Qed.
End take_ownership.

(** * Vaults reporting in, and what else the manager is told *)
Section reports.
Context `{P : Platform} `{B : Build} `{A : !Archives}.
Context `{AL : !ArchiveLaws} `{AS : !ArchiveSafety}.
Implicit Types w : World.

(** The messages that change nothing: those with a tag this manager does not handle,
    and those that do not parse. *)
Definition ignored_tag (t : MessageTag) : bool :=
  match t with
  | kValidateConnectionRequest | kChallengeResponse | kStartVaultRequest
  | kTakeOwnershipRequest | kVaultStarted | kJoinedNetwork | kLogMessage => false
  | kSetNetworkAsStable | kNetworkStableRequest => negb TESTING
  | _ => true
  end.

(** Bytes without a tag, bytes with a tag that is not for the manager, and requests
    whose body does not parse change nothing at all. *)
Theorem malformed_ignored k bs w :
  match ParseTag bs with
  | Throw _ => HandleReceivedMessage k bs w = (Ok tt, w)
  | Ok (t, body) =>
      (ignored_tag t = true → HandleReceivedMessage k bs w = (Ok tt, w)) ∧
      (is_Throw (match t with
                 | kChallengeResponse => Parse ChallengeResponse_codec body ≫= λ _, Ok tt
                 | kStartVaultRequest => Parse StartVaultRequest_codec body ≫= λ _, Ok tt
                 | kTakeOwnershipRequest => Parse TakeOwnershipRequest_codec body ≫= λ _, Ok tt
                 | kVaultStarted => Parse VaultStarted_codec body ≫= λ _, Ok tt
                 | kLogMessage => Parse LogMessage_codec body ≫= λ _, Ok tt
                 | _ => Ok tt
                 end) = true → HandleReceivedMessage k bs w = (Ok tt, w))
  | Fault _ => False
  end.
Proof.
  pose proof (proj2 ar_MessageTag_safe bs) as Hf. unfold HandleReceivedMessage, ParseTag, try_catch.
  unfold mbind, M_bind, lift_res.
  destruct (load ar_MessageTag bs) as [[t body]|e|f]; [|done|done].
  split; [destruct t; cbn; destruct TESTING; done|].
  destruct t; cbn [dispatch]; try done; unfold mbind, M_bind, lift_res;
    match goal with |- context [Parse ?c body] => destruct (Parse c body) end; cbn; done.
Qed.

(** What the manager answers a vault that reports in. *)
Definition started_response (w : World) (k : ConnectionPtr) (c : Child) (keys : PmidAndSigner) : Message :=
  VaultStartedResponse_ (VaultStartedResponse_make keys.1 w.(env).(g_public_pmids)
    (set_connection k c.(info)) w.(cfg).(kSymmKeyAndIV_)).

(** Telling a client about a vault. *)
Definition notify_owner (n : Identity) (lab : NonEmptyString) (p : PmidPtr) : M World unit :=
  try_ (client ← ClientConnections.FindValidatedName n;
        keys ← deref_pmid p;
        response ← os_call' (VaultRunningResponse_keys lab keys);
        Send client (VaultRunningResponse_ response)) catch _ ⇒ mret tt.

(** It goes to a connection that is validated under the name; there is at most one message. *)
Lemma notify_owner_run n lab p w :
  system_wf w → is_Some (p ≫= λ i, w.(pmids) !! i) →
  ∃ o l, notify_owner n lab p w = (Ok tt, set_trace (λ t, t ++ l) (set_os (λ _, o) w)) ∧
    (l = [] ∨ ∃ cl bs, l = [Sent cl bs] ∧ validated w !! cl = Some n).
Proof.
  intros Hw [keys Hk]. unfold notify_owner, try_catch, mbind, M_bind.
  assert (Hself : w = set_trace (λ t, t ++ []) (set_os (λ _, os w) w))
    by (destruct w; unfold set_trace; cbn; by rewrite app_nil_r).
  unfold ClientConnections.FindValidatedName, mbind, M_bind, gets.
  destruct (list_find _ _) as [[j [cl m]]|] eqn:Hf;
    [|exists (os w), []; split; [by rewrite <- Hself|by left]].
  apply list_find_Some in Hf as (Hj & Hm & _). cbn in Hm. subst m. cbn [fst].
  unfold mret at 1, M_ret at 1. cbn [fst snd].
  assert (Hcl : validated w !! cl = Some n)
    by (apply elem_of_entries; by eapply list_elem_of_lookup_2).
  assert (Hnn : cl ≠ null_connection).
  { apply (client_not_null w); [done|]. rewrite ClientConnections.table_lookup.
    unfold validated in Hcl. by rewrite Hcl. }
  assert (Hd : deref_pmid p w = (Ok keys, w)).
  { unfold deref_pmid. destruct p as [i|]; [|done]. cbn in Hk. by rewrite Hk. }
  rewrite Hd, os_call'_run.
  pose proof (VaultRunningResponse_keys_ok lab keys (os w)
    (VaultRunningResponse_keys lab keys (os w)).1 (VaultRunningResponse_keys lab keys (os w)).2
    ltac:(by destruct (VaultRunningResponse_keys lab keys (os w)))) as Hok.
  set (w1 := set_os _ w). pose proof (Serialise_safe _ Hok) as Hs.
  unfold Send, mbind, M_bind, lift_res.
  destruct (Serialise _) as [bs|e|f]; [| |done].
  - destruct (N.eqb_spec cl null_connection); [done|].
    eexists _, [Sent cl bs]. split; [reflexivity|]. right. by eexists _, _.
  - eexists _, []. split; [|by left]. unfold mret, M_ret, w1, set_trace. cbn. by rewrite app_nil_r.
Qed.

(** The handler up to the notification of the owner. *)
Lemma VaultStarted_run k v w j c i keys bs :
  system_wf w → is_Some (w.(nc).(connections_) !! k) →
  list_find (λ c, GetProcessId c = v.(process_id)) (vaults w) = Some (j, c) →
  c.(info).(pmid_and_signer) = Some i → w.(pmids) !! i = Some keys →
  Serialise (started_response w k c keys) = Ok bs →
  let w' := set_trace (λ t, t ++ [Sent k bs])
              (set_vaults (alter (connected k) j) (NewConnections.set_connections (delete k) w)) in
  system_wf w' ∧
  VaultManager.HandleVaultStarted k v w =
    (if Identity_IsInitialised c.(info).(owner_name)
     then notify_owner c.(info).(owner_name) c.(info).(label) (Some i) else mret tt) w'.
Proof.
  intros Hw Ha Hf Hi Hkeys Hbs w'. pose proof Hf as Hj. apply list_find_Some in Hj as (Hj & _).
  assert (Hk : k ≠ null_connection).
  { intros ->. rewrite (sys_nc _ Hw) in Ha. by destruct Ha. }
  pose proof (RemoveFromNewConnections_run k w) as Hrem. rewrite decide_True in Hrem by done.
  destruct (taken_off _ _ _ _ Hw Hrem) as (Hw1 & _ & Hc & Hh). specialize (Hh Hk).
  unfold VaultManager.HandleVaultStarted. rewrite (M_bind_run _ _ _ _ _ Hrem).
  set (w1 := NewConnections.set_connections (delete k) w) in *.
  assert (Hs : safe [k] (ProcessManager.HandleVaultStarted k (process_id v)) w1).
  { apply HandleVaultStarted_safe; [apply Hw1|done|by apply fresh_not_connection]. }
  pose proof (HandleVaultStarted_run k (process_id v) w1) as Hrun.
  change (vaults w1) with (vaults w) in Hrun. rewrite Hf in Hrun.
  rewrite (M_bind_run _ _ _ _ _ Hrun). set (w2 := set_vaults (alter (connected k) j) w1) in *.
  assert (Hw2 : system_wf w2).
  { destruct Hs as [_ Hg]. rewrite Hrun in Hg. cbn [snd] in Hg. eapply good_system; [exact Hw1|exact Hg|].
    intros k' ->%list_elem_of_singleton. split; [|done]. cbn. rewrite lookup_delete_eq. by intros []. }
  rewrite (M_bind_run _ _ _ (w.(cfg).(kSymmKeyAndIV_)) w2) by done.
  rewrite (M_bind_run _ _ _ keys w2)
    by (unfold deref_pmid; cbn [pmid_and_signer set_connection]; rewrite Hi;
        change (pmids w2) with (pmids w); by rewrite Hkeys).
  rewrite (M_bind_run _ _ _ (w.(env).(g_public_pmids)) w2) by done.
  set (w3 := set_trace (λ t, t ++ [Sent k bs]) w2).
  assert (Hsend : Send (tcp_connection (set_connection k (info c))) (started_response w k c keys) w2 = (Ok tt, w3)).
  { unfold Send, mbind, M_bind, lift_res. rewrite Hbs. cbn [tcp_connection set_connection].
    by destruct (N.eqb_spec k null_connection). }
  unfold started_response in Hsend. rewrite (M_bind_run _ _ _ _ _ Hsend).
  assert (Hw3 : system_wf w3) by by eapply system_same.
  cbn [owner_name set_connection label pmid_and_signer]. rewrite Hi. split; [exact Hw3|].
  by destruct (Identity_IsInitialised (owner_name (info c))).
Qed.

(** When the process of a managed vault reports in on a silent connection, the vault
    is running on that connection with its start timer cancelled, it is sent its keys,
    directory and disk usage, and the only other message goes to a client validated
    as its owner. *)
Theorem VaultStarted_known k v w j c i keys bs :
  system_wf w → is_Some (w.(nc).(connections_) !! k) →
  list_find (λ c, GetProcessId c = v.(process_id)) (vaults w) = Some (j, c) →
  c.(info).(pmid_and_signer) = Some i → w.(pmids) !! i = Some keys →
  Serialise (started_response w k c keys) = Ok bs →
  ∃ w' rest, VaultManager.HandleVaultStarted k v w = (Ok tt, w') ∧
    vaults w' = alter (connected k) j (vaults w) ∧
    w'.(nc).(connections_) = delete k w.(nc).(connections_) ∧ w'.(cc) = w.(cc) ∧
    w'.(trace) = w.(trace) ++ Sent k bs :: rest ∧
    (rest = [] ∨ ∃ cl bs', rest = [Sent cl bs'] ∧ validated w !! cl = Some c.(info).(owner_name)).
Proof.
  intros Hw Ha Hf Hi Hkeys Hbs. destruct (VaultStarted_run k v w j c i keys bs Hw Ha Hf Hi Hkeys Hbs) as [Hw3 Hrun].
  cbv zeta in Hrun, Hw3. rewrite Hrun. match goal with |- context [(_ ?w'') = _] => set (w3 := w'') in * end.
  destruct (Identity_IsInitialised (owner_name (info c))).
  - destruct (notify_owner_run (owner_name (info c)) (label (info c)) (Some i) w3 Hw3) as (o & l & Hn & Hl);
      [by exists keys|].
    rewrite Hn. exists (set_trace (λ t, t ++ l) (set_os (λ _, o) w3)), l.
    split_and!; try done. cbn. by rewrite <- app_assoc.
  - exists w3, []. split_and!; try done. by left.
Qed.

(** A process id that is not of a managed vault, or a connection that is not silent,
    starts nothing: the vaults, clients and sent messages are unchanged.  A silent
    connection that claims an unknown id is forgotten by the manager, not closed. *)
Theorem VaultStarted_unknown k v w :
  ¬ is_Some (w.(nc).(connections_) !! k) ∨
    v.(process_id) ∉ GetProcessId <$> vaults w →
  ∃ e, VaultManager.HandleVaultStarted k v w =
    (Throw (maidsafe_error e), NewConnections.set_connections (delete k) w) ∧
    e = (if decide (is_Some (w.(nc).(connections_) !! k)) then no_such_element else connection_not_found).
Proof.
  intros Hno. unfold VaultManager.HandleVaultStarted. unfold mbind at 1, M_bind at 1.
  rewrite RemoveFromNewConnections_run. destruct (decide _) as [Ha|Ha]; [|by eexists].
  destruct Hno as [Hno|Hno]; [done|]. unfold mbind at 1, M_bind at 1.
  rewrite HandleVaultStarted_run.
  destruct (list_find _ _) as [[j c]|] eqn:Hf; [|by eexists]. destruct Hno.
  apply list_find_Some in Hf as (Hj & Hp & _). rewrite <- Hp. apply list_elem_of_fmap.
  exists c. split; [done|by eapply list_elem_of_lookup_2].
Qed.

(** Once the network is declared stable every connected client, validated or not, is
    told so, in the order of the maps, and from then on every [NetworkStableRequest]
    is answered; before that such a request is left unanswered. *)
Theorem network_stable_announced w bs :
  system_wf w → Serialise NetworkStableResponse_ = Ok bs →
  let clients := (entries w.(cc).(clients_)).*1 ++ (entries w.(cc).(unvalidated_clients_)).*1 in
  let w' := set_network_stable true (set_trace (λ t, t ++ ((λ c, Sent c bs) <$> clients)) w) in
  HandleSetNetworkAsStable w = (Ok tt, w') ∧
  (∀ k, is_Some (ClientConnections.table w.(cc) !! k) ↔ k ∈ clients) ∧
  (∀ k, k ≠ null_connection →
     HandleNetworkStableRequest k w' = (Ok tt, set_trace (λ t, t ++ [Sent k bs]) w')) ∧
  (w.(network_stable_) = false → ∀ k, HandleNetworkStableRequest k w = (Ok tt, w)).
Proof.
  intros Hw Hbs. cbv zeta.
  assert (Hin : ∀ k, is_Some (ClientConnections.table w.(cc) !! k) ↔
    k ∈ (entries w.(cc).(clients_)).*1 ++ (entries w.(cc).(unvalidated_clients_)).*1).
  { intros k. rewrite elem_of_app, !list_elem_of_fmap, ClientConnections.table_lookup. split.
    - destruct (clients_ (cc w) !! k) as [n|] eqn:E.
      + left. exists (k, n). split; [done|]. by apply elem_of_entries.
      + intros [x Hx]. destruct (unvalidated_clients_ (cc w) !! k) as [u|] eqn:Eu; [|done].
        right. exists (k, u). split; [done|]. by apply elem_of_entries.
    - intros [([k' x] & -> & H)|([k' x] & -> & H)]; apply elem_of_entries in H; cbn; rewrite H.
      + done.
      + by destruct (clients_ (cc w) !! k'). }
  assert (Hsends : ∀ l v, (∀ k, k ∈ l → k ≠ null_connection) →
    for_each (λ client, Send client NetworkStableResponse_) l v =
      (Ok tt, set_trace (λ t, t ++ ((λ c, Sent c bs) <$> l)) v)).
  { intros l. induction l as [|k l IH]; intros v Hl.
    - cbn. unfold mret, M_ret, set_trace. rewrite app_nil_r. by destruct v.
    - cbn [for_each]. assert (Hk : k ≠ null_connection) by (apply Hl; by left).
      rewrite (M_bind_run _ _ _ tt (set_trace (λ t, t ++ [Sent k bs]) v)).
      + rewrite IH by (intros k' ?; apply Hl; by right). f_equal. unfold set_trace. cbn.
        by rewrite <- app_assoc.
      + unfold Send, mbind, M_bind, lift_res. rewrite Hbs.
        by destruct (N.eqb_spec k null_connection). }
  split_and!; [|done| |].
  - unfold HandleSetNetworkAsStable, ClientConnections.GetAll.
    unfold mbind at 1, M_bind at 1, gets. cbv beta iota.
    rewrite (M_bind_run _ _ _ _ _ (Hsends _ w
      ltac:(intros k Hk; apply (client_not_null w); [done|by apply Hin]))).
    done.
  - intros k Hk. unfold HandleNetworkStableRequest, mbind, M_bind, gets. cbn [network_stable_ set_network_stable].
    unfold Send, mbind, M_bind, lift_res. rewrite Hbs. by destruct (N.eqb_spec k null_connection).
  - intros Hs k. unfold HandleNetworkStableRequest, mbind, M_bind, gets. by rewrite Hs.
Qed.

(** What a vault logs is passed on, word for word, to the connection validated under
    its owner's name, and nowhere else; a message of a connection that is not a
    vault's, or of a vault whose owner is not connected, is dropped. *)
Theorem log_goes_to_owner k m w :
  system_wf w → k ≠ null_connection →
  HandleLogMessage k m w = (Ok tt, w) ∨
  ∃ c cl bs, c ∈ vaults w ∧ vault_connection c = k ∧
    validated w !! cl = Some c.(info).(owner_name) ∧ Serialise (LogMessage_ m) = Ok bs ∧
    HandleLogMessage k m w = (Ok tt, set_trace (λ t, t ++ [Sent cl bs]) w).
Proof.
  intros Hw Hk. unfold HandleLogMessage, try_catch, mbind, M_bind.
  rewrite FindConnection_run. destruct (list_find _ _) as [[j c]|] eqn:Hf; [|by left].
  apply list_find_Some in Hf as (Hj & Hc & _).
  unfold ClientConnections.FindValidatedName, mbind, M_bind, gets.
  destruct (list_find _ _) as [[j' [cl n]]|] eqn:Hf'; [|by left].
  apply list_find_Some in Hf' as (Hj' & Hn & _). cbn in Hn. subst n. cbn [fst].
  unfold mret at 1, M_ret at 1. cbn [fst snd].
  assert (Hcl : validated w !! cl = Some (owner_name (info c)))
    by (apply elem_of_entries; by eapply list_elem_of_lookup_2).
  assert (Hnn : cl ≠ null_connection).
  { apply (client_not_null w); [done|]. rewrite ClientConnections.table_lookup.
    unfold validated in Hcl. by rewrite Hcl. }
  unfold Send, mbind, M_bind, lift_res.
  pose proof (Serialise_safe (LogMessage_ m) I) as Hs.
  destruct (Serialise _) as [bs|e|f] eqn:Hbs; [|by left|done].
  right.
  exists c, cl, bs. split_and!; [by eapply list_elem_of_lookup_2|done..|].
  unfold mret, M_ret. by destruct (N.eqb_spec cl null_connection).
Qed.
End reports.
