(* ===== verification/RpcHelper.v ===== *)
(** [rpc_helper.h]: the promise and timer behind each future the interfaces hand out,
    and [SetResponseCallback], which chains the requests that wait for the same kind
    of message.  Threads and timers are interleaved freely: a run is any
    sequence of [RpcEvent]s. *)
From S2P Require Export World.

(** ** [detail::PromiseAndTimer] *)
Section promise_and_timer.
Context {ResultType : Type}.

(** What a [std::promise] was given. *)
Inductive Outcome : Type :=
| Value (result : ResultType)
| Exception (e : exn).

(** A timer with one wait at most: none was started yet, it is pending, its handler
    is queued with the given result, or its handler has run. *)
Inductive TimerState : Set := timer_idle | timer_waiting | timer_ready (r : WaitResult) | timer_done.

(** [timeout]: the seconds after which a wait of the timer ends by itself. *)
Record PromiseAndTimer := mkPromiseAndTimer {
  promise : option Outcome;
  timeout : Z;
  timer_state : TimerState;
  once_flag : bool;
}.

(** [PromiseAndTimer(io_service, seconds)]; the default argument is [kRpcTimeout]. *)
Definition PromiseAndTimer_make (seconds : Z) : PromiseAndTimer := mkPromiseAndTimer None seconds timer_idle false.

(** [std::call_once(once_flag, [&] { this->promise.set_...(...); })] *)
Definition settle (o : Outcome) (p : PromiseAndTimer) : PromiseAndTimer :=
  if p.(once_flag) then p else mkPromiseAndTimer (Some o) p.(timeout) p.(timer_state) true.

Definition SetValue (result : ResultType) : PromiseAndTimer → PromiseAndTimer := settle (Value result).
Definition SetException (e : exn) : PromiseAndTimer → PromiseAndTimer := settle (Exception e).

Definition with_timer (t : TimerState) (p : PromiseAndTimer) : PromiseAndTimer :=
  mkPromiseAndTimer p.(promise) p.(timeout) t p.(once_flag).

(** [timer.cancel()]: a pending wait is aborted; a handler that is queued already stays
    queued with the result it has. *)
Definition cancel_wait (p : PromiseAndTimer) : PromiseAndTimer :=
  match p.(timer_state) with timer_waiting => with_timer (timer_ready wait_aborted) p | _ => p end.

(** [timer.async_wait(...)] *)
Definition start_wait (p : PromiseAndTimer) : PromiseAndTimer :=
  match p.(timer_state) with timer_idle => with_timer timer_waiting p | _ => p end.

(** The wait ends. *)
Definition wait_ends (r : WaitResult) (p : PromiseAndTimer) : PromiseAndTimer :=
  match p.(timer_state) with timer_waiting => with_timer (timer_ready r) p | _ => p end.

(** What the timers' handlers give the promise when the wait was not aborted. *)
Definition expiry (r : WaitResult) : exn :=
  match r with wait_failed => std_exception | _ => maidsafe_error timed_out end.

(** A request that nobody will set any more has been set. *)
Definition request_wf (p : PromiseAndTimer) : Prop :=
  p.(once_flag) = bool_decide (is_Some p.(promise)) ∧
  (p.(timer_state) = timer_done ∨ p.(timer_state) = timer_ready wait_aborted → is_Some p.(promise)).

Lemma settle_promise o p :
  request_wf p → (settle o p).(promise) = Some (default o p.(promise)).
Proof.
  intros [Hf _]. unfold settle. rewrite Hf.
  destruct (promise p) eqn:E; [rewrite bool_decide_eq_true_2 by done|rewrite bool_decide_eq_false_2 by by intros []]; done.
Qed.

Lemma settle_timer o p : (settle o p).(timer_state) = p.(timer_state).
Proof. unfold settle. by destruct (once_flag p). Qed.

(** The timeout stays what it was. *)
Lemma settle_timeout o p : (settle o p).(timeout) = p.(timeout).
Proof. unfold settle. by destruct (once_flag p). Qed.
Lemma cancel_timeout p : (cancel_wait p).(timeout) = p.(timeout).
Proof. unfold cancel_wait. by destruct (timer_state p). Qed.
Lemma start_wait_timeout p : (start_wait p).(timeout) = p.(timeout).
Proof. unfold start_wait. by destruct (timer_state p). Qed.
Lemma wait_ends_timeout r p : (wait_ends r p).(timeout) = p.(timeout).
Proof. unfold wait_ends. by destruct (timer_state p). Qed.

Lemma settle_wf o p : request_wf p → request_wf (settle o p).
Proof.
  intros H. pose proof H as [Hf Ht]. split.
  - unfold settle. destruct (once_flag p) eqn:E; [congruence|]. cbn. by rewrite bool_decide_eq_true_2.
  - intros _. by rewrite settle_promise.
Qed.

Lemma make_wf seconds : request_wf (PromiseAndTimer_make seconds).
Proof. split; cbn; [by rewrite bool_decide_eq_false_2 by by intros []|by intros [|]]. Qed.

Lemma with_timer_wf t p :
  request_wf p → (t = timer_done ∨ t = timer_ready wait_aborted → is_Some p.(promise)) →
  request_wf (with_timer t p).
Proof. by intros [??]. Qed.

Lemma cancel_promise p : (cancel_wait p).(promise) = p.(promise).
Proof. unfold cancel_wait. by destruct (timer_state p). Qed.

Lemma start_wait_promise p : (start_wait p).(promise) = p.(promise).
Proof. unfold start_wait. by destruct (timer_state p). Qed.

Lemma wait_ends_promise r p : (wait_ends r p).(promise) = p.(promise).
Proof. unfold wait_ends. by destruct (timer_state p). Qed.

Lemma cancel_wf p : request_wf p → is_Some p.(promise) → request_wf (cancel_wait p).
Proof. intros H Hs. unfold cancel_wait. destruct (timer_state p); try done. by apply with_timer_wf. Qed.

Lemma start_wait_wf p : request_wf p → request_wf (start_wait p).
Proof.
  intros H. unfold start_wait. destruct (timer_state p); try done. apply with_timer_wf; [done|].
  by intros [|].
Qed.

Lemma wait_ends_wf r p : r ≠ wait_aborted → request_wf p → request_wf (wait_ends r p).
Proof.
  intros Hr H. unfold wait_ends. destruct (timer_state p); try done. apply with_timer_wf; [done|].
  by intros [|[=]].
Qed.
End promise_and_timer.
Arguments Outcome : clear implicits.
Arguments PromiseAndTimer : clear implicits.

(** ** [SetResponseCallback] *)
Section set_response_callback.
Context {ResultType MessageType : Type} (GetValue : MessageType → Res ResultType).

(** A [std::function<void(MessageType&&)>]: empty, or the closure [SetResponseCallback]
    creates, which owns its request and a copy of the function it replaced. *)
Inductive Callback : Set :=
| null_callback
| response_callback (promise_and_timer : nat) (callback_copy : Callback).

(** The shared requests, the callback and whether the mutex still exists. *)
Record Rpc := mkRpc {
  requests : list (PromiseAndTimer ResultType);
  callback : Callback;
  mutex_alive : bool;
}.

Definition Rpc_make : Rpc := mkRpc [] null_callback true.

Definition set_callback c (s : Rpc) : Rpc := mkRpc s.(requests) c s.(mutex_alive).
Definition at_request (i : nat) f : M Rpc unit :=
  modify (λ s, mkRpc (alter f i s.(requests)) s.(callback) s.(mutex_alive)).

(** Up to the end of the locked block: the new request and the new callback. *)
Definition SetResponseCallback_register : M Rpc nat :=
  promise_and_timer ← gets (λ s, length s.(requests));
  modify (λ s, mkRpc (s.(requests) ++ [PromiseAndTimer_make kRpcTimeout])
                 (response_callback promise_and_timer s.(callback)) s.(mutex_alive));;
  mret promise_and_timer.

(** [promise_and_timer->timer.async_wait(...)] *)
Definition SetResponseCallback_wait (promise_and_timer : nat) : M Rpc unit :=
  at_request promise_and_timer start_wait.

(** The whole function; it returns the future of the request it created. *)
Definition SetResponseCallback : M Rpc nat :=
  promise_and_timer ← SetResponseCallback_register;
  SetResponseCallback_wait promise_and_timer;;
  mret promise_and_timer.

(** The body of the closure. *)
Fixpoint invoke (callback : Callback) (message : MessageType) : M Rpc unit :=
  match callback with
  | null_callback => mret tt
  | response_callback promise_and_timer callback_copy =>
      try_catch
        (result ← lift_res (GetValue message); at_request promise_and_timer (SetValue result))
        (λ e, at_request promise_and_timer (SetException e));;
      invoke callback_copy message;;
      at_request promise_and_timer cancel_wait
  end.

(** The handler of the timer. *)
Definition on_timer (promise_and_timer : nat) : M Rpc unit :=
  p ← gets (λ s, s.(requests) !! promise_and_timer);
  match p with
  | Some p =>
      match p.(timer_state) with
      | timer_ready r =>
          at_request promise_and_timer (with_timer timer_done);;
          if r is wait_aborted then mret tt
          else
            alive ← gets mutex_alive;
            if alive : bool then
              modify (set_callback null_callback);;
              at_request promise_and_timer (SetException (expiry r))
            else crash dangling_reference
      | _ => mret tt
      end
  | None => mret tt
  end.

(** What can happen, in any order: one of the two halves of a call of
    [SetResponseCallback], a message for the callback, the end of a wait, the
    handler of an ended wait. *)
Inductive RpcEvent : Type :=
| Register
| Wait (i : nat)
| Response (message : MessageType)
| Expires (i : nat) (failed : bool)
| RunHandler (i : nat).

Definition rpc_step (e : RpcEvent) : M Rpc unit :=
  match e with
  | Register => SetResponseCallback_register;; mret tt
  | Wait i => SetResponseCallback_wait i
  | Response m => c ← gets callback; invoke c m
  | Expires i failed => at_request i (wait_ends (if failed : bool then wait_failed else wait_done))
  | RunHandler i => on_timer i
  end.
End set_response_callback.
Arguments Rpc : clear implicits.
Arguments RpcEvent : clear implicits.

(** * What a future promises *)
Section rpc_theorems.
Context {ResultType MessageType : Type} (GetValue : MessageType → Res ResultType).
Implicit Types s : Rpc ResultType.

(** The requests a message reaches, newest first. *)
Fixpoint chain (c : Callback) : list nat :=
  match c with null_callback => [] | response_callback i c => i :: chain c end.

(** What a message gives the requests it reaches. *)
Definition outcome (m : MessageType) : Outcome ResultType :=
  match GetValue m with Ok v => Value v | Throw e => Exception e | Fault _ => Exception std_exception end.

Definition answered (o : Outcome ResultType) (p : PromiseAndTimer ResultType) :=
  cancel_wait (settle o p).

Record rpc_wf s : Prop := {
  rw_requests : Forall request_wf s.(requests);
  rw_chain : Forall (λ i, i < length s.(requests))%nat (chain s.(callback));
  rw_distinct : NoDup (chain s.(callback));
}.

(** [m] keeps the futures: those that were set keep what they have. *)
Definition keeps s s' : Prop :=
  (length s.(requests) ≤ length s'.(requests))%nat ∧
  ∀ i p o, s.(requests) !! i = Some p → p.(promise) = Some o →
    ∃ p', s'.(requests) !! i = Some p' ∧ p'.(promise) = Some o.

#[export] Instance keeps_preorder : PreOrder keeps.
Proof.
  split; [split; eauto|]. intros s s' s'' [Hl H] [Hl' H']. split; [lia|]. intros i p o Hp Ho.
  destruct (H i p o Hp Ho) as (p' & Hp' & Ho'). eauto.
Qed.

Lemma at_request_keeps i f s :
  (∀ p o, s.(requests) !! i = Some p → p.(promise) = Some o → (f p).(promise) = Some o) →
  keeps s (at_request i f s).2.
Proof.
  intros Hf. split; cbn; [by rewrite length_alter|]. intros j p o Hp Ho.
  destruct (decide (j = i)) as [->|Hn].
  - exists (f p). rewrite list_lookup_alter_eq, Hp. split; [done|]. by apply Hf.
  - exists p. by rewrite list_lookup_alter_ne by done.
Qed.

Lemma at_request_wf i f s :
  (∀ p, s.(requests) !! i = Some p → request_wf p → request_wf (f p)) →
  rpc_wf s → rpc_wf (at_request i f s).2.
Proof.
  intros Hf [Hr Hc Hd]. split; cbn; [|by rewrite length_alter|done].
  apply Forall_lookup. intros j p Hp. destruct (decide (j = i)) as [->|Hn].
  - rewrite list_lookup_alter_eq in Hp. destruct (requests s !! i) as [q|] eqn:E; [|done].
    injection Hp as <-. apply Hf; [done|]. by eapply Forall_lookup_1.
  - rewrite list_lookup_alter_ne in Hp by done. by eapply Forall_lookup_1.
Qed.

Lemma settle_keeps o i s : rpc_wf s → keeps s (at_request i (settle o) s).2.
Proof.
  intros Hw. apply at_request_keeps. intros p o' Hp Ho. rewrite settle_promise, Ho; [done|].
  eapply Forall_lookup_1; [apply (rw_requests _ Hw)|done].
Qed.

(** The message reaches exactly the requests of the chain. *)
Lemma invoke_run c m s :
  is_Fault (GetValue m) = false →
  ∃ s', invoke GetValue c m s = (Ok tt, s') ∧
    s'.(requests) = foldr (λ i, alter cancel_wait i)
      (foldl (λ l i, alter (settle (outcome m)) i l) s.(requests) (chain c)) (chain c) ∧
    s'.(callback) = s.(callback) ∧ s'.(mutex_alive) = s.(mutex_alive).
Proof.
  intros Hm. revert s. induction c as [|i c IH]; intros s; [by exists s|].
  assert (Hs : try_catch (result ← lift_res (GetValue m); at_request i (SetValue result))
      (λ e, at_request i (SetException e)) s = at_request i (settle (outcome m)) s).
  { unfold try_catch, outcome, mbind, M_bind, lift_res, at_request, modify, SetValue, SetException.
    by destruct (GetValue m). }
  cbn [invoke].
  rewrite (M_bind_run _ _ s tt (at_request i (settle (outcome m)) s).2) by (by rewrite Hs).
  destruct (IH (at_request i (settle (outcome m)) s).2) as (s' & E & Hr & Hc & Ha).
  rewrite (M_bind_run _ _ _ _ _ E). eexists. split; [done|]. cbn. by rewrite Hr, Hc, Ha.
Qed.

Lemma foldl_alter_lookup {A} (f : A → A) (ids : list nat) (l : list A) (j : nat) :
  NoDup ids → foldl (λ (l : list A) i, alter f i l) l ids !! j =
    if decide (j ∈ ids) then f <$> l !! j else l !! j.
Proof.
  intros Hn. revert l. induction Hn as [|i ids Hi Hn IH]; intros l; cbn.
  - by rewrite decide_False by apply not_elem_of_nil.
  - rewrite IH. destruct (decide (j = i)) as [->|Hj].
    + rewrite (decide_False (P:=i ∈ ids)), (decide_True (P:=i ∈ i :: ids)) by (by try left).
      by rewrite list_lookup_alter_eq.
    + rewrite list_lookup_alter_ne by done.
      destruct (decide (j ∈ ids)) as [H|H].
      * by rewrite (decide_True (P:=j ∈ i :: ids)) by by right.
      * rewrite (decide_False (P:=j ∈ i :: ids)); [done|]. by intros [?|?]%elem_of_cons.
Qed.

Lemma foldr_alter_lookup {A} (f : A → A) (ids : list nat) (l : list A) (j : nat) :
  NoDup ids → (foldr (λ i, alter f i) l ids : list A) !! j =
    if decide (j ∈ ids) then f <$> l !! j else l !! j.
Proof.
  intros Hn. induction Hn as [|i ids Hi Hn IH]; cbn.
  - by rewrite decide_False by apply not_elem_of_nil.
  - destruct (decide (j = i)) as [->|Hj].
    + rewrite list_lookup_alter_eq, IH. by rewrite decide_False, (decide_True (P:=i ∈ i :: ids)) by (by try left).
    + rewrite list_lookup_alter_ne, IH by done.
      destruct (decide (j ∈ ids)) as [H|H].
      * by rewrite (decide_True (P:=j ∈ i :: ids)) by by right.
      * rewrite (decide_False (P:=j ∈ i :: ids)); [done|]. by intros [?|?]%elem_of_cons.
Qed.

Lemma foldl_alter_length {A} (f : A → A) (ids : list nat) (l : list A) :
  length (foldl (λ (l : list A) i, alter f i l) l ids) = length l.
Proof. revert l. induction ids as [|i ids IH]; intros l; cbn; [done|]. by rewrite IH, length_alter. Qed.

Lemma foldr_alter_length {A} (f : A → A) (ids : list nat) (l : list A) :
  length (foldr (λ i, alter f i) l ids : list A) = length l.
Proof. induction ids as [|i ids IH]; cbn; [done|]. by rewrite length_alter, IH. Qed.

Lemma invoke_lookup c m s :
  is_Fault (GetValue m) = false → NoDup (chain c) →
  ∃ s', invoke GetValue c m s = (Ok tt, s') ∧
    s'.(callback) = s.(callback) ∧ s'.(mutex_alive) = s.(mutex_alive) ∧
    length s'.(requests) = length s.(requests) ∧
    (∀ j, s'.(requests) !! j =
      if decide (j ∈ chain c) then answered (outcome m) <$> s.(requests) !! j
      else s.(requests) !! j).
Proof.
  intros Hm Hn. destruct (invoke_run c m s Hm) as (s' & E & Hr & Hc & Ha).
  exists s'. split_and!; [done..| |].
  { by rewrite Hr, foldr_alter_length, foldl_alter_length. }
  intros j. rewrite Hr, foldr_alter_lookup, foldl_alter_lookup by done.
  destruct (decide (j ∈ chain c)); [|done]. by destruct (requests s !! j).
Qed.

Lemma answered_wf o p : request_wf p → request_wf (answered o p).
Proof. intros H. apply cancel_wf; [by apply settle_wf|]. by rewrite settle_promise. Qed.

Lemma answered_promise o p :
  request_wf p → (answered o p).(promise) = Some (default o p.(promise)).
Proof. intros H. unfold answered. by rewrite cancel_promise, settle_promise. Qed.

Definition rpc_event_ok (e : RpcEvent MessageType) : Prop :=
  if e is Response m then is_Fault (GetValue m) = false else True.

Lemma register_facts s s' :
  SetResponseCallback_register s = (Ok (length s.(requests)), s') → rpc_wf s → rpc_wf s' ∧ keeps s s'.
Proof.
  unfold SetResponseCallback_register. mrun. intros E [Hr Hc Hd]. injection E as <-. split; [split|]; cbn.
  - apply Forall_app. split; [done|]. apply Forall_singleton, make_wf.
  - rewrite length_app. constructor; [cbn; lia|]. eapply Forall_impl; [done|]. cbn. lia.
  - constructor; [|done]. intros H. rewrite Forall_forall in Hc. specialize (Hc _ H). lia.
  - split; cbn; [rewrite length_app; lia|]. intros i p o Hp Ho. exists p. split; [|done].
    by apply lookup_app_l_Some.
Qed.

Lemma response_facts m s :
  is_Fault (GetValue m) = false → rpc_wf s →
  ∃ s', rpc_step GetValue (Response m) s = (Ok tt, s') ∧ rpc_wf s' ∧ keeps s s' ∧
    s'.(mutex_alive) = s.(mutex_alive).
Proof.
  intros Hm [Hr Hc Hd]. destruct (invoke_lookup s.(callback) m s Hm Hd) as (s' & E & Hc' & Ha & Hl & Hj).
  rewrite Forall_lookup in Hr. exists s'. split_and!; [done|split|split; [lia|]|done].
  - apply Forall_lookup. intros j p. rewrite Hj. destruct (decide (j ∈ chain (callback s))); [|apply Hr].
    destruct (requests s !! j) as [q|] eqn:Eq; [|done]. intros [= <-]. by apply answered_wf, (Hr j).
  - by rewrite Hc', Hl.
  - by rewrite Hc'.
  - intros j p o Hp Ho. rewrite Hj, Hp. destruct (decide (j ∈ chain (callback s))).
    + eexists. split; [done|]. by rewrite answered_promise, Ho by by apply (Hr j).
    + by exists p.
Qed.

Lemma expiry_run i p r s :
  s.(requests) !! i = Some p → p.(timer_state) = timer_ready r → r ≠ wait_aborted →
  s.(mutex_alive) = true →
  on_timer i s = (Ok tt, set_callback null_callback
    (at_request i (λ p, settle (Exception (expiry r)) (with_timer timer_done p)) s).2).
Proof.
  intros Hp Ht Hr Ha. unfold on_timer. mrun. rewrite Hp, Ht.
  unfold at_request, set_callback, modify, SetException.
  destruct r; [|done|]; cbn; rewrite Ha; cbn; by rewrite list_alter_alter.
Qed.

Lemma on_timer_facts i s :
  rpc_wf s → s.(mutex_alive) = true →
  ∃ s', on_timer i s = (Ok tt, s') ∧ rpc_wf s' ∧ keeps s s' ∧ s'.(mutex_alive) = true.
Proof.
  intros Hw Ha. destruct (s.(requests) !! i) as [p|] eqn:Hp;
    [|by exists s; unfold on_timer; mrun; rewrite Hp].
  assert (Hpw : request_wf p) by (eapply Forall_lookup_1; [apply (rw_requests _ Hw)|done]).
  destruct (timer_state p) as [| |r|] eqn:Ht;
    [by exists s; unfold on_timer; mrun; rewrite Hp, Ht..| |by exists s; unfold on_timer; mrun; rewrite Hp, Ht].
  assert (r = wait_aborted ∨ r ≠ wait_aborted) as [->|Hr] by (destruct r; auto).
  - exists (at_request i (with_timer timer_done) s).2. split; [|split_and!; [| |done]].
    + unfold on_timer. mrun. by rewrite Hp, Ht.
    + apply at_request_wf; [|done]. intros q Hq Hqw. assert (q = p) as -> by congruence.
      apply with_timer_wf; [done|]. intros _. apply Hpw. by right.
    + apply at_request_keeps. by intros q o Hq Ho.
  - rewrite (expiry_run i p r) by done. eexists. split; [done|].
    set (f := λ p : PromiseAndTimer ResultType, settle (Exception (expiry r)) (with_timer timer_done p)).
    assert (Hf : request_wf (f p) ∧ ∀ o, promise p = Some o → promise (f p) = Some o).
    { pose proof Hpw as [Hfl _]. unfold f, settle, request_wf. cbn. destruct (once_flag p) eqn:Ef; cbn.
      - split; [|done]. split; [congruence|]. intros _. by eapply bool_decide_eq_true_1.
      - split; [by rewrite bool_decide_eq_true_2|]. intros o Ho. rewrite Ho in Hfl.
        by rewrite bool_decide_eq_true_2 in Hfl. }
    split_and!; [|apply at_request_keeps; intros q o Hq; assert (q = p) as -> by congruence; by apply Hf|done].
    destruct (at_request_wf i f s) as [Hr' _ _]; [|done|].
    { intros q Hq _. assert (q = p) as -> by congruence. by apply Hf. }
    split; [done|by constructor..].
Qed.

Lemma rpc_step_facts e s :
  rpc_event_ok e → rpc_wf s → s.(mutex_alive) = true →
  ∃ s', rpc_step GetValue e s = (Ok tt, s') ∧ rpc_wf s' ∧ keeps s s' ∧ s'.(mutex_alive) = true.
Proof.
  intros He Hw Ha. destruct e as [|i|m|i failed|i]; cbn in He.
  - destruct (register_facts s _ eq_refl Hw) as [Hw' Hk]. eexists. by split.
  - exists (at_request i start_wait s).2. split_and!; [done| | |done].
    + apply at_request_wf; [|done]. intros p _. apply start_wait_wf.
    + apply at_request_keeps. intros p o _ Ho. by rewrite start_wait_promise.
  - destruct (response_facts m s He Hw) as (s' & ? & ? & ? & ?). exists s'. split_and!; [done..|congruence].
  - exists (at_request i (wait_ends (if failed : bool then wait_failed else wait_done)) s).2.
    split_and!; [done| | |done].
    + apply at_request_wf; [|done]. intros p _. apply wait_ends_wf. by destruct failed.
    + apply at_request_keeps. intros p o _ Ho. by rewrite wait_ends_promise.
  - by apply on_timer_facts.
Qed.

Lemma rpc_run_facts evs s :
  Forall rpc_event_ok evs → rpc_wf s → s.(mutex_alive) = true →
  ∃ s', for_each (rpc_step GetValue) evs s = (Ok tt, s') ∧ rpc_wf s' ∧ keeps s s' ∧
    s'.(mutex_alive) = true.
Proof.
  intros He. revert s. induction He as [|e evs He _ IH]; intros s Hw Ha.
  - exists s. by split_and!.
  - destruct (rpc_step_facts e s He Hw Ha) as (s1 & E1 & Hw1 & Hk1 & Ha1).
    destruct (IH s1 Hw1 Ha1) as (s2 & E2 & Hw2 & Hk2 & Ha2).
    exists s2. cbn [for_each]. rewrite (M_bind_run _ _ _ _ _ E1). split_and!; [done..| |done]. by trans s1.
Qed.

Lemma make_rpc_wf : rpc_wf Rpc_make.
Proof. split; cbn; constructor. Qed.
End rpc_theorems.

(** ** The guarantees *)
Section rpc_guarantees.
Context {ResultType MessageType : Type} (GetValue : MessageType → Res ResultType).

(** The requests a message would reach: those made since a wait last expired. *)
Definition reached (s : Rpc ResultType) : list nat := chain s.(callback).

(** How a request ends when nothing but its own timer acts on it any more. *)
Definition last_resort (p : PromiseAndTimer ResultType) : Outcome ResultType :=
  default (Exception (if p.(timer_state) is timer_ready r then expiry r else maidsafe_error timed_out))
    p.(promise).

(** The wait of a request that is not set ends with a result that the handler acts on. *)
Lemma deadline (p : PromiseAndTimer ResultType) :
  request_wf p → p.(promise) = None → p.(timer_state) ≠ timer_idle →
  ∃ r, (wait_ends wait_done p).(timer_state) = timer_ready r ∧ r ≠ wait_aborted ∧
    last_resort p = Exception (expiry r).
Proof.
  intros [_ Hp] Ho Hi. unfold last_resort, wait_ends. rewrite Ho in Hp |- *.
  destruct (timer_state p) as [| |r|] eqn:Et; cbn; [done| | |].
  - by exists wait_done.
  - rewrite Et. exists r. split_and!; [done| |done]. intros ->. destruct Hp as [? [=]]. by right.
  - destruct Hp as [? [=]]. by left.
Qed.

(** Whatever has happened, the timer of a request sets its promise. *)
Lemma own_timer_settles s i p :
  rpc_wf s → s.(mutex_alive) = true → s.(requests) !! i = Some p →
  ∃ s' p', for_each (rpc_step GetValue) [Wait i; Expires i false; RunHandler i] s = (Ok tt, s') ∧
    s'.(requests) !! i = Some p' ∧ p'.(promise) = Some (last_resort p).
Proof.
  intros Hw Ha Hp.
  set (q := wait_ends wait_done (start_wait p)).
  set (s' := mkRpc (alter (wait_ends wait_done) i (alter start_wait i s.(requests)))
                s.(callback) s.(mutex_alive)).
  assert (Hq : s'.(requests) !! i = Some q).
  { cbn. by rewrite list_lookup_alter_eq, list_lookup_alter_eq, Hp. }
  assert (Hpq : promise q = promise p) by (unfold q; by rewrite wait_ends_promise, start_wait_promise).
  assert (Hpw : request_wf p) by (eapply Forall_lookup_1; [apply (rw_requests _ Hw)|done]).
  assert (Hrun : for_each (rpc_step GetValue) [Wait i; Expires i false; RunHandler i] s =
                 (on_timer i;; mret tt) s') by done.
  rewrite Hrun. clear Hrun.
  destruct (on_timer_facts i s') as (s'' & E3 & Hw' & [_ Hk3] & _).
  { pose proof Hw as [? ? ?]. split; cbn; [|by rewrite !length_alter|done].
    apply Forall_alter; [apply Forall_alter; [done|]|].
    - intros; by apply start_wait_wf.
    - intros; by apply wait_ends_wf. }
  { done. }
  rewrite (M_bind_run _ _ _ _ _ E3). exists s''.
  destruct (promise p) as [o|] eqn:Ho.
  { destruct (Hk3 i q o Hq) as (p' & Hp' & Hpo); [congruence|]. exists p'. split_and!; [done..|].
    unfold last_resort. by rewrite Ho, Hpo. }
  assert (Hsw : request_wf (start_wait p)) by by apply start_wait_wf.
  destruct (deadline (start_wait p)) as (r & Ht & Hr & Hlast); [done|by rewrite start_wait_promise| |].
  { unfold start_wait. by destruct (timer_state p) eqn:Et; cbn; rewrite ?Et. }
  fold q in Ht. assert (last_resort p = Exception (expiry r)) as ->.
  { rewrite <- Hlast. unfold last_resort. rewrite start_wait_promise. unfold start_wait.
    by destruct (timer_state p) eqn:Et; cbn; rewrite ?Et. }
  assert (Hqf : once_flag q = false).
  { assert (request_wf q) as [Hf _] by (apply wait_ends_wf; [done|]; by apply start_wait_wf).
    by rewrite Hf, Hpq, bool_decide_eq_false_2 by by intros []. }
  rewrite (expiry_run i q r) in E3 by done. injection E3 as <-.
  eexists. split_and!; [done| |].
  { etransitivity; [apply list_lookup_alter_eq|]. cbn in Hq. by rewrite Hq. }
  unfold settle. cbn. by rewrite Hqf.
Qed.

(** C17: however the calls of [SetResponseCallback], the messages and the timers
    interleave, no promise is set twice — a future that has a value or an exception
    keeps it — and nobody waits for ever: whatever has happened, the timer of a
    request sets its promise, to the [timed_out] error if nothing else did. *)
Theorem futures_are_set_once_and_always evs1 evs2 :
  Forall (rpc_event_ok GetValue) (evs1 ++ evs2) →
  ∃ s1 s2, for_each (rpc_step GetValue) evs1 Rpc_make = (Ok tt, s1) ∧
    for_each (rpc_step GetValue) evs2 s1 = (Ok tt, s2) ∧
    (∀ i p o, s1.(requests) !! i = Some p → p.(promise) = Some o →
      ∃ p', s2.(requests) !! i = Some p' ∧ p'.(promise) = Some o) ∧
    (∀ i p, s2.(requests) !! i = Some p →
      ∃ s3 p', for_each (rpc_step GetValue) [Wait i; Expires i false; RunHandler i] s2 = (Ok tt, s3) ∧
        s3.(requests) !! i = Some p' ∧ p'.(promise) = Some (last_resort p)).
Proof.
  intros [H1 H2]%Forall_app.
  destruct (rpc_run_facts GetValue evs1 Rpc_make H1 make_rpc_wf eq_refl) as (s1 & E1 & Hw1 & _ & Ha1).
  destruct (rpc_run_facts GetValue evs2 s1 H2 Hw1 Ha1) as (s2 & E2 & Hw2 & [_ Hk] & Ha2).
  exists s1, s2. split_and!; [done..|exact Hk|]. intros i p Hp. by apply own_timer_settles.
Qed.

(** C18: a message answers, with what [GetValue] makes of it, every request made since a
    wait last expired, and no other; but once the wait of one request expires
    the callback is dropped, and no message reaches the requests made before,
    which can only time out. *)
Theorem response_reaches_unexpired evs s m :
  Forall (rpc_event_ok GetValue) evs → for_each (rpc_step GetValue) evs Rpc_make = (Ok tt, s) →
  is_Fault (GetValue m) = false →
  (∃ s', rpc_step GetValue (Response m) s = (Ok tt, s') ∧ reached s' = reached s ∧
    ∀ j p, s.(requests) !! j = Some p → ∃ p', s'.(requests) !! j = Some p' ∧
      p'.(promise) = if decide (j ∈ reached s) then Some (default (outcome GetValue m) p.(promise))
                     else p.(promise)) ∧
  (∀ s', SetResponseCallback_register s = (Ok (length s.(requests)), s') →
    reached s' = length s.(requests) :: reached s) ∧
  (∀ i p r, s.(requests) !! i = Some p → p.(timer_state) = timer_ready r → r ≠ wait_aborted →
    ∃ s', rpc_step GetValue (RunHandler i) s = (Ok tt, s') ∧ reached s' = [] ∧
      rpc_step GetValue (Response m) s' = (Ok tt, s')).
Proof.
  intros He Hs Hm.
  destruct (rpc_run_facts GetValue evs Rpc_make He make_rpc_wf eq_refl) as (s0 & E & Hw & _ & Ha).
  rewrite Hs in E. injection E as <-. pose proof Hw as [Hr Hc Hd]. split_and!.
  - destruct (invoke_lookup GetValue s.(callback) m s Hm Hd) as (s' & E & Hc' & Ha' & Hl & Hj).
    exists s'. split_and!; [done|by unfold reached; rewrite Hc'|]. intros j p Hp. specialize (Hj j).
    rewrite Hp in Hj. unfold reached. destruct (decide (j ∈ chain (callback s))); [|by exists p].
    eexists. split; [done|]. apply answered_promise. by eapply Forall_lookup_1.
  - intros s'. unfold SetResponseCallback_register. mrun. by intros [= <-].
  - intros i p r Hp Ht Hra. eexists. split_and!; [by apply (expiry_run i p r)|done|done].
Qed.
End rpc_guarantees.
