(* ===== verification/ClientInterface.v ===== *)
(** [client_interface.h] and [client_interface.cc]: the library a client process links.
    Its calls (on the client's thread) and its handlers (on the thread of its
    [io_service]) are interleaved freely: a run is any sequence of [ClientEvent]s. *)
From S2P Require Export RpcHelper Utils.
From S2P Require Import Demo.

Section client_interface.
Context `{P : Platform} `{B : Build} `{A : !Archives}.

(** [VaultRequest]: the shared promise and timer, and the label its timer captured. *)
Record VaultRequest := mkVaultRequest {
  vr_label : NonEmptyString;
  vr_request : PromiseAndTimer PmidAndSigner;
}.

(** [class ClientInterface].  [base] is what the process has besides the object: the
    machine, the messages sent and the globals of [utils.cc].  [vault_requests] is
    the store the [std::shared_ptr<VaultRequest>]s point into. *)
Record ClientInterface := mkClientInterface {
  base : World;
  kMaid_ : Maid;
  on_challenge_ : Rpc PlainText;
  network_stable_set : bool;
  network_stable_future : bool;
  network_stable_flag_ : bool;
  vault_requests : list VaultRequest;
  ongoing_vault_requests_ : gmap NonEmptyString nat;
  ci_tcp_connection_ : ConnectionPtr;
}.
Abbreviation C := ClientInterface.

Definition set_base w (c : C) : C :=
  mkClientInterface w c.(kMaid_) c.(on_challenge_) c.(network_stable_set) c.(network_stable_future)
    c.(network_stable_flag_) c.(vault_requests) c.(ongoing_vault_requests_) c.(ci_tcp_connection_).
Definition set_on_challenge r (c : C) : C :=
  mkClientInterface c.(base) c.(kMaid_) r c.(network_stable_set) c.(network_stable_future)
    c.(network_stable_flag_) c.(vault_requests) c.(ongoing_vault_requests_) c.(ci_tcp_connection_).
Definition set_stable s f o (c : C) : C :=
  mkClientInterface c.(base) c.(kMaid_) c.(on_challenge_) s f o
    c.(vault_requests) c.(ongoing_vault_requests_) c.(ci_tcp_connection_).
Definition set_requests f g (c : C) : C :=
  mkClientInterface c.(base) c.(kMaid_) c.(on_challenge_) c.(network_stable_set)
    c.(network_stable_future) c.(network_stable_flag_) (f c.(vault_requests))
    (g c.(ongoing_vault_requests_)) c.(ci_tcp_connection_).
Definition set_ci_connection k (c : C) : C :=
  mkClientInterface c.(base) c.(kMaid_) c.(on_challenge_) c.(network_stable_set)
    c.(network_stable_future) c.(network_stable_flag_) c.(vault_requests)
    c.(ongoing_vault_requests_) k.

Definition in_base {T} (m : M World T) : M C T := zoom base set_base m.
Definition in_challenges {T} (m : M (Rpc PlainText) T) : M C T :=
  zoom on_challenge_ set_on_challenge m.

(** [Send(tcp_connection_, message)] *)
Definition ci_Send (message : Message) : M C unit :=
  connection ← gets ci_tcp_connection_; in_base (Send connection message).

(** ** Connecting *)

(** The loop of [ConnectToVaultManager]; [attempts] is an [unsigned], [port] a
    [uint16_t].  The fuel does not run out ([connect_loop_run]). *)
Fixpoint connect_loop (fuel : nat) (attempts port : Z) : M World ConnectionPtr :=
  match fuel with
  | O => crash assert_failed
  | S fuel =>
      if (attempts <=? kMaxRangeAboveDefaultPort) && (port <=? 2 ^ 16 - 1) then
        try_catch (os_call (tcp_connect port))
          (λ _, connect_loop fuel ((attempts + 1) mod 2 ^ 32) (to_u16 (port + 1)))
      else raise failed_to_connect
  end.

(** [std::shared_ptr<tcp::Connection> ConnectToVaultManager()] *)
Definition ConnectToVaultManager : M World ConnectionPtr :=
  initial_port ← GetInitialListeningPort;
  connect_loop (Z.to_nat (kMaxRangeAboveDefaultPort + 2)) 0 initial_port.

(** The object before its constructor. *)
Definition ClientInterface_fields (maid : Maid) (w : World) : C :=
  mkClientInterface w maid Rpc_make false false false [] ∅ null_connection.

(** [ClientInterface(const passport::Maid&)] up to the [get()] that blocks until the
    challenge arrives: it gives the request the constructor waits for.  An exception
    destroys [connection_closer_], which exists once there is a connection. *)
Definition ClientInterface_begin : M C nat :=
  connection ← in_base ConnectToVaultManager;
  modify (set_ci_connection connection);;
  on_scope_exit (in_base (Close connection))
    (ci_Send ValidateConnectionRequest_;; in_challenges SetResponseCallback).

(** The rest of it, when [get()] returns; [false] while it still blocks. *)
Definition ClientInterface_resume (request : nat) : M C bool :=
  connection ← gets ci_tcp_connection_;
  p ← gets (λ c, c.(on_challenge_).(requests) !! request ≫= promise);
  match p with
  | None => mret false
  | Some result =>
      on_scope_exit (in_base (Close connection))
        (match result with
         | Exception e => throw e
         | Value challenge =>
             maid ← gets kMaid_;
             ci_Send (ChallengeResponse_ (ChallengeResponse_make (PublicMaid_of_Maid maid)
                        (Sign challenge (Maid_private_key maid))));;
             mret true
         end)
  end.

(** ** Requests for vaults *)

Definition at_vault_request (i : nat) (f : PromiseAndTimer PmidAndSigner → PromiseAndTimer PmidAndSigner) :
  M C unit :=
  modify (set_requests (alter (λ r, mkVaultRequest r.(vr_label) (f r.(vr_request))) i) id).

(** [AddVaultRequest(const NonEmptyString&)]: the request with its timer of 30 seconds, and its
    insertion under the label; [std::map::insert] keeps a member that is there.  The
    result is the future. *)
Definition AddVaultRequest (label : NonEmptyString) : M C nat :=
  request ← gets (λ c, length c.(vault_requests));
  modify (set_requests (λ l, l ++ [mkVaultRequest label (start_wait (PromiseAndTimer_make 30))]) id);;
  modify (set_requests id (λ m, if m !! label is Some _ then m else <[label := request]> m));;
  mret request.

(** The handler of the request's timer. *)
Definition on_vault_request_timer (request : nat) : M C unit :=
  r ← gets (λ c, c.(vault_requests) !! request);
  match r with
  | Some r =>
      match r.(vr_request).(timer_state) with
      | timer_ready result =>
          at_vault_request request (with_timer timer_done);;
          if result is wait_aborted then mret tt
          else
            at_vault_request request (SetException (expiry result));;
            modify (set_requests id (delete r.(vr_label)))
      | _ => mret tt
      end
  | None => mret tt
  end.

(** [TakeOwnership(label, vault_dir, max_disk_usage)] *)
Definition TakeOwnership (label : NonEmptyString) (vault_dir : Path) (max_disk_usage : Z) : M C nat :=
  ci_Send (TakeOwnershipRequest_ (mkTakeOwnershipRequest label vault_dir max_disk_usage));;
  AddVaultRequest label.

(** The overloads of [StartVault]: the members each sets on the request. *)
Definition start_vault (vault_dir : Path) (max_disk_usage : Z)
    (members : StartVaultRequest → StartVaultRequest) : M C nat :=
  label ← in_base GenerateLabel;
  let start_vault_request := members (StartVaultRequest_make label vault_dir max_disk_usage) in
  ci_Send (StartVaultRequest_ (StartVaultRequest_move start_vault_request).1);;
  AddVaultRequest label.

Definition with_vlog (vlog : string) (host : bool) (index : option Z) (q : StartVaultRequest) :
  StartVaultRequest :=
  mkStartVaultRequest q.(svr_vault_label) q.(svr_vault_dir)
    (if USE_VLOGGING then vlog else q.(svr_vlog_session_id))
    (if USE_VLOGGING && TESTING then host else q.(svr_send_hostname_to_visualiser_server))
    (if TESTING then index else q.(svr_pmid_list_index)) q.(svr_max_disk_usage).

Definition StartVault (vault_dir : Path) (max_disk_usage : Z) (vlog_session_id : string) : M C nat :=
  start_vault vault_dir max_disk_usage (with_vlog vlog_session_id false None).
Definition StartVault_hostname (vault_dir : Path) (max_disk_usage : Z) (vlog_session_id : string)
    (send_hostname_to_visualiser_server : bool) : M C nat :=
  start_vault vault_dir max_disk_usage
    (with_vlog vlog_session_id send_hostname_to_visualiser_server None).
Definition StartVault_pmid (vault_dir : Path) (max_disk_usage : Z) (vlog_session_id : string)
    (send_hostname_to_visualiser_server : bool) (pmid_list_index : Z) : M C nat :=
  start_vault vault_dir max_disk_usage
    (with_vlog vlog_session_id send_hostname_to_visualiser_server (Some pmid_list_index)).

(** [MarkNetworkAsStable()] and [WaitForStableNetwork()]: [get_future] throws when it was
    called before. *)
Definition MarkNetworkAsStable : M C unit := ci_Send SetNetworkAsStable_.
Definition WaitForStableNetwork : M C unit :=
  ci_Send NetworkStableRequest_;;
  taken ← gets network_stable_future;
  if taken : bool then throw std_exception
  else modify (λ c, set_stable c.(network_stable_set) true c.(network_stable_flag_) c).

(** ** Messages *)

(** [HandleVaultRunningResponse(VaultRunningResponse&&)] *)
Definition HandleVaultRunningResponse (r : VaultRunningResponse) : M C unit :=
  result ← (match r.(vrr_vault_keys) with
            | Some keys =>
                match keys.(vk_pmid_and_signer) with
                | Some p => mret (Value p)
                | None => crash null_deref
                end
            | None =>
                match r.(vrr_error) with
                | Some error => mret (Exception (maidsafe_error error))
                | None => raise invalid_argument
                end
            end);
  itr ← gets (λ c, c.(ongoing_vault_requests_) !! r.(vrr_vault_label));
  match itr with
  | Some request =>
      at_vault_request request (settle result);;
      at_vault_request request cancel_wait;;
      modify (set_requests id (delete r.(vrr_vault_label)))
  | None => mret tt
  end.

(** [HandleNetworkStableResponse()] *)
Definition HandleNetworkStableResponse : M C unit :=
  called ← gets network_stable_flag_;
  if called : bool then mret tt
  else modify (λ c, set_stable true c.(network_stable_future) true c).

(** [InvokeCallBack(Challenge&&, std::function<void(Challenge&&)>&)] *)
Definition InvokeCallBack (challenge : Challenge) : M C unit :=
  in_challenges (c ← gets callback;
    if c is null_callback then mret tt else invoke GetValue_Challenge c challenge).

(** [HandleReceivedMessage(tcp::Message&&)] *)
Definition ci_HandleReceivedMessage (message : bytes) : M C unit :=
  try_ ('(tag, body) ← lift_res (ParseTag message);
        match tag with
        | kChallenge => m ← lift_res (Parse Challenge_codec body); InvokeCallBack m
        | kVaultRunningResponse =>
            m ← lift_res (Parse VaultRunningResponse_codec body); HandleVaultRunningResponse m
        | kNetworkStableResponse => if TESTING then HandleNetworkStableResponse else mret tt
        | kLogMessage => lift_res (Parse LogMessage_codec body);; mret tt
        | _ => mret tt
        end)
  catch _ ⇒ mret tt.

(** [~ClientInterface()] *)
Definition ClientInterface_destroy : M C unit :=
  (if TESTING then HandleNetworkStableResponse else mret tt);;
  connection ← gets ci_tcp_connection_;
  in_base (Close connection).

(** What can happen once the constructor has reached its [get()], in any order: the
    parts of the calls of the client's thread, a message, the end of a wait or
    its handler for the challenge and for a request. *)
Inductive ClientEvent : Type :=
| Resume (request : nat)
| Sends (message : Message)
| Adds (label : NonEmptyString)
| Receives (message : bytes)
| ChallengeWaitEnds (i : nat) (failed : bool)
| ChallengeTimerRuns (i : nat)
| VaultWaitEnds (i : nat) (failed : bool)
| VaultTimerRuns (i : nat).

Definition client_step (e : ClientEvent) : M C unit :=
  match e with
  | Resume i => ClientInterface_resume i;; mret tt
  | Sends m => ci_Send m
  | Adds l => AddVaultRequest l;; mret tt
  | Receives bs => ci_HandleReceivedMessage bs
  | ChallengeWaitEnds i failed => in_challenges (rpc_step GetValue_Challenge (Expires i failed))
  | ChallengeTimerRuns i => in_challenges (on_timer i)
  | VaultWaitEnds i failed =>
      at_vault_request i (wait_ends (if failed : bool then wait_failed else wait_done))
  | VaultTimerRuns i => on_vault_request_timer i
  end.
End client_interface.

(** * Connecting *)
Section connecting.
Context `{P : Platform} `{B : Build}.

(** Trying ports one after the other. *)
Fixpoint first_connection (ports : list Z) (o : OS) : option ConnectionPtr * OS :=
  match ports with
  | [] => (None, o)
  | port :: ports =>
      match tcp_connect port o with
      | (Normally c, o') => (Some c, o')
      | (Throws _, o') => first_connection ports o'
      end
  end.

(** [n] ports from [port] on, as [++port] of a [uint16_t] gives them. *)
Definition ports_from (port : Z) (n : nat) : list Z := (λ i, to_u16 (port + Z.of_nat i)) <$> seq 0 n.

Lemma ports_from_S port n :
  0 ≤ port < 2 ^ 16 → ports_from port (S n) = port :: ports_from (to_u16 (port + 1)) n.
Proof.
  intros Hp. unfold ports_from. cbn [seq fmap list_fmap].
  rewrite Z.add_0_r. unfold to_u16 at 1. rewrite Z.mod_small by done. f_equal.
  rewrite <- fmap_S_seq, <- list_fmap_compose. apply list_fmap_ext. intros _ i _. cbn -[Z.pow].
  unfold to_u16. rewrite Zplus_mod_idemp_l. f_equal. lia.
Qed.

(** The loop tries each of the [n] ports that are left. *)
Lemma connect_loop_run n fuel attempts port w :
  0 ≤ attempts → attempts + Z.of_nat n = kMaxRangeAboveDefaultPort + 1 →
  kMaxRangeAboveDefaultPort < 2 ^ 32 - 1 → 0 ≤ port < 2 ^ 16 → (n < fuel)%nat →
  connect_loop fuel attempts port w =
    (let '(r, o) := first_connection (ports_from port n) w.(os) in
     (match r with Some c => Ok c | None => Throw (maidsafe_error failed_to_connect) end,
      set_os (λ _, o) w)).
Proof.
  revert fuel attempts port w. induction n as [|n IH]; intros fuel attempts port w Ha Hn Hk Hp Hf;
    (destruct fuel as [|fuel]; [lia|]); cbn [connect_loop].
  - destruct (Z.leb_spec attempts kMaxRangeAboveDefaultPort); [lia|]. by destruct w.
  - destruct (Z.leb_spec attempts kMaxRangeAboveDefaultPort); [|lia].
    destruct (Z.leb_spec port (2 ^ 16 - 1)); [|lia]. cbn [andb].
    rewrite ports_from_S by done. cbn [first_connection].
    unfold try_catch, os_call. destruct (tcp_connect port (os w)) as [[c|e] o']; [done|].
    cbn [of_lib]. rewrite Z.mod_small by lia.
    rewrite IH; [|lia|lia|done|apply to_u16_range|lia].
    change (os (set_os (λ _, o') w)) with o'. by destruct (first_connection _ o') as [[c|] o''].
Qed.

(** C35: connecting tries the initial port and the [kMaxRangeAboveDefaultPort] after it,
    each once and in order, past 65535 going on from 0, and gives the first
    connection made; it throws [failed_to_connect] exactly when there is none. *)
Theorem ConnectToVaultManager_spec w port :
  GetInitialListeningPort w = (Ok port, w) → 0 ≤ port < 2 ^ 16 →
  0 ≤ kMaxRangeAboveDefaultPort < 2 ^ 32 - 1 →
  ConnectToVaultManager w =
    (let '(r, o) := first_connection
       (ports_from port (S (Z.to_nat kMaxRangeAboveDefaultPort))) w.(os) in
     (match r with Some c => Ok c | None => Throw (maidsafe_error failed_to_connect) end,
      set_os (λ _, o) w)).
Proof.
  intros Hg Hp Hk. unfold ConnectToVaultManager. rewrite (M_bind_run _ _ _ _ _ Hg).
  apply connect_loop_run; lia.
Qed.
End connecting.

(** * Requests *)
Section client_invariant.
Context `{P : Platform} `{B : Build} `{A : !Archives} `{AS : !ArchiveSafety}.
Implicit Types c : ClientInterface.
Implicit Types r : VaultRequest.

Abbreviation result r := (promise (vr_request r)).

(** A registered request has no result yet, and every request has its timer. *)
(** What is true of every request for a vault: its timer was started, for 30 seconds. *)
Definition request_timed (p : PromiseAndTimer PmidAndSigner) : Prop :=
  request_wf p ∧ p.(timer_state) ≠ timer_idle ∧ p.(timeout) = 30.

Record client_wf c : Prop := {
  cl_challenges : rpc_wf c.(on_challenge_);
  cl_alive : c.(on_challenge_).(mutex_alive) = true;
  cl_connection : c.(ci_tcp_connection_) ≠ null_connection;
  cl_requests : Forall (λ r, request_timed r.(vr_request)) c.(vault_requests);
  cl_ongoing : ∀ l i, c.(ongoing_vault_requests_) !! l = Some i →
    ∃ r, c.(vault_requests) !! i = Some r ∧ r.(vr_label) = l ∧ result r = None;
}.

(** The futures that were set keep what they have. *)
Record client_keeps c c' : Prop := {
  ck_challenges : keeps c.(on_challenge_) c'.(on_challenge_);
  ck_requests : ∀ i r, c.(vault_requests) !! i = Some r →
    ∃ r', c'.(vault_requests) !! i = Some r' ∧ r'.(vr_label) = r.(vr_label) ∧
      (∀ o, result r = Some o → result r' = Some o);
}.

#[export] Instance client_keeps_preorder : PreOrder client_keeps.
Proof.
  split; [by intros c; split; eauto|]. intros c c' c'' [H1 H2] [H3 H4].
  split; [by etrans|]. intros i r Hr. destruct (H2 i r Hr) as (r' & Hr' & Hl & Ho).
  destruct (H4 i r' Hr') as (r'' & Hr'' & Hl' & Ho'). exists r''. split_and!; [done|congruence|auto].
Qed.

(** Steps that leave the requests alone. *)
Lemma same_requests c c' :
  client_wf c → rpc_wf c'.(on_challenge_) → keeps c.(on_challenge_) c'.(on_challenge_) →
  c'.(on_challenge_).(mutex_alive) = true → c'.(ci_tcp_connection_) = c.(ci_tcp_connection_) →
  c'.(vault_requests) = c.(vault_requests) →
  c'.(ongoing_vault_requests_) = c.(ongoing_vault_requests_) → client_wf c' ∧ client_keeps c c'.
Proof.
  intros [H1 H2 H3 H4 H5] Hr Hk Ha Hc Hv Ho. split; split; rewrite ?Hc, ?Hv, ?Ho; eauto.
Qed.

Definition update (i : nat) f g c : ClientInterface :=
  set_requests (alter (λ r, mkVaultRequest r.(vr_label) (f r.(vr_request))) i) g c.

(** A step that changes one request. *)
Lemma update_facts i f g c :
  client_wf c →
  (∀ r, c.(vault_requests) !! i = Some r → request_wf r.(vr_request) →
    r.(vr_request).(timer_state) ≠ timer_idle →
    request_wf (f r.(vr_request)) ∧ (f r.(vr_request)).(timer_state) ≠ timer_idle ∧
    (f r.(vr_request)).(timeout) = r.(vr_request).(timeout) ∧
    ∀ o, result r = Some o → (f r.(vr_request)).(promise) = Some o) →
  (∀ l j, g c.(ongoing_vault_requests_) !! l = Some j →
    c.(ongoing_vault_requests_) !! l = Some j ∧
    (j = i → ∀ r, c.(vault_requests) !! i = Some r → r.(vr_label) = l →
      (f r.(vr_request)).(promise) = result r)) →
  client_wf (update i f g c) ∧ client_keeps c (update i f g c).
Proof.
  intros [H1 H2 H3 H4 H5] Hf Hg. rewrite Forall_lookup in H4. split; split; cbn; try done.
  - apply Forall_lookup. intros j r. destruct (decide (j = i)) as [->|Hj].
    + rewrite list_lookup_alter_eq. destruct (vault_requests c !! i) as [q|] eqn:E; [|done].
      intros [= <-]. destruct (H4 _ _ E) as (? & ? & Ht). destruct (Hf q) as (? & ? & Hs & _); [done..|].
      split_and!; [done|done|]. cbn. by rewrite Hs.
    + rewrite list_lookup_alter_ne by done. apply H4.
  - intros l j Hl. destruct (Hg l j Hl) as [Hl' Hj]. destruct (H5 l j Hl') as (r & Hr & Hlab & Hn).
    destruct (decide (j = i)) as [->|Hji].
    + eexists. rewrite list_lookup_alter_eq, Hr. split_and!; [done|done|]. cbn. by rewrite Hj.
    + exists r. by rewrite list_lookup_alter_ne by done.
  - intros j r Hr. destruct (decide (j = i)) as [->|Hji].
    + eexists. rewrite list_lookup_alter_eq, Hr. split_and!; [done|done|]. cbn.
      destruct (H4 _ _ Hr) as (? & ? & _). by destruct (Hf r) as (_ & _ & _ & ?).
    + exists r. by rewrite list_lookup_alter_ne by done.
Qed.

(** A request under its label is the only one there. *)
Lemma ongoing_label c l i r :
  client_wf c → c.(ongoing_vault_requests_) !! l = Some i → c.(vault_requests) !! i = Some r →
  r.(vr_label) = l ∧ result r = None.
Proof.
  intros Hw Hl Hr. destruct (cl_ongoing _ Hw l i Hl) as (r' & Hr' & ? & ?).
  assert (r' = r) as -> by congruence. done.
Qed.

(** The result a response carries, and the step that hands it over. *)
Definition response_result (m : VaultRunningResponse) : option (Outcome PmidAndSigner) :=
  match m.(vrr_vault_keys), m.(vrr_error) with
  | Some k, _ => Value <$> k.(vk_pmid_and_signer)
  | None, Some e => Some (Exception (maidsafe_error e))
  | None, None => None
  end.

Definition hand_over (o : Outcome PmidAndSigner) (l : NonEmptyString) c : ClientInterface :=
  match c.(ongoing_vault_requests_) !! l with
  | Some i => update i (answered o) (delete l) c
  | None => c
  end.

Lemma HandleVaultRunningResponse_run m c :
  message_ok (VaultRunningResponse_ m) →
  HandleVaultRunningResponse m c =
    match response_result m with
    | Some o => (Ok tt, hand_over o m.(vrr_vault_label) c)
    | None => (Throw (maidsafe_error invalid_argument), c)
    end.
Proof.
  intros Hm. cbn in Hm. unfold HandleVaultRunningResponse, response_result.
  assert (Hrun : ∀ o, (itr ← gets (λ c, c.(ongoing_vault_requests_) !! m.(vrr_vault_label));
    match itr with
    | Some request =>
        at_vault_request request (settle o);;
        at_vault_request request cancel_wait;;
        modify (set_requests id (delete m.(vrr_vault_label)))
    | None => mret tt
    end) c = (Ok tt, hand_over o m.(vrr_vault_label) c)).
  { intros o. unfold hand_over, mbind, M_bind, gets.
    destruct (ongoing_vault_requests_ c !! vrr_vault_label m) as [i|]; [|done].
    unfold at_vault_request, modify, update, set_requests. cbn.
    by rewrite list_alter_alter. }
  destruct (vrr_vault_keys m) as [k|].
  - destruct (Hm k eq_refl) as [p Hp]. rewrite Hp. cbn. apply Hrun.
  - destruct (vrr_error m) as [e|]; [apply Hrun|done].
Qed.

Lemma hand_over_facts o l c : client_wf c → client_wf (hand_over o l c) ∧ client_keeps c (hand_over o l c).
Proof.
  intros Hw. unfold hand_over. destruct (ongoing_vault_requests_ c !! l) as [i|] eqn:Hl; [|by split].
  apply update_facts; [done| |].
  - intros r Hr Hrw Ht. split_and!.
    + by apply answered_wf.
    + unfold answered, cancel_wait. rewrite settle_timer. destruct (timer_state (vr_request r)) eqn:E;
        cbn; rewrite ?settle_timer, ?E; done.
    + unfold answered. by rewrite cancel_timeout, settle_timeout.
    + intros o' Ho. by rewrite answered_promise, Ho.
  - intros l' j [Hn Hj]%lookup_delete_Some. split; [done|]. intros -> r Hr Hlab.
    destruct (ongoing_label c l i r Hw Hl Hr) as [? _]. congruence.
Qed.

(** ** Every step *)

Definition client_event_ok (e : ClientEvent) : Prop :=
  match e with
  | Sends m => message_ok m
  | Receives bs => ∀ m, receive bs = Ok (VaultRunningResponse_ m) → message_ok (VaultRunningResponse_ m)
  | _ => True
  end.

(** [m] has no undefined behaviour, keeps the invariant and the futures. *)
Definition client_good {T} (m : M ClientInterface T) c : Prop :=
  wp m (λ x c', is_Fault x = false ∧ client_wf c' ∧ client_keeps c c') c.

Lemma client_good_run {T} (m : M ClientInterface T) c x c' :
  m c = (x, c') → is_Fault x = false → client_wf c' ∧ client_keeps c c' → client_good m c.
Proof. unfold client_good, wp. intros ->. cbn. tauto. Qed.

Lemma client_good_then {T} (m : M ClientInterface T) c : client_good m c → client_good (m;; mret tt) c.
Proof. unfold client_good, wp, mbind, M_bind. by destruct (m c) as [[?|?|?] ?]. Qed.

Lemma client_good_bind {T U} (m : M ClientInterface T) (k : T → M ClientInterface U) c :
  client_good m c → (∀ a c', m c = (Ok a, c') → client_wf c' → client_good (k a) c') →
  client_good (m ≫= k) c.
Proof.
  unfold client_good, wp, mbind, M_bind. destruct (m c) as [[a|e|f] c']; cbn; [|done..].
  intros (_ & Hw & Hk) H. destruct (H a c' eq_refl Hw) as (? & ? & ?). split_and!; [done..|]. by trans c'.
Qed.

Lemma client_good_catch {T} (m : M ClientInterface T) h c :
  client_good m c → (∀ e c', client_wf c' → client_good (h e) c') → client_good (try_catch m h) c.
Proof.
  unfold client_good, wp, try_catch. destruct (m c) as [[a|e|f] c']; cbn; [done| |done].
  intros (_ & Hw & Hk) H. destruct (H e c' Hw) as (? & ? & ?). split_and!; [done..|]. by trans c'.
Qed.

Lemma client_good_ret {T} (a : T) c : client_wf c → client_good (mret a) c.
Proof. intros Hw. unfold client_good, wp. by split_and!. Qed.

Lemma client_good_gets {T} (f : ClientInterface → T) c : client_wf c → client_good (gets f) c.
Proof. intros Hw. unfold client_good, wp. by split_and!. Qed.

Lemma client_good_lift {T} (x : Res T) c : is_Fault x = false → client_wf c → client_good (lift_res x) c.
Proof. intros Hx Hw. unfold client_good, wp. by split_and!. Qed.

(** Working on the rest of the process leaves the object alone. *)
Lemma in_base_good {T} (m : M World T) c :
  client_wf c → is_Fault (m c.(base)).1 = false → client_good (in_base m) c.
Proof.
  intros Hw Hf. unfold client_good, wp, in_base. cbn. destruct (m (base c)) as [x w]; cbn in *.
  split; [done|]. by apply same_requests; [done|apply Hw| |apply Hw|..].
Qed.

Lemma in_challenges_good {T} (m : M (Rpc PlainText) T) c x s' :
  client_wf c → m c.(on_challenge_) = (x, s') → is_Fault x = false → rpc_wf s' →
  keeps c.(on_challenge_) s' → s'.(mutex_alive) = true → client_good (in_challenges m) c.
Proof.
  intros Hw Hm Hf Hr Hk Ha. unfold client_good, wp, in_challenges. cbn. rewrite Hm. cbn.
  split; [done|]. by apply same_requests.
Qed.

Lemma Close_good k w : k ≠ null_connection → Close k w = (Ok tt, set_trace (λ t, t ++ [Closed k]) w).
Proof. intros Hk. unfold Close. by destruct (N.eqb_spec k null_connection). Qed.

Lemma ci_Send_good m c : message_ok m → client_wf c → client_good (ci_Send m) c.
Proof.
  intros Hm Hw. apply client_good_bind; [by apply client_good_gets|]. intros k c' E _.
  injection E as <- <-. apply in_base_good; [done|].
  unfold Send, mbind, M_bind, lift_res. pose proof (Serialise_safe m Hm).
  destruct (Serialise m); [|done..]. by destruct (N.eqb_spec (ci_tcp_connection_ c) null_connection);
    [destruct (cl_connection _ Hw)|].
Qed.

Lemma Resume_good i c : client_wf c → client_good (ClientInterface_resume i) c.
Proof.
  intros Hw. unfold ClientInterface_resume, gets. unfold mbind at 1 2, M_bind at 1 2.
  unfold client_good, wp. destruct (_ ≫= promise) as [o|]; [|by apply client_good_ret].
  assert (H : client_good (match o with
    | Value challenge => maid ← gets kMaid_;
        ci_Send (ChallengeResponse_ (ChallengeResponse_make (PublicMaid_of_Maid maid)
                   (Sign challenge (Maid_private_key maid))));; mret true
    | Exception e => throw e
    end) c).
  { destruct o as [challenge|e]; [|unfold client_good, wp; by split_and!]. apply client_good_bind; [by apply client_good_gets|].
    intros maid c' E Hw'. apply client_good_bind; [by apply ci_Send_good|].
    intros. by apply client_good_ret. }
  revert H. unfold client_good, wp, on_scope_exit. destruct (_ c) as [[a|e|f] c']; [done| |done].
  cbn -[Close in_base]. intros (_ & Hw' & Hk).
  assert (Hclose : in_base (Close (ci_tcp_connection_ c)) c' =
    (Ok tt, set_base (set_trace (λ t, t ++ [Closed (ci_tcp_connection_ c)]) (base c')) c')).
  { unfold in_base. cbn -[Close]. by rewrite (Close_good _ _ (cl_connection _ Hw)). }
  rewrite Hclose. cbn. split; [done|].
  destruct (same_requests c' (set_base (set_trace (λ t, t ++ [Closed (ci_tcp_connection_ c)]) (base c')) c'))
    as [? ?]; try done; try apply Hw'. split; [done|]. by trans c'.
Qed.

Lemma Adds_good l c : client_wf c → client_good (AddVaultRequest l) c.
Proof.
  intros [H1 H2 H3 H4 H5]. eapply client_good_run; [reflexivity|done|]. split; split; cbn; try done.
  - apply Forall_app. split; [done|]. apply Forall_singleton. split; [apply (start_wait_wf (PromiseAndTimer_make _)), make_wf|done].
  - intros l' i. destruct (ongoing_vault_requests_ c !! l) as [j|] eqn:Hl.
    + intros Hi. destruct (H5 _ _ Hi) as (r & Hr & ? & ?). exists r. split_and!; [|done..].
      by apply lookup_app_l_Some.
    + rewrite lookup_insert. case_decide as Hll.
      * intros [= <-]. eexists. rewrite lookup_app_r, Nat.sub_diag by lia. by split_and!.
      * intros Hi. destruct (H5 _ _ Hi) as (r & Hr & ? & ?). exists r. split_and!; [|done..].
        by apply lookup_app_l_Some.
  - intros i r Hr. exists r. split_and!; [|done|done]. by apply lookup_app_l_Some.
Qed.

Lemma challenge_step_good e c :
  rpc_event_ok GetValue_Challenge e → client_wf c →
  client_good (in_challenges (rpc_step GetValue_Challenge e)) c.
Proof.
  intros He Hw. destruct (rpc_step_facts GetValue_Challenge e c.(on_challenge_) He) as (s' & E & ? & ? & ?);
    [apply Hw..|]. by eapply in_challenges_good.
Qed.

Lemma InvokeCallBack_step m c :
  InvokeCallBack m c = in_challenges (rpc_step GetValue_Challenge (Response m)) c.
Proof.
  unfold InvokeCallBack, in_challenges. cbn [zoom rpc_step]. unfold mbind, M_bind, gets.
  by destruct (callback (on_challenge_ c)).
Qed.

Lemma NetworkStable_good c : client_wf c → client_good HandleNetworkStableResponse c.
Proof.
  intros Hw. unfold HandleNetworkStableResponse.
  apply client_good_bind; [by apply client_good_gets|]. intros f c' E _. injection E as <- <-.
  destruct (network_stable_flag_ c); [by apply client_good_ret|].
  eapply client_good_run; [reflexivity|done|]. by apply same_requests; [done|apply Hw| |apply Hw|..].
Qed.

Lemma HandleVaultRunningResponse_good m c :
  message_ok (VaultRunningResponse_ m) → client_wf c → client_good (HandleVaultRunningResponse m) c.
Proof.
  intros Hm Hw. pose proof (HandleVaultRunningResponse_run m c Hm) as H.
  destruct (response_result m); (eapply client_good_run; [exact H|done|]);
    [by apply hand_over_facts|by split].
Qed.

Lemma Parse_good {T} (k : Codec T) bs (h : T → M ClientInterface unit) c :
  loads k → client_wf c → (∀ m, Parse k bs = Ok m → client_good (h m) c) →
  client_good (m ← lift_res (Parse k bs); h m) c.
Proof.
  intros Hk Hw Hh. apply client_good_bind; [apply client_good_lift; [by apply Parse_safe|done]|].
  intros m c' E _. injection E as E <-. by apply Hh.
Qed.

Lemma Receives_good bs c :
  (∀ m, receive bs = Ok (VaultRunningResponse_ m) → message_ok (VaultRunningResponse_ m)) →
  client_wf c → client_good (ci_HandleReceivedMessage bs) c.
Proof.
  intros Hm Hw. apply client_good_catch; [|intros; by apply client_good_ret].
  apply client_good_bind.
  { apply client_good_lift; [apply ar_MessageTag_safe|done]. }
  intros [t body] c' E _. injection E as E <-.
  destruct t; try by apply client_good_ret.
  - assert (codec_safe Challenge_codec) as [_ Hc] by (unfold Challenge_codec; codec_solve).
    apply Parse_good; [done|done|]. intros m _.
    pose proof (challenge_step_good (Response m) c eq_refl Hw) as H. unfold client_good, wp in *.
    by rewrite InvokeCallBack_step.
  - apply Parse_good; [apply VaultRunningResponse_loads|done|]. intros m Hp.
    apply HandleVaultRunningResponse_good; [|done]. apply Hm. unfold receive. rewrite E. unfold mbind, Res_bind. cbv beta iota. by rewrite Hp.
  - apply Parse_good; [apply LogMessage_safe|done|]. intros. by apply client_good_ret.
  - destruct TESTING; [by apply NetworkStable_good|by apply client_good_ret].
Qed.

Lemma VaultWaitEnds_good i failed c :
  client_wf c → client_good (client_step (VaultWaitEnds i failed)) c.
Proof.
  intros Hw. eapply client_good_run; [reflexivity|done|].
  apply (update_facts i (wait_ends (if failed : bool then wait_failed else wait_done)) id); [done| |].
  - intros r _ Hr Ht. split_and!.
    + apply wait_ends_wf; [by destruct failed|done].
    + unfold wait_ends. by destruct (timer_state (vr_request r)) eqn:E; cbn; rewrite ?E.
    + apply wait_ends_timeout.
    + intros o. by rewrite wait_ends_promise.
  - intros l j Hl. split; [done|]. intros _ r _ _. apply wait_ends_promise.
Qed.

Definition expire (x : WaitResult) (p : PromiseAndTimer PmidAndSigner) : PromiseAndTimer PmidAndSigner :=
  settle (Exception (expiry x)) (with_timer timer_done p).

Lemma on_vault_request_timer_run i r x c :
  c.(vault_requests) !! i = Some r → r.(vr_request).(timer_state) = timer_ready x →
  on_vault_request_timer i c =
    (Ok tt, if x is wait_aborted then update i (with_timer timer_done) id c
            else update i (expire x) (delete r.(vr_label)) c).
Proof.
  intros Hr Hx. unfold on_vault_request_timer, mbind, M_bind, gets. rewrite Hr, Hx.
  unfold at_vault_request, modify, update, set_requests, expire, SetException.
  destruct x; cbn; rewrite ?list_alter_alter; done.
Qed.

Lemma expire_facts x p :
  request_wf p → request_wf (expire x p) ∧ (expire x p).(timer_state) = timer_done ∧
  (expire x p).(timeout) = p.(timeout) ∧
  (expire x p).(promise) = Some (default (Exception (expiry x)) p.(promise)).
Proof.
  intros [Hf _]. unfold expire. rewrite settle_timeout. unfold settle, request_wf. cbn.
  destruct (once_flag p) eqn:E; cbn.
  - symmetry in Hf. apply bool_decide_eq_true in Hf as [o Ho]. rewrite E, Ho.
    by rewrite bool_decide_eq_true_2.
  - symmetry in Hf. apply bool_decide_eq_false in Hf.
    destruct (promise p); [by destruct Hf|]. by rewrite bool_decide_eq_true_2.
Qed.

Lemma VaultTimerRuns_good i c : client_wf c → client_good (on_vault_request_timer i) c.
Proof.
  intros Hw. destruct (c.(vault_requests) !! i) as [r|] eqn:Hr.
  2: { eapply client_good_run; [by unfold on_vault_request_timer, mbind, M_bind, gets; rewrite Hr|done|by split]. }
  destruct (timer_state (vr_request r)) as [| |x|] eqn:Ht.
  3: { eapply client_good_run; [by apply (on_vault_request_timer_run i r x)|done|]. destruct x.
    1,3: apply update_facts; [done| |].
    5: apply update_facts; [done| |].
    1,3: intros r' _ Hq _; destruct (expire_facts wait_done (vr_request r') Hq) as (? & Hd & Ht' & Hp);
         destruct (expire_facts wait_failed (vr_request r') Hq) as (? & Hd' & Ht'' & Hp');
         split_and!; [done|by rewrite ?Hd, ?Hd'|by rewrite ?Ht', ?Ht''|intros o Ho; by rewrite ?Hp, ?Hp', Ho].
    1,2: intros l j [Hn Hj]%lookup_delete_Some; split; [done|]; intros _ r' Hr' Hl;
         assert (r' = r) as -> by congruence; congruence.
    - intros r' Hr' Hq _. assert (r' = r) as -> by congruence.
      split_and!; [apply with_timer_wf; [done|]; intros _; apply Hq; by right|done..].
    - done. }
  all: eapply client_good_run; [by unfold on_vault_request_timer, mbind, M_bind, gets; rewrite Hr, Ht|done|by split].
Qed.

Lemma client_step_good e c : client_event_ok e → client_wf c → client_good (client_step e) c.
Proof.
  intros He Hw. destruct e; cbn [client_step client_event_ok] in *.
  - by apply client_good_then, Resume_good.
  - by apply ci_Send_good.
  - by apply client_good_then, Adds_good.
  - by apply Receives_good.
  - by apply (challenge_step_good (Expires i failed)).
  - by apply (challenge_step_good (RunHandler i)).
  - by apply VaultWaitEnds_good.
  - by apply VaultTimerRuns_good.
Qed.
End client_invariant.

(** ** Runs *)
Section client_runs.
Context `{P : Platform} `{B : Build} `{A : !Archives} `{AL : !ArchiveLaws} `{AS : !ArchiveSafety}.
Implicit Types c : ClientInterface.

Abbreviation result r := (promise (vr_request r)).

(** [tcp::Connection::MakeShared] never gives an empty pointer. *)
Definition connects_properly : Prop :=
  ∀ port o k o', tcp_connect port o = (Normally k, o') → k ≠ null_connection.

Definition client_steps (ok : ClientEvent → Prop) c c' : Prop :=
  rtc (λ c c', ∃ e, client_event_ok e ∧ ok e ∧ c' = (client_step e c).2) c c'.

Lemma client_steps_good ok c c' :
  client_steps ok c c' → client_wf c → client_wf c' ∧ client_keeps c c'.
Proof.
  intros Hs. induction Hs as [c|c c1 c2 (e & He & _ & ->) _ IH]; intros Hw; [by split|].
  destruct (client_step_good e c He Hw) as (_ & Hw1 & Hk1). destruct (IH Hw1) as [? ?].
  split; [done|]. by trans (client_step e c).2.
Qed.

Lemma connect_loop_not_null fuel attempts port w k w' :
  connects_properly → connect_loop fuel attempts port w = (Ok k, w') → k ≠ null_connection.
Proof.
  intros Hc. revert attempts port w. induction fuel as [|fuel IH]; intros attempts port w; [done|].
  cbn [connect_loop]. destruct (_ && _); [|done]. unfold try_catch, os_call.
  destruct (tcp_connect port (os w)) as [[k'|e] o] eqn:E; cbn [of_lib]; [|apply IH].
  intros [= <- _]. by eapply Hc.
Qed.

(** The constructor up to its [get()]: a connected client with one request. *)
Lemma ClientInterface_begin_wf maid w i c :
  connects_properly → ClientInterface_begin (ClientInterface_fields maid w) = (Ok i, c) →
  client_wf c ∧ i = 0%nat ∧ c.(kMaid_) = maid ∧ c.(vault_requests) = [] ∧
  c.(on_challenge_).(requests) = [start_wait (PromiseAndTimer_make kRpcTimeout)] ∧
  c.(on_challenge_).(callback) = response_callback 0 null_callback.
Proof.
  intros Hc. unfold ClientInterface_begin, in_base. unfold mbind at 1, M_bind at 1. unfold zoom at 1.
  cbn [base ClientInterface_fields].
  destruct (ConnectToVaultManager w) as [[k|e|f] w1] eqn:Ek; [|done..].
  assert (Hk : k ≠ null_connection).
  { unfold ConnectToVaultManager in Ek. apply M_bind_Ok in Ek as (p & w2 & _ & Ek).
    by eapply connect_loop_not_null. }
  unfold ci_Send, modify, mbind, M_bind, on_scope_exit, gets, in_base. cbn -[Send SetResponseCallback].
  destruct (Send k ValidateConnectionRequest_ w1) as [[[]|e|f] w2];
    cbn -[Close]; [|destruct (Close k w2) as [[?|?|?] ?]; by intros [=]|done].
  intros [= <- <-]. split_and!; try done. split; cbn; try done.
  split; cbn.
  - apply Forall_singleton, (start_wait_wf (PromiseAndTimer_make _)), make_wf.
  - apply Forall_singleton. lia.
  - apply NoDup_singleton.
Qed.

(** A request whose wait ends is done: it keeps what it was given, or gets an error, and it
    is not registered any more. *)
Lemma set_request_expires c i r o :
  client_wf c → c.(vault_requests) !! i = Some r → result r = Some o →
  ∃ c' r', on_vault_request_timer i c = (Ok tt, c') ∧ c'.(vault_requests) !! i = Some r' ∧
    result r' = Some o ∧ ∀ l, c'.(ongoing_vault_requests_) !! l ≠ Some i.
Proof.
  intros Hw Hr Ho. destruct (VaultTimerRuns_good i c Hw) as (Hnf & Hw2 & Hk2).
  destruct (on_vault_request_timer i c) as [x c2] eqn:E.
  assert (x = Ok tt) as ->.
  { revert E. unfold on_vault_request_timer, mbind, M_bind, gets. rewrite Hr.
    destruct (timer_state (vr_request r)) as [| |[]|]; by intros [= <- _]. }
  destruct (ck_requests _ _ Hk2 i r Hr) as (r2 & Hr2 & _ & Ho2).
  exists c2, r2. split_and!; [done|done|by apply Ho2|].
  intros l Hl. destruct (ongoing_label c2 l i r2 Hw2 Hl Hr2) as [_ Hn]. by rewrite (Ho2 o Ho) in Hn.
Qed.

Lemma unset_request_expires c i r x :
  client_wf c → c.(vault_requests) !! i = Some r → result r = None →
  r.(vr_request).(timer_state) = timer_ready x → x ≠ wait_aborted →
  ∃ c' r', on_vault_request_timer i c = (Ok tt, c') ∧ c'.(vault_requests) !! i = Some r' ∧
    result r' = Some (Exception (expiry x)) ∧ ∀ l, c'.(ongoing_vault_requests_) !! l ≠ Some i.
Proof.
  intros Hw Hr Ho Hx Hxa. rewrite (on_vault_request_timer_run i r x c Hr Hx).
  eexists _, _. split; [reflexivity|].
  assert (Hu : (if x is wait_aborted then update i (with_timer timer_done) id c
                else update i (expire x) (delete (vr_label r)) c) =
               update i (expire x) (delete (vr_label r)) c) by by destruct x.
  rewrite Hu. split_and!; [etransitivity; [apply list_lookup_alter_eq|]; by rewrite Hr| |].
  - cbn [vr_request]. pose proof (cl_requests _ Hw) as Hreqs. rewrite Forall_lookup in Hreqs.
    destruct (expire_facts x (vr_request r)) as (_ & _ & _ & He); [by apply (Hreqs i)|]. by rewrite He, Ho.
  - cbn. intros l [Hl Hj]%lookup_delete_Some. by destruct (ongoing_label c l i r Hw Hj Hr) as [? _].
Qed.

(** C15: whatever a client calls and whatever messages and timers do in between, no step
    of the interface has undefined behaviour, and a future of [StartVault] or
    [TakeOwnership] that was set keeps its outcome.  The timer of such a future has
    a timeout of 30 seconds, and at the latest when a wait of this
    timer has ended and its handler has run, a future that was not set is set to an error and is no
    longer registered. *)
Theorem vault_futures_end maid w i0 c0 c e :
  connects_properly → ClientInterface_begin (ClientInterface_fields maid w) = (Ok i0, c0) →
  client_steps (λ _, True) c0 c → client_event_ok e →
  is_Fault (client_step e c).1 = false ∧
  ∀ i r, c.(vault_requests) !! i = Some r →
    r.(vr_request).(timeout) = 30 ∧
    (∀ c' o, client_steps (λ _, True) c c' → result r = Some o →
      ∃ r', c'.(vault_requests) !! i = Some r' ∧ result r' = Some o) ∧
    ∃ c' r', for_each client_step [VaultWaitEnds i false; VaultTimerRuns i] c = (Ok tt, c') ∧
      c'.(vault_requests) !! i = Some r' ∧ result r' = Some (last_resort r.(vr_request)) ∧
      ∀ l, c'.(ongoing_vault_requests_) !! l ≠ Some i.
Proof.
  intros Hc Hb Hs He. destruct (ClientInterface_begin_wf _ _ _ _ Hc Hb) as [Hw0 _].
  destruct (client_steps_good _ _ _ Hs Hw0) as [Hw _]. split; [by apply client_step_good|].
  intros i r Hr. split; [|split].
  { pose proof (cl_requests _ Hw) as Hreqs. rewrite Forall_lookup in Hreqs. by apply (Hreqs i r). }
  { intros c' o Hs' Ho. destruct (client_steps_good _ _ _ Hs' Hw) as [_ Hk].
    destruct (ck_requests _ _ Hk i r Hr) as (r' & ? & _ & H). eauto. }
  destruct (VaultWaitEnds_good i false c Hw) as (_ & Hw1 & _).
  set (c1 := (client_step (VaultWaitEnds i false) c).2) in *.
  set (r1 := mkVaultRequest r.(vr_label) (wait_ends wait_done r.(vr_request))).
  assert (Hr1 : c1.(vault_requests) !! i = Some r1).
  { etransitivity; [apply list_lookup_alter_eq|]. by rewrite Hr. }
  assert (Hp1 : result r1 = result r) by apply wait_ends_promise.
  assert (∃ c' r', on_vault_request_timer i c1 = (Ok tt, c') ∧ c'.(vault_requests) !! i = Some r' ∧
    result r' = Some (last_resort r.(vr_request)) ∧ ∀ l, c'.(ongoing_vault_requests_) !! l ≠ Some i)
    as (c' & r' & E & H).
  { destruct (result r) as [o|] eqn:Ho.
    - unfold last_resort. rewrite Ho. by apply (set_request_expires c1 i r1).
    - pose proof (cl_requests _ Hw) as Hreqs. rewrite Forall_lookup in Hreqs.
      destruct (Hreqs i r Hr) as (Hwf & Hi & _). destruct (deadline _ Hwf Ho Hi) as (x & Hx & Hxa & ->).
      by apply (unset_request_expires c1 i r1). }
  exists c', r'. split; [|done].
  change ((on_vault_request_timer i;; mret tt) c1 = (Ok tt, c')). by rewrite (M_bind_run _ _ _ _ _ E).
Qed.

Context `{L : !PlatformLaws}.

Lemma receive_running m bs c :
  Serialise (VaultRunningResponse_ m) = Ok bs → message_ok (VaultRunningResponse_ m) →
  ∃ o, response_result m = Some o ∧
    ci_HandleReceivedMessage bs c = (Ok tt, hand_over o m.(vrr_vault_label) c).
Proof.
  intros Hs Hm. destruct (Serialise_ParseTag _ _ Hs) as (body & Ht & Hb).
  cbn [save_body tag] in *. pose proof (Parse_saved _ _ _ (VaultRunningResponse_codec_ok m) Hb) as Hp.
  assert (Ho : ∃ o, response_result m = Some o).
  { cbn [save VaultRunningResponse_codec] in Hb. unfold VaultRunningResponse_save, ValidateOptions in Hb.
    unfold response_result. cbn in Hm. destruct (vrr_vault_keys m) as [k|].
    - destruct (Hm k eq_refl) as [p ->]. by eexists.
    - destruct (vrr_error m); [by eexists|].
      rewrite bool_decide_eq_false_2 in Hb by by intros []. done. }
  destruct Ho as [o Ho]. exists o. split; [done|].
  unfold ci_HandleReceivedMessage, try_catch, mbind, M_bind, lift_res. rewrite Ht. cbv beta iota.
  rewrite Hp. cbv beta iota. by rewrite (HandleVaultRunningResponse_run m c Hm), Ho.
Qed.

(** C16: a [VaultRunningResponse] settles the request registered under its label, with the
    keys or the error it carries, unregisters it and touches no other; when no
    request is registered under the label it is dropped without a trace, so a request
    that is only added after its response came in is not answered by it. *)
Theorem vault_response_settles c m bs :
  client_wf c → Serialise (VaultRunningResponse_ m) = Ok bs → message_ok (VaultRunningResponse_ m) →
  ∃ o c', response_result m = Some o ∧ ci_HandleReceivedMessage bs c = (Ok tt, c') ∧
    match c.(ongoing_vault_requests_) !! m.(vrr_vault_label) with
    | None => c' = c
    | Some i =>
        c'.(ongoing_vault_requests_) = delete m.(vrr_vault_label) c.(ongoing_vault_requests_) ∧
        (∃ r r', c.(vault_requests) !! i = Some r ∧ r.(vr_label) = m.(vrr_vault_label) ∧
          result r = None ∧ c'.(vault_requests) !! i = Some r' ∧ result r' = Some o) ∧
        ∀ j, j ≠ i → c'.(vault_requests) !! j = c.(vault_requests) !! j
    end.
Proof.
  intros Hw Hs Hm. destruct (receive_running m bs c Hs Hm) as (o & Ho & Hrun).
  exists o. eexists. split_and!; [done|exact Hrun|]. unfold hand_over.
  destruct (ongoing_vault_requests_ c !! vrr_vault_label m) as [i|] eqn:Hl; [|done].
  destruct (cl_ongoing _ Hw _ _ Hl) as (r & Hr & Hlab & Hn). split_and!; [done| |].
  - exists r. eexists. split_and!; [done..|etransitivity; [apply list_lookup_alter_eq|]; by rewrite Hr|].
    cbn. pose proof (cl_requests _ Hw) as Hq. rewrite Forall_lookup in Hq.
    rewrite answered_promise by by apply (Hq i). by rewrite Hn.
  - intros j Hj. cbn. by rewrite list_lookup_alter_ne.
Qed.

(** ** A request that is not registered *)

Definition lost (j : nat) c : Prop :=
  (∃ r, c.(vault_requests) !! j = Some r ∧ result r = None) ∧
  ∀ l, c.(ongoing_vault_requests_) !! l ≠ Some j.

Lemma lost_same j c c' :
  c'.(vault_requests) = c.(vault_requests) →
  c'.(ongoing_vault_requests_) = c.(ongoing_vault_requests_) → lost j c → lost j c'.
Proof. unfold lost. by intros -> ->. Qed.

Lemma lost_in_base {T} j (m : M World T) : preserves (lost j) (in_base m).
Proof. intros c. unfold in_base, wp. cbn. destruct (m (base c)). by apply lost_same. Qed.

Lemma lost_in_challenges {T} j (m : M (Rpc PlainText) T) : preserves (lost j) (in_challenges m).
Proof. intros c. unfold in_challenges, wp. cbn. destruct (m (on_challenge_ c)). by apply lost_same. Qed.

Lemma lost_update j i f g c :
  lost j c → (i = j → ∀ r, result r = None → (f r.(vr_request)).(promise) = None) →
  (∀ m l k, g m !! l = Some k → m !! l = Some k) → lost j (update i f g c).
Proof.
  intros [(r & Hr & Hn) Ho] Hf Hg. split; [|intros l Hl; by eapply Ho, Hg]. cbn.
  destruct (decide (j = i)) as [->|Hj].
  - eexists. rewrite list_lookup_alter_eq, Hr. split; [done|]. by apply Hf.
  - exists r. by rewrite list_lookup_alter_ne.
Qed.

Lemma lost_ci_Send j m : preserves (lost j) (ci_Send m).
Proof. apply preserves_bind; [apply preserves_gets|]. intros k. apply lost_in_base. Qed.

Lemma lost_Receives j bs : preserves (lost j) (ci_HandleReceivedMessage bs).
Proof.
  apply preserves_try_catch; [|intros; apply preserves_ret].
  apply preserves_bind; [apply preserves_lift_res|]. intros [t body].
  destruct t; try apply preserves_ret.
  - apply preserves_bind; [apply preserves_lift_res|]. intros m. apply lost_in_challenges.
  - apply preserves_bind; [apply preserves_lift_res|]. intros m c Hc. unfold wp.
    unfold HandleVaultRunningResponse. apply preserves_bind; [|intros o|done].
    { destruct (vrr_vault_keys m) as [[? []]|]; [apply preserves_ret|apply preserves_crash|].
      destruct (vrr_error m); [apply preserves_ret|apply preserves_throw]. }
    clear c Hc. intros c Hc. unfold wp, mbind, M_bind, gets.
    destruct (ongoing_vault_requests_ c !! vrr_vault_label m) as [i|] eqn:Hl; [|done].
    assert (i ≠ j) by (intros ->; by eapply Hc).
    unfold at_vault_request, modify. cbn -[update].
    apply (lost_update j i cancel_wait (delete (vrr_vault_label m)) (update i (settle o) id c)).
    + apply lost_update; [done|done|by intros].
    + done.
    + intros ? ? ? [_ ?]%lookup_delete_Some. done.
  - apply preserves_bind; [apply preserves_lift_res|]. intros m. apply preserves_ret.
  - destruct TESTING; [|apply preserves_ret]. apply preserves_bind; [apply preserves_gets|].
    intros []; [apply preserves_ret|]. apply preserves_modify. intros c. by apply lost_same.
Qed.

Lemma lost_step j e : e ≠ VaultTimerRuns j → preserves (lost j) (client_step e).
Proof.
  intros He. destruct e as [i|m|l|bs|i failed|i|i failed|i]; cbn [client_step].
  - apply preserves_bind; [|intros; apply preserves_ret]. unfold ClientInterface_resume.
    apply preserves_bind; [apply preserves_gets|]. intros k.
    apply preserves_bind; [apply preserves_gets|]. intros [[ch|e]|]; [| |apply preserves_ret].
    2: { apply preserves_on_scope_exit; [apply preserves_throw|apply lost_in_base]. }
    apply preserves_on_scope_exit; [|apply lost_in_base].
    apply preserves_bind; [apply preserves_gets|]. intros maid.
    apply preserves_bind; [apply lost_ci_Send|]. intros. apply preserves_ret.
  - apply lost_ci_Send.
  - intros c [(r & Hr & Hn) Ho]. unfold wp, AddVaultRequest, mbind, M_bind, gets, modify. cbn.
    split; cbn; [exists r; split; [by apply lookup_app_l_Some|done]|].
    intros l'. destruct (ongoing_vault_requests_ c !! l) as [i|]; [apply Ho|].
    rewrite lookup_insert. case_decide; [|apply Ho]. intros [= Hj].
    apply lookup_lt_Some in Hr. lia.
  - apply lost_Receives.
  - apply lost_in_challenges.
  - apply lost_in_challenges.
  - intros c Hc. apply (lost_update j i (wait_ends (if failed : bool then wait_failed else wait_done)) id);
      [done| |done]. intros _ r. by rewrite wait_ends_promise.
  - intros c Hc. unfold wp. destruct (vault_requests c !! i) as [r|] eqn:Hr.
    2: { unfold on_vault_request_timer, mbind, M_bind, gets. by rewrite Hr. }
    destruct (timer_state (vr_request r)) as [| |x|] eqn:Ht.
    3: { rewrite (on_vault_request_timer_run i r x c Hr Ht).
      assert (i ≠ j) by congruence. destruct x; apply lost_update; try done.
      all: intros ? ? ? [_ ?]%lookup_delete_Some; done. }
    all: unfold on_vault_request_timer, mbind, M_bind, gets; by rewrite Hr, Ht.
Qed.

(** A second request for a label whose first request still waits is not registered:
    no message ever answers it, and until its own timer runs its future stays
    unset, whatever happens. *)
Theorem second_request_unanswered c l i :
  client_wf c → c.(ongoing_vault_requests_) !! l = Some i →
  ∃ c1, AddVaultRequest l c = (Ok (length c.(vault_requests)), c1) ∧
    c1.(ongoing_vault_requests_) = c.(ongoing_vault_requests_) ∧
    ∀ c2, client_steps (λ e, e ≠ VaultTimerRuns (length c.(vault_requests))) c1 c2 →
      ∃ r, c2.(vault_requests) !! length c.(vault_requests) = Some r ∧ result r = None.
Proof.
  intros Hw Hl. set (j := length c.(vault_requests)).
  set (c1 := set_requests id (λ m, if m !! l is Some _ then m else <[l := j]> m)
    (set_requests (λ v, v ++ [mkVaultRequest l (start_wait (PromiseAndTimer_make 30))]) id c)).
  assert (Ho : ongoing_vault_requests_ c1 = ongoing_vault_requests_ c) by (cbn; by rewrite Hl).
  assert (Hlost : lost j c1).
  { split.
    - eexists. cbn. rewrite lookup_app_r, Nat.sub_diag by (unfold j; lia). by split.
    - intros l'. rewrite Ho. intros Hj. destruct (cl_ongoing _ Hw _ _ Hj) as (r & Hr & _).
      apply lookup_lt_Some in Hr. unfold j in Hr. lia. }
  exists c1. split_and!; [done|done|]. intros c2 Hs. clearbody c1. clear Ho.
  induction Hs as [c'|c' c3 c4 (e & _ & He & ->) _ IH]; [apply Hlost|].
  apply IH. by apply (lost_step j e He).
Qed.
End client_runs.
