(* ===== verification/VaultInterface.v ===== *)
(** [vault_interface.h] and [vault_interface.cc]: the library a vault process links.  As for the
    clients, its calls, messages and timers come in any order: a run is a list
    of [VaultEvent]s. *)
From S2P Require Export RpcHelper Utils.
From S2P Require Import Frames.
From S2P Require Import Demo.

Section vault_interface.
Context `{P : Platform} `{B : Build} `{A : !Archives}.

(** [class VaultInterface]; [vi_base] is what the process has besides the object.  The mutex of
    [on_vault_started_response_] is a local of the constructor. *)
Record VaultInterface := mkVaultInterface {
  vi_base : World;
  exit_code_promise_ : option Z;
  exit_code_future : bool;
  exit_code_flag_ : bool;
  vault_manager_port_ : Z;
  on_vault_started_response_ : Rpc VaultConfig;
  vault_config_ : option VaultConfig;
  vi_tcp_connection_ : ConnectionPtr;
}.
Abbreviation V := VaultInterface.

Definition set_vi_base w (v : V) : V :=
  mkVaultInterface w v.(exit_code_promise_) v.(exit_code_future) v.(exit_code_flag_)
    v.(vault_manager_port_) v.(on_vault_started_response_) v.(vault_config_) v.(vi_tcp_connection_).
Definition set_exit p f o (v : V) : V :=
  mkVaultInterface v.(vi_base) p f o v.(vault_manager_port_) v.(on_vault_started_response_)
    v.(vault_config_) v.(vi_tcp_connection_).
Definition set_started_response r (v : V) : V :=
  mkVaultInterface v.(vi_base) v.(exit_code_promise_) v.(exit_code_future) v.(exit_code_flag_)
    v.(vault_manager_port_) r v.(vault_config_) v.(vi_tcp_connection_).
Definition set_config c (v : V) : V :=
  mkVaultInterface v.(vi_base) v.(exit_code_promise_) v.(exit_code_future) v.(exit_code_flag_)
    v.(vault_manager_port_) v.(on_vault_started_response_) c v.(vi_tcp_connection_).
Definition set_vi_connection k (v : V) : V :=
  mkVaultInterface v.(vi_base) v.(exit_code_promise_) v.(exit_code_future) v.(exit_code_flag_)
    v.(vault_manager_port_) v.(on_vault_started_response_) v.(vault_config_) k.

Definition in_vi_base {T} (m : M World T) : M V T := zoom vi_base set_vi_base m.
Definition in_responses {T} (m : M (Rpc VaultConfig) T) : M V T :=
  zoom on_vault_started_response_ set_started_response m.

(** [Send(tcp_connection_, message)] *)
Definition vi_Send (message : Message) : M V unit :=
  connection ← gets vi_tcp_connection_; in_vi_base (Send connection message).

(** The object before its constructor. *)
Definition VaultInterface_fields (vault_manager_port : Z) (w : World) : V :=
  mkVaultInterface w None false false vault_manager_port Rpc_make None null_connection.

(** The end of the scope of the constructor's local [mutex]. *)
Definition destroy_mutex : M V unit :=
  in_responses (modify (λ s, mkRpc s.(requests) s.(callback) false)).

(** [VaultInterface(tcp::Port)] up to the [get()] that blocks until the manager answers: it
    gives the request the constructor waits for. *)
Definition VaultInterface_begin : M V nat :=
  port ← gets vault_manager_port_;
  connection ← in_vi_base (os_call (tcp_connect port));
  modify (set_vi_connection connection);;
  on_scope_exit (destroy_mutex;; in_vi_base (Close connection))
    (request ← in_responses SetResponseCallback;
     pid ← in_vi_base (gets (λ w, process_GetProcessId w.(os)));
     vi_Send (VaultStarted_ (mkVaultStarted (to_u64 pid)));;
     mret request).

(** The rest of it, when [get()] returns; [false] while it still blocks. *)
Definition VaultInterface_resume (request : nat) : M V bool :=
  p ← gets (λ v, v.(on_vault_started_response_).(requests) !! request ≫= promise);
  match p with
  | None => mret false
  | Some result =>
      connection ← gets vi_tcp_connection_;
      on_scope_exit (in_vi_base (Close connection))
        (destroy_mutex;;
         match result with
         | Exception e => throw e
         | Value config => modify (set_config (Some config));; mret true
         end)
  end.

(** [VaultConfig GetConfiguration()] *)
Definition GetConfiguration : M V VaultConfig :=
  config ← gets vault_config_;
  match config with Some c => mret (VaultConfig_copy c) | None => crash null_deref end.

(** [int WaitForExit()]: [get_future] throws when it was called before; [None] while
    [get()] blocks. *)
Definition WaitForExit : M V (option Z) :=
  taken ← gets exit_code_future;
  if taken : bool then throw std_exception
  else
    modify (λ v, set_exit v.(exit_code_promise_) true v.(exit_code_flag_) v);;
    gets exit_code_promise_.

(** [void SendJoined()] *)
Definition SendJoined : M V unit := vi_Send JoinedNetwork_.

(** [std::call_once(exit_code_flag_, [this] { exit_code_promise_.set_value(...); })] *)
Definition set_exit_code (code : Z) : M V unit :=
  called ← gets exit_code_flag_;
  if called : bool then mret tt else modify (λ v, set_exit (Some code) v.(exit_code_future) true v).

(** [void OnConnectionClosed()] *)
Definition OnConnectionClosed : M V unit := set_exit_code (ErrorToInt connection_aborted).

(** [void HandleVaultShutdownRequest()] *)
Definition HandleVaultShutdownRequest : M V unit := set_exit_code 0.

(** [void HandleVaultStartedResponse(VaultStartedResponse&&)] *)
Definition HandleVaultStartedResponse (r : VaultStartedResponse) : M V unit :=
  in_responses (c ← gets callback;
    if c is null_callback then assert_ false else invoke GetValue_VaultStartedResponse c r).

(** [void HandleReceivedMessage(tcp::Message&&)] *)
Definition vi_HandleReceivedMessage (message : bytes) : M V unit :=
  try_ ('(tag, body) ← lift_res (ParseTag message);
        match tag with
        | kVaultStartedResponse =>
            m ← lift_res (Parse VaultStartedResponse_codec body); HandleVaultStartedResponse m
        | kVaultShutdownRequest => HandleVaultShutdownRequest
        | _ => mret tt
        end)
  catch _ ⇒ mret tt.

(** [KillConnection], [SendInvalidMessage] and [StopProcess] of a [TESTING] build. *)
Definition KillConnection : M V unit := modify (set_vi_connection null_connection).
Definition SendInvalidMessage : M V unit :=
  connection ← gets vi_tcp_connection_;
  if (connection =? null_connection)%N then crash null_deref
  else in_vi_base (emit (Sent connection [x52; x75; x62; x62; x69; x73; x68])).
Definition StopProcess : M V unit := HandleVaultShutdownRequest.

(** The destructor: [connection_closer_] goes first. *)
Definition VaultInterface_destroy : M V unit :=
  connection ← gets vi_tcp_connection_; in_vi_base (Close connection).

(** What can happen once the constructor has reached its [get()]. *)
Inductive VaultEvent : Type :=
| VResume (request : nat)
| VReceives (message : bytes)
| VConnectionCloses
| VWaitEnds (i : nat) (failed : bool)
| VTimerRuns (i : nat)
| VWaitForExit
| VSendJoined
| VKillConnection
| VSendInvalidMessage
| VStopProcess.

Definition vault_step (e : VaultEvent) : M V unit :=
  match e with
  | VResume i => VaultInterface_resume i;; mret tt
  | VReceives bs => vi_HandleReceivedMessage bs
  | VConnectionCloses => OnConnectionClosed
  | VWaitEnds i failed => in_responses (rpc_step GetValue_VaultStartedResponse (Expires i failed))
  | VTimerRuns i => in_responses (on_timer i)
  | VWaitForExit => WaitForExit;; mret tt
  | VSendJoined => SendJoined
  | VKillConnection => KillConnection
  | VSendInvalidMessage => SendInvalidMessage
  | VStopProcess => StopProcess
  end.

(** The state a list of events leaves; exceptions end the event, not the run. *)
Definition vault_run (evs : list VaultEvent) (v : V) : V := foldl (λ v e, (vault_step e v).2) v evs.
End vault_interface.

(** * The exit code *)
Section exit_code.
Context `{P : Platform} `{B : Build} `{A : !Archives}.
Implicit Types v : VaultInterface.

(** The exit code an event asks for. *)
Definition exit_of (e : VaultEvent) : option Z :=
  match e with
  | VConnectionCloses => Some (ErrorToInt connection_aborted)
  | VStopProcess => Some 0
  | VReceives bs =>
      match ParseTag bs with Ok (kVaultShutdownRequest, _) => Some 0 | _ => None end
  | _ => None
  end.

(** The first one of a run. *)
Fixpoint first_exit (evs : list VaultEvent) : option Z :=
  match evs with
  | [] => None
  | e :: evs => match exit_of e with Some code => Some code | None => first_exit evs end
  end.

Definition exit_view v : option Z * bool := (v.(exit_code_promise_), v.(exit_code_flag_)).

Abbreviation same_exit x := (preserves (λ v, exit_view v = x)).

Lemma exit_in_base {T} x (m : M World T) : same_exit x (in_vi_base m).
Proof. intros v. unfold in_vi_base, wp. cbn. by destruct (m (vi_base v)). Qed.
Lemma exit_in_responses {T} x (m : M (Rpc VaultConfig) T) : same_exit x (in_responses m).
Proof. intros v. unfold in_responses, wp. cbn. by destruct (m (on_vault_started_response_ v)). Qed.
Lemma exit_Send x m : same_exit x (vi_Send m).
Proof. apply preserves_bind; [apply preserves_gets|]. intros k. apply exit_in_base. Qed.

#[local] Hint Resolve exit_in_base exit_in_responses exit_Send preserves_bind
  preserves_on_scope_exit preserves_modify : preserves.

Lemma exit_Resume x i : same_exit x (VaultInterface_resume i).
Proof.
  apply preserves_bind; [apply preserves_gets|]. intros [o|]; [|apply preserves_ret].
  apply preserves_bind; [apply preserves_gets|]. intros k.
  apply preserves_on_scope_exit; [|apply exit_in_base].
  apply preserves_bind; [apply exit_in_responses|]. intros _. destruct o; [|apply preserves_throw].
  apply preserves_bind; [by apply preserves_modify|]. intros _. apply preserves_ret.
Qed.

Lemma exit_WaitForExit x : same_exit x WaitForExit.
Proof.
  apply preserves_bind; [apply preserves_gets|]. intros []; [apply preserves_throw|].
  apply preserves_bind; [by apply preserves_modify|]. intros _. apply preserves_gets.
Qed.

(** A message other than a shutdown request. *)
Lemma exit_Receives x bs :
  exit_of (VReceives bs) = None → same_exit x (vi_HandleReceivedMessage bs).
Proof.
  cbn. intros Hb. apply preserves_try_catch; [|intros; apply preserves_ret].
  intros v Hv. unfold wp, mbind, M_bind, lift_res.
  destruct (ParseTag bs) as [[t body]|e|f]; [|done..]. destruct t; try done.
  cbv beta iota. destruct (Parse VaultStartedResponse_codec body) as [m| |]; [|done..].
  cbv beta iota. by apply exit_in_responses.
Qed.

Lemma set_exit_code_view code v :
  v.(exit_code_flag_) = bool_decide (is_Some v.(exit_code_promise_)) →
  exit_view (set_exit_code code v).2 = (Some (default code v.(exit_code_promise_)), true).
Proof.
  intros Hf. unfold set_exit_code, exit_view, mbind, M_bind, gets. rewrite Hf.
  destruct (exit_code_promise_ v) as [c|] eqn:E; [rewrite bool_decide_eq_true_2 by done|
    by rewrite bool_decide_eq_false_2 by by intros []].
  cbn. by rewrite Hf, E, bool_decide_eq_true_2.
Qed.

(** The exit code after an event: what was there, else what the event asks for. *)
Lemma vault_step_exit e v :
  v.(exit_code_flag_) = bool_decide (is_Some v.(exit_code_promise_)) →
  let o := match v.(exit_code_promise_) with Some c => Some c | None => exit_of e end in
  exit_view (vault_step e v).2 = (o, bool_decide (is_Some o)).
Proof.
  intros Hf o. destruct (exit_of e) as [code|] eqn:He.
  - assert (Hs : (vault_step e v).2 = (set_exit_code code v).2).
    { destruct e; cbn in He; try done; [|by injection He as <-..].
      destruct (ParseTag message) as [[[] body]|?|?] eqn:Ht; try done. injection He as <-.
      cbn [vault_step]. unfold vi_HandleReceivedMessage, try_catch, mbind, M_bind, lift_res.
      rewrite Ht. cbv beta iota. unfold HandleVaultShutdownRequest.
      by destruct (set_exit_code 0 v) as [[[]|?|?] ?]. }
    rewrite Hs, set_exit_code_view by done. unfold o.
    destruct (exit_code_promise_ v); by rewrite bool_decide_eq_true_2.
  - assert (Ho : o = exit_code_promise_ v) by (unfold o; by destruct (exit_code_promise_ v)).
    rewrite Ho, <- Hf. change (exit_code_promise_ v, exit_code_flag_ v) with (exit_view v).
    assert (Hsame : same_exit (exit_view v) (vault_step e)); [|by apply Hsame].
    destruct e; cbn in He; try done; cbn [vault_step].
    + apply preserves_bind; [apply exit_Resume|]. intros. apply preserves_ret.
    + by apply exit_Receives.
    + apply exit_in_responses.
    + apply exit_in_responses.
    + apply preserves_bind; [apply exit_WaitForExit|]. intros. apply preserves_ret.
    + apply exit_Send.
    + by apply preserves_modify.
    + apply preserves_bind; [apply preserves_gets|]. intros k.
      destruct (k =? null_connection)%N; [apply preserves_crash|apply exit_in_base].
Qed.

Lemma vault_run_exit evs v :
  v.(exit_code_flag_) = bool_decide (is_Some v.(exit_code_promise_)) →
  (vault_run evs v).(exit_code_promise_) =
    match v.(exit_code_promise_) with Some c => Some c | None => first_exit evs end.
Proof.
  revert v. induction evs as [|e evs IH]; intros v Hf; [cbn; by destruct (exit_code_promise_ v) as [?|]|].
  pose proof (vault_step_exit e v Hf) as [Hp Hq]%pair_equal_spec. cbn [vault_run foldl].
  change (foldl _ ?x evs) with (vault_run evs x). rewrite IH by (by rewrite Hp, Hq).
  rewrite Hp. cbn [first_exit]. destruct (exit_code_promise_ v); [done|]. by destruct (exit_of e).
Qed.

Lemma VaultInterface_begin_exit port w i v :
  VaultInterface_begin (VaultInterface_fields port w) = (Ok i, v) → exit_view v = (None, false).
Proof.
  assert (H : same_exit (None, false) VaultInterface_begin).
  { apply preserves_bind; [apply preserves_gets|]. intros p.
    apply preserves_bind; [apply exit_in_base|]. intros k.
    apply preserves_bind; [by apply preserves_modify|]. intros _.
    apply preserves_on_scope_exit.
    - apply preserves_bind; [apply exit_in_responses|]. intros r.
      apply preserves_bind; [apply exit_in_base|]. intros pid.
      apply preserves_bind; [apply exit_Send|]. intros _. apply preserves_ret.
    - apply preserves_bind; [apply exit_in_responses|]. intros _. apply exit_in_base. }
  intros E. specialize (H (VaultInterface_fields port w) eq_refl). unfold wp in H. by rewrite E in H.
Qed.

(** ** Whether the future was taken *)

Lemma future_in_base {T} (m : M World T) : stable exit_code_future (in_vi_base m).
Proof. intros v. unfold in_vi_base. cbn. by destruct (m (vi_base v)). Qed.
Lemma future_in_responses {T} (m : M (Rpc VaultConfig) T) : stable exit_code_future (in_responses m).
Proof. intros v. unfold in_responses. cbn. by destruct (m (on_vault_started_response_ v)). Qed.

Ltac future_solve := stable_with ltac:(first [apply future_in_base | apply future_in_responses]).

(** Only [WaitForExit] takes it. *)
Definition waits_for_exit (e : VaultEvent) : bool := if e is VWaitForExit then true else false.

Lemma vault_step_future e v :
  (vault_step e v).2.(exit_code_future) = v.(exit_code_future) || waits_for_exit e.
Proof.
  destruct (waits_for_exit e) eqn:He.
  - destruct e; try done. cbn [vault_step]. unfold WaitForExit, mbind, M_bind, gets.
    destruct (exit_code_future v) eqn:E; cbn; by rewrite ?E.
  - rewrite orb_false_r. revert v. change (stable exit_code_future (vault_step e)).
    destruct e; try discriminate He; cbn [vault_step].
    + unfold VaultInterface_resume, destroy_mutex. future_solve.
    + unfold vi_HandleReceivedMessage, HandleVaultStartedResponse, HandleVaultShutdownRequest, set_exit_code.
      future_solve.
    + unfold OnConnectionClosed, set_exit_code. future_solve.
    + future_solve.
    + future_solve.
    + unfold SendJoined, vi_Send. future_solve.
    + unfold KillConnection. future_solve.
    + unfold SendInvalidMessage. future_solve.
    + unfold StopProcess, HandleVaultShutdownRequest, set_exit_code. future_solve.
Qed.

Lemma vault_run_future evs v :
  (vault_run evs v).(exit_code_future) = v.(exit_code_future) || existsb waits_for_exit evs.
Proof.
  revert v. induction evs as [|e evs IH]; intros v; [by rewrite orb_false_r|]. cbn [vault_run foldl existsb].
  change (foldl _ ?x evs) with (vault_run evs x). by rewrite IH, vault_step_future, orb_assoc.
Qed.

Lemma VaultInterface_begin_future port w : (VaultInterface_begin (VaultInterface_fields port w)).2.(exit_code_future) = false.
Proof.
  change false with (VaultInterface_fields port w).(exit_code_future). revert w. intros w.
  generalize (VaultInterface_fields port w). change (stable exit_code_future VaultInterface_begin).
  unfold VaultInterface_begin, destroy_mutex, vi_Send. future_solve.
Qed.

(** C31: the exit code of a vault process is decided by the first of the events that ask for
    one, 0 for a shutdown request and the code of [connection_aborted] for a lost
    connection; before such an event the first call of [WaitForExit] blocks, after it it returns
    that code, and no later event changes it.  A second call of [WaitForExit] does not return but
    throws, although its declaration says that it does not. *)
Theorem exit_code_first_wins port w i v0 evs :
  VaultInterface_begin (VaultInterface_fields port w) = (Ok i, v0) →
  let v := vault_run evs v0 in
  v.(exit_code_promise_) = first_exit evs ∧
  (WaitForExit v).1 = if existsb waits_for_exit evs then Throw std_exception else Ok (first_exit evs).
Proof.
  intros Hb. pose proof (VaultInterface_begin_exit _ _ _ _ Hb) as [Hp Hf]%pair_equal_spec. cbv zeta.
  pose proof (VaultInterface_begin_future port w) as Ht. rewrite Hb in Ht. cbn in Ht.
  assert (Hr : exit_code_promise_ (vault_run evs v0) = first_exit evs).
  { rewrite vault_run_exit; [by rewrite Hp|]. by rewrite Hp, Hf, bool_decide_eq_false_2 by by intros []. }
  split; [done|]. unfold WaitForExit, mbind, M_bind, gets. rewrite vault_run_future, Ht. cbn.
  destruct (existsb waits_for_exit evs); [done|]. cbn. by rewrite Hr.
Qed.
End exit_code.

(** * The configuration *)
Section configuration.
Context `{P : Platform} `{L : !PlatformLaws} `{B : Build} `{A : !Archives} `{AL : !ArchiveLaws}
  `{AS : !ArchiveSafety}.
Implicit Types v : VaultInterface.

(** What the constructor leaves while it waits for the manager. *)
Definition awaiting v : Prop :=
  v.(on_vault_started_response_) = mkRpc [start_wait (PromiseAndTimer_make kRpcTimeout)] (response_callback 0 null_callback) true.

Lemma VaultInterface_begin_run port w i v :
  VaultInterface_begin (VaultInterface_fields port w) = (Ok i, v) →
  i = 0%nat ∧ awaiting v ∧ v.(exit_code_future) = false ∧
  ∃ o, tcp_connect port w.(os) = (Normally v.(vi_tcp_connection_), o).
Proof.
  unfold VaultInterface_begin, in_vi_base, os_call. unfold mbind at 1, M_bind at 1, gets at 1.
  unfold mbind at 1, M_bind at 1. unfold zoom at 1. cbn [vi_base VaultInterface_fields vault_manager_port_].
  destruct (tcp_connect port (os w)) as [[k|e] o]; [|done]. cbn [of_lib].
  unfold vi_Send, modify, mbind, M_bind, on_scope_exit, gets, in_vi_base, in_responses.
  cbn -[Send to_u64 Close SetResponseCallback].
  change (SetResponseCallback Rpc_make) with (Ok 0%nat, mkRpc (ResultType:=VaultConfig)
    [start_wait (PromiseAndTimer_make kRpcTimeout)] (response_callback 0 null_callback) true).
  cbn -[Send to_u64 Close]. destruct (Send k (VaultStarted_ _) _) as [[[]|e|f] w2]; cbn -[Close]; [| |done].
  - intros [= <- <-]. split_and!; [done..|]. by exists o.
  - destruct (Close k w2) as [[?|?|?] ?]; by intros [=].
Qed.

(** A parsed response always has its Pmid. *)
Lemma parsed_response body m :
  Parse VaultStartedResponse_codec body = Ok m → is_Fault (GetValue_VaultStartedResponse m) = false.
Proof.
  unfold Parse. cbn [load VaultStartedResponse_codec]. unfold VaultStartedResponse_load.
  intros H. res_inv. done.
Qed.

Lemma HandleVaultStartedResponse_step m v :
  v.(on_vault_started_response_).(callback) ≠ null_callback →
  HandleVaultStartedResponse m v =
    in_responses (rpc_step GetValue_VaultStartedResponse (Response m)) v.
Proof.
  intros Hc. unfold HandleVaultStartedResponse, in_responses. cbn [zoom rpc_step].
  unfold mbind, M_bind, gets. by destruct (callback (on_vault_started_response_ v)).
Qed.

(** A constructed vault whose response came in time with the configuration [cfg]. *)
Context (cfg : VaultConfig).
Record configured v : Prop := {
  cf_connection : v.(vi_tcp_connection_) ≠ null_connection;
  cf_callback : v.(on_vault_started_response_).(callback) = response_callback 0 null_callback;
  cf_request : ∃ p, v.(on_vault_started_response_).(requests) = [p] ∧ request_wf p ∧
    is_Some p.(promise) ∧ (p.(timer_state) = timer_ready wait_aborted ∨ p.(timer_state) = timer_done);
  cf_config : v.(vault_config_) = Some cfg;
}.

Lemma configured_same v v' :
  v'.(on_vault_started_response_) = v.(on_vault_started_response_) →
  v'.(vi_tcp_connection_) = v.(vi_tcp_connection_) → v'.(vault_config_) = v.(vault_config_) →
  configured v → configured v'.
Proof. intros Hr Hc Hk [? ? ? ?]. split; by rewrite ?Hr, ?Hc, ?Hk. Qed.

Lemma vi_base_good {T} (m : M World T) v :
  configured v → is_Fault (m v.(vi_base)).1 = false → isafe configured (in_vi_base m) v.
Proof.
  intros Hv Hm. unfold in_vi_base. eapply isafe_run; [cbn; by rewrite (surjective_pairing (m (vi_base v)))|done|].
  by apply (configured_same v).
Qed.

Lemma responses_good {T} (m : M (Rpc VaultConfig) T) x s v p :
  configured v → m v.(on_vault_started_response_) = (x, s) → is_Fault x = false →
  s.(callback) = response_callback 0 null_callback → s.(requests) = [p] → request_wf p →
  is_Some p.(promise) → (p.(timer_state) = timer_ready wait_aborted ∨ p.(timer_state) = timer_done) →
  isafe configured (in_responses m) v.
Proof.
  intros [? ? ? ?] Hm Hx Hc Hr Hp Ho Ht.
  eapply isafe_run; [unfold in_responses; cbn; by rewrite Hm|done|]. split; cbn; eauto.
Qed.

Lemma set_exit_code_good code v : configured v → isafe configured (set_exit_code code) v.
Proof.
  intros Hv. apply isafe_bind; [by apply isafe_gets|]. intros b v' E _. injection E as <- <-.
  destruct (exit_code_flag_ v); [by apply isafe_ret|]. apply isafe_modify. by apply (configured_same v).
Qed.

Lemma answered_settled {T} (o : Outcome T) p :
  request_wf p → is_Some p.(promise) →
  (p.(timer_state) = timer_ready wait_aborted ∨ p.(timer_state) = timer_done) → answered o p = p.
Proof.
  intros [Hf _] Hp Ht. unfold answered, settle. rewrite Hf, bool_decide_eq_true_2 by done.
  unfold cancel_wait. by destruct Ht as [->| ->].
Qed.

Lemma started_response_good m v :
  is_Fault (GetValue_VaultStartedResponse m) = false → configured v →
  isafe configured (HandleVaultStartedResponse m) v.
Proof.
  intros Hm Hv. pose proof Hv as [_ Hc (p & Hr & Hp & Ho & Ht) _].
  assert (Hn : callback (on_vault_started_response_ v) ≠ null_callback) by by rewrite Hc.
  pose proof (HandleVaultStartedResponse_step m v Hn) as Hstep.
  destruct (invoke_run GetValue_VaultStartedResponse (response_callback 0 null_callback) m
    (on_vault_started_response_ v) Hm) as (s' & E & Hr' & Hc' & _).
  cbn [chain foldl foldr] in Hr'. rewrite Hr in Hr'. cbn in Hr'.
  change (cancel_wait (settle ?o p)) with (answered o p) in Hr'. rewrite answered_settled in Hr' by done.
  unfold isafe, wp. rewrite Hstep. fold (wp (in_responses (rpc_step GetValue_VaultStartedResponse (Response m)))
    (λ r s', is_Fault r = false ∧ configured s') v).
  apply (responses_good _ (Ok tt) s' v p); try done; [|by rewrite Hc', Hc].
  cbn [rpc_step]. unfold mbind, M_bind, gets. by rewrite Hc.
Qed.

Lemma Receives_configured bs v : configured v → isafe configured (vi_HandleReceivedMessage bs) v.
Proof.
  intros Hv. apply isafe_try_catch; [|intros; by apply isafe_ret].
  apply isafe_bind; [apply isafe_lift_res; [apply ar_MessageTag_safe|done]|].
  intros [t body] v' E _. injection E as E <-. destruct t; try by apply isafe_ret.
  - assert (Hl : is_Fault (Parse VaultStartedResponse_codec body) = false).
    { apply Parse_safe. intros bs'. cbn [load VaultStartedResponse_codec]. unfold VaultStartedResponse_load.
      assert (Hc : codec_safe (ar_AES256KeyAndIV ⊗ ar_CipherText ⊗ ar_Path)) by codec_solve.
      assert (Hr : codec_safe VaultStartedResponse_rest) by (unfold VaultStartedResponse_rest; codec_solve).
      apply Res_bind_safe; [apply Hc|]. intros [[[key ep] dir] b1] _.
      apply Res_bind_safe; [apply of_lib_safe|]. intros pmid _.
      apply Res_bind_safe; [apply Hr|]. by intros [[[[? ?] ?] ?] ?]. }
    apply isafe_bind; [by apply isafe_lift_res|]. intros m v' Em _. injection Em as Em <-.
    apply started_response_good; [by eapply parsed_response|done].
  - by apply set_exit_code_good.
Qed.

Lemma vi_Send_good m v : message_ok m → configured v → isafe configured (vi_Send m) v.
Proof.
  intros Hm Hv. apply isafe_bind; [by apply isafe_gets|]. intros k v' E _. injection E as <- <-.
  apply vi_base_good; [done|]. unfold Send, mbind, M_bind, lift_res.
  pose proof (Serialise_safe m Hm). destruct (Serialise m); [|done..].
  destruct (N.eqb_spec (vi_tcp_connection_ v) null_connection) as [E|]; [|done]. by destruct (cf_connection _ Hv).
Qed.

(** The events of a constructed object. *)
Definition after_construction (e : VaultEvent) : Prop :=
  match e with VResume _ | VKillConnection => False | _ => True end.

Lemma vault_step_configured e v :
  after_construction e → configured v → isafe configured (vault_step e) v.
Proof.
  intros He Hv. pose proof Hv as [Hk Hc (p & Hr & Hp & Ho & Ht) _]. destruct e; try done; cbn [vault_step].
  - by apply Receives_configured.
  - by apply set_exit_code_good.
  - apply (responses_good _ (Ok tt) (on_vault_started_response_ v) v p); try done. cbn [rpc_step].
    unfold at_request, modify. f_equal. destruct (on_vault_started_response_ v) as [rs c a]. cbn in *. subst.
    f_equal. destruct i; [|done]. cbn. f_equal. unfold wait_ends. by destruct Ht as [->| ->].
  - destruct i as [|i].
    2: { apply (responses_good _ (Ok tt) (on_vault_started_response_ v) v p); try done.
         unfold on_timer, mbind, M_bind, gets. by rewrite Hr. }
    destruct Ht as [Ht|Ht].
    + apply (responses_good _ (Ok tt) (at_request 0 (with_timer timer_done) (on_vault_started_response_ v)).2 v
        (with_timer timer_done p)); try done; [|cbn; by rewrite Hr|by apply with_timer_wf|by right].
      unfold on_timer, mbind, M_bind, gets. rewrite Hr. cbn. by rewrite Ht.
    + apply (responses_good _ (Ok tt) (on_vault_started_response_ v) v p); try done; [|by right].
      unfold on_timer, mbind, M_bind, gets. rewrite Hr. cbn. by rewrite Ht.
  - apply isafe_bind; [|intros; by apply isafe_ret]. apply isafe_bind; [by apply isafe_gets|].
    intros b v' E _. injection E as <- <-. destruct (exit_code_future v); [by apply isafe_throw|].
    apply isafe_bind; [apply isafe_modify; by apply (configured_same v)|]. intros [] v' _ Hv'. by apply isafe_gets.
  - by apply vi_Send_good.
  - apply isafe_bind; [by apply isafe_gets|]. intros k v' E _. injection E as <- <-.
    destruct (N.eqb_spec (vi_tcp_connection_ v) null_connection); [done|]. by apply vi_base_good.
  - by apply set_exit_code_good.
Qed.

Lemma vault_run_configured evs v :
  Forall after_construction evs → configured v → configured (vault_run evs v).
Proof.
  intros He. revert v. induction He as [|e evs He _ IH]; intros v Hv; [done|].
  apply IH. by apply (vault_step_configured e v He Hv).
Qed.

End configuration.

Section delivery.
Context `{P : Platform} `{L : !PlatformLaws} `{B : Build} `{A : !Archives} `{AL : !ArchiveLaws}
  `{AS : !ArchiveSafety}.
Implicit Types v : VaultInterface.

(** The configuration a response stands for. *)
Definition config_of (pmid : Pmid) (pmids : list PublicPmid) (vault_info : VaultInfo) : VaultConfig :=
  mkVaultConfig pmid vault_info.(vault_dir) vault_info.(max_disk_usage)
    (mkTestConfig kNone (if TESTING then pmids else []))
    (if USE_VLOGGING && TESTING then vault_info.(send_hostname_to_visualiser_server) else false)
    (if USE_VLOGGING then vault_info.(vlog_session_id) else "").

Lemma receive_response pmid pmids info key bs v :
  Serialise (VaultStartedResponse_ (VaultStartedResponse_make pmid pmids info key)) = Ok bs →
  vi_HandleReceivedMessage bs v =
    try_catch (HandleVaultStartedResponse (VaultStartedResponse_make pmid pmids info key)) (λ _, mret tt) v.
Proof.
  intros Hs. destruct (Serialise_ParseTag _ _ Hs) as (body & Ht & Hb). cbn [save_body tag] in *.
  assert (Hp : Parse VaultStartedResponse_codec body = Ok (VaultStartedResponse_make pmid pmids info key)).
  { eapply Parse_saved; [|exact Hb]. apply VaultStartedResponse_codec_ok_at.
    unfold VaultStartedResponse_of_build, VaultStartedResponse_make. cbn.
    split_and!; by intros ->. }
  unfold vi_HandleReceivedMessage, try_catch. unfold mbind, M_bind, lift_res. rewrite Ht. cbv beta iota.
  by rewrite Hp.
Qed.

Lemma GetValue_make pmid pmids info key :
  GetValue_VaultStartedResponse (VaultStartedResponse_make pmid pmids info key) =
    Ok (config_of pmid pmids info).
Proof. unfold config_of. cbn. by destruct TESTING, USE_VLOGGING. Qed.

Lemma receive_started pmid pmids info key bs v t :
  Serialise (VaultStartedResponse_ (VaultStartedResponse_make pmid pmids info key)) = Ok bs →
  v.(on_vault_started_response_) = mkRpc [mkPromiseAndTimer None kRpcTimeout t false] (response_callback 0 null_callback) true →
  vi_HandleReceivedMessage bs v =
    (Ok tt, set_started_response
      (mkRpc [cancel_wait (mkPromiseAndTimer (Some (Value (config_of pmid pmids info))) kRpcTimeout t true)]
         (response_callback 0 null_callback) true) v).
Proof.
  intros Hs Hv. rewrite (receive_response _ _ _ _ _ _ Hs). unfold HandleVaultStartedResponse, in_responses.
  unfold try_catch at 1, zoom. rewrite Hv. unfold mbind, M_bind, gets. cbn [callback invoke].
  unfold try_catch, lift_res, mbind, M_bind. by rewrite GetValue_make.
Qed.

(** The constructor completes on the response. *)
Lemma response_configures port w i v0 pmid pmids info key bs :
  (∀ o k o', tcp_connect port o = (Normally k, o') → k ≠ null_connection) →
  VaultInterface_begin (VaultInterface_fields port w) = (Ok i, v0) →
  Serialise (VaultStartedResponse_ (VaultStartedResponse_make pmid pmids info key)) = Ok bs →
  ∃ v1 v2, vi_HandleReceivedMessage bs v0 = (Ok tt, v1) ∧ VaultInterface_resume i v1 = (Ok true, v2) ∧
    configured (config_of pmid pmids info) v2 ∧ v2.(exit_code_future) = false.
Proof.
  intros Hc Hb Hs. destruct (VaultInterface_begin_run _ _ _ _ Hb) as (-> & Hv & Hx & o & Hk).
  apply Hc in Hk. rewrite (receive_started _ _ _ _ _ _ timer_waiting Hs Hv). eexists _, _. split; [reflexivity|].
  split; [reflexivity|]. split; [|done]. split; [done|done| |done]. eexists. split; [reflexivity|].
  cbn. split_and!; [split|done|by left]; cbn; [by rewrite bool_decide_eq_true_2|done].
Qed.

(** C32: the vault gets the configuration the manager means: the constructor that is
    answered by a [VaultStartedResponse] completes, [GetConfiguration] returns the Pmid,
    directory, disk usage and test data of the vault's [VaultInfo], and from then on,
    unless [KillConnection] is called, nothing that happens to the object, a
    second response or a late timer included, is undefined behaviour. *)
Theorem configuration_delivered port w i v0 pmid pmids info key bs :
  (∀ o k o', tcp_connect port o = (Normally k, o') → k ≠ null_connection) →
  VaultInterface_begin (VaultInterface_fields port w) = (Ok i, v0) →
  Serialise (VaultStartedResponse_ (VaultStartedResponse_make pmid pmids info key)) = Ok bs →
  ∃ v1 v2, vi_HandleReceivedMessage bs v0 = (Ok tt, v1) ∧ VaultInterface_resume i v1 = (Ok true, v2) ∧
    GetConfiguration v2 = (Ok (VaultConfig_copy (config_of pmid pmids info)), v2) ∧
    ∀ evs e, Forall after_construction (evs ++ [e]) →
      is_Fault (vault_step e (vault_run evs v2)).1 = false ∧
      (vault_run evs v2).(vault_config_) = Some (config_of pmid pmids info).
Proof.
  intros Hc Hb Hs. destruct (response_configures _ _ _ _ _ _ _ _ _ Hc Hb Hs) as (v1 & v2 & H1 & H2 & Hv & _).
  exists v1, v2. split_and!; [done|done| |].
  - unfold GetConfiguration, mbind, M_bind, gets. by rewrite (cf_config _ _ Hv).
  - intros evs e [He Hl]%Forall_app. pose proof (vault_run_configured _ evs v2 He Hv) as H3.
    split; [|by apply (cf_config _ _ H3)].
    assert (after_construction e) as He' by by inversion Hl. by apply (vault_step_configured _ e _ He' H3).
Qed.

(** C33: three ways the object can still go wrong.  A response that comes when the wait has
    already ended completes the constructor and leaves the queued handler of the timer
    to lock a mutex that is gone; a response that comes after the wait expired fails
    the assertion of [HandleVaultStartedResponse], while the constructor throws
    [timed_out]; and after [KillConnection] the destructor closes a null pointer. *)
Theorem vault_interface_hazards port w i v0 pmid pmids info key bs :
  VaultInterface_begin (VaultInterface_fields port w) = (Ok i, v0) →
  Serialise (VaultStartedResponse_ (VaultStartedResponse_make pmid pmids info key)) = Ok bs →
  (let v := vault_run [VWaitEnds i false; VReceives bs; VResume i] v0 in
   is_Some v.(vault_config_) ∧ (vault_step (VTimerRuns i) v).1 = Fault dangling_reference) ∧
  (let v := vault_run [VWaitEnds i false; VTimerRuns i] v0 in
   (vault_step (VReceives bs) v).1 = Fault assert_failed ∧
   (v.(vi_tcp_connection_) ≠ null_connection →
    (VaultInterface_resume i v).1 = Throw (maidsafe_error timed_out))) ∧
  (VaultInterface_destroy (vault_step VKillConnection v0).2).1 = Fault null_deref.
Proof.
  intros Hb Hs. destruct (VaultInterface_begin_run _ _ _ _ Hb) as (-> & Hv & _).
  unfold awaiting in Hv. split_and!.
  - cbv zeta. cbn [vault_run foldl vault_step].
    erewrite (receive_started _ _ _ _ bs _ (timer_ready wait_done) Hs);
      [|unfold in_responses; cbn; by rewrite Hv].
    by split.
  - cbv zeta. assert (Hr : on_vault_started_response_ (vault_run [VWaitEnds 0 false; VTimerRuns 0] v0) =
      mkRpc [mkPromiseAndTimer (Some (Exception (maidsafe_error timed_out))) kRpcTimeout timer_done true] null_callback true).
    { cbn [vault_run foldl vault_step]. unfold in_responses. cbn. by rewrite Hv. }
    revert Hr. generalize (vault_run [VWaitEnds 0 false; VTimerRuns 0] v0). intros v Hr. split.
    + cbn [vault_step]. rewrite (receive_response _ _ _ _ _ _ Hs).
      unfold HandleVaultStartedResponse, in_responses, try_catch. cbn. by rewrite Hr.
    + intros Hk. unfold VaultInterface_resume, mbind, M_bind, gets. rewrite Hr. cbn -[Close].
      unfold Close. by destruct (N.eqb_spec (vi_tcp_connection_ v) null_connection).
  - done.
Qed.
End delivery.
