(* ===== verification/Handshake.v ===== *)
(** The two ends of a connection together: a client's constructor against the manager's
    handlers, and a vault's constructor against [HandleVaultStarted]. *)
From S2P Require Export Requests ClientInterface VaultInterface.
From S2P Require NewConnections ClientConnections.
From S2P Require Import Demo.

Section handshake.
Context `{P : Platform} `{L : !PlatformLaws} `{B : Build} `{A : !Archives} `{AL : !ArchiveLaws}
  `{AS : !ArchiveSafety}.
Implicit Types w : World.

(** The messages that carry a challenge or a response can be archived. *)
Definition archives_all : Prop :=
  ∀ m, tag m = kChallenge ∨ tag m = kChallengeResponse → ∃ bs, Serialise m = Ok bs.

(** A signature of a private key is checked by the public key of the same [Maid]. *)
Definition signatures_check : Prop := ∀ challenge maid,
  CheckSignature challenge (Sign challenge (Maid_private_key maid))
    (PublicMaid_public_key (PublicMaid_of_Maid maid)) = true.

Lemma Send_run k m bs w :
  Serialise m = Ok bs → k ≠ null_connection → Send k m w = (Ok tt, set_trace (λ t, t ++ [Sent k bs]) w).
Proof. intros Hs Hk. unfold Send, mbind, M_bind, lift_res. rewrite Hs. by destruct (N.eqb_spec k null_connection). Qed.

(** The manager's side of the first message: it draws a challenge and sends it. *)
Lemma manager_challenges k bs1 w :
  archives_all → system_wf w → is_Some (w.(nc).(connections_) !! k) →
  Serialise ValidateConnectionRequest_ = Ok bs1 →
  ∃ plain bs2 w1, HandleReceivedMessage k bs1 w = (Ok tt, w1) ∧
    Serialise (Challenge_ (mkChallenge plain)) = Ok bs2 ∧ w1.(trace) = w.(trace) ++ [Sent k bs2] ∧
    (∃ t, w1.(cc).(unvalidated_clients_) !! k = Some (plain, t)) ∧ w1.(cc).(clients_) !! k = None.
Proof.
  intros Hall Hw Ha Hs. destruct (Serialise_ParseTag _ _ Hs) as (body & Ht & _). cbn [tag] in Ht.
  assert (Hk : k ≠ null_connection).
  { intros ->. rewrite (sys_nc _ Hw) in Ha. by destruct Ha. }
  pose proof (RemoveFromNewConnections_run k w) as Hrem. rewrite decide_True in Hrem by done.
  destruct (taken_off _ _ _ _ Hw Hrem) as (Hw1 & _ & Hc & _).
  set (w1 := NewConnections.set_connections (delete k) w) in *.
  set (plain := PlainText_of_bytes (RandomBytes 100 200 w1.(os)).1).
  destruct (Hall (Challenge_ (mkChallenge plain)) (or_introl eq_refl)) as [bs2 Hbs2].
  set (w2 := set_os (λ _, (RandomBytes 100 200 w1.(os)).2) w1).
  assert (Htab : ClientConnections.table w2.(cc) !! k = None) by (by apply eq_None_not_Some).
  pose proof (ClientConnections.Add_run k plain w2 Htab) as Hadd.
  assert (Hrun : HandleValidateConnectionRequest k w = (Ok tt, set_trace (λ t, t ++ [Sent k bs2])
    (ClientConnections.set_unvalidated <[k := (plain, mkTimer kRpcTimeout [on_unvalidated_client_timer k])]> w2))).
  { unfold HandleValidateConnectionRequest. rewrite (M_bind_run _ _ _ _ _ Hrem).
    rewrite (M_bind_run _ _ _ _ _ (os_call'_run _ w1)). cbv zeta.
    rewrite (M_bind_run _ _ _ _ _ Hadd). by apply Send_run. }
  exists plain, bs2. eexists. split.
  - unfold HandleReceivedMessage, try_catch. unfold mbind, M_bind, lift_res. rewrite Ht. cbv beta iota.
    cbn [dispatch]. by rewrite Hrun.
  - split_and!; [done|done| |].
    + eexists. cbn. by rewrite lookup_insert_eq.
    + by apply ClientConnections.table_None in Htab as [? _].
Qed.

(** The client's side of the challenge. *)
Lemma client_answers maid wc c0 i plain bs2 :
  connects_properly → archives_all →
  ClientInterface_begin (ClientInterface_fields maid wc) = (Ok i, c0) →
  Serialise (Challenge_ (mkChallenge plain)) = Ok bs2 →
  ∃ c1 c2 bs3, ci_HandleReceivedMessage bs2 c0 = (Ok tt, c1) ∧
    ClientInterface_resume i c1 = (Ok true, c2) ∧
    Serialise (ChallengeResponse_ (ChallengeResponse_make (PublicMaid_of_Maid maid)
      (Sign plain (Maid_private_key maid)))) = Ok bs3 ∧
    c2.(base).(trace) = c0.(base).(trace) ++ [Sent c0.(ci_tcp_connection_) bs3].
Proof.
  intros Hc Hall Hb Hs. destruct (ClientInterface_begin_wf _ _ _ _ Hc Hb) as (Hw & -> & <- & _ & Hr & Hcb).
  destruct (Serialise_ParseTag _ _ Hs) as (body & Ht & Hbody). cbn [tag save_body] in *.
  pose proof (Parse_saved _ _ _ (Challenge_codec_ok (mkChallenge plain)) Hbody) as Hp.
  destruct (Hall (ChallengeResponse_ (ChallengeResponse_make (PublicMaid_of_Maid (kMaid_ c0))
    (Sign plain (Maid_private_key (kMaid_ c0))))) (or_intror eq_refl)) as [bs3 Hbs3].
  set (r1 := mkRpc [mkPromiseAndTimer (Some (Value plain)) kRpcTimeout (timer_ready wait_aborted) true]
    (response_callback 0 null_callback) true).
  assert (E1 : ci_HandleReceivedMessage bs2 c0 = (Ok tt, set_on_challenge r1 c0)).
  { unfold ci_HandleReceivedMessage, try_catch. unfold mbind at 1, M_bind at 1, lift_res.
    rewrite Ht. cbv beta iota. unfold mbind at 1, M_bind at 1. rewrite Hp. cbv beta iota.
    pose proof (cl_alive _ Hw) as Ha. destruct c0 as [b m [rs cb al] ? ? ? ? ? ?]. cbn in Hr, Hcb, Ha.
    subst rs cb al. reflexivity. }
  exists (set_on_challenge r1 c0). eexists _, bs3. split; [done|]. split; [|split; [done|]].
  - unfold ClientInterface_resume, ci_Send, in_base.
    unfold mbind, M_bind, gets, on_scope_exit. cbn -[Send Sign ChallengeResponse_make].
    rewrite (Send_run _ _ bs3) by (done || apply Hw). cbn. reflexivity.
  - done.
Qed.

End handshake.
