(* ===== verification/EndToEnd.v ===== *)
(** A request for a vault, followed from the client that made it, through the manager and the
    process it starts, to the client's future. *)
From S2P Require Export Handshake.
From S2P Require NewConnections ClientConnections.
From S2P Require Import Demo.

Section end_to_end.
Context `{P : Platform} `{L : !PlatformLaws} `{B : Build} `{A : !Archives} `{AL : !ArchiveLaws}
  `{AS : !ArchiveSafety}.
Implicit Types w : World.

(** The replies of this exchange can be archived. *)
Record archives_replies : Prop := {
  ar_report : ∀ m, ∃ bs, Serialise (VaultStarted_ m) = Ok bs;
  ar_configuration : ∀ m, is_Some m.(vsr_pmid) → ∃ bs, Serialise (VaultStartedResponse_ m) = Ok bs;
  ar_running : ∀ l k, is_Some k.(vk_pmid_and_signer) →
    ∃ bs, Serialise (VaultRunningResponse_ (mkVaultRunningResponse l (Some k) None)) = Ok bs;
}.

(** What the manager does once it has chosen the keys. *)
Definition add_and_save (i : VaultInfo) : M World unit :=
  AddProcess i 0;; all ← GetAll; WriteConfigFile all.

(** The process with the keys of the next vault. *)
Definition with_keys (w : World) : World :=
  set_pmids (λ l, l ++ [(CreatePmidAndSigner w.(os)).1]) (set_os (λ _, (CreatePmidAndSigner w.(os)).2) w).

(** ** The manager is asked *)

Lemma with_keys_wf w : system_wf w → system_wf (with_keys w).
Proof.
  intros Hw. eapply system_same; try done. intros j [x Hx]. cbn. exists x. by apply lookup_app_l_Some.
Qed.

Lemma add_and_save_facts i w w1 :
  system_wf w → ptr_ok w.(pmids) i.(pmid_and_signer) → add_and_save i w = (Ok tt, w1) →
  ∃ pid, vaults w1 = vaults w ++ [started_child i 0 pid] ∧ w1.(pmids) = w.(pmids) ∧ w1.(cc) = w.(cc) ∧
    w1.(queue) = w.(queue).
Proof.
  intros Hw Hp H. apply M_bind_Ok in H as ([] & wa & E & H).
  apply M_bind_Ok in H as (all & wb & E' & H). unfold GetAll, gets in E'. injection E' as _ <-.
  rewrite AddProcess_run in E by (done || apply pm_wf_pointers, Hw).
  destruct (decide _); [done|]. destruct (decide _); [done|].
  destruct (bp_execute _ _ _) as [[pid|e] os']; simplify_eq. exists pid.
  match type of H with WriteConfigFile ?l ?w' = _ => pose proof (WriteConfigFile_files l w') as F end.
  rewrite H in F. destruct F as (Fq & Fpm & Fcc & _ & Fpmids). cbn in Fq, Fpm, Fcc, Fpmids.
  split_and!; [unfold vaults; by rewrite Fpm|done..].
Qed.

Lemma request_received k q bs w w' :
  StartVaultRequest_of_build q → Serialise (StartVaultRequest_ q) = Ok bs →
  HandleStartVaultRequest k q w = (Ok tt, w') → HandleReceivedMessage k bs w = (Ok tt, w').
Proof.
  intros Hq Hs Hh. destruct (Serialise_ParseTag _ _ Hs) as (body & Ht & Hb). cbn [tag save_body] in *.
  pose proof (Parse_saved _ _ _ (StartVaultRequest_codec_ok_at _ Hq) Hb) as Hp.
  unfold HandleReceivedMessage, try_catch, mbind, M_bind, lift_res. rewrite Ht. cbv beta iota.
  cbn [dispatch]. unfold mbind, M_bind, lift_res. rewrite Hp. cbv beta iota. by rewrite Hh.
Qed.

Lemma report_received k v bs w w' :
  Serialise (VaultStarted_ v) = Ok bs → VaultManager.HandleVaultStarted k v w = (Ok tt, w') →
  HandleReceivedMessage k bs w = (Ok tt, w').
Proof.
  intros Hs Hh. destruct (Serialise_ParseTag _ _ Hs) as (body & Ht & Hb). cbn [tag save_body] in *.
  pose proof (Parse_saved _ _ _ (VaultStarted_codec_ok v) Hb) as Hp.
  unfold HandleReceivedMessage, try_catch, mbind, M_bind, lift_res. rewrite Ht. cbv beta iota.
  cbn [dispatch]. unfold mbind, M_bind, lift_res. rewrite Hp. cbv beta iota. by rewrite Hh.
Qed.

(** ** The owner is told *)

(** The only connection validated under the name gets the keys. *)
Lemma notify_owner_sends n lab i keys k bs w :
  (∀ k', validated w !! k' = Some n ↔ k' = k) → k ≠ null_connection → w.(pmids) !! i = Some keys →
  Serialise (VaultRunningResponse_ (VaultRunningResponse_keys lab keys w.(os)).1) = Ok bs →
  notify_owner n lab (Some i) w =
    (Ok tt, set_trace (λ t, t ++ [Sent k bs]) (set_os (λ _, (VaultRunningResponse_keys lab keys w.(os)).2) w)).
Proof.
  intros Hn Hk Hi Hs. unfold notify_owner, try_catch.
  assert (Hf : ClientConnections.FindValidatedName n w = (Ok k, w)).
  { unfold ClientConnections.FindValidatedName, mbind, M_bind, gets.
    destruct (list_find _ _) as [[j [cl m]]|] eqn:Hf.
    - apply list_find_Some in Hf as (Hj & Hm & _). cbn in Hm. subst m.
      assert (Hcl : validated w !! cl = Some n) by (apply elem_of_entries; by eapply list_elem_of_lookup_2).
      apply Hn in Hcl as ->. done.
    - apply list_find_None in Hf. rewrite Forall_forall in Hf.
      destruct (Hf (k, n)); [|done]. apply elem_of_entries. by apply Hn. }
  rewrite (M_bind_run _ _ _ _ _ Hf).
  rewrite (M_bind_run _ _ w keys w) by (unfold deref_pmid; by rewrite Hi).
  rewrite (M_bind_run _ _ _ _ _ (os_call'_run _ w)). by rewrite (Send_run k _ bs).
Qed.

(** The process of the added vault reports in on a silent connection. *)
Lemma report_served kv w j c i keys bsv k n :
  archives_replies → system_wf w → is_Some (w.(nc).(connections_) !! kv) →
  list_find (λ c', GetProcessId c' = GetProcessId c) (vaults w) = Some (j, c) →
  c.(info).(pmid_and_signer) = Some i → w.(pmids) !! i = Some keys → c.(info).(owner_name) = n →
  (∀ k', validated w !! k' = Some n ↔ k' = k) → Identity_IsInitialised n = true →
  Serialise (VaultStarted_ (mkVaultStarted (GetProcessId c))) = Ok bsv →
  ∃ bs2 bs3 w' m, HandleReceivedMessage kv bsv w = (Ok tt, w') ∧
    w'.(trace) = w.(trace) ++ [Sent kv bs2; Sent k bs3] ∧ vaults w' = alter (connected kv) j (vaults w) ∧
    Serialise (started_response w kv c keys) = Ok bs2 ∧ Serialise (VaultRunningResponse_ m) = Ok bs3 ∧
    m = (VaultRunningResponse_keys c.(info).(label) keys w.(os)).1.
Proof.
  intros Har Hw Ha Hf Hi Hkeys Hown Hn Hinit Hs.
  destruct (ar_configuration Har (VaultStartedResponse_make keys.1 w.(env).(g_public_pmids)
    (set_connection kv c.(info)) w.(cfg).(kSymmKeyAndIV_))) as [bs2 Hbs2]; [by eexists|].
  destruct (VaultStarted_run kv (mkVaultStarted (GetProcessId c)) w j c i keys bs2 Hw Ha Hf Hi Hkeys Hbs2)
    as [Hw' Hrun]. cbv zeta in Hw', Hrun. rewrite Hown, Hinit in Hrun.
  match type of Hrun with _ = _ ?w' => set (w3 := w') in * end.
  set (m := (VaultRunningResponse_keys c.(info).(label) keys w.(os)).1).
  assert (Hbs3 : ∃ bs3, Serialise (VaultRunningResponse_ m) = Ok bs3).
  { unfold m, VaultRunningResponse_keys, VaultKeys_make. destruct (RandomBytes _ _ w.(os)).
    apply (ar_running Har). by eexists. }
  destruct Hbs3 as [bs3 Hbs3].
  assert (Hk : k ≠ null_connection).
  { apply (client_not_null w); [done|]. rewrite ClientConnections.table_lookup.
    pose proof (proj2 (Hn k) eq_refl) as Hv. unfold validated in Hv. by rewrite Hv. }
  rewrite (notify_owner_sends n _ i keys k bs3 w3 Hn Hk Hkeys Hbs3) in Hrun.
  exists bs2, bs3. eexists. exists m. split_and!; [by eapply report_received| |done..].
  cbn. by rewrite <- app_assoc.
Qed.

(** The client settles the request with the keys. *)
Lemma keys_settle c l i keys o bs :
  client_wf c → c.(ongoing_vault_requests_) !! l = Some i →
  Serialise (VaultRunningResponse_ (VaultRunningResponse_keys l keys o).1) = Ok bs →
  ∃ c' r, ci_HandleReceivedMessage bs c = (Ok tt, c') ∧ c'.(vault_requests) !! i = Some r ∧
    r.(vr_request).(promise) = Some (Value keys).
Proof.
  intros Hc Hl Hs. destruct (VaultRunningResponse_keys l keys o) as [m o'] eqn:E. cbn [fst] in Hs.
  destruct (receive_running m bs c Hs (VaultRunningResponse_keys_ok _ _ _ _ _ E)) as (x & Hx & Hrun).
  unfold VaultRunningResponse_keys, VaultKeys_make in E. destruct (RandomBytes _ _ o). simplify_eq.
  cbn in Hx. injection Hx as <-. cbn [vrr_vault_label] in Hrun. unfold hand_over in Hrun. rewrite Hl in Hrun.
  destruct (cl_ongoing _ Hc _ _ Hl) as (r & Hr & _ & Hn).
  eexists _, _. split; [exact Hrun|]. split; [etransitivity; [apply list_lookup_alter_eq|by rewrite Hr]|].
  cbn. pose proof (cl_requests _ Hc) as Hq. rewrite Forall_lookup in Hq.
  rewrite answered_promise by by apply (Hq i). by rewrite Hn.
Qed.

(** The new vault is the one its process id names. *)
Lemma find_added {T} (f : T → Z) l c :
  NoDup (f <$> l ++ [c]) → list_find (λ c', f c' = f c) (l ++ [c]) = Some (length l, c).
Proof.
  intros Hd. assert (Hl : list_find (λ c', f c' = f c) l = None).
  { apply list_find_None, Forall_forall. intros x Hx E. rewrite fmap_app in Hd.
    apply NoDup_app in Hd as (_ & Hd & _). apply (Hd (f x)); [by apply list_elem_of_fmap_2|].
    rewrite E. apply list_elem_of_singleton. done. }
  rewrite list_find_app_r by done. cbn. rewrite decide_True by done. done.
Qed.

(** C7: a vault that a client asks for reaches it.  When the client chose the directory and
    no index of keys, the manager accepts the request of the only client validated under its name,
    the process it starts connects and reports in, and the manager's answer gets back to the client
    while the request is still registered there, then the vault is sent
    its configuration, the manager has it running on its connection, and the client's
    future holds the very keys the manager drew for it. *)
Theorem vault_request_served c i k kv q bs w w1 n :
  let keys := (CreatePmidAndSigner w.(os)).1 in
  let p := length w.(pmids) in
  archives_replies → client_wf c → c.(ongoing_vault_requests_) !! q.(svr_vault_label) = Some i →
  StartVaultRequest_of_build q → Serialise (StartVaultRequest_ q) = Ok bs →
  Path_empty q.(svr_vault_dir) = false → q.(svr_pmid_list_index) = None →
  system_wf w → (∀ k', validated w !! k' = Some n ↔ k' = k) → Identity_IsInitialised n = true →
  add_and_save (requested_vault q n (Some p)) (with_keys w) = (Ok tt, w1) →
  NoDup (GetProcessId <$> vaults w1) → event_ok w1 (NewConnection kv) →
  ∃ v bsv bs2 bs3 w2 w3 c' r,
    HandleReceivedMessage k bs w = (Ok tt, w1) ∧ vaults w1 = vaults w ++ [v] ∧
    handle (NewConnection kv) w1 = (Ok tt, w2) ∧
    Serialise (VaultStarted_ (mkVaultStarted (GetProcessId v))) = Ok bsv ∧
    HandleReceivedMessage kv bsv w2 = (Ok tt, w3) ∧ w3.(trace) = w2.(trace) ++ [Sent kv bs2; Sent k bs3] ∧
    Serialise (started_response w2 kv v keys) = Ok bs2 ∧ vaults w3 = vaults w ++ [connected kv v] ∧
    ci_HandleReceivedMessage bs3 c = (Ok tt, c') ∧ c'.(vault_requests) !! i = Some r ∧
    r.(vr_request).(promise) = Some (Value keys).
Proof.
  intros keys p Har Hc Hl Hq Hs Hdir Hidx Hw Hn Hinit Hadd Hpids He.
  assert (Hk : validated w !! k = Some n) by by apply Hn.
  assert (Hnull : k ≠ null_connection).
  { apply (client_not_null w); [done|]. rewrite ClientConnections.table_lookup.
    unfold validated in Hk. by rewrite Hk. }
  assert (Hkeys : (with_keys w).(pmids) !! p = Some keys) by (cbn; by rewrite list_lookup_middle).
  destruct (add_and_save_facts (requested_vault q n (Some p)) _ _ (with_keys_wf w Hw) (mk_is_Some _ _ Hkeys) Hadd)
    as (pid & Hv & Hp & Hcc & _).
  set (v := started_child _ 0 pid) in *.
  assert (E1 : HandleReceivedMessage k bs w = (Ok tt, w1)).
  { apply (request_received k q bs w w1 Hq Hs).
    pose proof (TryStartVault_run k q w n Hk Hdir (λ _, Hidx)) as Hrun. cbv zeta in Hrun.
    unfold add_and_save, with_keys in Hadd. fold p in Hrun. rewrite Hadd in Hrun.
    by rewrite (HandleStartVault_run _ _ _ _ _ _ Hrun). }
  assert (Hw1 : system_wf w1).
  { pose proof (handle_wf (MessageReceived k bs) w Hw Hnull) as H. cbn [handle] in H. rewrite E1 in H. by apply H. }
  pose proof He as (Hkv & Hna & Hncl & Hnh).
  assert (Hlook : w1.(nc).(connections_) !! kv = None) by by apply eq_None_not_Some.
  set (w2 := set_trace (λ t, t ++ [Started kv]) (NewConnections.set_connections
    <[kv := mkTimer kRpcTimeout [on_new_connection_timer kv]]> w1)).
  assert (E2 : handle (NewConnection kv) w1 = (Ok tt, w2)).
  { cbn [handle]. unfold HandleNewConnection. erewrite M_bind_run by (rewrite NewConnections.NewAdd_run, Hlook; reflexivity).
    by destruct (N.eqb_spec kv null_connection). }
  assert (Hw2 : system_wf w2).
  { pose proof (handle_wf (NewConnection kv) w1 Hw1) as H. rewrite E2 in H. by apply H. }
  destruct (ar_report Har (mkVaultStarted (GetProcessId v))) as [bsv Hbsv].
  assert (Hval : ∀ k', validated w2 !! k' = Some n ↔ k' = k).
  { intros k'. rewrite <- Hn. unfold validated. change (cc w2) with (cc w1). by rewrite Hcc. }
  destruct (report_served kv w2 (length (vaults w)) v p keys bsv k n Har Hw2) as
    (bs2 & bs3 & w3 & m & E3 & Ht & Hv3 & Hs2 & Hs3 & ->); [| |done|by rewrite <- Hkeys, <- Hp|done..|].
  { cbn. rewrite lookup_insert_eq. by eexists. }
  { change (vaults w2) with (vaults w1). rewrite Hv in *. by apply find_added. }
  destruct (keys_settle c _ i keys _ bs3 Hc Hl Hs3) as (c' & r & E4 & Hr & Hres).
  exists v, bsv, bs2, bs3, w2, w3, c', r. split_and!; try done.
  rewrite Hv3. change (vaults w2) with (vaults w1). rewrite Hv. by rewrite alter_app_r_alt, Nat.sub_diag by done.
Qed.
End end_to_end.
