(* ===== verification/StableNetwork.v ===== *)
(** A network that is declared stable: the client that marks it, the manager, and the clients
    that wait for it. *)
From S2P Require Export EndToEnd.
From S2P Require ClientConnections.
From S2P Require Import Demo.

Section stable_network.
Context `{P : Platform} `{L : !PlatformLaws} `{B : Build} `{A : !Archives} `{AL : !ArchiveLaws}
  `{AS : !ArchiveSafety}.
Context (testing : TESTING = true).
Implicit Types w : World.
Implicit Types c : ClientInterface.

(** ** The manager *)

Lemma set_received k bs w :
  Serialise SetNetworkAsStable_ = Ok bs →
  (HandleSetNetworkAsStable w).1 = Ok tt → HandleReceivedMessage k bs w = HandleSetNetworkAsStable w.
Proof.
  intros Hs H. destruct (Serialise_ParseTag _ _ Hs) as (body & Ht & _). cbn [tag] in Ht.
  unfold HandleReceivedMessage, try_catch, mbind, M_bind, lift_res. rewrite Ht. cbv beta iota.
  unfold dispatch. rewrite testing. by destruct (HandleSetNetworkAsStable w) as [[]?].
Qed.

Lemma wait_received k bs w :
  Serialise NetworkStableRequest_ = Ok bs →
  (HandleNetworkStableRequest k w).1 = Ok tt → HandleReceivedMessage k bs w = HandleNetworkStableRequest k w.
Proof.
  intros Hs H. destruct (Serialise_ParseTag _ _ Hs) as (body & Ht & _). cbn [tag] in Ht.
  unfold HandleReceivedMessage, try_catch, mbind, M_bind, lift_res. rewrite Ht. cbv beta iota.
  unfold dispatch. rewrite testing. by destruct (HandleNetworkStableRequest k w) as [[]?].
Qed.

(** Messages that the manager handles one after the other. *)
Fixpoint receives_all (l : list (ConnectionPtr * bytes)) : M World unit :=
  match l with [] => mret tt | (k, bs) :: l => HandleReceivedMessage k bs;; receives_all l end.

Lemma receives_two k1 b1 k2 b2 w w1 w2 :
  HandleReceivedMessage k1 b1 w = (Ok tt, w1) → HandleReceivedMessage k2 b2 w1 = (Ok tt, w2) →
  receives_all [(k1, b1); (k2, b2)] w = (Ok tt, w2).
Proof. intros H1 H2. cbn. unfold mbind, M_bind. by rewrite H1, H2. Qed.

(** The manager tells a client that waits, in whatever order it is asked and told. *)
Lemma waiting_client_told k k' bs_set bs_wait bs w :
  system_wf w → is_Some (ClientConnections.table w.(cc) !! k) → w.(network_stable_) = false →
  Serialise SetNetworkAsStable_ = Ok bs_set → Serialise NetworkStableRequest_ = Ok bs_wait →
  Serialise NetworkStableResponse_ = Ok bs →
  ∀ l, l ≡ₚ [(k, bs_wait); (k', bs_set)] →
    ∃ w' t, receives_all l w = (Ok tt, w') ∧ w'.(trace) = w.(trace) ++ t ∧ Sent k bs ∈ t.
Proof.
  intros Hw Hk Hns Hset Hwait Hbs l Hl.
  destruct (network_stable_announced w bs Hw Hbs) as (E1 & Hin & Hreq & Hno). specialize (Hno Hns k).
  pose proof (set_received k' bs_set w Hset ltac:(by rewrite E1)) as R1. rewrite E1 in R1.
  symmetry in Hl. apply Permutation_length_2_inv in Hl as [->| ->].
  - pose proof (wait_received k bs_wait w Hwait ltac:(by rewrite Hno)) as R2. rewrite Hno in R2.
    eexists _, _. split; [by eapply receives_two|]. split; [reflexivity|].
    apply list_elem_of_fmap. exists k. split; [done|]. by apply Hin.
  - specialize (Hreq k (client_not_null w k Hw Hk)).
    match type of E1 with _ = (_, ?w1) => pose proof (wait_received k bs_wait w1 Hwait ltac:(by rewrite Hreq)) as R2 end.
    rewrite Hreq in R2. eexists _, _. split; [by eapply receives_two|].
    split; [cbn; by rewrite <- app_assoc|]. apply elem_of_app. right. by left.
Qed.

(** ** The client *)

Lemma told_once bs c :
  Serialise NetworkStableResponse_ = Ok bs →
  ci_HandleReceivedMessage bs c =
    (Ok tt, if c.(network_stable_flag_) then c else set_stable true c.(network_stable_future) true c).
Proof.
  intros Hs. destruct (Serialise_ParseTag _ _ Hs) as (body & Ht & _). cbn [tag] in Ht.
  unfold ci_HandleReceivedMessage, try_catch, mbind, M_bind, lift_res. rewrite Ht. cbv beta iota.
  rewrite testing. unfold HandleNetworkStableResponse, mbind, M_bind, gets.
  by destruct (network_stable_flag_ c).
Qed.

(** [n] responses. *)
Fixpoint told_times (n : nat) (bs : bytes) : M ClientInterface unit :=
  match n with O => mret tt | S n => ci_HandleReceivedMessage bs;; told_times n bs end.

Lemma told_again n bs c :
  Serialise NetworkStableResponse_ = Ok bs → c.(network_stable_flag_) = true →
  told_times n bs c = (Ok tt, c).
Proof.
  intros Hs Hf. induction n as [|n IH]; [done|]. cbn. unfold mbind, M_bind.
  by rewrite (told_once bs c Hs), Hf.
Qed.

(** A client asks and then waits, or marks: one message goes out, and nothing else changes. *)
Lemma ci_Send_run m bs c :
  Serialise m = Ok bs → c.(ci_tcp_connection_) ≠ null_connection →
  ci_Send m c = (Ok tt, set_base (set_trace (λ t, t ++ [Sent c.(ci_tcp_connection_) bs]) c.(base)) c).
Proof. intros Hs Hk. unfold ci_Send, in_base, mbind, M_bind, gets. cbn. by rewrite (Send_run _ m bs). Qed.

(** C30: in a testing build one client waits for a stable network and another one marks the network as
    stable.  Whichever
    of the two messages reaches the manager first, the manager tells the client that waits; and
    however many responses this client then gets, the first one sets the promise that it waits on, the
    others change nothing, and no response is an error. *)
Theorem stable_network_reached k k' c c' w bs_wait bs_set bs :
  system_wf w → is_Some (ClientConnections.table w.(cc) !! k) → w.(network_stable_) = false →
  Serialise NetworkStableRequest_ = Ok bs_wait → Serialise SetNetworkAsStable_ = Ok bs_set →
  Serialise NetworkStableResponse_ = Ok bs →
  c.(ci_tcp_connection_) ≠ null_connection → c'.(ci_tcp_connection_) ≠ null_connection →
  c.(network_stable_set) = false → c.(network_stable_future) = false → c.(network_stable_flag_) = false →
  ∃ waiting marked, WaitForStableNetwork c = (Ok tt, waiting) ∧ MarkNetworkAsStable c' = (Ok tt, marked) ∧
    waiting.(base).(trace) = c.(base).(trace) ++ [Sent c.(ci_tcp_connection_) bs_wait] ∧
    marked.(base).(trace) = c'.(base).(trace) ++ [Sent c'.(ci_tcp_connection_) bs_set] ∧
    (∀ l, l ≡ₚ [(k, bs_wait); (k', bs_set)] →
       ∃ w' t, receives_all l w = (Ok tt, w') ∧ w'.(trace) = w.(trace) ++ t ∧ Sent k bs ∈ t) ∧
    waiting.(network_stable_set) = false ∧
    ∀ n, told_times (S n) bs waiting = (Ok tt, set_stable true true true waiting).
Proof.
  intros Hw Hk Hns Hwait Hset Hbs Hc Hc' Es Ef Eflag. unfold WaitForStableNetwork, MarkNetworkAsStable.
  eexists _, _. split; [|split; [by apply ci_Send_run|]].
  { rewrite (M_bind_run _ _ _ _ _ (ci_Send_run _ _ c Hwait Hc)).
    unfold mbind, M_bind, gets, modify. cbn. by rewrite Ef. }
  split_and!; [done|done|by apply (waiting_client_told k k' bs_set bs_wait bs w)|done|].
  intros n. cbn [told_times]. unfold mbind, M_bind. rewrite (told_once bs _ Hbs). cbn. rewrite Eflag.
  by apply (told_again n bs _ Hbs).
Qed.
End stable_network.
