(* ===== verification/Network.v ===== *)
(** The manager, the clients and whoever else connects to the manager as one transition system:
    clients call their interface, messages are in flight in both directions, and strangers send
    what they like but cannot sign for somebody else. *)
From S2P Require Export StableNetwork Authority Behaviour.
From S2P Require Import Demo.

Section network.
Context `{P : Platform} `{L : !PlatformLaws} `{B : Build} `{A : !Archives} `{AL : !ArchiveLaws}
  `{AS : !ArchiveSafety}.
Implicit Types w : World.
Implicit Types c : ClientInterface.

(** ** The system *)

(** The manager's process, the clients that have connected so far, and the client at the other end
    of each connection of the manager that has one. *)
Record Network := mkNetwork {
  server : World;
  members : list ClientInterface;
  peer_of : gmap ConnectionPtr nat;
}.

Definition client_name c : Identity := PublicMaid_Name (PublicMaid_of_Maid c.(kMaid_)).

(** The messages that the calls of [ClientInterface] send. *)
Definition from_api (m : Message) : Prop :=
  match m with
  | StartVaultRequest_ _ | TakeOwnershipRequest_ _ | SetNetworkAsStable_ | NetworkStableRequest_ => True
  | _ => False
  end.

(** Names whose keys nobody has but the clients of the system. *)
Context (protected : Identity → Prop).

(** A message of a stranger is no signature of the pending challenge by a protected name. *)
Definition no_forgery w (k : ConnectionPtr) (bs : bytes) : Prop :=
  ∀ body r maid challenge t,
    ParseTag bs = Ok (kChallengeResponse, body) → Parse ChallengeResponse_codec body = Ok r →
    r.(public_maid) = Some maid → protected (PublicMaid_Name maid) →
    w.(cc).(unvalidated_clients_) !! k = Some (challenge, t) →
    CheckSignature challenge r.(signature) (PublicMaid_public_key maid) = false.

(** What may reach the manager on a connection: anything that the client at its other end has sent
    so far, in any order and any number of times; or anything that is no forgery. *)
Definition arrives (net : Network) (e : Event) : Prop :=
  match e with
  | MessageReceived k bs =>
      match net.(peer_of) !! k with
      | Some i => ∃ c, net.(members) !! i = Some c ∧ Sent c.(ci_tcp_connection_) bs ∈ c.(base).(trace)
      | None => no_forgery net.(server) k bs
      end
  | _ => True
  end.

(** What may happen at client [i]; it may receive anything the manager has sent to it. *)
Definition may_happen (net : Network) (i : nat) (e : ClientEvent) : Prop :=
  match e with
  | Sends m => from_api m
  | Receives bs => ∃ k, net.(peer_of) !! k = Some i ∧ Sent k bs ∈ net.(server).(trace)
  | _ => True
  end.

(** The connection that the manager accepts gets its other end. *)
Definition accept (peer : option nat) (e : Event) (m : gmap ConnectionPtr nat) : gmap ConnectionPtr nat :=
  if e is NewConnection k then partial_alter (λ _, peer) k m else m.

Inductive net_step (net : Network) : Network → Prop :=
| net_connects maid w i c :
    w.(trace) = [] → ClientInterface_begin (ClientInterface_fields maid w) = (Ok i, c) →
    net_step net (mkNetwork net.(server) (net.(members) ++ [c]) net.(peer_of))
| net_client i e c :
    net.(members) !! i = Some c → may_happen net i e →
    net_step net (mkNetwork net.(server) (<[i := (client_step e c).2]> net.(members)) net.(peer_of))
| net_server e peer r w :
    event_ok net.(server) e → arrives net e → (∀ i, peer = Some i → is_Some (net.(members) !! i)) →
    handle e net.(server) = (r, w) → is_Fault r = false →
    net_step net (mkNetwork w net.(members) (accept peer e net.(peer_of))).

(** A manager without clients and without vaults of protected names. *)
Definition net_start (net : Network) : Prop :=
  validated net.(server) = ∅ ∧ net.(members) = [] ∧ net.(peer_of) = ∅ ∧
  ∀ l n, protected n → ¬ owns net.(server) l n.

(** ** What clients send *)

(** A response to a challenge names the client itself. *)
Definition genuine (maid : Maid) (x : Effect) : Prop :=
  match x with
  | Sent _ bs => ∀ body r, ParseTag bs = Ok (kChallengeResponse, body) →
      Parse ChallengeResponse_codec body = Ok r → r.(public_maid) = Some (PublicMaid_of_Maid maid)
  | _ => True
  end.

Definition grows (maid : Maid) {T} (m : M World T) : Prop :=
  ∀ w, ∃ t, (m w).2.(trace) = w.(trace) ++ t ∧ Forall (genuine maid) t.

Lemma grows_same maid {T} (m : M World T) : (∀ w, (m w).2.(trace) = w.(trace)) → grows maid m.
Proof. intros H w. exists []. by rewrite H, app_nil_r. Qed.

Lemma Close_grows maid k : grows maid (Close k).
Proof.
  intros w. unfold Close. destruct (N.eqb _ _); [exists []; by rewrite app_nil_r|].
  exists [Closed k]. split; [done|by repeat constructor].
Qed.

Lemma Send_grows maid k m : (∀ bs, Serialise m = Ok bs → genuine maid (Sent k bs)) → grows maid (Send k m).
Proof.
  intros H w. unfold Send, mbind, M_bind, lift_res.
  destruct (Serialise m) as [bs|e|f]; [|exists []; by rewrite app_nil_r..].
  destruct (N.eqb _ _); [exists []; by rewrite app_nil_r|]. exists [Sent k bs].
  split; [done|]. constructor; [by apply H|constructor].
Qed.

Lemma other_tag_genuine maid k m bs :
  tag m ≠ kChallengeResponse → Serialise m = Ok bs → genuine maid (Sent k bs).
Proof.
  intros Hm Hs body r Ht. destruct (Serialise_ParseTag _ _ Hs) as (body' & Ht' & _). congruence.
Qed.

Lemma own_response_genuine maid k s bs :
  Serialise (ChallengeResponse_ (ChallengeResponse_make (PublicMaid_of_Maid maid) s)) = Ok bs →
  genuine maid (Sent k bs).
Proof.
  intros Hs body r Ht Hp. destruct (Serialise_ParseTag _ _ Hs) as (body' & Ht' & Hb). cbn [tag save_body] in *.
  pose proof (Parse_saved _ _ _ (ChallengeResponse_codec_ok _) Hb) as Hp'.
  assert (body' = body) by congruence. subst. rewrite Hp in Hp'. by injection Hp' as ->.
Qed.

(** The same client, which has sent nothing since but genuine messages. *)
Definition told c0 c : Prop :=
  c.(kMaid_) = c0.(kMaid_) ∧ c.(ci_tcp_connection_) = c0.(ci_tcp_connection_) ∧
  ∃ t, c.(base).(trace) = c0.(base).(trace) ++ t ∧ Forall (genuine c0.(kMaid_)) t.

Lemma told_refl c : told c c.
Proof. split_and!; [done..|]. exists []. by rewrite app_nil_r. Qed.

Lemma told_same c0 c c' :
  told c0 c → c'.(base) = c.(base) → c'.(kMaid_) = c.(kMaid_) →
  c'.(ci_tcp_connection_) = c.(ci_tcp_connection_) → told c0 c'.
Proof. unfold told. by intros ? -> -> ->. Qed.

Lemma told_in_base {T} c0 (m : M World T) : grows c0.(kMaid_) m → preserves (told c0) (in_base m).
Proof.
  intros Hm c (H1 & H2 & t & Ht & Hg). unfold wp, in_base. cbn. destruct (Hm c.(base)) as (t' & Ht' & Hg').
  destruct (m (base c)) as [r w']. split_and!; [done..|]. cbn in *. exists (t ++ t').
  rewrite Ht', Ht, app_assoc. split; [done|by apply Forall_app_2].
Qed.

Lemma told_in_challenges {T} c0 (m : M (Rpc PlainText) T) : preserves (told c0) (in_challenges m).
Proof. intros c Hc. unfold wp, in_challenges. cbn. destruct (m (on_challenge_ c)). by eapply told_same. Qed.

Lemma told_modify c0 f :
  (∀ c, (f c).(base) = c.(base) ∧ (f c).(kMaid_) = c.(kMaid_) ∧
     (f c).(ci_tcp_connection_) = c.(ci_tcp_connection_)) → preserves (told c0) (modify f).
Proof. intros Hf c Hc. destruct (Hf c) as (H1 & H2 & H3). by eapply told_same. Qed.

(** Close goals [preserves (told c0) m], operation by operation; [tac] closes what sends. *)
Ltac told_with tac :=
  repeat lazymatch goal with
    | |- preserves _ (mbind _ _) => apply preserves_bind; [|intros ?]
    | |- preserves _ (try_catch _ _) => apply preserves_try_catch; [|intros ?]
    | |- preserves _ (on_scope_exit _ _) => apply preserves_on_scope_exit
    | |- preserves _ (mret _) => apply preserves_ret
    | |- preserves _ (throw _) => apply preserves_throw
    | |- preserves _ (raise _) => apply preserves_throw
    | |- preserves _ (crash _) => apply preserves_crash
    | |- preserves _ (gets _) => apply preserves_gets
    | |- preserves _ (lift_res _) => apply preserves_lift_res
    | |- preserves _ (in_challenges _) => apply told_in_challenges
    | |- preserves _ (in_base (Close _)) => apply told_in_base, Close_grows
    | |- preserves _ (modify _) => apply told_modify; by intros ?
    | |- preserves _ (match ?x with _ => _ end) => destruct x
    | |- preserves _ _ => tac
    end.

Lemma ci_Send_told c0 m : tag m ≠ kChallengeResponse → preserves (told c0) (ci_Send m).
Proof.
  intros Hm. unfold ci_Send. told_with ltac:(apply told_in_base, Send_grows).
  intros bs. by apply other_tag_genuine.
Qed.

Lemma maid_told c0 : yields (told c0) (λ m, m = c0.(kMaid_)) (gets kMaid_).
Proof. intros c Hc. split; [done|]. intros m [= <-]. apply Hc. Qed.

Lemma Resume_told c0 i : preserves (told c0) (ClientInterface_resume i).
Proof.
  unfold ClientInterface_resume.
  apply preserves_bind; [apply preserves_gets|]. intros k.
  apply preserves_bind; [apply preserves_gets|]. intros [[challenge|e]|]; [|told_with ltac:(fail)..].
  apply preserves_on_scope_exit; [|apply told_in_base, Close_grows].
  eapply preserves_yields_bind; [apply maid_told|]. intros maid ->. unfold ci_Send.
  told_with ltac:(apply told_in_base, Send_grows). intros bs. apply own_response_genuine.
Qed.

Lemma client_step_told e c :
  (∀ m, e = Sends m → from_api m) → told c (client_step e c).2.
Proof.
  intros He. apply preserves_at; [|apply told_refl]. destruct e; cbn [client_step].
  - told_with ltac:(apply Resume_told).
  - apply ci_Send_told. specialize (He _ eq_refl). by destruct message.
  - unfold AddVaultRequest. told_with ltac:(fail).
  - unfold ci_HandleReceivedMessage, InvokeCallBack, HandleVaultRunningResponse, HandleNetworkStableResponse,
      at_vault_request. told_with ltac:(fail).
  - told_with ltac:(fail).
  - told_with ltac:(fail).
  - unfold at_vault_request. told_with ltac:(fail).
  - unfold on_vault_request_timer, at_vault_request. told_with ltac:(fail).
Qed.

(** The constructor of a client. *)
Lemma connect_loop_trace n attempts port w : (connect_loop n attempts port w).2.(trace) = w.(trace).
Proof.
  revert attempts port w. induction n as [|n IH]; intros attempts port w; [done|]. cbn [connect_loop].
  destruct (_ && _); [|done]. unfold try_catch, os_call.
  destruct (tcp_connect port (os w)) as [[k|e] o]; [done|]. cbn. by rewrite IH.
Qed.

Lemma ConnectToVaultManager_trace w : (ConnectToVaultManager w).2.(trace) = w.(trace).
Proof.
  unfold ConnectToVaultManager, GetInitialListeningPort, GetTestVaultManagerPort, mbind, M_bind, gets.
  destruct TESTING; [destruct (_ =? 0)|]; apply connect_loop_trace.
Qed.

Lemma begin_genuine maid w i c :
  w.(trace) = [] → ClientInterface_begin (ClientInterface_fields maid w) = (Ok i, c) →
  c.(kMaid_) = maid ∧ Forall (genuine maid) c.(base).(trace).
Proof.
  intros Ht E. set (own := λ c, c.(kMaid_) = maid ∧ Forall (genuine maid) c.(base).(trace)).
  assert (Hbase : ∀ T (m : M World T), grows maid m → preserves own (in_base m)).
  { intros T m Hm c' [H1 H2]. unfold wp, in_base. cbn. destruct (Hm c'.(base)) as (t & Ht' & Hg).
    destruct (m (base c')) as [r w']. split; [done|]. cbn in *. rewrite Ht'. by apply Forall_app_2. }
  assert (Hp : preserves own ClientInterface_begin).
  { unfold ClientInterface_begin, ci_Send.
    apply preserves_bind; [apply Hbase, grows_same, ConnectToVaultManager_trace|]. intros k.
    apply preserves_bind; [by intros c' [? ?]|]. intros [].
    apply preserves_on_scope_exit; [|apply Hbase, Close_grows].
    apply preserves_bind.
    - apply preserves_bind; [apply preserves_gets|]. intros k'. apply Hbase, Send_grows.
      intros bs. by apply other_tag_genuine.
    - intros []. intros c' Hc. unfold wp, in_challenges. cbn. by destruct (SetResponseCallback _). }
  assert (own c) as [-> Hg]; [|done].
  pose proof (preserves_at own _ (ClientInterface_fields maid w) Hp) as H. rewrite E in H. apply H.
  split; [done|]. cbn. by rewrite Ht.
Qed.

(** ** The invariant *)

Record net_ok (net : Network) : Prop := {
  no_genuine : ∀ c, c ∈ net.(members) → Forall (genuine c.(kMaid_)) c.(base).(trace);
  no_ends : ∀ k i, net.(peer_of) !! k = Some i → is_Some (net.(members) !! i);
  no_names : ∀ k i c n, net.(peer_of) !! k = Some i → net.(members) !! i = Some c →
    validated net.(server) !! k = Some n → n = client_name c;
  no_strangers : ∀ k n, validated net.(server) !! k = Some n → protected n → is_Some (net.(peer_of) !! k);
  no_owners : ∀ l n, owns net.(server) l n → protected n →
    ∃ c bs, c ∈ net.(members) ∧ client_name c = n ∧ asks_for bs l ∧
      Sent c.(ci_tcp_connection_) bs ∈ c.(base).(trace);
}.

Lemma start_ok net : net_start net → net_ok net.
Proof.
  intros (Hv & Hm & He & Ho). split; rewrite ?Hv, ?Hm, ?He; try done.
  - intros c []%elem_of_nil.
  - intros l n H Hp. by destruct (Ho l n Hp).
Qed.

Lemma connects_ok net c :
  Forall (genuine c.(kMaid_)) c.(base).(trace) → net_ok net →
  net_ok (mkNetwork net.(server) (net.(members) ++ [c]) net.(peer_of)).
Proof.
  intros Hc [H1 H2 H3 H4 H5]. split; cbn.
  - intros c' [Hc'|Hc']%elem_of_app; [by apply H1|]. by apply list_elem_of_singleton in Hc' as ->.
  - intros k i Hk. destruct (H2 k i Hk) as [c' Hc']. exists c'. by apply lookup_app_l_Some.
  - intros k i c' n Hk Hi. destruct (H2 k i Hk) as [c'' Hc''].
    rewrite (lookup_app_l_Some _ _ _ _ Hc'') in Hi. injection Hi as <-. by apply (H3 k i).
  - done.
  - intros l n Hl Hn. destruct (H5 l n Hl Hn) as (c' & bs & Hc' & ?). exists c', bs.
    split; [|done]. apply elem_of_app. by left.
Qed.

Lemma client_ok net i c c' :
  net.(members) !! i = Some c → told c c' → net_ok net →
  net_ok (mkNetwork net.(server) (<[i := c']> net.(members)) net.(peer_of)).
Proof.
  intros Hi (Hmaid & Hconn & t & Ht & Hg) [H1 H2 H3 H4 H5].
  assert (Hlen : (i < length net.(members))%nat) by by eapply lookup_lt_Some.
  assert (Hin : c ∈ net.(members)) by by eapply list_elem_of_lookup_2.
  split; cbn.
  - intros d [j Hd]%list_elem_of_lookup. apply list_lookup_insert_Some in Hd as [(<- & <- & _)|[_ Hd]].
    + rewrite Ht, Hmaid. by apply Forall_app_2; [apply H1|].
    + apply H1. by eapply list_elem_of_lookup_2.
  - intros k j Hk. apply lookup_lt_is_Some. rewrite length_insert. apply lookup_lt_is_Some. by eapply H2.
  - intros k j d n Hk Hd Hn. apply list_lookup_insert_Some in Hd as [(<- & <- & _)|[_ Hd]].
    + rewrite (H3 k i c n) by done. unfold client_name. by rewrite Hmaid.
    + by apply (H3 k j).
  - done.
  - intros l n Hl Hn. destruct (H5 l n Hl Hn) as (d & bs & [j Hd]%list_elem_of_lookup & Hname & Hask & Hs).
    destruct (decide (j = i)) as [->|Hj].
    + simplify_eq. exists c', bs. split_and!; [| |done|].
      * apply (list_elem_of_lookup_2 _ i). by rewrite list_lookup_insert_eq.
      * unfold client_name. by rewrite Hmaid.
      * rewrite Ht, Hconn. apply elem_of_app. by left.
    + exists d, bs. split; [|done]. apply (list_elem_of_lookup_2 _ j). by rewrite list_lookup_insert_ne.
Qed.

(** Whoever is validated after an event was validated before it, or answered just now. *)
Lemma validated_cases e w k n :
  validated (handle e w).2 !! k = Some n →
  validated w !! k = Some n ∨
  ∃ bs body r maid challenge t,
    e = MessageReceived k bs ∧ ParseTag bs = Ok (kChallengeResponse, body) ∧
    Parse ChallengeResponse_codec body = Ok r ∧ r.(public_maid) = Some maid ∧
    n = PublicMaid_Name maid ∧ w.(cc).(unvalidated_clients_) !! k = Some (challenge, t) ∧
    CheckSignature challenge r.(signature) (PublicMaid_public_key maid) = true.
Proof.
  intros Hn. destruct (decide (validated w !! k = Some n)); [by left|]. right. by apply newly_validated.
Qed.

(** The other ends after an event, at a connection that is validated then. *)
Lemma accept_validated net e peer k n :
  event_ok net.(server) e → validated (handle e net.(server)).2 !! k = Some n →
  accept peer e net.(peer_of) !! k = net.(peer_of) !! k.
Proof.
  intros He Hn. destruct e as [k'| | | | | | |]; try done. cbn.
  destruct (decide (k' = k)) as [->|]; [|by rewrite lookup_partial_alter_ne].
  destruct He as (_ & _ & Hc & _). exfalso. apply Hc.
  apply validated_cases in Hn as [Hn|(bs & ? & ? & ? & ? & ? & ? & _)]; [|done].
  rewrite ClientConnections.table_lookup. unfold validated in Hn. by rewrite Hn.
Qed.

Lemma names_ok net e k i c n :
  net_ok net → arrives net e → net.(peer_of) !! k = Some i → net.(members) !! i = Some c →
  validated (handle e net.(server)).2 !! k = Some n → n = client_name c.
Proof.
  intros Hok Ha Hk Hc Hn.
  apply validated_cases in Hn as [Hn|(bs & body & r & maid & ch & t & -> & Ht & Hp & Hm & -> & _)].
  - by apply (no_names _ Hok k i).
  - cbn in Ha. rewrite Hk in Ha. destruct Ha as (c' & Hc' & Hs). assert (c' = c) as -> by congruence.
    pose proof (no_genuine _ Hok c ltac:(by eapply list_elem_of_lookup_2)) as Hg.
    rewrite Forall_forall in Hg. specialize (Hg _ Hs body r Ht Hp). rewrite Hm in Hg. by injection Hg as ->.
Qed.

Lemma strangers_ok net e k n :
  net_ok net → arrives net e → validated (handle e net.(server)).2 !! k = Some n → protected n →
  is_Some (net.(peer_of) !! k).
Proof.
  intros Hok Ha Hn Hprot.
  apply validated_cases in Hn as [Hn|(bs & body & r & maid & ch & t & -> & Ht & Hp & Hm & -> & Hu & Hs)].
  - by apply (no_strangers _ Hok k n).
  - cbn in Ha. destruct (peer_of net !! k) as [i|]; [by eexists|].
    by rewrite (Ha body r maid ch t Ht Hp Hm Hprot Hu) in Hs.
Qed.

(** Some client with the name has asked for the vault. *)
Definition has_asked (net : Network) (l : NonEmptyString) (n : Identity) : Prop :=
  protected n → ∃ c bs, c ∈ net.(members) ∧ client_name c = n ∧ asks_for bs l ∧
    Sent c.(ci_tcp_connection_) bs ∈ c.(base).(trace).

Lemma owners_ok net e l n :
  net_ok net → arrives net e → owns (handle e net.(server)).2 l n → has_asked net l n.
Proof.
  intros Hok Ha. apply owns_owned, handle_owned.
  - intros k bs l' -> Hask m Hm Hprot. destruct (no_strangers _ Hok k m Hm Hprot) as [i Hi].
    cbn in Ha. rewrite Hi in Ha. destruct Ha as (c & Hc & Hs). exists c, bs.
    split_and!; [by eapply list_elem_of_lookup_2| |done|done]. symmetry. by apply (no_names _ Hok k i).
  - destruct (owned_owns net.(server)) as [Hv Hq]. split; (eapply Forall_impl; [done|]).
    + intros c [Hc Hf]. split; [intros H; by apply (no_owners _ Hok)|].
      intros f Hf' H. apply (no_owners _ Hok); [|done]. by apply Hf.
    + intros [h r|i r] Hk; [done|]. intros H. by apply (no_owners _ Hok).
Qed.

Lemma server_ok net e peer :
  event_ok net.(server) e → arrives net e → (∀ i, peer = Some i → is_Some (net.(members) !! i)) →
  net_ok net → net_ok (mkNetwork (handle e net.(server)).2 net.(members) (accept peer e net.(peer_of))).
Proof.
  intros He Ha Hpeer Hok. split; cbn.
  - apply Hok.
  - intros k i. destruct e as [k'| | | | | | |]; cbn; try by apply Hok.
    destruct (decide (k' = k)) as [->|].
    + rewrite lookup_partial_alter_eq. apply Hpeer.
    + rewrite lookup_partial_alter_ne by done. by apply Hok.
  - intros k i c n Hk Hc Hn. rewrite (accept_validated net e peer k n He Hn) in Hk. by eapply names_ok.
  - intros k n Hn Hprot. rewrite (accept_validated net e peer k n He Hn). by eapply strangers_ok.
  - intros l n Hl Hprot. by apply (owners_ok net e l n Hok Ha Hl).
Qed.

Lemma net_step_ok net net' : net_step net net' → net_ok net → net_ok net'.
Proof.
  intros Hs Hok. destruct Hs as [maid w i c Ht E|i e c Hi Hm|e peer r w He Ha Hp E _].
  - destruct (begin_genuine maid w i c Ht E) as [<- Hg]. by apply connects_ok.
  - eapply client_ok; [done| |done]. apply client_step_told. by intros m ->.
  - pose proof (server_ok net e peer He Ha Hp Hok) as H. by rewrite E in H.
Qed.

(** C5: however the calls of the clients, the messages in flight - late, reordered or repeated -, the
    events of the manager and the messages of strangers interleave: a connection with a client at
    its other end is never validated under another name than that client's; a name whose keys
    only clients have is never held by a stranger; and if it owns a vault, one of the clients
    with this name has sent a request for that very vault. *)
Theorem owners_have_asked net0 net :
  net_start net0 → rtc net_step net0 net →
  (∀ k i c n, net.(peer_of) !! k = Some i → net.(members) !! i = Some c →
     validated net.(server) !! k = Some n → n = client_name c) ∧
  (∀ k n, validated net.(server) !! k = Some n → protected n →
     ∃ i c, net.(peer_of) !! k = Some i ∧ net.(members) !! i = Some c ∧ client_name c = n) ∧
  (∀ l n, owns net.(server) l n → has_asked net l n).
Proof.
  intros H0 Hs. assert (net_ok net) as [H1 H2 H3 H4 H5].
  { apply start_ok in H0. induction Hs as [|? ? ? Hstep _ IH]; [done|]. by apply IH, (net_step_ok _ _ Hstep). }
  split_and!; [by eauto| |by intros l n Hl Hn; apply H5].
  intros k n Hn Hprot. destruct (H4 k n Hn Hprot) as [i Hi]. destruct (H2 k i Hi) as [c Hc].
  exists i, c. split_and!; [done..|]. symmetry. by eapply H3.
Qed.
End network.
