(* ===== verification/Relocation.v ===== *)
(** A vault that its new owner wants in another directory, from the request to the process in that
    directory: the manager, the old process, and the two orders in which its end is noticed. *)
From S2P Require Export VaultInterface Restarts EndToEnd.
From S2P Require Import Demo.

Section relocation.
Context `{P : Platform} `{L : !PlatformLaws} `{B : Build} `{A : !Archives} `{AL : !ArchiveLaws}
  `{AS : !ArchiveSafety}.
Implicit Types w : World.

(** The request [q] of the client [n] on the connection [k], for the vault [c] that the manager has at
    place [j] in another directory. *)
Record moving (k : ConnectionPtr) (q : TakeOwnershipRequest) (n : Identity) (j : nat) (c : Child) w : Prop := {
  mv_wf : system_wf w;
  mv_client : validated w !! k = Some n;
  mv_vault : managed w q.(tor_vault_label) j c;
  mv_dir : vault_path c ≠ q.(tor_vault_dir);
  mv_connected : vault_connection c ≠ null_connection;
}.

(** The vault once it was told to stop, and the manager then. *)
Definition leaving (q : TakeOwnershipRequest) (n : Identity) (c : Child) : Child :=
  set_timer (stop_timer (vault_label c)) (stopping (Some (ChangeChunkstorePath_on_exit (moved_vault q n c))) c).
Definition told_to_move (q : TakeOwnershipRequest) (n : Identity) (j : nat) (c : Child) w : World :=
  set_vaults (alter (λ _, leaving q n c) j)
    (set_trace (λ t, t ++ [Sent (vault_connection c) shutdown_bytes;
                           Sent (vault_connection c) shutdown_bytes]) w).

Lemma take_received k q bs w w' :
  Serialise (TakeOwnershipRequest_ q) = Ok bs → HandleTakeOwnershipRequest k q w = (Ok tt, w') →
  HandleReceivedMessage k bs w = (Ok tt, w').
Proof.
  intros Hs Hh. destruct (Serialise_ParseTag _ _ Hs) as (body & Ht & Hb). cbn [tag save_body] in *.
  pose proof (Parse_saved _ _ _ (TakeOwnershipRequest_codec_ok q) Hb) as Hp.
  unfold HandleReceivedMessage, try_catch, mbind, M_bind, lift_res. rewrite Ht. cbv beta iota.
  cbn [dispatch]. unfold mbind, M_bind, lift_res. rewrite Hp. cbv beta iota. by rewrite Hh.
Qed.

Lemma reaped_wf o v : system_wf v → system_wf (reaped o v).
Proof.
  intros Hv. apply (good_system [] v); [done| |by intros ? ?%elem_of_nil].
  by apply (safe_modify [] (reaped o) v (sys_pm _ Hv)).
Qed.

Section move.
Context (k : ConnectionPtr) (q : TakeOwnershipRequest) (n : Identity) (j : nat) (c : Child) (w : World).
Context (Hmoving : moving k q n j c w).
Lemma told_run bs :
  Serialise (TakeOwnershipRequest_ q) = Ok bs →
  HandleReceivedMessage k bs w = (Ok tt, told_to_move q n j c w).
Proof.
  intros Hs. apply (take_received k q bs w _ Hs).
  destruct Hmoving as [Hw Hn Hm Hd Hc].
  pose proof (TakeOwnership_new_dir k q w n j c Hw Hn Hm Hd) as H. cbv zeta in H. rewrite H.
  by destruct (N.eqb_spec (vault_connection c) null_connection).
Qed.

Abbreviation w1 := (told_to_move q n j c w).
Abbreviation old := (leaving q n c).
Abbreviation new_info := (moved_vault q n c).

Lemma old_place : vaults w1 !! j = Some old.
Proof.
  destruct Hmoving as [_ _ [Hj _] _ _]. unfold told_to_move, vaults. cbn.
  rewrite list_lookup_alter_eq. unfold vaults in Hj. by rewrite Hj.
Qed.

Lemma others_same : delete j (vaults w1) = delete j (vaults w).
Proof using.
  unfold told_to_move, vaults. cbn. apply list_eq. intros m. rewrite !list_lookup_delete.
  destruct (decide (m < j)%nat); by rewrite list_lookup_alter_ne by lia.
Qed.

Lemma pids_same : GetProcessId <$> vaults w1 = GetProcessId <$> vaults w.
Proof.
  destruct Hmoving as [_ _ [Hj _] _ _]. unfold told_to_move, vaults in *. cbn. apply list_eq. intros m.
  rewrite !list_lookup_fmap. destruct (decide (m = j)) as [->|]; [|by rewrite list_lookup_alter_ne].
  by rewrite list_lookup_alter_eq, Hj.
Qed.

Lemma told_wf bs : Serialise (TakeOwnershipRequest_ q) = Ok bs → system_wf w1.
Proof.
  intros Hs. pose proof (told_run bs Hs) as E. destruct Hmoving as [Hw Hn _ _ _].
  assert (Hk : k ≠ null_connection).
  { apply (client_not_null w); [done|]. rewrite ClientConnections.table_lookup. unfold validated in Hn. by rewrite Hn. }
  pose proof (handle_wf (MessageReceived k bs) w Hw Hk) as H. cbn [handle] in H. rewrite E in H. by apply H.
Qed.

(** The exit of the old process starts the new one; [v] is the manager when it learns of it. *)
Lemma old_exits ec t v w2 :
  system_wf v → vaults v = vaults w1 → add_and_save new_info (after_exit j old t v) = (Ok tt, w2) →
  OnProcessExit run_functor (vault_label c) ec t v = (Ok tt, w2).
Proof.
  intros Hv Hvs E. rewrite (moved_vault_exit (vault_label c) ec t v j old new_info); try done.
  - unfold add_and_save in E. by rewrite E.
  - split; [|done]. rewrite Hvs. by apply old_place.
Qed.

(** The manager when the new process runs. *)
Lemma new_starts t v w2 :
  system_wf v → vaults v = vaults w1 → add_and_save new_info (after_exit j old t v) = (Ok tt, w2) →
  ∃ pid, vaults w2 = delete j (vaults w) ++ [started_child new_info 0 pid] ∧ w2.(queue) = v.(queue).
Proof.
  intros Hv Hvs E. pose proof old_place as Hj. rewrite <- Hvs in Hj.
  pose proof (after_exit_good v j old t (sys_pm _ Hv)) as Hg.
  destruct (add_and_save_facts new_info (after_exit j old t v) w2) as (pid & H & _ & _ & Hq); [| |done|].
  - apply (good_system [] v); [done|done|by intros ? ?%elem_of_nil].
  - apply (has_pmid_ptr_ok _ _ (ok_pmid _ _ (pm_wf_child _ _ _ (sys_pm _ Hv) Hj))).
  - exists pid. rewrite <- others_same, <- Hvs. by split.
Qed.

(** The manager sees the old vault's connection close before it reaps the process. *)
Lemma close_first bs w2 :
  Serialise (TakeOwnershipRequest_ q) = Ok bs →
  add_and_save new_info (after_exit j old true w1) = (Ok tt, w2) →
  handle (ConnectionClosed (vault_connection c)) w1 = (Ok tt, w2).
Proof.
  intros Hs E. apply (close_run w1 old j w2 (told_wf bs Hs) old_place).
  by apply (old_exits (-1) true w1); [eapply told_wf| |].
Qed.

(** It reaps the process before it sees the connection close. *)
Lemma signal_first bs pid st o w2 :
  Serialise (TakeOwnershipRequest_ q) = Ok bs → w.(pm).(signal_waiting_) = true →
  os_wait w1.(os) = ((pid, st), o) → to_u64 pid ≠ process_GetProcessId o →
  GetProcessId c = to_u64 pid → NoDup (GetProcessId <$> vaults w) →
  add_and_save new_info (after_exit j old false (reaped o w1)) = (Ok tt, w2) →
  handle (SignalReceived wait_done SIGCHLD) w1 = (Ok tt, set_signal_waiting true w2).
Proof.
  intros Hs Hwait Hos Hown Hpid Hnd E. pose proof (told_wf bs Hs) as Hw1.
  cbn [handle]. unfold mbind, M_bind, gets. change (signal_waiting_ (pm w1)) with (signal_waiting_ (pm w)).
  rewrite Hwait. apply (signal_run w1 old j pid st o w2 Hos Hown).
  - rewrite <- Hpid. change (GetProcessId c) with (GetProcessId old).
    apply (list_find_key GetProcessId); [by rewrite pids_same|apply old_place].
  - apply (old_exits _ false (reaped o w1)); [by apply reaped_wf|done|done].
Qed.

(** The old process is gone from the list, so its end is not noticed twice. *)
Lemma late_signal_ignored v pid st o :
  os_wait v.(os) = ((pid, st), o) → to_u64 pid ∉ GetProcessId <$> vaults v →
  vaults (handle (SignalReceived wait_done SIGCHLD) v).2 = vaults v.
Proof using.
  intros Hos Hpid. cbn [handle]. unfold OnSignal, finally, on_scope_exit, mbind, M_bind, gets, modify, os_call'.
  destruct (signal_waiting_ (pm v)); [|done]. rewrite Z.eqb_refl. cbn [negb].
  change (os (set_signal_waiting false v)) with (os v). rewrite Hos.
  destruct (_ =? _); [done|]. destruct (list_find _ _) as [[j' c']|] eqn:Hf; [|done].
  apply list_find_Some in Hf as (Hj & Hp & _). exfalso. apply Hpid, list_elem_of_fmap.
  exists c'. split; [done|]. by eapply list_elem_of_lookup_2.
Qed.

(** The new process takes the old one's place with its connection: when that closes, the new
    process is ended. *)
Lemma late_close_ends v pid :
  system_wf v → vaults v = delete j (vaults w) ++ [started_child new_info 0 pid] →
  ∃ v', handle (ConnectionClosed (vault_connection c)) v = (Ok tt, v') ∧ vaults v' = delete j (vaults w) ∧
    v'.(trace) = v.(trace) ++ exit_trace (started_child new_info 0 pid) true v ∧
    v'.(queue) = v.(queue) ++ [RestartVault (set_connection null_connection new_info) 0].
Proof using.
  intros Hv Hvs. set (x := started_child new_info 0 pid) in *.
  assert (Hj : vaults v !! length (delete j (vaults w)) = Some x)
    by (rewrite Hvs; by apply list_lookup_middle).
  eexists. split; [|split; [|split]].
  - apply (close_run v x _ _ Hv Hj).
    rewrite OnProcessExit_run by (by apply pm_wf_has_pmid, Hv). rewrite (find_label _ _ _ Hv Hj).
    cbn [on_exit x started_child InvokeOnExitFunctor]. unfold mbind, M_bind, mret, M_ret.
    rewrite RestartIfRequired_run, decide_True; [reflexivity|]. by change (exit_restarts x) with 0.
  - change (delete (length (delete j (vaults w))) (vaults v) = delete j (vaults w)).
    by rewrite Hvs, delete_middle, app_nil_r.
  - done.
  - done.
Qed.
End move.

(** ** The old process *)

(** Messages that a vault receives one after the other. *)
Definition vault_receives (l : list bytes) : M VaultInterface unit := for_each vi_HandleReceivedMessage l.

Lemma told_to_stop_twice v :
  v.(exit_code_promise_) = None → v.(exit_code_flag_) = false → v.(exit_code_future) = false →
  ∃ v', vault_receives [shutdown_bytes; shutdown_bytes] v = (Ok tt, v') ∧ (WaitForExit v').1 = Ok (Some 0).
Proof.
  intros Hp Hf Hfut. destruct (Serialise_empty VaultShutdownRequest_) as [bs Hbs]; [done|].
  assert (Hsb : shutdown_bytes = bs) by (unfold shutdown_bytes; by rewrite Hbs). rewrite Hsb.
  destruct (Serialise_ParseTag _ _ Hbs) as (body & Ht & _). cbn [tag] in Ht.
  assert (E : ∀ u, vi_HandleReceivedMessage bs u = set_exit_code 0 u).
  { intros u. unfold vi_HandleReceivedMessage, try_catch, mbind, M_bind, lift_res. rewrite Ht. cbv beta iota.
    unfold HandleVaultShutdownRequest, set_exit_code, mbind, M_bind, gets. by destruct (exit_code_flag_ u). }
  exists (set_exit (Some 0) false true v). unfold vault_receives. cbn [for_each].
  unfold mbind, M_bind. rewrite E. unfold set_exit_code, mbind, M_bind, gets. rewrite Hf.
  unfold modify. rewrite E. unfold set_exit_code, mbind, M_bind, gets. cbn. rewrite Hfut.
  split; [done|]. done.
Qed.

(** ** The whole move *)

(** C27: a client that takes a vault over and wants it in another directory gets it there, when the
    vault is connected and launching it anew succeeds: its message makes the manager ask
    the vault to shut down, twice; the vault's process, which waits for its exit, returns 0; when
    its connection closes the manager launches the vault anew in the new directory, for its new
    owner and with no restarts; and the signal that reports the end of the old process later
    changes nothing. *)
Theorem vault_moves k q n j c w bs v :
  moving k q n j c w → Serialise (TakeOwnershipRequest_ q) = Ok bs →
  v.(exit_code_promise_) = None → v.(exit_code_flag_) = false → v.(exit_code_future) = false →
  let w1 := told_to_move q n j c w in
  HandleReceivedMessage k bs w = (Ok tt, w1) ∧
  w1.(trace) = w.(trace) ++ [Sent (vault_connection c) shutdown_bytes; Sent (vault_connection c) shutdown_bytes] ∧
  (∃ v', vault_receives [shutdown_bytes; shutdown_bytes] v = (Ok tt, v') ∧ (WaitForExit v').1 = Ok (Some 0)) ∧
  ∀ w2, add_and_save (moved_vault q n c) (after_exit j (leaving q n c) true w1) = (Ok tt, w2) →
    handle (ConnectionClosed (vault_connection c)) w1 = (Ok tt, w2) ∧
    (∃ pid, vaults w2 = delete j (vaults w) ++ [started_child (moved_vault q n c) 0 pid]) ∧
    w2.(queue) = w.(queue) ∧
    ∀ pid st o, os_wait w2.(os) = ((pid, st), o) → to_u64 pid ∉ GetProcessId <$> vaults w2 →
      vaults (handle (SignalReceived wait_done SIGCHLD) w2).2 = vaults w2.
Proof.
  intros Hm Hs Hp Hf Hfut w1. split_and!; [by eapply told_run|done|by apply told_to_stop_twice|].
  intros w2 E. destruct (new_starts _ _ _ _ _ _ Hm true w1 w2) as (pid & Hv & Hq);
    [by eapply told_wf|done|done|].
  split_and!; [by eapply close_first|by exists pid|done|]. apply late_signal_ignored.
Qed.

(** C28: when a vault is moved to another directory and the manager is told of the end of the old
    process before it sees its connection close, the vault that has just been launched pays for
    it: it was entered with the connection of the old process, so the closing of that connection
    ends the new process, and the vault is left to be restarted, as after a crash. *)
Theorem moved_vault_pays k q n j c w bs pid st o w2 :
  moving k q n j c w → Serialise (TakeOwnershipRequest_ q) = Ok bs → w.(pm).(signal_waiting_) = true →
  let w1 := told_to_move q n j c w in
  os_wait w1.(os) = ((pid, st), o) → to_u64 pid ≠ process_GetProcessId o →
  GetProcessId c = to_u64 pid → NoDup (GetProcessId <$> vaults w) →
  add_and_save (moved_vault q n c) (after_exit j (leaving q n c) false (reaped o w1)) = (Ok tt, w2) →
  ∃ w3 w4 new, handle (SignalReceived wait_done SIGCHLD) w1 = (Ok tt, w3) ∧
    vaults w3 = delete j (vaults w) ++ [started_child (moved_vault q n c) 0 new] ∧
    handle (ConnectionClosed (vault_connection c)) w3 = (Ok tt, w4) ∧ vaults w4 = delete j (vaults w) ∧
    (running (started_child (moved_vault q n c) 0 new) w3 = true → Terminated new ∈ w4.(trace)) ∧
    w4.(queue) = w.(queue) ++ [RestartVault (set_connection null_connection (moved_vault q n c)) 0].
Proof.
  intros Hm Hs Hwait w1 Hos Hown Hpid Hnd E.
  assert (Hw1 : system_wf w1) by by eapply told_wf.
  destruct (new_starts _ _ _ _ _ _ Hm false (reaped o w1) w2) as (new & Hv & Hq);
    [by apply reaped_wf|done|done|].
  pose proof (signal_first _ _ _ _ _ _ Hm bs pid st o w2 Hs Hwait Hos Hown Hpid Hnd E) as Hsig.
  assert (Hw3 : system_wf (set_signal_waiting true w2)).
  { pose proof (handle_wf (SignalReceived wait_done SIGCHLD) _ Hw1 I) as H. unfold w1 in H. rewrite Hsig in H. by apply H. }
  destruct (late_close_ends q n j c w (set_signal_waiting true w2) new Hw3 Hv) as (w4 & Hc & Hv4 & Ht & Hq4).
  exists (set_signal_waiting true w2), w4, new. split_and!; [done..| |].
  - intros Hr. rewrite Ht. apply elem_of_app. right. unfold exit_trace. rewrite Hr. cbn [andb].
    apply elem_of_app. right. apply elem_of_app. left. by left.
  - rewrite Hq4. cbn. by rewrite Hq.
Qed.
End relocation.
