(* ===== verification/Main.v ===== *)
(** [vault_manager_main.cc]: the options of the executable and its [main], the POSIX one. *)
From S2P Require Export VaultManager.
From S2P Require Import Demo.

(** What [boost::program_options] finds on the command line. *)
Record Options := mkOptions {
  opt_help : bool;
  opt_port : option Z;
  opt_vault_path : option string;
  opt_root_dir : option string;
}.

Section main.
Context `{P : Platform} `{B : Build} `{A : !Archives}.
(** Parsing the command line; a malformed one throws. *)
Context (parse_command_line : list string → Lib Options).

(** [void ShutDownVaultManager(int)]: setting the promise a second time throws. *)
Definition ShutDownVaultManager (g_shutdown_promise : bool) : Res bool :=
  if g_shutdown_promise then Throw std_exception else Ok true.

(** [void HandleProgramOptions(int argc, char** argv)] *)
Definition HandleProgramOptions (argv : list string) : M World unit :=
  variables_map ← lift_res (of_lib (parse_command_line argv));
  (if variables_map.(opt_help) then raise success else mret tt);;
  if TESTING then
    port ← (match variables_map.(opt_port) with
            | Some port =>
                if (port <? 1025) || (port >? 2 ^ 16 - 1) then raise invalid_argument
                else mret (to_u16 port)
            | None => mret (to_u16 (kLivePort + 100))
            end);
    let root_dir := from_option Path_of_string Path_default variables_map.(opt_root_dir) in
    let path_to_vault := from_option Path_of_string Path_default variables_map.(opt_vault_path) in
    SetEnvironment port root_dir path_to_vault 0
  else mret tt.

(** [int main(int argc, char** argv)] up to the [get()] that blocks until a signal comes:
    [None] when it got there, else the exit code. *)
Definition main_begin (argv : list string) : M World (option Z) :=
  try_ (HandleProgramOptions argv;; VaultManager_make;; mret None)
  catch _ ⇒ mret (Some (-5)).

(** The rest of it: the manager is destroyed. *)
Definition main_end : M World Z := VaultManager_destroy;; mret 0.
End main.

(** * The options *)
Section main_theorems.
Context `{P : Platform} `{B : Build} `{A : !Archives}.
Context (parse_command_line : list string → Lib Options).
Implicit Types w : World.

(** The options [main] does not start a manager with. *)
Definition rejected (o : Options) w : Prop :=
  o.(opt_help) = true ∨
  TESTING = true ∧
    ((∃ p, o.(opt_port) = Some p ∧ ¬ 1025 ≤ p ≤ 65535) ∨
     w.(env).(test_env_flag) = false ∧
       (fs_exists (from_option Path_of_string Path_default o.(opt_root_dir)) w.(os)).1 ≠ Normally true).

Lemma SetEnvironment_throws port root vault n w :
  w.(env).(test_env_flag) = false → (fs_exists root w.(os)).1 ≠ Normally true →
  ∃ e o, SetEnvironment port root vault n w = (Throw e, set_os (λ _, o) w).
Proof.
  intros Hf Hr. unfold SetEnvironment. mrun. rewrite Hf. unfold os_call.
  destruct (fs_exists root (os w)) as [[[]|e] o]; [done| |]; cbn; by eexists _, o.
Qed.

(** The executable starts a manager only with sound options: asked for help, given
    a port outside 1025 to 65535, or (as without a [root_dir] option, when the empty
    path does not exist) given a root directory that does not exist, it exits
    with -5 and nothing but the look at the disk has happened; an accepted port is
    used as it is. *)
Theorem main_rejects_options argv o w :
  parse_command_line argv = Normally o →
  (rejected o w → ∃ x, main_begin parse_command_line argv w = (Ok (Some (-5)), set_os (λ _, x) w)) ∧
  (∀ p, TESTING = true → o.(opt_help) = false → o.(opt_port) = Some p → 1025 ≤ p ≤ 65535 →
    HandleProgramOptions parse_command_line argv w =
      SetEnvironment p (from_option Path_of_string Path_default o.(opt_root_dir))
        (from_option Path_of_string Path_default o.(opt_vault_path)) 0 w).
Proof.
  intros Ho.
  assert (Hself : set_os (λ _, os w) w = w) by by destruct w.
  assert (Hthrow : ∀ e x, HandleProgramOptions parse_command_line argv w = (Throw e, set_os (λ _, x) w) →
    main_begin parse_command_line argv w = (Ok (Some (-5)), set_os (λ _, x) w)).
  { intros e x E. unfold main_begin, try_catch, mbind, M_bind. by rewrite E. }
  split.
  - intros [Hh|[Ht [(p & Hp & Hr)|[Hf Hr]]]].
    + exists (os w). apply (Hthrow (maidsafe_error success)). unfold HandleProgramOptions. mrun.
      rewrite Ho. cbn. by rewrite Hh, Hself.
    + exists (os w). unfold HandleProgramOptions in Hthrow.
      destruct (opt_help o) eqn:Hh; [apply (Hthrow (maidsafe_error success))|apply (Hthrow (maidsafe_error invalid_argument))];
        mrun; rewrite Ho; cbn; rewrite Hh, Hself; [done|]. rewrite Ht, Hp.
      destruct (Z.ltb_spec p 1025); [done|]. rewrite Z.gtb_ltb. cbn -[Z.pow].
      destruct (Z.ltb_spec (2 ^ 16 - 1) p); [done|lia].
    + destruct (opt_help o) eqn:Hh.
      { exists (os w). apply (Hthrow (maidsafe_error success)). unfold HandleProgramOptions. mrun.
        rewrite Ho. cbn. by rewrite Hh, Hself. }
      assert (Hset : ∀ port vault, ∃ e x, SetEnvironment port
        (from_option Path_of_string Path_default o.(opt_root_dir)) vault 0 w = (Throw e, set_os (λ _, x) w))
        by (intros; by apply SetEnvironment_throws).
      unfold HandleProgramOptions, mbind, M_bind, lift_res in Hthrow. rewrite Ho in Hthrow. cbn in Hthrow.
      rewrite Hh, Ht in Hthrow. unfold mret, M_ret in Hthrow. cbn in Hthrow.
      destruct (opt_port o) as [p|].
      * destruct ((p <? 1025) || _); [exists (os w); apply (Hthrow (maidsafe_error invalid_argument)); by rewrite Hself|].
        edestruct Hset as (e & x & E). exists x. by apply (Hthrow e).
      * edestruct Hset as (e & x & E). exists x. by apply (Hthrow e).
  - intros p Ht Hh Hp Hr. unfold HandleProgramOptions, mbind, M_bind, lift_res. rewrite Ho. cbn.
    rewrite Hh, Ht, Hp. destruct (Z.ltb_spec p 1025); [lia|]. rewrite Z.gtb_ltb. cbn -[Z.pow].
    destruct (Z.ltb_spec (2 ^ 16 - 1) p); [lia|]. unfold mret, M_ret. cbn -[SetEnvironment].
    unfold to_u16. by rewrite Z.mod_small by lia.
Qed.
End main_theorems.
