(* ===== verification/Service.v ===== *)
(** The Windows executable ([vault_manager_main.cc]): the service of a release build with its
    control handler, and the console program of a testing build.  The manager's constructor
    and destructor are arguments, since those of a Windows build differ in [process_manager.cc]. *)
From S2P Require Export Main.
From S2P Require Import Demo.

(** [SERVICE_STATUS] of the Windows API. *)
Record ServiceStatus := mkServiceStatus {
  dwServiceType : Z;
  dwCurrentState : Z;
  dwControlsAccepted : Z;
  dwWin32ExitCode : Z;
  dwServiceSpecificExitCode : Z;
  dwCheckPoint : Z;
  dwWaitHint : Z;
}.

Definition set_state (x : Z) (s : ServiceStatus) : ServiceStatus :=
  mkServiceStatus s.(dwServiceType) x s.(dwControlsAccepted) s.(dwWin32ExitCode)
    s.(dwServiceSpecificExitCode) s.(dwCheckPoint) s.(dwWaitHint).
Definition set_exit_codes (x y : Z) (s : ServiceStatus) : ServiceStatus :=
  mkServiceStatus s.(dwServiceType) s.(dwCurrentState) s.(dwControlsAccepted) x y
    s.(dwCheckPoint) s.(dwWaitHint).

(** The constants and functions of the Windows API that the program uses. *)
Class WindowsApi `{P : Platform} := {
  SERVICE_WIN32_OWN_PROCESS : Z;
  SERVICE_START_PENDING : Z;
  SERVICE_RUNNING : Z;
  SERVICE_STOPPED : Z;
  SERVICE_ACCEPT_STOP : Z;
  SERVICE_ACCEPT_SHUTDOWN : Z;
  SERVICE_CONTROL_STOP : Z;
  SERVICE_CONTROL_SHUTDOWN : Z;
  ERROR_SERVICE_SPECIFIC_ERROR : Z;
  CTRL_C_EVENT : Z;
  CTRL_CLOSE_EVENT : Z;
  CTRL_SHUTDOWN_EVENT : Z;
  (** The handle, [0] for a failure. *)
  RegisterServiceCtrlHandler : string → OS → Z * OS;
  SetConsoleCtrlHandler : OS → bool * OS;
}.

(** The unnamed enumeration. *)
Definition kMaidSafeVaultManagerStdException : Z := 1.
Definition kMaidSafeVaultServiceUnknownException : Z := 2.
Definition g_service_name : string := "VaultManager".

Section service.
Context `{P : Platform} `{W : !WindowsApi}.

(** The globals of the file, the status reports so far and the manager's state. *)
Record Service := mkService {
  g_shutdown_promise : bool;
  g_service_status : ServiceStatus;
  g_service_status_handle : Z;
  reports : list ServiceStatus;
  manager : World;
}.

Definition set_promise (s : Service) : Service :=
  mkService true s.(g_service_status) s.(g_service_status_handle) s.(reports) s.(manager).
Definition set_service_status (f : ServiceStatus → ServiceStatus) (s : Service) : Service :=
  mkService s.(g_shutdown_promise) (f s.(g_service_status)) s.(g_service_status_handle) s.(reports)
    s.(manager).
Definition set_handle (h : Z) (s : Service) : Service :=
  mkService s.(g_shutdown_promise) s.(g_service_status) h s.(reports) s.(manager).
Definition add_report (s : Service) : Service :=
  mkService s.(g_shutdown_promise) s.(g_service_status) s.(g_service_status_handle)
    (s.(reports) ++ [s.(g_service_status)]) s.(manager).
Definition set_manager (w : World) (s : Service) : Service :=
  mkService s.(g_shutdown_promise) s.(g_service_status) s.(g_service_status_handle) s.(reports) w.

(** [SetServiceStatus(g_service_status_handle, &g_service_status)] *)
Definition SetServiceStatus : M Service unit := modify add_report.

(** [ShutDownVaultManager(0)] on the global promise. *)
Definition shut_down : M Service unit :=
  set ← gets g_shutdown_promise;
  lift_res (ShutDownVaultManager set);; modify set_promise.

(** [void StopService(DWORD exit_code, DWORD error_code)] *)
Definition StopService (exit_code error_code : Z) : M Service unit :=
  modify (set_service_status (set_state SERVICE_STOPPED));;
  modify (set_service_status (set_exit_codes exit_code error_code));;
  SetServiceStatus.

(** [void ControlHandler(DWORD request)]; the cases of the two requests to stop are the same. *)
Definition ControlHandler (request : Z) : M Service unit :=
  if (request =? SERVICE_CONTROL_STOP) || (request =? SERVICE_CONTROL_SHUTDOWN) then
    modify (set_service_status (λ s, set_exit_codes 0 s.(dwServiceSpecificExitCode) s));;
    modify (set_service_status (set_state SERVICE_STOPPED));;
    shut_down;;
    SetServiceStatus
  else SetServiceStatus.

(** [BOOL CtrlHandler(DWORD control_type)] of the console program: whether it handled the event. *)
Definition CtrlHandler (control_type : Z) : M Service bool :=
  if (control_type =? CTRL_C_EVENT) || (control_type =? CTRL_CLOSE_EVENT) ||
     (control_type =? CTRL_SHUTDOWN_EVENT)
  then shut_down;; mret true
  else mret false.

(** [VaultManager::VaultManager()] and [VaultManager::~VaultManager()]. *)
Context (construct destroy : M World unit).

Definition in_manager {T} (m : M World T) : M Service T := zoom manager set_manager m.

(** Destructors are [noexcept]. *)
Definition destroy_manager : M Service unit := λ s,
  match in_manager destroy s with
  | (Throw _, s') => (Fault terminated, s')
  | r => r
  end.

(** [void ServiceMain()] up to its [try] block. *)
Definition ServiceMain_begin : M Service unit :=
  modify (set_service_status (λ _,
    {| dwServiceType := SERVICE_WIN32_OWN_PROCESS;
       dwCurrentState := SERVICE_START_PENDING;
       dwControlsAccepted := Z.lor SERVICE_ACCEPT_STOP SERVICE_ACCEPT_SHUTDOWN;
       dwWin32ExitCode := 0;
       dwServiceSpecificExitCode := 0;
       dwCheckPoint := 0;
       dwWaitHint := 0; |}));;
  handle ← in_manager (os_call' (RegisterServiceCtrlHandler g_service_name));
  modify (set_handle handle);;
  assert_ (negb (handle =? 0)).

(** The [try] block up to its [get()]: whether it got there.  Every exception of the model is a
    [std::exception], so the other [catch] block is never entered. *)
Definition ServiceMain_start : M Service bool :=
  try_ (in_manager construct;;
        modify (set_service_status (set_state SERVICE_RUNNING));;
        SetServiceStatus;;
        mret true)
  catch _ ⇒
    (StopService ERROR_SERVICE_SPECIFIC_ERROR kMaidSafeVaultManagerStdException;; mret false).

(** The rest of it, when the promise is set: the manager is destroyed at the end of the block. *)
Definition ServiceMain_end : M Service unit :=
  try_ (StopService 0 0;; destroy_manager)
  catch _ ⇒ StopService ERROR_SERVICE_SPECIFIC_ERROR kMaidSafeVaultManagerStdException.

(** [main] of a testing build up to the [get()] that blocks: [None] when it got there, else the
    exit code. *)
Definition console_main_begin `{B : Build} (parse_command_line : list string → Lib Options)
    (argv : list string) : M Service (option Z) :=
  try_ (in_manager (HandleProgramOptions parse_command_line argv);;
        handled ← in_manager (os_call' SetConsoleCtrlHandler);
        if handled : bool then in_manager construct;; mret None else mret (Some (-3)))
  catch _ ⇒ mret (Some (-4)).

Definition console_main_end : M Service Z := destroy_manager;; mret 0.

(** ** The service as a transition system: [ServiceMain] in its thread, the control handler in
    the thread of the dispatcher *)

Inductive ServicePhase := Starting | Waiting | Ended.

Inductive service_step : ServicePhase * Service → ServicePhase * Service → Prop :=
| service_starts s b s' :
    ServiceMain_start s = (Ok b, s') →
    service_step (Starting, s) (if b then Waiting else Ended, s')
| service_ends s s' :
    s.(g_shutdown_promise) = true → ServiceMain_end s = (Ok tt, s') →
    service_step (Waiting, s) (Ended, s')
| service_controlled ph request s s' :
    ControlHandler request s = (Ok tt, s') → service_step (ph, s) (ph, s').

(** A request to stop. *)
Definition stop_request (request : Z) : Prop :=
  request = SERVICE_CONTROL_STOP ∨ request = SERVICE_CONTROL_SHUTDOWN.
End service.

(** * What the service reports *)
Section service_theorems.
Context `{P : Platform} `{W : !WindowsApi} (construct destroy : M World unit).
Implicit Types s : Service.

Lemma StopService_run x y s :
  StopService x y s =
    (Ok tt, add_report (set_service_status (λ st, set_exit_codes x y (set_state SERVICE_STOPPED st)) s)).
Proof. done. Qed.

Lemma ControlHandler_stop r s :
  stop_request r →
  ControlHandler r s =
    (let s1 := set_service_status (λ st, set_state SERVICE_STOPPED
                 (set_exit_codes 0 st.(dwServiceSpecificExitCode) st)) s in
     if s.(g_shutdown_promise) then (Throw std_exception, s1)
     else (Ok tt, add_report (set_promise s1))).
Proof.
  intros Hr. unfold ControlHandler.
  replace ((r =? SERVICE_CONTROL_STOP) || _) with true
    by (symmetry; apply orb_true_iff; rewrite !Z.eqb_eq; exact Hr).
  unfold shut_down, SetServiceStatus, ShutDownVaultManager, mbind, M_bind, modify, gets, lift_res. cbn.
  by destruct (g_shutdown_promise s).
Qed.

Lemma ControlHandler_other r s : ¬ stop_request r → ControlHandler r s = (Ok tt, add_report s).
Proof.
  intros Hr. unfold ControlHandler.
  replace ((r =? SERVICE_CONTROL_STOP) || _) with false; [done|].
  symmetry. apply orb_false_iff. rewrite !Z.eqb_neq. split; intros E; apply Hr; [by left|by right].
Qed.

#[export] Instance stop_request_dec r : Decision (stop_request r).
Proof. unfold stop_request. apply _. Defined.

Lemma ServiceMain_start_run s :
  ServiceMain_start construct s =
    match construct s.(manager) with
    | (Ok _, w) => (Ok true, add_report (set_service_status (set_state SERVICE_RUNNING) (set_manager w s)))
    | (Throw _, w) =>
        (Ok false, add_report (set_service_status (λ st, set_exit_codes ERROR_SERVICE_SPECIFIC_ERROR
           kMaidSafeVaultManagerStdException (set_state SERVICE_STOPPED st)) (set_manager w s)))
    | (Fault f, w) => (Fault f, set_manager w s)
    end.
Proof.
  unfold ServiceMain_start, in_manager, try_catch, mbind, M_bind. cbn.
  by destruct (construct (manager s)) as [[[]|e|f] w].
Qed.

Lemma ServiceMain_end_run s :
  ServiceMain_end destroy s =
    (let s1 := add_report (set_service_status (λ st, set_exit_codes 0 0 (set_state SERVICE_STOPPED st)) s) in
     match destroy s.(manager) with
     | (Ok _, w) => (Ok tt, set_manager w s1)
     | (Throw _, w) => (Fault terminated, set_manager w s1)
     | (Fault f, w) => (Fault f, set_manager w s1)
     end).
Proof.
  unfold ServiceMain_end, destroy_manager, in_manager, try_catch, mbind, M_bind. rewrite StopService_run. cbn.
  by destruct (destroy (manager s)) as [[[]|e|f] w].
Qed.

(** The reports of a service, its state and its manager, by phase; [w0] is the machine
    before the manager was constructed. *)
Record service_ok (w0 : World) (ph : ServicePhase) s : Prop := {
  so_reported : last s.(reports) = Some s.(g_service_status) ∨ ph = Starting ∧ s.(reports) = [];
  so_state :
    let state := s.(g_service_status).(dwCurrentState) in
    match ph with
    | Starting => state = if s.(g_shutdown_promise) then SERVICE_STOPPED else SERVICE_START_PENDING
    | Waiting => state = SERVICE_RUNNING ∨ s.(g_shutdown_promise) = true ∧ state = SERVICE_STOPPED
    | Ended => state = SERVICE_STOPPED
    end;
  so_manager :
    match ph with
    | Starting => s.(manager) = w0
    | Waiting => construct w0 = (Ok tt, s.(manager))
    | Ended =>
        (∃ e, construct w0 = (Throw e, s.(manager))) ∨
        s.(g_shutdown_promise) = true ∧
          ∃ w, construct w0 = (Ok tt, w) ∧ destroy w = (Ok tt, s.(manager))
    end;
}.

Lemma last_add_report s : last (add_report s).(reports) = Some (g_service_status (add_report s)).
Proof. apply last_snoc. Qed.

Lemma service_starts_ok w0 s b s' :
  service_ok w0 Starting s → ServiceMain_start construct s = (Ok b, s') →
  service_ok w0 (if b then Waiting else Ended) s'.
Proof.
  intros [_ _ H3]. cbn in H3. rewrite ServiceMain_start_run, H3.
  destruct (construct w0) as [[[]|e|f] w] eqn:Ec; intros [= <- <-];
    (split; [left; apply last_add_report| |]); cbn; [by left|done|done|left; by eexists].
Qed.

Lemma service_ends_ok w0 s s' :
  service_ok w0 Waiting s → s.(g_shutdown_promise) = true →
  ServiceMain_end destroy s = (Ok tt, s') → service_ok w0 Ended s'.
Proof.
  intros [_ _ H3] Hp E. rewrite ServiceMain_end_run in E.
  destruct (destroy (manager s)) as [[[]|e|f] w] eqn:Ed; try done. injection E as <-.
  split; [left; apply last_add_report|done|]. right. split; [done|by eexists].
Qed.

Lemma service_controlled_ok w0 ph r s s' :
  service_ok w0 ph s → ControlHandler r s = (Ok tt, s') → service_ok w0 ph s'.
Proof.
  intros [H1 H2 H3] E. destruct (decide (stop_request r)) as [Hr|Hr].
  - rewrite ControlHandler_stop in E by done. cbn zeta in E.
    destruct (g_shutdown_promise s) eqn:Hp; [done|]. injection E as <-.
    split; [left; apply last_add_report| |]; destruct ph; cbn in *; try done; try by right.
    destruct H3 as [H3|[H3 _]]; [by left|congruence].
  - rewrite ControlHandler_other in E by done. injection E as <-.
    split; [left; apply last_add_report|exact H2|exact H3].
Qed.

Lemma ServiceMain_begin_ok s s0 :
  s.(g_shutdown_promise) = false → s.(reports) = [] → ServiceMain_begin s = (Ok tt, s0) →
  service_ok s0.(manager) Starting s0 ∧ s0.(g_shutdown_promise) = false.
Proof.
  intros Hp Hr. unfold ServiceMain_begin, in_manager, assert_, modify, mbind, M_bind. cbn.
  rewrite os_call'_run. cbn. destruct (negb _); intros [= <-]. split; [|exact Hp].
  split; cbn; [by right|by rewrite Hp|done].
Qed.

(** C36: whatever controls come and whenever they do, the status last reported is the service's
    status: it is stopped when [ServiceMain] returned, and it is running or a stop was asked for
    while the manager is there; the manager is destroyed only on request.  After a request to
    stop [ServiceMain] can return; a second request throws out of the control handler. *)
Theorem service_reports s s0 ph s1 :
  s.(g_shutdown_promise) = false → s.(reports) = [] → ServiceMain_begin s = (Ok tt, s0) →
  rtc (service_step construct destroy) (Starting, s0) (ph, s1) →
  service_ok s0.(manager) ph s1 ∧
  (s1.(g_shutdown_promise) = true →
    (∀ r, stop_request r → (ControlHandler r s1).1 = Throw std_exception) ∧
    (ph = Waiting → (∃ w, destroy s1.(manager) = (Ok tt, w)) →
      ∃ s2, service_step construct destroy (Waiting, s1) (Ended, s2))).
Proof.
  intros Hp Hr Hb Hsteps. destruct (ServiceMain_begin_ok s s0 Hp Hr Hb) as [Hok _].
  split; [|intros Hset; split].
  - remember (Starting, s0) as x eqn:Ex. remember (ph, s1) as y eqn:Ey.
    assert (Hx : service_ok s0.(manager) x.1 x.2) by by subst.
    enough (Hy : service_ok s0.(manager) y.1 y.2) by by subst.
    clear - Hx Hsteps. induction Hsteps as [|x y z Hstep _ IH]; [done|]. apply IH.
    destruct Hstep; cbn in *;
      [by eapply service_starts_ok|by eapply service_ends_ok|by eapply service_controlled_ok].
  - intros r Hreq. rewrite ControlHandler_stop by done. by rewrite Hset.
  - intros _ [w Hd]. eexists. apply service_ends; [done|]. by rewrite ServiceMain_end_run, Hd.
Qed.

(** A request to stop is answered by the report that the service has stopped, without an
    error, although the manager is still there; if the manager is then constructed,
    the service reports to be running again. *)
Theorem stop_reported_early r s :
  stop_request r → s.(g_shutdown_promise) = false →
  ∃ s1, ControlHandler r s = (Ok tt, s1) ∧ s1.(manager) = s.(manager) ∧
    (∃ st, s1.(reports) = s.(reports) ++ [st] ∧ st.(dwCurrentState) = SERVICE_STOPPED ∧
       st.(dwWin32ExitCode) = 0) ∧
    ∀ w, construct s.(manager) = (Ok tt, w) →
      ∃ s2 st, ServiceMain_start construct s1 = (Ok true, s2) ∧
        s2.(reports) = s1.(reports) ++ [st] ∧ st.(dwCurrentState) = SERVICE_RUNNING.
Proof.
  intros Hr Hp. rewrite ControlHandler_stop by done. cbn zeta. rewrite Hp. eexists. split; [reflexivity|].
  split_and!; [done|by eexists|]. intros w Hw. rewrite ServiceMain_start_run. cbn [manager add_report set_promise
    set_service_status]. rewrite Hw. by eexists _, _.
Qed.
End service_theorems.
