(* ===== verification/Tools.v ===== *)
(** The local network controller ([tools/]): the menu of commands, the lines it reads, and the
    actions that start vaults.  What an action asks of the manager, of the client
    interface and of the libraries is a [ToolCall], answered by the environment. *)
From S2P Require Export Utils.
From Stdlib Require Import Strings.Ascii.
From S2P Require Import Demo.

(** ** Reading an [int]: [std::stoi] *)

Definition is_space (c : Ascii.ascii) : bool :=
  let n := Ascii.nat_of_ascii c in (n =? 32)%nat || ((9 <=? n)%nat && (n <=? 13)%nat).
Definition digit_value (c : Ascii.ascii) : option Z :=
  let n := Ascii.nat_of_ascii c in
  if (48 <=? n)%nat && (n <=? 57)%nat then Some (Z.of_nat n - 48) else None.

Fixpoint skip_spaces (s : string) : string :=
  match s with String c s' => if is_space c then skip_spaces s' else s | EmptyString => s end.

(** The digits up to the first other character; [None] when there is none. *)
Fixpoint read_digits (s : string) (read : option Z) : option Z :=
  match s with
  | String c s =>
      match digit_value c with
      | Some d => read_digits s (Some (10 * default 0 read + d))
      | None => read
      end
  | EmptyString => read
  end.

Definition stoi (s : string) : Res Z :=
  let s := skip_spaces s in
  let '(sign, s) := match s with
                    | String "-"%char s => (-1, s)
                    | String "+"%char s => (1, s)
                    | _ => (1, s)
                    end in
  match read_digits s None with
  | Some v => let z := sign * v in
      if (- 2 ^ 31 <=? z) && (z <=? 2 ^ 31 - 1) then Ok z else Throw std_exception
  | None => Throw std_exception
  end.

Definition int_max : Z := 2 ^ 31 - 1.

(** What the next [std::getline(std::cin, ...)]s give; after the list the stream stays at its
    end. *)
Inductive Input : Set := Line (s : string) | Eof | Bad.

(** The classes of [tools/commands], with the members that hold a choice. *)
Inductive Command : Set :=
| Begin (choice_ : Z)
| ChooseExistingNetwork (choice_ : Z)
| ChoosePathToBootstrap
| ChoosePathToVault
| ChooseTest (choice_ : Z)
| ChooseTestRootDir
| ChooseToRevealHostname
| ChooseVaultCount
| ChooseVaultManagerPort (connect_to_running_ : bool)
| ClearTestRootDir (clear_ : bool)
| CreateTestRootDir (create_ : bool)
| EnterVlogSessionId.

(** The first argument each gives its base class. *)
Definition kPreamble_ (c : Command) : string :=
  match c with
  | Begin _ => "Initial options."
  | ChooseExistingNetwork _ => "Choose Existing Network."
  | ChoosePathToBootstrap => "Path to bootstrap file."
  | ChoosePathToVault => "Path to vault executable."
  | ChooseTest _ => "Test options."
  | ChooseTestRootDir => "Path to VaultManager root directory."
  | ChooseToRevealHostname => "Choose to reveal hostname."
  | ChooseVaultCount => "Number of Vaults to start."
  | ChooseVaultManagerPort _ => "VaultManager listening port."
  | ClearTestRootDir _ => "Clear VaultManager root directory."
  | CreateTestRootDir _ => "Create VaultManager root directory."
  | EnterVlogSessionId => "Enter a Visualiser Session ID."
  end.

Definition newline : string := String (Ascii.ascii_of_nat 10) "".
Definition kQuitCommand_ : string := "q".

Section tools.
Context `{P : Platform} `{B : Build}.

(** What the actions ask of the rest of the system.  The endpoints of the zero-state nodes,
    drawn at random, go from one call of the routing library to another and are left out. *)
Inductive ToolCall : Type :=
| MakeVaultManager
| MakeClientInterface
| ClientStartVault (vault_dir : Path) (max_disk_usage : Z) (vlog_session_id : string)
    (send_hostname : bool) (pmid_list_index : option Z)
| AwaitVault
| MarkNetworkStable
| MakeRouting (pmid : Pmid)
| WriteZeroStateBootstrapFile
| ZeroStateJoin (pmid peer : Pmid) (public_pmids : list PublicPmid)
| FinishZeroStateNodes
| WriteLocalNetworkBootstrapFile
| PrepareBootstrapFile (path : option Path)
| MakeSharedZeroState (public_pmids : list PublicPmid)
| PutPublicPmid (public_pmid : PublicPmid)
| GetPublicPmid (name : Identity)
| StopMaidClient
| ManagerTearDownWithInterval
| RemoveLocalNetworkBootstrapFile.

(** [struct LocalNetworkController], the standard input, and the process around it. *)
Record LocalNetworkController := mkController {
  tool_world : World;
  std_cin : list Input;
  calls : list ToolCall;
  script_commands : list string;
  entered_commands : list string;
  current_command : Command;
  client_interface : bool;
  vault_manager : bool;
  test_env_root_dir : Path;
  path_to_vault : Path;
  path_to_bootstrap_file : Path;
  vault_manager_port : Z;
  vault_count : Z;
  new_network : bool;
  tool_vlog_session_id : option string;
  tool_send_hostname : option bool;
}.
Abbreviation C := LocalNetworkController.

Definition set_world w (c : C) : C := mkController w c.(std_cin) c.(calls) c.(script_commands)
  c.(entered_commands) c.(current_command) c.(client_interface) c.(vault_manager)
  c.(test_env_root_dir) c.(path_to_vault) c.(path_to_bootstrap_file) c.(vault_manager_port)
  c.(vault_count) c.(new_network) c.(tool_vlog_session_id) c.(tool_send_hostname).
Definition set_input i s e (c : C) : C := mkController c.(tool_world) i c.(calls) s
  e c.(current_command) c.(client_interface) c.(vault_manager)
  c.(test_env_root_dir) c.(path_to_vault) c.(path_to_bootstrap_file) c.(vault_manager_port)
  c.(vault_count) c.(new_network) c.(tool_vlog_session_id) c.(tool_send_hostname).
Definition set_calls l (c : C) : C := mkController c.(tool_world) c.(std_cin) l c.(script_commands)
  c.(entered_commands) c.(current_command) c.(client_interface) c.(vault_manager)
  c.(test_env_root_dir) c.(path_to_vault) c.(path_to_bootstrap_file) c.(vault_manager_port)
  c.(vault_count) c.(new_network) c.(tool_vlog_session_id) c.(tool_send_hostname).
Definition set_command x (c : C) : C := mkController c.(tool_world) c.(std_cin) c.(calls)
  c.(script_commands) c.(entered_commands) x c.(client_interface) c.(vault_manager)
  c.(test_env_root_dir) c.(path_to_vault) c.(path_to_bootstrap_file) c.(vault_manager_port)
  c.(vault_count) c.(new_network) c.(tool_vlog_session_id) c.(tool_send_hostname).
Definition set_objects ci vm (c : C) : C := mkController c.(tool_world) c.(std_cin) c.(calls)
  c.(script_commands) c.(entered_commands) c.(current_command) ci vm
  c.(test_env_root_dir) c.(path_to_vault) c.(path_to_bootstrap_file) c.(vault_manager_port)
  c.(vault_count) c.(new_network) c.(tool_vlog_session_id) c.(tool_send_hostname).
Definition set_paths r v b (c : C) : C := mkController c.(tool_world) c.(std_cin) c.(calls)
  c.(script_commands) c.(entered_commands) c.(current_command) c.(client_interface) c.(vault_manager)
  r v b c.(vault_manager_port) c.(vault_count) c.(new_network) c.(tool_vlog_session_id)
  c.(tool_send_hostname).
Definition set_port p (c : C) : C := mkController c.(tool_world) c.(std_cin) c.(calls)
  c.(script_commands) c.(entered_commands) c.(current_command) c.(client_interface) c.(vault_manager)
  c.(test_env_root_dir) c.(path_to_vault) c.(path_to_bootstrap_file) p
  c.(vault_count) c.(new_network) c.(tool_vlog_session_id) c.(tool_send_hostname).
Definition set_count n (c : C) : C := mkController c.(tool_world) c.(std_cin) c.(calls)
  c.(script_commands) c.(entered_commands) c.(current_command) c.(client_interface) c.(vault_manager)
  c.(test_env_root_dir) c.(path_to_vault) c.(path_to_bootstrap_file) c.(vault_manager_port)
  n c.(new_network) c.(tool_vlog_session_id) c.(tool_send_hostname).
Definition set_new_network b (c : C) : C := mkController c.(tool_world) c.(std_cin) c.(calls)
  c.(script_commands) c.(entered_commands) c.(current_command) c.(client_interface) c.(vault_manager)
  c.(test_env_root_dir) c.(path_to_vault) c.(path_to_bootstrap_file) c.(vault_manager_port)
  c.(vault_count) b c.(tool_vlog_session_id) c.(tool_send_hostname).
Definition set_vlogging v h (c : C) : C := mkController c.(tool_world) c.(std_cin) c.(calls)
  c.(script_commands) c.(entered_commands) c.(current_command) c.(client_interface) c.(vault_manager)
  c.(test_env_root_dir) c.(path_to_vault) c.(path_to_bootstrap_file) c.(vault_manager_port)
  c.(vault_count) c.(new_network) v h.

Definition in_tool {T} (m : M World T) : M C T := zoom tool_world set_world m.

(** ** [Default] *)
Definition kTestEnvRootDir : Path := Path_append fs_temp_directory_path "MaidSafe_TestNetwork".
Definition kPathToVault : Path := GetOtherExecutablePath "vault".
Definition kPathToBootstrap : Path := Path_append fs_temp_directory_path "bootstrap.dat".
Definition kVaultManagerPort : Z := 44444.
Definition kVaultCountNewNetwork : Z := 16.
Definition kVaultCount : Z := 1.
Definition kCreateTestRootDir : bool := true.
Definition kClearTestRootDir : bool := true.
Definition kSendHostnameToVisualiserServer : bool := false.

(** ** Reading a line *)

(** The [while] of [GetLine] that drops the comments of the script. *)
Fixpoint drop_comments (l : list string) : list string :=
  match l with
  | s :: l' => if bool_decide (String.substring 0 4 s = "### ") then drop_comments l' else l
  | [] => []
  end.

(** Its [while] on [std::getline]; [attempts] are the [kMaxClearAttempts] left. *)
Fixpoint read_line (attempts : nat) (input : list Input) : Res string * list Input :=
  match input with
  | [] => (Ok "", [])
  | Line s :: input => (Ok s, input)
  | Eof :: input =>
      match attempts with O => (Ok "", input) | S attempts => read_line attempts input end
  | Bad :: input =>
      match attempts with O => (Ok "", input) | S _ => (Throw (maidsafe_error unknown), input) end
  end.

(** [Command::Source] *)
Inductive Source : Set := kScript | kStdCin.

(** [void CheckForExitCommand(const std::string&) const] *)
Definition CheckForExitCommand (input_command : string) : M C unit :=
  if bool_decide (to_lower_copy input_command = kQuitCommand_) then raise success else mret tt.

(** [std::pair<std::string, Command::Source> GetLine()] *)
Definition GetLine : M C (string * Source) :=
  modify (λ c, set_input c.(std_cin) (drop_comments c.(script_commands)) c.(entered_commands) c);;
  script ← gets script_commands;
  line_and_source ←
    (match script with
     | [] =>
         input ← gets std_cin;
         let '(r, rest) := read_line 1000 input in
         modify (λ c, set_input rest c.(script_commands) c.(entered_commands) c);;
         s ← lift_res r;
         mret (s, kStdCin)
     | s :: script =>
         modify (λ c, set_input c.(std_cin) script c.(entered_commands) c);;
         mret (s, kScript)
     end);
  CheckForExitCommand line_and_source.1;;
  modify (λ c, set_input c.(std_cin) c.(script_commands)
    (c.(entered_commands) ++ ["### " +:+ kPreamble_ c.(current_command) +:+ newline +:+ line_and_source.1]) c);;
  mret line_and_source.

(** ** Converting a choice *)

(** [ConvertAndValidateChoice<int, int, int>]; [set] assigns the choice. *)
Definition ConvertInt (set : Z → C → C) (default_choice : option Z) (min max : Z)
    (choice_as_string : string) : M C unit :=
  choice ← (match default_choice with
            | Some d => if bool_decide (choice_as_string = "") then mret d
                        else lift_res (stoi choice_as_string)
            | None => lift_res (stoi choice_as_string)
            end);
  modify (set choice);;
  if (choice <? min) || (choice >? max) then raise invalid_argument else mret tt.

(** [ConvertAndValidateChoice<boost::filesystem::path, bool>] *)
Definition ConvertPath (set : Path → C → C) (default_choice : Path) (must_exist : bool)
    (choice_as_string : string) : M C unit :=
  on_scope_exit (modify (set Path_default))
    (let choice := if bool_decide (choice_as_string = "") then default_choice
                   else Path_of_string choice_as_string in
     modify (set choice);;
     if must_exist then
       there ← in_tool (os_call (fs_exists choice));
       if there : bool then mret tt else raise invalid_argument
     else mret tt).

(** [ConvertAndValidateChoice<bool>] *)
Definition ConvertBool (set : bool → C → C) (default_choice : bool) (choice_as_string : string) :
  M C unit :=
  if bool_decide (choice_as_string = "") then modify (set default_choice)
  else if bool_decide (choice_as_string = "y") || bool_decide (choice_as_string = "Y")
  then modify (set true)
  else if bool_decide (choice_as_string = "n") || bool_decide (choice_as_string = "N")
  then modify (set false)
  else raise invalid_argument.

(** [ConvertAndValidateChoice<std::string>] without a default. *)
Definition ConvertString (set : string → C → C) (choice_as_string : string) : M C unit :=
  modify (set choice_as_string).

(** [bool DoGetChoice(choice, default_choice, args...)] *)
Definition DoGetChoice (convert : string → M C unit) : M C bool :=
  line_and_source ← GetLine;
  try_catch (convert line_and_source.1;; mret true)
    (λ e, if line_and_source.2 is kScript then throw e else mret false).

(** The members of the current command object. *)
Definition set_choice (z : Z) (c : C) : C :=
  set_command (match c.(current_command) with
               | Begin _ => Begin z
               | ChooseExistingNetwork _ => ChooseExistingNetwork z
               | ChooseTest _ => ChooseTest z
               | x => x
               end) c.
Definition set_flag (b : bool) (c : C) : C :=
  set_command (match c.(current_command) with
               | ClearTestRootDir _ => ClearTestRootDir b
               | CreateTestRootDir _ => CreateTestRootDir b
               | x => x
               end) c.

(** ** What the [GetChoice] of each class makes [DoGetChoice] convert *)
Definition Begin_GetChoice : string → M C unit := ConvertInt set_choice None 1 3.
Definition ChooseExistingNetwork_GetChoice : string → M C unit := ConvertInt set_choice None 1 2.
Definition ChooseTest_GetChoice : string → M C unit := ConvertInt set_choice None 100 101.
Definition ChoosePathToBootstrap_GetChoice : string → M C unit :=
  ConvertPath (λ p c, set_paths c.(test_env_root_dir) c.(path_to_vault) p c) kPathToBootstrap true.
Definition ChoosePathToVault_GetChoice : string → M C unit :=
  ConvertPath (λ p c, set_paths c.(test_env_root_dir) p c.(path_to_bootstrap_file) c) kPathToVault true.
Definition ChooseTestRootDir_GetChoice : string → M C unit :=
  ConvertPath (λ p c, set_paths p c.(path_to_vault) c.(path_to_bootstrap_file) c) kTestEnvRootDir false.
Definition ChooseVaultManagerPort_GetChoice : string → M C unit :=
  ConvertInt set_port (Some kVaultManagerPort) 1025 65536.
Definition ChooseVaultCount_GetChoice (new : bool) : string → M C unit :=
  if new then ConvertInt set_count (Some kVaultCountNewNetwork) kVaultCountNewNetwork int_max
  else ConvertInt set_count (Some kVaultCount) 1 int_max.
Definition ClearTestRootDir_GetChoice : string → M C unit := ConvertBool set_flag kClearTestRootDir.
Definition CreateTestRootDir_GetChoice : string → M C unit := ConvertBool set_flag kCreateTestRootDir.
Definition ChooseToRevealHostname_GetChoice : string → M C unit :=
  ConvertBool (λ b c, set_vlogging c.(tool_vlog_session_id) (Some b) c) kSendHostnameToVisualiserServer.
Definition EnterVlogSessionId_GetChoice : string → M C unit :=
  ConvertString (λ s c, set_vlogging (Some s) c.(tool_send_hostname) c).

Definition convert (x : Command) (new : bool) : string → M C unit :=
  match x with
  | Begin _ => Begin_GetChoice
  | ChooseExistingNetwork _ => ChooseExistingNetwork_GetChoice
  | ChooseTest _ => ChooseTest_GetChoice
  | ChoosePathToBootstrap => ChoosePathToBootstrap_GetChoice
  | ChoosePathToVault => ChoosePathToVault_GetChoice
  | ChooseTestRootDir => ChooseTestRootDir_GetChoice
  | ChooseVaultManagerPort _ => ChooseVaultManagerPort_GetChoice
  | ChooseVaultCount => ChooseVaultCount_GetChoice new
  | ClearTestRootDir _ => ClearTestRootDir_GetChoice
  | CreateTestRootDir _ => CreateTestRootDir_GetChoice
  | ChooseToRevealHostname => ChooseToRevealHostname_GetChoice
  | EnterVlogSessionId => EnterVlogSessionId_GetChoice
  end.

(** The [while] of every [GetChoice], with the rounds left: whether a choice was made. *)
Fixpoint choice_loop (fuel : nat) (f : string → M C unit) : M C bool :=
  match fuel with
  | O => mret false
  | S fuel => chosen ← DoGetChoice f; if chosen : bool then mret true else choice_loop fuel f
  end.

(** [GetChoice()] of the current command. *)
Definition GetChoice (fuel : nat) : M C bool :=
  x ← gets current_command;
  new ← gets new_network;
  (match x with
   | ChooseToRevealHostname => modify (λ c, set_vlogging c.(tool_vlog_session_id) (Some false) c)
   | EnterVlogSessionId => modify (λ c, set_vlogging (Some "") c.(tool_send_hostname) c)
   | _ => mret tt
   end);;
  choice_loop fuel (convert x new).
End tools.

(** How the rest of the system answers a call, after the calls there were: whether it throws,
    and what the calls give that give something. *)
Record Environment `{P : Platform} := mkEnvironment {
  answers : list ToolCall → ToolCall → Lib unit;
  ZeroStateJoin_result : Pmid → list ToolCall → Lib Z;
  MaidClient_Get : Identity → list ToolCall → Lib PublicPmid;
}.

(** * The actions and the main loop *)
Section actions.
Context `{P : Platform} `{B : Build}.
Context (answer : Environment).
Abbreviation C := LocalNetworkController.

Definition call (x : ToolCall) : M C unit := λ c,
  (of_lib (answers answer c.(calls) x), set_calls (c.(calls) ++ [x]) c).
(** A call whose result is a future: what [get()] of it will give. *)
Definition launch {T} (result : list ToolCall → Lib T) (x : ToolCall) : M C (Lib T) := λ c,
  (Ok (result c.(calls)), set_calls (c.(calls) ++ [x]) c).
(** A call that does not throw. *)
Definition note (x : ToolCall) : M C unit := modify (λ c, set_calls (c.(calls) ++ [x]) c).

(** Arithmetic of [int]. *)
Definition int_of (z : Z) : M C Z :=
  if (- 2 ^ 31 <=? z) && (z <=? int_max) then mret z else crash bad_arithmetic.

(** [local_network_controller->client_interface->...] *)
Definition the_client : M C unit :=
  there ← gets client_interface; if there : bool then mret tt else crash null_deref.

(** [tools/utils.cc]: [StartVaultManagerAndClientInterface] *)
Definition StartVaultManagerAndClientInterface : M C unit :=
  call MakeVaultManager;;
  modify (λ c, set_objects c.(client_interface) true c);;
  call MakeClientInterface;;
  modify (λ c, set_objects true c.(vault_manager) c).

(** [DiskUsage{(9 * space_info.available) / (10 * vault_count)}]: an unsigned 64-bit product and
    an [int] one. *)
Definition max_usage_of (available vault_count : Z) : M C Z :=
  divisor ← int_of (10 * vault_count);
  if divisor =? 0 then crash bad_arithmetic else mret (to_u64 (9 * available) / to_u64 divisor).

(** The vlog arguments of [StartVault], asserted to be set when there are any. *)
Definition vlog_arguments : M C (string * bool) :=
  if USE_VLOGGING then
    v ← gets tool_vlog_session_id;
    h ← gets tool_send_hostname;
    match v, h with
    | Some v, Some h => mret (v, h)
    | _, _ => crash assert_failed
    end
  else mret ("", false).

(** ** [actions/connect_to_vault_manager.cc] *)
Definition ConnectToVaultManager_action : M C unit :=
  port ← gets vault_manager_port;
  in_tool (SetEnvironment (to_u16 port) kTestEnvRootDir kPathToVault 0);;
  call MakeClientInterface;;
  modify (λ c, set_objects true c.(vault_manager) c).

(** ** [actions/connect_to_network.cc] *)

(** The loop of its [StartVaults]. *)
Fixpoint StartVaults (n : nat) (max_usage : Z) : M C unit :=
  match n with
  | O => mret tt
  | S n =>
      args ← vlog_arguments;
      the_client;;
      call (ClientStartVault Path_default max_usage args.1 args.2 None);;
      call AwaitVault;;
      StartVaults n max_usage
  end.

Definition ConnectToNetwork : M C unit :=
  port ← gets vault_manager_port;
  root ← gets test_env_root_dir;
  vault ← gets path_to_vault;
  count ← gets vault_count;
  in_tool (SetEnvironment (to_u16 port) root vault count);;
  available ← in_tool (os_call (fs_space_available root));
  max_usage ← max_usage_of available count;
  bootstrap ← gets path_to_bootstrap_file;
  call (PrepareBootstrapFile (Some bootstrap));;
  StartVaultManagerAndClientInterface;;
  StartVaults (Z.to_nat count) max_usage;;
  call MarkNetworkStable.

(** ** [actions/start_network.cc] *)

(** [StartVault(local_network_controller, vault_dir, max_usage, pmid_list_index)] *)
Definition StartIndexedVault (vault_dir : Path) (max_usage pmid_list_index : Z) : M C unit :=
  args ← vlog_arguments;
  the_client;;
  call (ClientStartVault vault_dir max_usage args.1 args.2 (Some pmid_list_index)).

(** What precedes the wait for the vault of an index: its directory and its start. *)
Definition prepare_and_start (max_usage index : Z) : M C unit :=
  keys ← in_tool (GetPmidAndSigner index);
  root ← gets test_env_root_dir;
  let dir := Path_append root (DebugId (Pmid_name keys.1)) in
  in_tool (os_call (fs_create_directories dir));;
  StartIndexedVault dir max_usage index.

(** [StartFirstTwoVaults]: an error of a future is only logged. *)
Definition StartFirstTwoVaults (max_usage : Z) : M C unit :=
  prepare_and_start max_usage 2;;
  try_catch (call AwaitVault) (λ _, mret tt);;
  prepare_and_start max_usage 3;;
  try_catch (call AwaitVault) (λ _, mret tt).

(** [StartRemainingVaults] *)
Fixpoint remaining_loop (n : nat) (i : Z) (max_usage : Z) : M C unit :=
  match n with
  | O => mret tt
  | S n =>
      prepare_and_start max_usage i;;
      call AwaitVault;;
      remaining_loop n (i + 1) max_usage
  end.
Definition StartRemainingVaults (max_usage : Z) : M C unit :=
  count ← gets vault_count;
  kRemainingIndex ← int_of (count + 2);
  remaining_loop (Z.to_nat (kRemainingIndex - 4)) 4 max_usage.

(** [GivePublicPmidKey]: the key given, if any. *)
Definition GivePublicPmidKey (name : Identity) (public_pmids : list PublicPmid) : Res (option PublicKey) :=
  if bool_decide (public_pmids = []) then Fault assert_failed
  else Ok ((λ itr, PublicPmid_public_key itr.2) <$>
             list_find (λ pmid, PublicPmid_name pmid = name) public_pmids).

(** [StartZeroStateRoutingNodes] up to where it sets the promise that its caller waits for,
    with what the promise is set to.  Both nodes are told to join before either is asked
    for its result; the second is not asked when the first failed. *)
Definition StartZeroStateRoutingNodes : M C unit :=
  keys0 ← in_tool (GetPmidAndSigner 0);
  call (MakeRouting keys0.1);;
  keys1 ← in_tool (GetPmidAndSigner 1);
  call (MakeRouting keys1.1);;
  public_pmids ← in_tool GetPublicPmids;
  call WriteZeroStateBootstrapFile;;
  join_future0 ← launch (ZeroStateJoin_result answer keys0.1) (ZeroStateJoin keys0.1 keys1.1 public_pmids);
  join_future1 ← launch (ZeroStateJoin_result answer keys1.1) (ZeroStateJoin keys1.1 keys0.1 public_pmids);
  join0 ← lift_res (of_lib join_future0);
  failed ← (if bool_decide (join0 = 0) then
              join1 ← lift_res (of_lib join_future1); mret (bool_decide (join1 ≠ 0))
            else mret true);
  if failed : bool then raise not_connected else mret tt.

(** *** [class PublicPmidStorer] *)

(** [PublicPmidStorer()] *)
Definition PublicPmidStorer_make : M C unit :=
  public_pmids ← in_tool GetPublicPmids; call (MakeSharedZeroState public_pmids).

(** [EqualKeys] *)
Definition EqualKeys (lhs rhs : PublicPmid) : bool :=
  bool_decide (PublicPmid_name lhs = PublicPmid_name rhs) &&
  MatchingKeys (PublicPmid_public_key lhs) (PublicPmid_public_key rhs).

(** The body of the loop of [Store]: whether it failed. *)
Definition store_one (public_pmid : PublicPmid) : M C bool :=
  try_catch
    (call (PutPublicPmid public_pmid);;
     pmid_future ← launch (MaidClient_Get answer (PublicPmid_name public_pmid))
                     (GetPublicPmid (PublicPmid_name public_pmid));
     pmid ← lift_res (of_lib pmid_future);
     (if EqualKeys public_pmid pmid then mret tt else raise invalid_public_key);;
     mret false)
    (λ _, mret true).

Fixpoint store_loop (public_pmids : list PublicPmid) (failures : Z) : M C Z :=
  match public_pmids with
  | [] => mret failures
  | public_pmid :: public_pmids =>
      failed ← store_one public_pmid;
      store_loop public_pmids (if failed : bool then to_u64 (failures + 1) else failures)
  end.

(** [Store()] *)
Definition Store : M C unit :=
  public_pmids ← in_tool GetPublicPmids;
  failures ← store_loop public_pmids 0;
  if bool_decide (failures = 0) then mret tt else raise failed_to_handle_request.

(** The scope of a [PublicPmidStorer], whose destructor stops the client. *)
Definition StorePublicPmids : M C unit :=
  PublicPmidStorer_make;; finally (note StopMaidClient) Store.

(** [StartNetwork]: the promise of the zero-state nodes' thread is waited for at once; the
    thread then waits until it is released and joined, [FinishZeroStateNodes]. *)
Definition StartNetwork : M C unit :=
  port ← gets vault_manager_port;
  root ← gets test_env_root_dir;
  vault ← gets path_to_vault;
  count ← gets vault_count;
  n ← int_of (count + 2);
  in_tool (SetEnvironment (to_u16 port) root vault n);;
  available ← in_tool (os_call (fs_space_available root));
  max_usage ← max_usage_of available count;
  try_catch
    (StartZeroStateRoutingNodes;;
     StartVaultManagerAndClientInterface;;
     StartFirstTwoVaults max_usage;;
     note FinishZeroStateNodes)
    (λ e, note FinishZeroStateNodes;; throw e);;
  call WriteLocalNetworkBootstrapFile;;
  call (PrepareBootstrapFile None);;
  StartRemainingVaults max_usage;;
  _ ← int_of (count * 10);
  StorePublicPmids;;
  call MarkNetworkStable.

(** ** The [HandleChoice()] of each class; assigning [current_command] destroys the
    command that is handling its choice *)
Definition Begin_HandleChoice (choice : Z) : M C unit :=
  match choice with
  | 1 => modify (set_new_network true);; modify (set_command ChooseTestRootDir)
  | 2 => modify (set_command (ChooseVaultManagerPort true))
  | 3 => modify (set_command (ChooseExistingNetwork 0))
  | _ => assert_ false
  end.

Definition ChooseExistingNetwork_HandleChoice (choice : Z) : M C unit :=
  match choice with
  | 1 => modify (λ c, set_paths c.(test_env_root_dir) c.(path_to_vault) (Path_of_string "none") c);;
         modify (set_command ChooseTestRootDir)
  | 2 => modify (set_command ChoosePathToBootstrap)
  | _ => assert_ false
  end.

Definition ChoosePathToBootstrap_HandleChoice : M C unit := modify (set_command ChooseTestRootDir).
Definition ChoosePathToVault_HandleChoice : M C unit :=
  modify (set_command (ChooseVaultManagerPort false)).

(** [choice_] is read after the command it is a member of was destroyed. *)
Definition ChooseTest_HandleChoice : M C unit :=
  modify (set_command (ChooseTest 0));;
  crash dangling_reference.

Definition ChooseTestRootDir_HandleChoice : M C unit :=
  root ← gets test_env_root_dir;
  there ← in_tool (os_call (fs_exists root));
  if there : bool then
    empty ← in_tool (os_call (fs_is_empty root));
    if empty : bool then modify (set_command ChoosePathToVault)
    else modify (set_command (ClearTestRootDir false))
  else modify (set_command (CreateTestRootDir false)).

Definition ChooseToRevealHostname_HandleChoice : M C unit := modify (set_command ChooseVaultCount).

Definition ChooseVaultCount_HandleChoice : M C unit :=
  new ← gets new_network;
  (if new : bool then StartNetwork else ConnectToNetwork);;
  modify (set_command (ChooseTest 0)).

Definition ChooseVaultManagerPort_HandleChoice (connect_to_running : bool) : M C unit :=
  if connect_to_running then
    ConnectToVaultManager_action;; modify (set_command (ChooseTest 0))
  else if USE_VLOGGING then modify (set_command EnterVlogSessionId)
  else modify (set_command ChooseVaultCount).

Definition ClearTestRootDir_HandleChoice (clear : bool) : M C unit :=
  if clear then
    root ← gets test_env_root_dir;
    in_tool (os_call (fs_remove_all root));;
    in_tool (os_call (fs_create_directories root));;
    modify (set_command ChoosePathToVault)
  else modify (set_command ChooseTestRootDir).

Definition CreateTestRootDir_HandleChoice (create : bool) : M C unit :=
  if create then
    root ← gets test_env_root_dir;
    in_tool (os_call (fs_create_directories root));;
    modify (set_command ChoosePathToVault)
  else
    modify (λ c, set_paths Path_default c.(path_to_vault) c.(path_to_bootstrap_file) c);;
    modify (set_command ChooseTestRootDir).

Definition EnterVlogSessionId_HandleChoice : M C unit :=
  v ← gets tool_vlog_session_id;
  match v with
  | None => crash null_deref
  | Some v =>
      if bool_decide (v = "") then
        modify (λ c, set_vlogging c.(tool_vlog_session_id) (Some false) c);;
        modify (set_command ChooseVaultCount)
      else modify (set_command ChooseToRevealHostname)
  end.

(** [current_command->HandleChoice()] *)
Definition HandleChoice : M C unit :=
  x ← gets current_command;
  match x with
  | Begin choice => Begin_HandleChoice choice
  | ChooseExistingNetwork choice => ChooseExistingNetwork_HandleChoice choice
  | ChoosePathToBootstrap => ChoosePathToBootstrap_HandleChoice
  | ChoosePathToVault => ChoosePathToVault_HandleChoice
  | ChooseTest _ => ChooseTest_HandleChoice
  | ChooseTestRootDir => ChooseTestRootDir_HandleChoice
  | ChooseToRevealHostname => ChooseToRevealHostname_HandleChoice
  | ChooseVaultCount => ChooseVaultCount_HandleChoice
  | ChooseVaultManagerPort connect_to_running => ChooseVaultManagerPort_HandleChoice connect_to_running
  | ClearTestRootDir clear => ClearTestRootDir_HandleChoice clear
  | CreateTestRootDir create => CreateTestRootDir_HandleChoice create
  | EnterVlogSessionId => EnterVlogSessionId_HandleChoice
  end.

(** ** [main] *)

(** A round of the loop: [Some code] when [main] returns, [None] to go on. *)
Definition main_round (fuel : nat) : M C (option Z) :=
  try_catch
    (chosen ← GetChoice fuel;
     if chosen : bool then
       try_catch (HandleChoice;; mret None)
         (λ error, if bool_decide (error = maidsafe_error timed_out) then
                     there ← gets vault_manager;
                     if there : bool then call ManagerTearDownWithInterval;; mret (Some 0)
                     else crash null_deref
                   else throw error)
     else mret None)
    (λ error, match error with
              | maidsafe_error success => mret (Some 0)
              | maidsafe_error code => mret (Some (ErrorToInt code))
              | std_exception => mret (Some (ErrorToInt unknown))
              end).
End actions.
