(* ===== verification/Prompts.v ===== *)
(** What the local network controller prints before it asks ([tools/commands]): the title and
    the instructions that the constructor of each command puts together. *)
From S2P Require Export Tools.
From stdpp Require Export pretty.
From S2P Require Import Demo.

(** Pieces of a text, one after the other. *)
Definition text (l : list string) : string := foldr String.append "" l.
Abbreviation nl := newline.
Definition quote : string := String (Ascii.ascii_of_nat 34) EmptyString.

(** [kInstructions_] and [kTitle_]. *)
Record Prompt := mkPrompt { kInstructions_ : string; kTitle_ : string }.

Definition kPrompt_ : string := nl +:+ ">> ".

Fixpoint has_newline (s : string) : bool :=
  match s with String c s => bool_decide (String c "" = nl) || has_newline s | EmptyString => false end.

(** [Command(local_network_controller, preamble, instructions, title)], which asserts that the
    preamble is one line. *)
Definition Command_make (preamble instructions title : string) : Res Prompt :=
  if has_newline preamble then Fault assert_failed
  else Ok (mkPrompt (text [nl; nl; preamble; instructions]) title).

(** [void PrintTitle() const] *)
Definition PrintTitle (p : Prompt) : string :=
  if bool_decide (p.(kTitle_) = "") then ""
  else text [nl; nl; p.(kTitle_); nl; text (repeat "=" (String.length p.(kTitle_)))].

Definition yes_or_no (b : bool) : string := if b then "y" else "n".

Section prompts.
Context `{P : Platform} `{B : Build}.
(** [kApplicationVersion()] and [boost::asio::ip::host_name()]. *)
Context (kApplicationVersion host_name : string).
Abbreviation C := LocalNetworkController.
Implicit Types c : C.

(** ** The constructors of the classes, on the controller as it is then *)
Definition Begin_make : Res Prompt :=
  Command_make "Initial options."
    (text [nl; "Please choose from the following options ('"; kQuitCommand_; "' to quit):"; nl; nl;
           "  1. Start a new network on this machine."; nl;
           "  2. Connect to an existing VaultManager on this machine."; nl;
           "  3. Connect to an existing Network."; nl; kPrompt_])
    (text ["MaidSafe Local Network Controller "; kApplicationVersion; ": Main Options"]).

Definition ChooseExistingNetwork_make : Res Prompt :=
  Command_make "Choose Existing Network."
    (text ["  "; nl; "  1. Connect to MaidSafe Test Network. "; "  "; nl;
           "  2. Connect to other network."; nl; kPrompt_]) "".

Definition ChoosePathToBootstrap_make : Res Prompt :=
  Command_make "Path to bootstrap file."
    (text ["  'Enter' to use no bootstrap file (i.e. connect to SAFE network)."; nl; kPrompt_]) "".

Definition ChoosePathToVault_make : Res Prompt :=
  Command_make "Path to vault executable."
    (text ["  "; "'Enter' to use default"; nl; quote; Path_string kPathToVault; quote; "."; nl; kPrompt_]) "".

Definition ChooseTest_make : Res Prompt :=
  Command_make "Test options."
    (text [nl; "Unimplemented as yet. ";
           "(type 100 for quit or 101 for tear down vaults with interval)"; nl])
    "Main Test Choices".

(** [GetTitle] *)
Definition GetTitle (new_network : bool) : string :=
  if new_network then "Start Network" else "Connect to Network".

Definition ChooseTestRootDir_make c : Res Prompt :=
  Command_make "Path to VaultManager root directory."
    (text ["  "; "'Enter' to use default"; nl; quote; Path_string kTestEnvRootDir; quote; nl; kPrompt_])
    (GetTitle c.(new_network)).

Definition ChooseToRevealHostname_make : Res Prompt :=
  Command_make "Choose to reveal hostname."
    (text ["  Do you wish to send your"; nl; "machine's hostname ("; quote; host_name;
           quote; ") to the visualiser"; nl; "where it can be publicly viewed?  We recommend you don't."; nl;
           "[y/n].  "; "'Enter' to use default"; " "; quote; yes_or_no kSendHostnameToVisualiserServer; quote; "."; nl;
           kPrompt_]) "".

(** [Instruction] *)
Definition Instruction (new_network : bool) : string :=
  text [nl; "This must be at least "; pretty (if new_network then kVaultCountNewNetwork else 1); ".";
        nl; "There is no upper limit, but more than 20 on one PC will probably"; nl;
        "cause noticeable performance slowdown.  "; "'Enter' to use default"; " "; quote;
        pretty (if new_network then kVaultCountNewNetwork else kVaultCount); quote; "."; nl].

Definition ChooseVaultCount_make c : Res Prompt :=
  Command_make "Number of Vaults to start." (text [Instruction c.(new_network); kPrompt_]) "".

Definition ChooseVaultManagerPort_make (connect_to_running : bool) : Res Prompt :=
  Command_make "VaultManager listening port."
    (text ["  This should be between"; nl; "1025 and 65536 inclusive.  "; "'Enter' to use default"; " "; quote;
           pretty kVaultManagerPort; quote; "."; nl; kPrompt_])
    (if connect_to_running then "Connect to Running VaultManager" else "").

Definition ClearTestRootDir_make c : Res Prompt :=
  Command_make "Clear VaultManager root directory."
    (text ["  Do you wish to remove all contents of "; nl; quote; Path_string c.(test_env_root_dir);
           quote; "?"; nl; "[y/n].  "; "'Enter' to use default"; " "; quote; yes_or_no kClearTestRootDir; quote; "."; nl;
           kPrompt_]) "".

Definition CreateTestRootDir_make c : Res Prompt :=
  Command_make "Create VaultManager root directory."
    (text ["  Do you wish to create "; nl; quote; Path_string c.(test_env_root_dir);
           quote; "?"; nl; "[y/n].  "; "'Enter' to use default"; " "; quote; yes_or_no kCreateTestRootDir; quote; "."; nl;
           kPrompt_]) "".

Definition EnterVlogSessionId_make : Res Prompt :=
  Command_make "Enter a Visualiser Session ID."
    (text ["  To register a new session,"; nl; "go to http://visualiser.maidsafe.net:8080"; nl;
           "To avoid sending VLOG messages, leave this blank (hit 'Enter')."; nl;
           "To compile VLOG messages away, run 'cmake . -VLOGGING=OFF' and rebuild."; nl; kPrompt_]) "".

Definition prompt c (x : Command) : Res Prompt :=
  match x with
  | Begin _ => Begin_make
  | ChooseExistingNetwork _ => ChooseExistingNetwork_make
  | ChoosePathToBootstrap => ChoosePathToBootstrap_make
  | ChoosePathToVault => ChoosePathToVault_make
  | ChooseTest _ => ChooseTest_make
  | ChooseTestRootDir => ChooseTestRootDir_make c
  | ChooseToRevealHostname => ChooseToRevealHostname_make
  | ChooseVaultCount => ChooseVaultCount_make c
  | ChooseVaultManagerPort connect_to_running => ChooseVaultManagerPort_make connect_to_running
  | ClearTestRootDir _ => ClearTestRootDir_make c
  | CreateTestRootDir _ => CreateTestRootDir_make c
  | EnterVlogSessionId => EnterVlogSessionId_make
  end.
End prompts.

(** * The defaults *)
Section defaults.
Context `{P : Platform} `{B : Build} (kApplicationVersion host_name : string).
Abbreviation C := LocalNetworkController.
Implicit Types c : C.

Lemma append_assoc s1 s2 s3 : (s1 +:+ s2) +:+ s3 = s1 +:+ s2 +:+ s3.
Proof. induction s1 as [|a s1 IH]; [done|]. exact (f_equal (String a) IH). Qed.

Lemma append_nil s : s +:+ "" = s.
Proof. induction s as [|a s IH]; [done|]. exact (f_equal (String a) IH). Qed.

Lemma text_app l1 l2 : text (l1 ++ l2) = text l1 +:+ text l2.
Proof. induction l1 as [|s l1 IH]; [done|].
  change (s +:+ text (l1 ++ l2) = (s +:+ text l1) +:+ text l2). by rewrite IH, append_assoc.
Qed.

Lemma text_cons s l : text (s :: l) = s +:+ text l.
Proof. done. Qed.

Lemma text_nil : text [] = "".
Proof. done. Qed.

(** Texts as one concatenation, from left to right. *)
Ltac flat := rewrite ?text_app, ?text_cons, ?text_nil, ?append_nil, ?append_assoc; try reflexivity.

(** The instructions tell that the default is [d]. *)
Definition told (s d : string) : Prop :=
  ∃ before sep after, (sep = " " ∨ sep = nl) ∧
    s = text [before; "'Enter' to use default"; sep; quote; d; quote; after].

Lemma told_text sep l1 l2 d :
  sep = " " ∨ sep = nl →
  told (text (l1 ++ ["'Enter' to use default"; sep; quote; d; quote] ++ l2)) d.
Proof.
  intros Hs. exists (text l1), sep, (text l2). split; [done|]. by flat.
Qed.

Lemma told_before a s d : told s d → told (s +:+ a) d.
Proof. intros (before & sep & after & Hs & ->). exists before, sep, (after +:+ a). split; [done|]. by flat. Qed.

(** The defaults by command. *)
Definition default_of (x : Command) (new : bool) : option string :=
  match x with
  | ChoosePathToVault => Some (Path_string kPathToVault)
  | ChooseTestRootDir => Some (Path_string kTestEnvRootDir)
  | ChooseToRevealHostname => Some (yes_or_no kSendHostnameToVisualiserServer)
  | ChooseVaultCount => Some (pretty (if new then kVaultCountNewNetwork else kVaultCount))
  | ChooseVaultManagerPort _ => Some (pretty kVaultManagerPort)
  | ClearTestRootDir _ => Some (yes_or_no kClearTestRootDir)
  | CreateTestRootDir _ => Some (yes_or_no kCreateTestRootDir)
  | _ => None
  end.

(** The constructors succeed, and start the instructions with the preamble of the class. *)
Lemma prompt_shape c x :
  ∃ p instructions, prompt kApplicationVersion host_name c x = Ok p ∧
    p.(kInstructions_) = text [nl; nl; kPreamble_ x; instructions] ∧
    ∀ d, default_of x c.(new_network) = Some d → told instructions d.
Proof.
  destruct x; eexists _, _; (split; [reflexivity|split; [reflexivity|]]); intros d [= <-].
  - apply (told_text nl ["  "]). by right.
  - apply (told_text nl ["  "]). by right.
  - apply (told_text " " [_; _; _; _; _; _; _; _; _; _; _]). by left.
  - apply told_before. unfold Instruction. apply (told_text " " [_; _; _; _; _; _; _; _]). by left.
  - apply (told_text " " [_; _; _]). by left.
  - apply (told_text " " [_; _; _; _; _; _; _; _]). by left.
  - apply (told_text " " [_; _; _; _; _; _; _; _]). by left.
Qed.

(** Every command can be constructed, its prompt starts with its preamble, and where the
    prompt tells a default, entering nothing does what entering that default does. *)
Theorem default_is_told c x :
  Path_of_string (Path_string kPathToVault) = kPathToVault →
  Path_of_string (Path_string kTestEnvRootDir) = kTestEnvRootDir →
  ∃ p instructions, prompt kApplicationVersion host_name c x = Ok p ∧
    p.(kInstructions_) = text [nl; nl; kPreamble_ x; instructions] ∧
    ∀ d, default_of x c.(new_network) = Some d →
      told instructions d ∧ ∀ c', convert x c.(new_network) "" c' = convert x c.(new_network) d c'.
Proof.
  intros Hv Hr. destruct (prompt_shape c x) as (p & i & Hp & Hi & Ht). exists p, i.
  split_and!; [done..|]. intros d Hd. split; [by apply Ht|]. intros c'.
  assert (Hpath : ∀ set q e, Path_of_string (Path_string q) = q →
    ConvertPath set q e "" c' = ConvertPath set q e (Path_string q) c').
  { intros set q e Hq. unfold ConvertPath. rewrite (bool_decide_true ("" = "")) by done.
    destruct (bool_decide_reflect (Path_string q = "")) as [|_]; [done|]. by rewrite Hq. }
  destruct x; try done; injection Hd as <-; cbn [convert]; [by apply Hpath|by apply Hpath|done| |done|done|done].
  by destruct (new_network c).
Qed.
End defaults.
