(* ===== verification/Tests.v ===== *)
(** The repository's own tests of [rpc_helper.h], [ProcessManager], [VaultManager] and
    [ClientInterface] ([tests/rpc_helper_test.cc], [tests/process_manager_test.cc],
    [tests/vault_manager_test.cc] and [tests/client_interface_test.cc]) as programs of the model,
    that they pass, and [tests/test_utils.cc].  The libraries a test gets its paths and its random
    plain text from are arguments, and so is what happens while its thread blocks. *)
From S2P Require Export TearDown Behaviour Utils RpcHelper Handshake Network.
From S2P Require Tools Prompts.
From S2P Require Import Demo.

(** * [RpcHelperTest.BEH_SetResponseCallback] *)
Section rpc_helper_test.
Context `{P : Platform}.
(** [operator==] of two plain texts. *)
Context (plaintext_eqb : PlainText → PlainText → bool).
Abbreviation R := (Rpc PlainText).
Abbreviation event := (RpcEvent Challenge).
Implicit Types s : R.

(** [future.get()]: it blocks while the events happen; [None] if it still blocks then. *)
Definition future_get (events : list event) (future : nat) : M R (option (Outcome PlainText)) :=
  for_each (rpc_step GetValue_Challenge) events;;
  gets (λ s, s.(requests) !! future ≫= promise).

(** The loop of [EXPECT_THROW(future.get(), maidsafe_error)]: whether all expectations hold, or
    [None] if a future blocks for ever.  [during i] happens while future [i] blocks. *)
Fixpoint expect_throws (during : nat → list event) (futures : list nat) : M R (option bool) :=
  match futures with
  | [] => mret (Some true)
  | future :: futures =>
      o ← future_get (during future) future;
      match o with
      | None => mret None
      | Some o =>
          rest ← expect_throws during futures;
          mret (andb (if o is Exception (maidsafe_error _) then true else false) <$> rest)
      end
  end.

(** The loop of [EXPECT_NO_THROW] and [EXPECT_EQ]; [retrieved] is [retrieved_challenge]. *)
Fixpoint expect_plaintexts (challenge_plaintext : PlainText) (during : nat → list event)
    (retrieved : option PlainText) (futures : list nat) : M R (option bool) :=
  match futures with
  | [] => mret (Some true)
  | future :: futures =>
      o ← future_get (during future) future;
      match o with
      | None => mret None
      | Some o =>
          let '(no_throw, retrieved) :=
            match o with Value v => (true, Some v) | Exception _ => (false, retrieved) end in
          match retrieved with
          | None => crash null_deref
          | Some v =>
              rest ← expect_plaintexts challenge_plaintext during retrieved futures;
              mret (andb (no_throw && plaintext_eqb challenge_plaintext v) <$> rest)
          end
      end
  end.

(** Three calls of [SetResponseCallback]. *)
Definition three_requests : M R (list nat) :=
  a ← SetResponseCallback; b ← SetResponseCallback; c ← SetResponseCallback; mret [a; b; c].

(** The test; the thread [t] that runs the callback is one of the events. *)
Definition BEH_SetResponseCallback (challenge : Challenge) (during : nat → list event) : M R (option bool) :=
  futures ← three_requests;
  thrown ← expect_throws during futures;
  match thrown with
  | None => mret None
  | Some thrown =>
      futures ← three_requests;
      equal ← expect_plaintexts challenge.(plaintext) during None futures;
      mret (andb thrown <$> equal)
  end.

(** ** While the first three requests wait *)

(** Only timers run; none of them fails. *)
Definition timer_event (e : event) : bool :=
  match e with Expires _ false | RunHandler _ => true | _ => false end.

(** How far a request that only its timer acts on has got. *)
Definition waiting : PromiseAndTimer PlainText := mkPromiseAndTimer None kRpcTimeout timer_waiting false.
Definition expired : PromiseAndTimer PlainText := mkPromiseAndTimer None kRpcTimeout (timer_ready wait_done) false.
Definition failed : PromiseAndTimer PlainText :=
  mkPromiseAndTimer (Some (Exception (maidsafe_error timed_out))) kRpcTimeout timer_done true.
Definition stage (n : nat) : PromiseAndTimer PlainText :=
  match n with 0 => waiting | 1 => expired | _ => failed end%nat.

(** The stages of the requests, and the callback that the first failure drops. *)
Definition at_stages (c : Callback) (ns : list nat) s : Prop :=
  s.(requests) = stage <$> ns ∧ s.(mutex_alive) = true ∧ Forall (λ n, n ≤ 2)%nat ns ∧
  s.(callback) = if decide (2%nat ∈ ns) then null_callback else c.

Definition advance (e : event) (ns : list nat) : list nat :=
  match e with
  | Expires i _ => alter (λ n, match n with 0 => 1 | n => n end%nat) i ns
  | RunHandler i => alter (λ n, match n with 1 => 2 | n => n end%nat) i ns
  | _ => ns
  end.

Lemma alter_fmap_at {X Y} (h : X → Y) f g i (l : list X) :
  (∀ x, l !! i = Some x → f (h x) = h (g x)) → alter f i (h <$> l) = h <$> alter g i l.
Proof.
  intros H. apply list_eq. intros j. rewrite list_lookup_fmap. destruct (decide (j = i)) as [->|Hn].
  - rewrite !list_lookup_alter_eq, list_lookup_fmap. destruct (l !! i) as [x|]; [|done]. cbn. by rewrite H.
  - by rewrite !list_lookup_alter_ne, list_lookup_fmap.
Qed.

Lemma alter_same {X} f i (l : list X) : (∀ x, l !! i = Some x → f x = x) → alter f i l = l.
Proof.
  intros H. rewrite <- (list_fmap_id l) at 1. rewrite (alter_fmap_at id f id i l H).
  by rewrite list_fmap_id, list_alter_id.
Qed.

Lemma two_alter (f : nat → nat) i (ns : list nat) :
  (∀ n, f n = 2 ↔ n = 2)%nat → 2%nat ∈ alter f i ns ↔ 2%nat ∈ ns.
Proof.
  intros Hf. rewrite !list_elem_of_lookup. split; intros [j Hj]; exists j.
  - destruct (decide (j = i)) as [->|Hn]; [|by rewrite list_lookup_alter_ne in Hj].
    rewrite list_lookup_alter_eq in Hj. destruct (ns !! i) as [n|]; [|done]. injection Hj as Hj.
    by apply Hf in Hj as ->.
  - destruct (decide (j = i)) as [->|Hn]; [|by rewrite list_lookup_alter_ne].
    rewrite list_lookup_alter_eq, Hj. cbn. f_equal. by apply Hf.
Qed.

Lemma advance_spec c e ns s :
  timer_event e = true → at_stages c ns s →
  ∃ s', rpc_step GetValue_Challenge e s = (Ok tt, s') ∧ at_stages c (advance e ns) s'.
Proof.
  intros He (Hr & Ha & Hns & Hc). destruct e as [| | |i []|i]; try done; cbn [rpc_step advance].
  - eexists. split; [done|]. split_and!; cbn; [|done| |].
    + rewrite Hr. apply alter_fmap_at. by intros [|[|]].
    + apply Forall_alter; [done|]. intros [|n]; lia.
    + rewrite Hc. apply decide_ext, symmetry, two_alter. intros [|n]; lia.
  - pose proof (list_lookup_fmap stage ns i) as Hl. rewrite <- Hr in Hl.
    unfold on_timer. mrun. rewrite Hl.
    destruct (ns !! i) as [[|[|n]]|] eqn:E; cbn; [|rewrite Ha| |]; eexists; (split; [done|]).
    2: { split_and!; cbn; [|done| |].
      - rewrite Hr, list_alter_alter. apply alter_fmap_at. intros x Hx. by simplify_eq.
      - apply Forall_alter; [done|]. intros [|[|n]]; lia.
      - rewrite decide_True; [done|]. apply list_elem_of_lookup. exists i. by rewrite list_lookup_alter_eq, E. }
    all: rewrite alter_same; [by split_and!|]; intros x Hx; by simplify_eq.
Qed.

Definition advances (es : list event) (ns : list nat) : list nat := foldl (λ ns e, advance e ns) ns es.

Lemma advances_spec c es ns s :
  Forall (λ e, timer_event e = true) es → at_stages c ns s →
  ∃ s', for_each (rpc_step GetValue_Challenge) es s = (Ok tt, s') ∧ at_stages c (advances es ns) s'.
Proof.
  intros He. revert ns s. induction He as [|e es He _ IH]; intros ns s Hs; [by exists s|].
  destruct (advance_spec c e ns s He Hs) as (s1 & E1 & H1). destruct (IH _ _ H1) as (s2 & E2 & H2).
  exists s2. cbn [for_each]. by rewrite (M_bind_run _ _ _ _ _ E1).
Qed.

Lemma advances_mono es ns i n : ns !! i = Some n → ∃ m, advances es ns !! i = Some m ∧ (n ≤ m)%nat.
Proof.
  revert ns n. induction es as [|e es IH]; intros ns n Hn; [by exists n|].
  assert (∃ m, advance e ns !! i = Some m ∧ (n ≤ m)%nat) as (m & Hm & ?).
  { destruct e as [| | |j ?|j]; cbn; try (by exists n);
      (destruct (decide (i = j)) as [->|Hj];
       [rewrite list_lookup_alter_eq, Hn|rewrite list_lookup_alter_ne by done]);
      eexists; (split; [done|]); repeat case_match; lia. }
  destruct (IH _ _ Hm) as (m' & ? & ?). exists m'. split; [done|lia].
Qed.

(** The wait of request [i] ends, and its handler runs. *)
Definition fires (i : nat) (es : list event) : Prop :=
  ∃ a b c, es = a ++ Expires i false :: b ++ RunHandler i :: c.

Lemma advances_app es es' ns : advances (es ++ es') ns = advances es' (advances es ns).
Proof. apply foldl_app. Qed.

Lemma advances_fires es ns i :
  fires i es → is_Some (ns !! i) → ∃ m, advances es ns !! i = Some m ∧ (2 ≤ m)%nat.
Proof.
  assert (Hstep : ∀ e k ns n, (e = Expires i false ∧ k = 1 ∨ e = RunHandler i ∧ k = 2)%nat →
    ns !! i = Some n → (k - 1 ≤ n)%nat → ∃ m, advance e ns !! i = Some m ∧ (k ≤ m)%nat).
  { intros e k ms n [[-> ->]|[-> ->]] Hn Hk; cbn; rewrite list_lookup_alter_eq, Hn; eexists;
      (split; [done|]); repeat case_match; lia. }
  intros (a & b & c & ->) [n Hn]. destruct (advances_mono a ns i n Hn) as (n1 & H1 & _).
  destruct (Hstep (Expires i false) 1%nat _ n1 (or_introl (conj eq_refl eq_refl)) H1) as (n2 & H2 & G2); [lia|].
  destruct (advances_mono b _ i n2 H2) as (n3 & H3 & G3).
  destruct (Hstep (RunHandler i) 2%nat _ n3 (or_intror (conj eq_refl eq_refl)) H3) as (n4 & H4 & G4); [lia|].
  destruct (advances_mono c _ i n4 H4) as (n5 & H5' & G5). exists n5. split; [|lia].
  rewrite advances_app. change (advances (b ++ RunHandler i :: c) (advance (Expires i false) (advances a ns)) !! i = Some n5).
  by rewrite advances_app.
Qed.

Lemma advances_length es ns : length (advances es ns) = length ns.
Proof.
  revert ns. induction es as [|e es IH]; intros ns; [done|]. cbn. etransitivity; [apply IH|].
  destruct e; cbn; by rewrite ?length_alter.
Qed.

Lemma last_stage c ns s i n : at_stages c ns s → ns !! i = Some n → (2 ≤ n)%nat → ns !! i = Some 2%nat.
Proof. intros (_ & _ & H & _) Hn ?. rewrite Forall_lookup in H. rewrite Hn. f_equal. specialize (H i n Hn). lia. Qed.

(** The first loop: every future of it throws. *)
Lemma throws_run c during futures ns s :
  at_stages c ns s →
  (∀ i, i ∈ futures → is_Some (ns !! i) ∧ Forall (λ e, timer_event e = true) (during i) ∧ fires i (during i)) →
  ∃ ns' s', expect_throws during futures s = (Ok (Some true), s') ∧ at_stages c ns' s' ∧
    length ns' = length ns ∧ ∀ i, ns !! i = Some 2%nat ∨ i ∈ futures → ns' !! i = Some 2%nat.
Proof.
  revert ns s. induction futures as [|f futures IH]; intros ns s Hs Hf.
  { exists ns, s. split_and!; [done..|]. intros i [|H]; [done|by apply elem_of_nil in H]. }
  destruct (Hf f) as (Hl & Ht & Hfire); [by left|]. cbn [expect_throws].
  destruct (advances_spec c (during f) ns s Ht Hs) as (s1 & E1 & H1).
  set (ns1 := advances (during f) ns) in *.
  assert (Hn : ns1 !! f = Some 2%nat).
  { destruct (advances_fires _ _ _ Hfire Hl) as (m & Hm & ?). by eapply last_stage. }
  assert (Hkeep : ∀ i n, ns !! i = Some n → ∃ m, ns1 !! i = Some m ∧ (n ≤ m)%nat)
    by (intros; by apply advances_mono).
  destruct (IH ns1 s1 H1) as (ns' & s' & E' & H' & Hlen & Hlast).
  { intros i Hi. destruct (Hf i) as ([n Hn'] & ?); [by right|]. split; [|done].
    destruct (Hkeep i n Hn') as (m & Hm & _). by exists m. }
  exists ns', s'. split_and!; [|done|by rewrite Hlen; apply advances_length|].
  - assert (Hget : future_get (during f) f s = (Ok (Some (Exception (maidsafe_error timed_out))), s1)).
    { unfold future_get. rewrite (M_bind_run _ _ _ _ _ E1). unfold gets. destruct H1 as (Hr & _).
      by rewrite Hr, list_lookup_fmap, Hn. }
    rewrite (M_bind_run _ _ _ _ _ Hget). by rewrite (M_bind_run _ _ _ _ _ E').
  - intros i [Hi|[->|Hi]%elem_of_cons]; apply Hlast; [left|by left|by right].
    destruct (Hkeep i _ Hi) as (m & Hm & ?). by eapply last_stage.
Qed.

(** ** While the second three requests wait *)

(** The second loop: every future has the plain text already, and keeps it. *)
Lemma plaintexts_run v during retrieved futures s :
  plaintext_eqb v v = true → rpc_wf s → s.(mutex_alive) = true →
  (∀ i, i ∈ futures → Forall (rpc_event_ok GetValue_Challenge) (during i) ∧
     ∃ p, s.(requests) !! i = Some p ∧ p.(promise) = Some (Value v)) →
  ∃ s', expect_plaintexts v during retrieved futures s = (Ok (Some true), s').
Proof.
  intros Heq. revert retrieved s. induction futures as [|f futures IH]; intros retrieved s Hs Ha Hf; [by exists s|].
  destruct (Hf f) as (Hok & p & Hp & Hv); [by left|]. cbn [expect_plaintexts].
  destruct (rpc_run_facts GetValue_Challenge (during f) s Hok Hs Ha) as (s1 & E1 & H1 & [_ Hkeep] & Ha1).
  assert (Hget : future_get (during f) f s = (Ok (Some (Value v)), s1)).
  { unfold future_get. rewrite (M_bind_run _ _ _ _ _ E1). destruct (Hkeep f p _ Hp Hv) as (p' & Hp' & Ho).
    unfold gets. rewrite Hp'. cbn. by rewrite Ho. }
  destruct (IH (Some v) s1 H1 Ha1) as (s' & E').
  { intros i Hi. destruct (Hf i) as (? & q & Hq & Ho); [by right|]. split; [done|]. by eapply Hkeep. }
  exists s'. rewrite (M_bind_run _ _ _ _ _ Hget). rewrite (M_bind_run _ _ _ _ _ E'). cbn. by rewrite Heq.
Qed.

(** The second three requests are made, and the callback has run. *)
Definition second_three : R :=
  mkRpc [failed; failed; failed; waiting; waiting; waiting]
    (response_callback 5 (response_callback 4 (response_callback 3 null_callback))) true.

Definition replied (v : PlainText) : R :=
  let answer := mkPromiseAndTimer (Some (Value v)) kRpcTimeout (timer_ready wait_aborted) true in
  mkRpc [failed; failed; failed; answer; answer; answer] second_three.(callback) true.

Lemma stale_handlers es :
  Forall (λ e : event, ∃ i, e = RunHandler i) es →
  for_each (rpc_step GetValue_Challenge) es second_three = (Ok tt, second_three).
Proof.
  induction 1 as [|e es [i ->] _ IH]; [done|]. cbn [for_each].
  by rewrite (M_bind_run _ _ second_three tt second_three) by (by destruct i as [|[|[|[|[|[|i]]]]]]).
Qed.

Lemma replied_wf v : rpc_wf (replied v).
Proof.
  split; cbn; [|repeat constructor; lia|by apply (bool_decide_unpack _)].
  repeat constructor; cbn; try by rewrite bool_decide_eq_true_2. all: by eexists.
Qed.

Lemma events_ok (es : list event) : Forall (rpc_event_ok GetValue_Challenge) es.
Proof. apply Forall_forall. by intros [] _. Qed.

Lemma first_loop during :
  (∀ i, (i < 3)%nat → Forall (λ e, timer_event e = true) (during i) ∧ fires i (during i)) →
  (futures ← three_requests; expect_throws during futures) Rpc_make =
    (Ok (Some true), mkRpc [failed; failed; failed] null_callback true).
Proof.
  intros Hfirst.
  set (s1 := mkRpc [waiting; waiting; waiting]
    (response_callback 2 (response_callback 1 (response_callback 0 null_callback))) true).
  rewrite (M_bind_run _ _ _ [0; 1; 2]%nat s1) by done.
  assert (Hin : ∀ i, i ∈ [0; 1; 2]%nat ↔ (i < 3)%nat).
  { intros i. rewrite !elem_of_cons, elem_of_nil. lia. }
  destruct (throws_run s1.(callback) during [0; 1; 2]%nat [0; 0; 0]%nat s1)
    as (ns & s2 & E & (Hr & Ha & _ & Hc) & Hlen & Hall).
  { split_and!; [done|done|by repeat constructor; lia|done]. }
  { intros i Hi%Hin. split; [|by apply Hfirst]. apply lookup_lt_is_Some. cbn. lia. }
  rewrite E. destruct ns as [|n0 [|n1 [|n2 [|]]]]; try done.
  assert (Hn : ∀ i, (i < 3)%nat → [n0; n1; n2] !! i = Some 2%nat) by (intros i Hi%Hin; apply Hall; by right).
  pose proof (Hn 0%nat ltac:(lia)) as [= ->]. pose proof (Hn 1%nat ltac:(lia)) as [= ->].
  pose proof (Hn 2%nat ltac:(lia)) as [= ->]. destruct s2. cbn in *. by subst.
Qed.

Lemma events_app es es' s s1 :
  for_each (rpc_step GetValue_Challenge) es s = (Ok tt, s1) →
  for_each (rpc_step GetValue_Challenge) (es ++ es') s = for_each (rpc_step GetValue_Challenge) es' s1.
Proof.
  revert s. induction es as [|e es IH]; intros s E; [by injection E as ->|]. cbn [for_each app] in E |- *.
  apply M_bind_Ok in E as ([] & s2 & E & E'). rewrite <- (IH s2 E'). by rewrite (M_bind_run _ _ _ _ _ E).
Qed.

Lemma get_app es es' i s s1 :
  for_each (rpc_step GetValue_Challenge) es s = (Ok tt, s1) → future_get (es ++ es') i s = future_get es' i s1.
Proof. intros E. unfold future_get, mbind, M_bind. by rewrite (events_app _ es' _ _ E). Qed.

Lemma second_loop challenge during before after :
  plaintext_eqb challenge.(plaintext) challenge.(plaintext) = true →
  during 3%nat = before ++ Response challenge :: after → Forall (λ e, ∃ i, e = RunHandler i) before →
  ∃ s, expect_plaintexts challenge.(plaintext) during None [3; 4; 5]%nat second_three = (Ok (Some true), s).
Proof.
  intros Heq H3 Hbefore. set (v := plaintext challenge). pose (during' := λ i, match i with 3 => after | _ => during i end%nat).
  destruct (plaintexts_run v during' None [3; 4; 5]%nat (replied v)) as (s & E); [done|apply replied_wf|done| |].
  { intros i Hi. split; [apply events_ok|]. rewrite !elem_of_cons, elem_of_nil in Hi.
    destruct Hi as [->|[->|[->|[]]]]; by eexists. }
  exists s. rewrite <- E. cbn [expect_plaintexts]. unfold mbind at 1 4, M_bind at 1 4.
  rewrite H3, cons_middle, app_assoc, (get_app _ after 3 second_three (replied v)); [done|].
  by rewrite (events_app _ _ _ _ (stale_handlers before Hbefore)).
Qed.

(** The repository's test of [SetResponseCallback] passes, and ends, however the timers
    interleave: while it blocks on each of the first three futures only timers run, and that
    future's wait ends; while it blocks on the fourth no new wait has ended before the
    other thread runs the callback, and afterwards anything may happen. *)
Theorem rpc_helper_test_passes challenge during before after :
  plaintext_eqb challenge.(plaintext) challenge.(plaintext) = true →
  (∀ i, (i < 3)%nat → Forall (λ e, timer_event e = true) (during i) ∧ fires i (during i)) →
  during 3%nat = before ++ Response challenge :: after →
  Forall (λ e, ∃ i, e = RunHandler i) before →
  ∃ s, BEH_SetResponseCallback challenge during Rpc_make = (Ok (Some true), s).
Proof.
  intros Heq Hfirst H3 Hbefore.
  destruct (second_loop challenge during before after Heq H3 Hbefore) as (s & E).
  exists s. unfold BEH_SetResponseCallback.
  apply M_bind_Ok. pose proof (first_loop during Hfirst) as (futures & s1 & E1 & E2)%M_bind_Ok.
  exists futures, s1. split; [done|]. rewrite (M_bind_run _ _ _ _ _ E2). cbv beta iota.
  rewrite (M_bind_run _ _ _ [3; 4; 5]%nat second_three) by done.
  by rewrite (M_bind_run _ _ _ _ _ E).
Qed.
End rpc_helper_test.

(** * [VaultManagerTest.BEH_Basic] and [ProcessManagerTest.BEH_Constructor] *)
Section vault_manager_test.
Context `{P : Platform} `{B : Build} `{A : !Archives}.
Context `{AL : !ArchiveLaws} `{AS : !ArchiveSafety}.
Implicit Types w : World.

(** Up to the second in which the test sleeps. *)
Definition BEH_Basic_begin (test_env_root_dir path_to_vault : Path) : M World unit :=
  SetEnvironment 7777 test_env_root_dir path_to_vault 0;;
  VaultManager_make.

(** From there to the end of the scope. *)
Definition BEH_Basic_end : M World unit := VaultManager_destroy.

(** [ProcessManagerTest.BEH_Constructor], up to the destruction of the [io_service]. *)
Definition BEH_Constructor (path_to_vault : Path) : M World unit :=
  ProcessManager_make path_to_vault 7777;;
  StopAll.

Lemma create_pmids_files n : files_only (create_pmids n).
Proof.
  induction n as [|n IH]; cbn [create_pmids]; files_solve; done.
Qed.

Lemma SetEnvironment_files port root vault n : files_only (SetEnvironment port root vault n).
Proof.
  unfold SetEnvironment. files_solve; try done. apply create_pmids_files.
Qed.

(** The destructor of a manager whose vaults are connected returns. *)
Lemma destroy_returns w :
  system_wf w → null_connection ∉ vault_connection <$> vaults w → ∃ w', VaultManager_destroy w = (Ok tt, w').
Proof.
  intros Hw Hn. unfold VaultManager_destroy, mbind at 1, M_bind at 1, gets.
  destruct (tear_down_with_interval_ w); [by eexists|].
  destruct (close_everything w Hw) as (l & E & _). rewrite E.
  set (w1 := set_trace _ w). assert (Hw1 : system_wf w1) by by eapply system_same.
  destruct (StopAll_spec w1) as (_ & Hset & Hrun); [apply Hw1|].
  destruct (stop_all_flag_ (pm w1)); [exists w1; by apply Hset|].
  destruct (Hrun eq_refl) as (_ & H). destruct (H Hn) as (w' & E' & _). by exists w'.
Qed.

(** The repository's test of [VaultManager] passes: the manager it makes has no vault, and
    whatever the manager does while the test sleeps, its destructor returns, unless a vault that
    somebody asked for in that second has not connected yet. *)
Theorem vault_manager_test_passes root vault w w1 :
  TESTING = true → w.(queue) = [] → BEH_Basic_begin root vault w = (Ok tt, w1) →
  vaults w1 = [] ∧
  ∀ w2, rtc step w1 w2 → null_connection ∉ vault_connection <$> vaults w2 →
    ∃ w3, BEH_Basic_end w2 = (Ok tt, w3).
Proof.
  intros HT Hq ([] & w0 & E & Hmake)%M_bind_Ok.
  pose proof (SetEnvironment_files 7777 root vault 0 w) as (F & _). rewrite E in F. cbn in F.
  assert (Hq0 : w0.(queue) = []) by (by rewrite F).
  split.
  - pose proof (VaultManager_make_facts w0 w1 Hq0 Hmake) as [_ H]. rewrite HT in H. apply H.
  - intros w2 Hsteps Hn. apply destroy_returns; [|done]. apply reachable_wf. by exists w0, w1.
Qed.

(** The test of [ProcessManager]: when the constructor accepts the path, stopping the vaults, of
    which there are none, sends nothing and returns. *)
Lemma process_manager_test_passes vault w w1 :
  ProcessManager_make vault 7777 w = (Ok tt, w1) →
  vaults w1 = [] ∧ ∃ w2, BEH_Constructor vault w = (Ok tt, w2) ∧ w2.(trace) = w1.(trace) ∧ vaults w2 = [].
Proof.
  intros E. pose proof E as (Hv & _)%ProcessManager_make_facts. split; [done|].
  unfold BEH_Constructor. rewrite (M_bind_run _ _ _ _ _ E), StopAll_same, StopAllWithInterval_run, Hv.
  destruct (stop_all_flag_ (pm w1)); eexists; split_and!; done.
Qed.
End vault_manager_test.

(** * [ClientInterfaceTest.BEH_Basic] *)
Section client_interface_test.
Context `{P : Platform} `{L : !PlatformLaws} `{B : Build} `{A : !Archives} `{AL : !ArchiveLaws}
  `{AS : !ArchiveSafety}.
Implicit Types w : World.
Implicit Types c : ClientInterface.

(** Up to the construction of the client. *)
Definition client_test_begin (test_env_root_dir path_to_vault : Path) : M World unit :=
  SetEnvironment 8888 test_env_root_dir path_to_vault 0;;
  VaultManager_make.

(** The scope of the client, from the [get()] of its constructor on; [false] while that blocks. *)
Definition client_test_scope (request : nat) : M ClientInterface bool :=
  constructed ← ClientInterface_resume request;
  if constructed : bool then ClientInterface_destroy;; mret true else mret false.

(** The end of the scope of the manager. *)
Definition client_test_end : M World unit := VaultManager_destroy.

(** ** A manager that nobody asks for a vault *)

Definition no_vault w : Prop := owned (λ _ _, False) w.

Lemma no_vault_none w : no_vault w → vaults w = [].
Proof. intros [H _]. destruct (vaults w) as [|c l]; [done|]. apply Forall_cons in H as [[[] _] _]. Qed.

Definition unasked w w' : Prop :=
  ∃ e r, event_ok w e ∧ (∀ k bs l, e = MessageReceived k bs → ¬ asks_for bs l) ∧
    handle e w = (r, w') ∧ is_Fault r = false.

Lemma unasked_kept w w' : rtc unasked w w' → system_wf w → no_vault w → system_wf w' ∧ no_vault w'.
Proof.
  induction 1 as [|w1 w2 w3 (e & r & He & Ha & E & Hr) _ IH]; [done|]. intros Hw Hn. apply IH.
  - pose proof (handle_wf e w1 Hw He) as H. rewrite E in H. by apply H.
  - pose proof (handle_owned (λ _ _, False) e w1) as H. rewrite E in H. apply H; [|done].
    intros k bs l -> Hask. by destruct (Ha k bs l eq_refl).
Qed.

Lemma destroy_without_vaults w : system_wf w → no_vault w → ∃ w', VaultManager_destroy w = (Ok tt, w').
Proof. intros Hw Hn. apply destroy_returns; [done|]. rewrite no_vault_none by done. apply not_elem_of_nil. Qed.

Lemma validate_asks_nothing bs l : Serialise ValidateConnectionRequest_ = Ok bs → ¬ asks_for bs l.
Proof.
  intros Hs (t & body & Ht & Hb). destruct (Serialise_ParseTag _ _ Hs) as (body' & Ht' & _).
  rewrite Ht in Ht'. by injection Ht' as -> ->.
Qed.

(** ** The client *)

Lemma challenge_no_response challenge bs :
  Serialise (Challenge_ challenge) = Ok bs → client_event_ok (Receives bs).
Proof.
  intros Hs m Hr. destruct (Serialise_ParseTag _ _ Hs) as (body & Ht & _). unfold receive in Hr.
  rewrite Ht in Hr. change (Challenge_ <$> Parse Challenge_codec body = Ok (VaultRunningResponse_ m)) in Hr.
  by destruct (Parse Challenge_codec body).
Qed.

Lemma client_scope_run i c c2 :
  client_wf c → ClientInterface_resume i c = (Ok true, c2) →
  ∃ c3, client_test_scope i c = (Ok true, c3) ∧
    c3.(base).(trace) = c2.(base).(trace) ++ [Closed c.(ci_tcp_connection_)].
Proof.
  intros Hc E. pose proof (Resume_good i c Hc) as H. unfold client_good, wp in H. rewrite E in H.
  destruct H as (_ & Hc2 & _). change (client_wf c2) in Hc2.
  pose proof (client_step_told (Resume i) c ltac:(done)) as (_ & Hk & _). cbn [client_step] in Hk.
  rewrite (M_bind_run _ _ _ _ _ E) in Hk. cbn in Hk. pose proof (cl_connection _ Hc2) as Hn.
  unfold client_test_scope. rewrite (M_bind_run _ _ _ _ _ E).
  assert (H : ∃ c', (if TESTING then HandleNetworkStableResponse else mret tt) c2 = (Ok tt, c') ∧
    c'.(base) = c2.(base) ∧ c'.(ci_tcp_connection_) = c2.(ci_tcp_connection_)).
  { destruct TESTING; [|by exists c2]. unfold HandleNetworkStableResponse, mbind, M_bind, gets.
    destruct (network_stable_flag_ c2); by eexists. }
  destruct H as (c' & E' & Hb & Hk'). rewrite <- Hk' in Hn. eexists. split.
  - unfold ClientInterface_destroy. unfold mbind at 1 2, M_bind at 1 2. rewrite E'. unfold gets.
    unfold mbind at 1, M_bind at 1. unfold in_base, zoom. by rewrite (Close_good _ _ Hn).
  - cbn. by rewrite Hb, Hk', Hk.
Qed.

(** The repository's test of [ClientInterface] passes: the manager it makes answers the connection of
    the client with a challenge, whatever came before; the client's constructor then returns, and
    its destructor closes the connection; and the manager's destructor returns too, whatever it handled
    meanwhile, unless somebody asked for a vault. *)
Theorem client_interface_test_passes root vault maid w w1 wc i c0 k bs1 w2 :
  TESTING = true → connects_properly → archives_all →
  w.(queue) = [] → client_test_begin root vault w = (Ok tt, w1) →
  ClientInterface_begin (ClientInterface_fields maid wc) = (Ok i, c0) →
  rtc unasked w1 w2 → is_Some (w2.(nc).(connections_) !! k) → Serialise ValidateConnectionRequest_ = Ok bs1 →
  ∃ bs2 bs3 w3 c1 c3,
    HandleReceivedMessage k bs1 w2 = (Ok tt, w3) ∧ w3.(trace) = w2.(trace) ++ [Sent k bs2] ∧
    ci_HandleReceivedMessage bs2 c0 = (Ok tt, c1) ∧ client_test_scope i c1 = (Ok true, c3) ∧
    c3.(base).(trace) = c0.(base).(trace) ++ [Sent c0.(ci_tcp_connection_) bs3; Closed c0.(ci_tcp_connection_)] ∧
    ∀ w4, rtc unasked w3 w4 → ∃ w5, client_test_end w4 = (Ok tt, w5).
Proof.
  intros HT Hc Hall Hq ([] & w0 & E & Hmake)%M_bind_Ok Hb Hrun Hk Hs.
  pose proof (SetEnvironment_files 8888 root vault 0 w) as (F & _). rewrite E in F. cbn in F. rewrite Hq in F.
  pose proof (VaultManager_make_facts w0 w1 F Hmake) as [Hw1 H]. rewrite HT in H. destruct H as [Hv1 Hq1].
  destruct (unasked_kept _ _ Hrun Hw1) as [Hw2 Hn2]; [by split; rewrite ?Hv1, ?Hq1|].
  destruct (manager_challenges k bs1 w2 Hall Hw2 Hk Hs) as (plain & bs2 & w3 & E3 & Hbs2 & Ht3 & _).
  destruct (client_answers maid wc c0 i plain bs2 Hc Hall Hb Hbs2) as (c1 & c2 & bs3 & E1 & E2 & _ & Ht2).
  destruct (ClientInterface_begin_wf _ _ _ _ Hc Hb) as [Hc0 _].
  pose proof (client_step_good (Receives bs2) c0 (challenge_no_response _ _ Hbs2) Hc0) as (_ & Hc1 & _). cbn [client_step] in Hc1.
  pose proof (client_step_told (Receives bs2) c0 ltac:(done)) as (_ & Hk1 & _). cbn [client_step] in Hk1.
  rewrite E1 in Hc1, Hk1. cbn in Hc1, Hk1.
  destruct (client_scope_run i c1 c2 Hc1 E2) as (c3 & E4 & Ht4).
  exists bs2, bs3, w3, c1, c3. split_and!; [done..| |].
  - by rewrite Ht4, Ht2, Hk1, <- app_assoc.
  - intros w4 Hrun4. assert (Hstep : unasked w2 w3).
    { exists (MessageReceived k bs1), (Ok tt). split_and!; [|by intros ? ? ? [= <- <-]; apply validate_asks_nothing|done..].
      cbn. intros ->. rewrite (sys_nc _ Hw2) in Hk. by destruct Hk. }
    assert (Hrun' : rtc unasked w2 w4) by by eapply rtc_l.
    destruct (unasked_kept _ _ Hrun' Hw2 Hn2) as [? ?]. by apply destroy_without_vaults.
Qed.
End client_interface_test.

(** * [tests/test_utils.cc] *)
Section test_utils.
Context `{P : Platform}.
(** [std::system], [convert::ToString] and [boost::trim]; the extension of this executable's path, and
    how many matches [boost::find_iterator] visits. *)
Context (std_system : string → OS → Z * OS) (convert_ToString : bytes → string) (boost_trim : string → string).
Context (extension : string) (matches : string → string → nat).
(** [MAIDSAFE_WIN32] *)
Context (windows : bool).
Implicit Types w : World.

(** [static_cast<int>] of a [ptrdiff_t]. *)
Definition to_int (z : Z) : Z := (z + 2 ^ 31) mod 2 ^ 32 - 2 ^ 31.

Definition process_count_command (process_name : string) : string :=
  if windows then
    ("tasklist /fi " ++ Prompts.quote ++ "imagename eq " ++ process_name ++ Prompts.quote ++
     " /nh > process_count.txt")%string
  else ("ps -ef | grep " ++ process_name ++ " | grep -v grep | wc -l > process_count.txt")%string.

(** The number that the file holds. *)
Definition num_processes (process_name contents : string) : Res Z :=
  if windows then Ok (to_int (Z.of_nat (matches contents process_name)))
  else Tools.stoi (boost_trim contents).

(** [int GetNumRunningProcesses(std::string)] *)
Definition GetNumRunningProcesses (process_name : string) : M World Z :=
  let process_name := if windows then (process_name ++ extension)%string else process_name in
  result ← os_call' (std_system (process_count_command process_name));
  if negb (result =? 0) then mret (-1)
  else
    try_ (contents ← os_call (ReadFile (Path_append (Path_of_string ".") "process_count.txt"));
          lift_res (num_processes process_name (convert_ToString contents)))
    catch _ ⇒ mret (-1).

Lemma stoi_cases s : (∃ z, Tools.stoi s = Ok z ∧ - 2 ^ 31 ≤ z < 2 ^ 31) ∨ Tools.stoi s = Throw std_exception.
Proof.
  unfold Tools.stoi. destruct (match Tools.skip_spaces s with String _ _ => _ | _ => _ end) as [sign s'].
  destruct (Tools.read_digits s' None) as [v|]; [|by right].
  destruct (Z.leb_spec (- 2 ^ 31) (sign * v)); [|by right].
  destruct (Z.leb_spec (sign * v) (2 ^ 31 - 1)); [|by right]. left. eexists. split; [done|]. lia.
Qed.

Lemma num_processes_cases process_name contents :
  (∃ z, num_processes process_name contents = Ok z ∧ - 2 ^ 31 ≤ z < 2 ^ 31) ∨
  num_processes process_name contents = Throw std_exception.
Proof.
  unfold num_processes. destruct windows; [|apply stoi_cases]. left. eexists. split; [done|].
  unfold to_int. pose proof (Z.mod_pos_bound (Z.of_nat (matches contents process_name) + 2 ^ 31) (2 ^ 32)). lia.
Qed.

(** It gives an [int] whatever the shell and the file hold: the number in the file, or -1 when the
    command fails, the file cannot be read, or holds no [int]. *)
Lemma GetNumRunningProcesses_total process_name w :
  ∃ z w', GetNumRunningProcesses process_name w = (Ok z, w') ∧ - 2 ^ 31 ≤ z < 2 ^ 31 ∧
    (z = -1 ∨ ∃ name contents o o', ReadFile (Path_append (Path_of_string ".") "process_count.txt") o =
       (Normally contents, o') ∧ num_processes name (convert_ToString contents) = Ok z).
Proof.
  unfold GetNumRunningProcesses, os_call', os_call, try_catch, mbind, M_bind, lift_res. cbv beta zeta.
  set (name := if windows then _ else _).
  destruct (std_system _ _) as [result o]. destruct (result =? 0); [|by eexists _, _; split_and!; [..|left]].
  cbn -[ReadFile]. destruct (ReadFile _ _) as [[contents|e] o'] eqn:E; cbn;
    [|by eexists _, _; split_and!; [..|left]].
  destruct (num_processes_cases name (convert_ToString contents)) as [(z & Hz & ?)|Hz]; rewrite Hz;
    [|by eexists _, _; split_and!; [..|left]].
  eexists _, _. split_and!; [done|lia|lia|]. right. by exists name, contents, o, o'.
Qed.
End test_utils.
