(* ===== verification/DummyVault.v ===== *)
(** [tests/dummy_vault.cc]: the process that stands for a vault in tests.  Its main thread blocks
    in the constructor of the interface, on the exit code and on its worker; the handlers of
    the interface, the worker and the main thread take turns in any order. *)
From S2P Require Export VaultInterface Tools.
From S2P Require Import Demo.

Section dummy_vault.
Context `{P : Platform} `{B : Build} `{A : !Archives}.
Implicit Types v : VaultInterface.

(** [std::future<void> worker]: none, one whose function has not run yet, or its result. *)
Inductive Worker : Type :=
| no_worker
| worker_starts (e : VaultEvent)
| worker_finished (r : Res unit).

(** Where the main thread is; [Crashed] for undefined behaviour of any thread. *)
Inductive DummyPhase : Type :=
| Connecting (request : nat)
| Running (worker : Worker) (should_hang : bool)
| Returned (exit_code : Z) (should_hang : bool)
| Crashed (f : fault).

(** The port on the command line, of what [Logging::Initialise] leaves. *)
Definition dummy_port (unuseds : list string) : Res Z :=
  match unuseds with
  | [_; s] => to_u16 <$> stoi s
  | _ => Throw (maidsafe_error invalid_argument)
  end.

(** The exit code of an exception. *)
Definition dummy_exit_code (error : exn) : Z :=
  ErrorToInt (match error with maidsafe_error code => code | std_exception => invalid_argument end).

(** The [switch] on the test type: the worker and [should_hang]. *)
Definition choose_worker (t : TestType) : Worker * bool :=
  match t with
  | kNone => (no_worker, false)
  | kKillConnection => (worker_starts VKillConnection, false)
  | kSendInvalidMessage => (worker_starts VSendInvalidMessage, false)
  | kStopProcess => (worker_starts VStopProcess, false)
  | kIgnoreStopRequest => (no_worker, true)
  end.

(** [main] up to the [get()] of the constructor. *)
Definition dummy_begin (unuseds : list string) (w : World) : DummyPhase * VaultInterface :=
  match dummy_port unuseds with
  | Ok port =>
      match VaultInterface_begin (VaultInterface_fields port w) with
      | (Ok request, v) => (Connecting request, v)
      | (Throw e, v) => (Returned (dummy_exit_code e) false, v)
      | (Fault f, v) => (Crashed f, v)
      end
  | Throw e => (Returned (dummy_exit_code e) false, VaultInterface_fields 0 w)
  | Fault f => (Crashed f, VaultInterface_fields 0 w)
  end.

(** The end of the [try] block: the interface is destroyed. *)
Definition leave (code : Z) (should_hang : bool) (v : VaultInterface) : DummyPhase * VaultInterface :=
  match VaultInterface_destroy v with
  | (Ok _, v) => (Returned code should_hang, v)
  | (Throw _, v) => (Crashed terminated, v)
  | (Fault f, v) => (Crashed f, v)
  end.

(** What the constructor is followed by, up to the [get()] of [WaitForExit]. *)
Definition after_connecting : M VaultInterface (Worker * bool) :=
  config ← GetConfiguration;
  WaitForExit;;
  mret (choose_worker config.(vc_test_config).(test_type)).

(** The main thread goes on, unless it blocks: through the rest of the constructor, then through
    [WaitForExit] and [worker.get()]. *)
Definition main_proceeds (ph : DummyPhase) (v : VaultInterface) : DummyPhase * VaultInterface :=
  match ph with
  | Connecting request =>
      match VaultInterface_resume request v with
      | (Ok true, v) =>
          match after_connecting v with
          | (Ok (worker, should_hang), v) => (Running worker should_hang, v)
          | (Throw e, v) => leave (dummy_exit_code e) false v
          | (Fault f, v) => (Crashed f, v)
          end
      | (Ok false, v) => (Connecting request, v)
      | (Throw e, v) => (Returned (dummy_exit_code e) false, v)
      | (Fault f, v) => (Crashed f, v)
      end
  | Running worker should_hang =>
      match v.(exit_code_promise_) with
      | None => (ph, v)
      | Some code =>
          match worker with
          | no_worker => (Crashed no_state, v)
          | worker_starts _ => (ph, v)
          | worker_finished (Ok _) => leave code should_hang v
          | worker_finished (Throw e) => leave (dummy_exit_code e) should_hang v
          | worker_finished (Fault f) => (Crashed f, v)
          end
      end
  | _ => (ph, v)
  end.

Inductive DummyEvent : Type := Interface (e : VaultEvent) | WorkerRuns | MainProceeds.

Definition dummy_step (s : DummyPhase * VaultInterface) (e : DummyEvent) : DummyPhase * VaultInterface :=
  let '(ph, v) := s in
  match ph, e with
  | (Returned _ _ | Crashed _), _ => s
  | _, Interface e =>
      match vault_step e v with
      | (Fault f, v) => (Crashed f, v)
      | (_, v) => (ph, v)
      end
  | Running (worker_starts e) should_hang, WorkerRuns =>
      match vault_step e v with
      | (Fault f, v) => (Crashed f, v)
      | (r, v) => (Running (worker_finished r) should_hang, v)
      end
  | _, WorkerRuns => s
  | _, MainProceeds => main_proceeds ph v
  end.

Definition dummy_run (evs : list DummyEvent) (s : DummyPhase * VaultInterface) : DummyPhase * VaultInterface :=
  foldl dummy_step s evs.

(** The handlers of the interface, while its object lives. *)
Definition handler_event (e : VaultEvent) : Prop :=
  match e with VReceives _ | VConnectionCloses | VWaitEnds _ _ | VTimerRuns _ => True | _ => False end.
End dummy_vault.

(** * How the dummy vault ends *)
Section outcomes.
Context `{P : Platform} `{L : !PlatformLaws} `{B : Build} `{A : !Archives} `{AL : !ArchiveLaws}
  `{AS : !ArchiveSafety}.
Implicit Types v : VaultInterface.
Context (cfg : VaultConfig).

Lemma handler_after_construction e : handler_event e → after_construction e.
Proof. by destruct e. Qed.

(** A handler keeps the connection. *)
Lemma handler_connection e k :
  handler_event e → preserves (λ v, v.(vi_tcp_connection_) = k) (vault_step e).
Proof.
  assert (Hr : ∀ T (m : M (Rpc VaultConfig) T), preserves (λ v, v.(vi_tcp_connection_) = k) (in_responses m)).
  { intros T m v Hv. unfold in_responses, wp. cbn. by destruct (m (on_vault_started_response_ v)). }
  assert (Hx : ∀ code, preserves (λ v, v.(vi_tcp_connection_) = k) (set_exit_code code)).
  { intros code. apply preserves_bind; [apply preserves_gets|]. intros [];
      [apply preserves_ret|by apply preserves_modify]. }
  destruct e; intros He; try done; cbn [vault_step]; try apply Hr; [|apply Hx].
  apply preserves_try_catch; [|intros; apply preserves_ret].
  apply preserves_bind; [by intros v Hv|]. intros [[] body]; try apply preserves_ret; [|apply Hx].
  apply preserves_bind; [by intros v Hv|]. intros m. apply Hr.
Qed.

(** The states of a dummy vault whose interface was constructed, by the test type. *)
Definition dummy_state_ok (t : TestType) (s : DummyPhase * VaultInterface) : Prop :=
  match t with
  | kNone | kIgnoreStopRequest =>
      s.1 = Running no_worker (choose_worker t).2 ∧ configured cfg s.2 ∨ s.1 = Crashed no_state
  | kKillConnection =>
      s.1 = Running (worker_starts VKillConnection) false ∨
      s.1 = Running (worker_finished (Ok tt)) false ∧ s.2.(vi_tcp_connection_) = null_connection ∨
      ∃ f, s.1 = Crashed f
  | kSendInvalidMessage | kStopProcess =>
      (s.1 = Running (choose_worker t).1 false ∨ s.1 = Running (worker_finished (Ok tt)) false) ∧
        configured cfg s.2 ∨
      ∃ code, s.1 = Returned code false
  end.

Definition dummy_event (e : DummyEvent) : Prop :=
  match e with Interface e => handler_event e | _ => True end.

(** The worker of a test that does not kill the connection. *)
Lemma worker_runs e v :
  e = VSendInvalidMessage ∨ e = VStopProcess → configured cfg v →
  ∃ v', vault_step e v = (Ok tt, v') ∧ configured cfg v' ∧
    (is_Some v.(exit_code_promise_) → is_Some v'.(exit_code_promise_)).
Proof.
  intros He Hv. assert (Ha : after_construction e) by by destruct He as [->| ->].
  destruct (vault_step_configured cfg e v Ha Hv) as [_ H]. exists (vault_step e v).2.
  destruct He as [->| ->]; cbn [vault_step] in *.
  - revert H. unfold SendInvalidMessage, mbind, M_bind, gets.
    destruct (N.eqb_spec (vi_tcp_connection_ v) null_connection) as [E|]; [by destruct (cf_connection _ _ Hv)|].
    intros H. by split_and!.
  - revert H. unfold StopProcess, HandleVaultShutdownRequest, set_exit_code, mbind, M_bind, gets.
    destruct (exit_code_flag_ v); intros H; by split_and!.
Qed.

Lemma handler_configured e ph v :
  handler_event e → configured cfg v →
  match ph with Running _ _ => True | _ => False end →
  ∃ v', dummy_step (ph, v) (Interface e) = (ph, v') ∧ configured cfg v'.
Proof.
  intros He Hv Hph. destruct (vault_step_configured cfg e v (handler_after_construction e He) Hv) as [Hf H].
  exists (vault_step e v).2. split; [|done]. cbn.
  destruct ph as [|[]| |]; try done; by destruct (vault_step e v) as [[|?|?] v'].
Qed.

Lemma leave_configured code h v :
  configured cfg v → ∃ v', leave code h v = (Returned code h, v').
Proof.
  intros Hv. unfold leave, VaultInterface_destroy, mbind, M_bind, gets, in_vi_base, zoom, Close.
  destruct (N.eqb_spec (vi_tcp_connection_ v) null_connection) as [E|]; [by destruct (cf_connection _ _ Hv)|].
  by eexists.
Qed.

Lemma leave_killed code h v :
  v.(vi_tcp_connection_) = null_connection → ∃ v', leave code h v = (Crashed null_deref, v').
Proof.
  intros Hv. unfold leave, VaultInterface_destroy, mbind, M_bind, gets, in_vi_base, zoom, Close.
  rewrite Hv. by eexists.
Qed.

(** A dummy vault that waits without a worker. *)
Lemma idle_step h e s :
  dummy_event e → s.1 = Running no_worker h ∧ configured cfg s.2 ∨ s.1 = Crashed no_state →
  let s' := dummy_step s e in
  s'.1 = Running no_worker h ∧ configured cfg s'.2 ∨ s'.1 = Crashed no_state.
Proof.
  destruct s as [ph v]. cbn [fst snd]. intros He [[-> Hv]| ->]; [|by right].
  destruct e as [e| |]; [|by left|].
  - destruct (handler_configured e (Running no_worker h) v He Hv I) as (v' & -> & ?). by left.
  - cbn. destruct (exit_code_promise_ v); [by right|by left].
Qed.

(** One that has a worker which leaves the connection alone. *)
Lemma working_step e0 e s :
  e0 = VSendInvalidMessage ∨ e0 = VStopProcess → dummy_event e →
  (s.1 = Running (worker_starts e0) false ∨ s.1 = Running (worker_finished (Ok tt)) false) ∧
    configured cfg s.2 ∨ (∃ code, s.1 = Returned code false) →
  let s' := dummy_step s e in
  (s'.1 = Running (worker_starts e0) false ∨ s'.1 = Running (worker_finished (Ok tt)) false) ∧
    configured cfg s'.2 ∨ ∃ code, s'.1 = Returned code false.
Proof.
  destruct s as [ph v]. cbn [fst snd]. intros H0 He [[[-> | ->] Hv]|[code ->]]; [..|right; by exists code].
  - destruct e as [e| |].
    + destruct (handler_configured e (Running (worker_starts e0) false) v He Hv I) as (v' & -> & ?). left. by split; [left|].
    + destruct (worker_runs e0 v H0 Hv) as (v' & E & Hv' & _). cbn. rewrite E. left. by split; [right|].
    + cbn. destruct (exit_code_promise_ v); left; by split; [left|].
  - destruct e as [e| |]; [|left; by split; [right|]|].
    + destruct (handler_configured e (Running (worker_finished (Ok tt)) false) v He Hv I) as (v' & -> & ?). left. by split; [right|].
    + cbn. destruct (exit_code_promise_ v) as [code|]; [|left; by split; [right|]].
      destruct (leave_configured code false v Hv) as [v' ->]. right. by exists code.
Qed.

Lemma working_ends e0 s :
  e0 = VSendInvalidMessage ∨ e0 = VStopProcess →
  (s.1 = Running (worker_starts e0) false ∨ s.1 = Running (worker_finished (Ok tt)) false) ∧
    configured cfg s.2 ∨ (∃ code, s.1 = Returned code false) →
  (∀ f, s.1 ≠ Crashed f) ∧
  (is_Some s.2.(exit_code_promise_) →
    ∃ code, (dummy_run [WorkerRuns; MainProceeds] s).1 = Returned code false).
Proof.
  destruct s as [ph v]. cbn [fst snd]. intros H0 [[[-> | ->] Hv]|[code ->]];
    (split; [done|intros [code' Hc]; cbn [dummy_run foldl]; unfold dummy_step]).
  - destruct (worker_runs e0 v H0 Hv) as (v' & -> & Hv' & [code Hcode]); [by eexists|].
    cbn. rewrite Hcode. destruct (leave_configured code false v' Hv') as [v'' ->]. by exists code.
  - cbn. rewrite Hc. destruct (leave_configured code' false v Hv) as [v'' ->]. by exists code'.
  - by exists code.
Qed.

(** The one that kills its connection. *)
Lemma killing_step e s :
  dummy_event e → dummy_state_ok kKillConnection s → dummy_state_ok kKillConnection (dummy_step s e).
Proof.
  destruct s as [ph v]. unfold dummy_state_ok. cbn [fst snd]. intros He [->|[[-> Hv]|[f ->]]]; [| |right; right; by exists f].
  - destruct e as [e| |]; cbn; [|right; left; by split|by destruct (exit_code_promise_ v); left].
    destruct (vault_step e v) as [[?|?|f] v']; cbn; [by left|by left|right; right; by exists f].
  - destruct e as [e| |]; cbn; [|right; left; by split|].
    + pose proof (handler_connection e null_connection He v Hv) as Hk. unfold wp in Hk.
      destruct (vault_step e v) as [[?|?|f] v']; cbn in *;
        [right; left; by split|right; left; by split|right; right; by exists f].
    + destruct (exit_code_promise_ v) as [code|]; [|right; left; by split].
      destruct (leave_killed code false v Hv) as [v' ->]. right; right. by exists null_deref.
Qed.

(** Of the five tests of the dummy vault only two let it exit: without a worker the process
    ends in [worker.get()] of a future without a state; after the connection was
    killed the destructor of the interface dereferences it; while a worker that sends an
    invalid message or stops the process finishes, and nothing then crashes. *)
Theorem dummy_vault_outcomes t v evs :
  configured cfg v → Forall dummy_event evs →
  let s := dummy_run evs (Running (choose_worker t).1 (choose_worker t).2, v) in
  match t with
  | kNone | kIgnoreStopRequest =>
      (∀ code h, s.1 ≠ Returned code h) ∧
      (is_Some s.2.(exit_code_promise_) → (dummy_step s MainProceeds).1 = Crashed no_state)
  | kKillConnection => ∀ code h, s.1 ≠ Returned code h
  | kSendInvalidMessage | kStopProcess =>
      (∀ f, s.1 ≠ Crashed f) ∧
      (is_Some s.2.(exit_code_promise_) →
        ∃ code, (dummy_run [WorkerRuns; MainProceeds] s).1 = Returned code false)
  end.
Proof.
  intros Hv He s.
  assert (H : dummy_state_ok t s).
  { assert (H0 : dummy_state_ok t (Running (choose_worker t).1 (choose_worker t).2, v))
      by (destruct t; cbn; auto).
    unfold s. clear s. revert H0. generalize (Running (choose_worker t).1 (choose_worker t).2, v). clear v Hv.
    induction He as [|e evs He _ IH]; intros s H; [done|]. apply (IH (dummy_step s e)).
    destruct t; [by apply idle_step|by apply killing_step|eapply working_step; eauto..|by apply idle_step]. }
  destruct s as [ph v']. destruct t; cbn [dummy_state_ok fst snd choose_worker] in H |- *.
  1, 5: split; [intros code h; by destruct H as [[-> _]| ->]|intros [code Hc]; destruct H as [[-> _]| ->];
    [cbn; by rewrite Hc|done]].
  - intros code h. by destruct H as [->|[[-> _]|[f ->]]].
  - by apply (working_ends VSendInvalidMessage (ph, v') (or_introl eq_refl)).
  - by apply (working_ends VStopProcess (ph, v') (or_intror eq_refl)).
Qed.
End outcomes.

(** * The dummy vault and the manager *)
Section composed.
Context `{P : Platform} `{L : !PlatformLaws} `{B : Build} `{A : !Archives} `{AL : !ArchiveLaws}
  `{AS : !ArchiveSafety}.

(** C34: the manager tells no vault a test, so that the dummy vault it starts never exits: told
    its configuration it waits for an exit code, whatever else its interface handles, and once it
    has one, by a shutdown request or a lost connection, it asks a future without a state
    for its result. *)
Theorem dummy_vault_of_manager unuseds port w i v0 pmid pmids info key bs evs :
  (∀ o k o', tcp_connect port o = (Normally k, o') → k ≠ null_connection) →
  dummy_port unuseds = Ok port → dummy_begin unuseds w = (Connecting i, v0) →
  Serialise (VaultStartedResponse_ (VaultStartedResponse_make pmid pmids info key)) = Ok bs →
  Forall handler_event evs →
  let s := dummy_run ([Interface (VReceives bs); MainProceeds] ++ (Interface <$> evs)) (Connecting i, v0) in
  s.1 = Running no_worker false ∧
  (dummy_step s MainProceeds).1 =
    match s.2.(exit_code_promise_) with Some _ => Crashed no_state | None => Running no_worker false end.
Proof.
  intros Hc Hp Hb Hs He. unfold dummy_begin in Hb. rewrite Hp in Hb.
  destruct (VaultInterface_begin (VaultInterface_fields port w)) as [[r|e|f] v] eqn:E; [|done..].
  injection Hb as -> ->.
  destruct (response_configures _ _ _ _ _ _ _ _ _ Hc E Hs) as (v1 & v2 & H1 & H2 & Hv & Hx).
  assert (H3 : dummy_run [Interface (VReceives bs); MainProceeds] (Connecting i, v0) =
    (Running no_worker false, set_exit v2.(exit_code_promise_) true v2.(exit_code_flag_) v2)).
  { cbn [dummy_run foldl dummy_step vault_step]. rewrite H1. unfold dummy_step, main_proceeds. rewrite H2.
    unfold after_connecting, GetConfiguration, WaitForExit, mbind, M_bind, gets, modify.
    rewrite (cf_config _ _ Hv). cbn. rewrite Hx. unfold testing_member. by destruct TESTING. }
  unfold dummy_run. rewrite foldl_app. change (foldl dummy_step ?x [?a; ?b]) with (dummy_run [a; b] x).
  rewrite H3. clear H3. set (v := set_exit _ _ _ v2).
  assert (Hc2 : configured (config_of pmid pmids info) v) by by apply (configured_same _ v2).
  clearbody v. clear - Hc2 He AL AS.
  revert v Hc2. induction He as [|e evs He _ IH]; intros v Hv.
  - cbn. split; [done|]. by destruct (exit_code_promise_ v).
  - destruct (handler_configured _ e (Running no_worker false) v He Hv I) as (v' & E & Hv').
    cbn [fmap list_fmap foldl]. rewrite E. by apply IH.
Qed.
End composed.
