(* ===== verification/StartNetwork.v ===== *)
(** What [StartNetwork] of [tools/actions/start_network.cc] does when nothing goes wrong, and
    what the storing of the public keys does in any case. *)
From S2P Require Export Tools.

(** * Starting a network *)
Section starting.
Context `{P : Platform} `{B : Build}.
Context (answer : Environment).
Abbreviation C := LocalNetworkController.
Implicit Types c : C.

(** The key indices of the vaults that were started. *)
Definition started_indices (l : list ToolCall) : list Z :=
  omap (λ x, match x with ClientStartVault _ _ _ _ i => i | _ => None end) l.
(** The public keys that were put on the network. *)
Definition stored_keys (l : list ToolCall) : list PublicPmid :=
  omap (λ x, match x with PutPublicPmid p => Some p | _ => None end) l.

(** Calls that store one key, and start no vault. *)
Definition silent_but_put (l : list ToolCall) (p : PublicPmid) : Prop :=
  started_indices l = [] ∧ stored_keys l = [p].

(** A call that neither starts a vault nor stores a key. *)
Definition silent (x : ToolCall) : Prop := started_indices [x] = [] ∧ stored_keys [x] = [].

(** The chosen root is a directory. *)
Definition root_exists (root : Path) (o : OS) : Prop :=
  ∃ o1 o2, fs_exists root o = (Normally true, o1) ∧ fs_is_directory root o1 = (Normally true, o2).

Definition vlog_set c : Prop :=
  USE_VLOGGING = true → is_Some c.(tool_vlog_session_id) ∧ is_Some c.(tool_send_hostname).

(** Whether the network stores a key and gives it back, when it is put after the given
    calls. *)
Definition stored_ok (l : list ToolCall) (p : PublicPmid) : bool :=
  match answers answer l (PutPublicPmid p), MaidClient_Get answer (PublicPmid_name p) (l ++ [PutPublicPmid p]) with
  | Normally _, Normally q => EqualKeys p q
  | _, _ => false
  end.

(** ** Steps of the actions *)

(** What every step of the actions keeps. *)
Record kept c c' : Prop := {
  kp_env : c'.(tool_world).(env) = c.(tool_world).(env);
  kp_client : c.(client_interface) = true → c'.(client_interface) = true;
  kp_vlog : vlog_set c → vlog_set c';
  kp_count : c'.(vault_count) = c.(vault_count);
}.

#[export] Instance kept_preorder : PreOrder kept.
Proof. split; [by split|]. intros c c' c'' [] []. split; [congruence|auto|auto|congruence]. Qed.

(** [m] ends well: it starts the vaults of the indices [i], stores the keys [s], and gives a result
    and a state as [Q] says. *)
Definition does {T} (m : M C T) c (i : list Z) (s : list PublicPmid) (Q : T → C → Prop) : Prop :=
  ∃ a c', m c = (Ok a, c') ∧ kept c c' ∧ Q a c' ∧
    started_indices c'.(calls) = started_indices c.(calls) ++ i ∧
    stored_keys c'.(calls) = stored_keys c.(calls) ++ s.

Lemma does_ret {T} (a : T) c (Q : T → C → Prop) : Q a c → does (mret a) c [] [] Q.
Proof. intros HQ. exists a, c. by rewrite !app_nil_r. Qed.

Lemma does_bind {T U} (m : M C T) (k : T → M C U) c i s i' s' Q R :
  does m c i s Q → (∀ a c', kept c c' → Q a c' → does (k a) c' i' s' R) →
  does (m ≫= k) c (i ++ i') (s ++ s') R.
Proof.
  intros (a & c1 & E1 & K1 & HQ & Hi1 & Hs1) H.
  destruct (H a c1 K1 HQ) as (b & c2 & E2 & K2 & HR & Hi2 & Hs2).
  exists b, c2. rewrite (M_bind_run _ _ _ _ _ E1). split; [done|]. split; [by transitivity c1|].
  by rewrite Hi2, Hi1, Hs2, Hs1, !app_assoc.
Qed.

(** A step that starts nothing and stores nothing, then another. *)
Lemma does_step {T U} (m : M C T) (k : T → M C U) c i s Q R :
  does m c [] [] Q → (∀ a c', kept c c' → Q a c' → does (k a) c' i s R) → does (m ≫= k) c i s R.
Proof. exact (does_bind m k c [] [] i s Q R). Qed.

Lemma does_mono {T} (m : M C T) c i s (Q R : T → C → Prop) :
  does m c i s Q → (∀ a c', kept c c' → Q a c' → R a c') → does m c i s R.
Proof. intros (a & c' & ? & ? & ? & ?) HQ. exists a, c'. split; [done|]. split; [done|]. split; [by apply HQ|done]. Qed.

(** What completes is not caught. *)
Lemma does_try_catch {T} (m : M C T) h c i s Q : does m c i s Q → does (try_catch m h) c i s Q.
Proof. intros (a & c' & E & H). exists a, c'. split; [|exact H]. unfold try_catch. by rewrite E. Qed.

Lemma does_gets {T} (f : C → T) c : does (gets f) c [] [] (λ a c', a = f c ∧ c' = c).
Proof. exists (f c), c. by rewrite !app_nil_r. Qed.

Lemma does_in_tool {T} (m : M World T) c a w :
  m c.(tool_world) = (Ok a, w) → w.(env) = c.(tool_world).(env) → does (in_tool m) c [] [] (λ b _, b = a).
Proof.
  intros E He. exists a, (set_world w c). unfold in_tool, zoom. rewrite E. split; [done|].
  split; [by split|]. by rewrite !app_nil_r.
Qed.

Lemma does_note x c : silent x → does (note x) c [] [] (λ _ c', c' = set_calls (c.(calls) ++ [x]) c).
Proof.
  intros [Hi Hs]. exists tt, (set_calls (c.(calls) ++ [x]) c). split; [done|]. split; [by split|].
  unfold started_indices, stored_keys in *. cbn [calls set_calls]. by rewrite !omap_app, Hi, Hs.
Qed.

Lemma does_launch {T} (result : list ToolCall → Lib T) x c :
  silent x → does (launch result x) c [] [] (λ a _, a = result c.(calls)).
Proof.
  intros Hx. destruct (does_note x c Hx) as (a & c' & E & K & _ & H).
  unfold note, modify in E. injection E as _ <-. eexists _, _. split; [reflexivity|]. by split.
Qed.

Lemma does_pmids c :
  does (in_tool GetPublicPmids) c [] [] (λ b _, b = c.(tool_world).(env).(g_public_pmids)).
Proof. by apply (does_in_tool _ _ _ c.(tool_world)). Qed.

Lemma int_of_run z c : - 2 ^ 31 ≤ z ≤ int_max → int_of z c = (Ok z, c).
Proof.
  intros Hz. unfold int_of. destruct (Z.leb_spec (- 2 ^ 31) z); [|lia].
  destruct (Z.leb_spec z int_max); [done|lia].
Qed.

Lemma does_int z c : - 2 ^ 31 ≤ z ≤ int_max → does (int_of z) c [] [] (λ a _, a = z).
Proof. intros Hz. exists z, c. by rewrite int_of_run, !app_nil_r. Qed.

Lemma vlog_arguments_run c : vlog_set c → ∃ a, vlog_arguments c = (Ok a, c).
Proof.
  intros Hv. unfold vlog_arguments. unfold vlog_set in Hv. destruct USE_VLOGGING; [|by eexists].
  destruct (Hv eq_refl) as [[v Hs] [h Hh]]. unfold mbind, M_bind, gets. rewrite Hs, Hh. by eexists.
Qed.

Lemma does_vlog c : vlog_set c → does vlog_arguments c [] [] (λ _ _, True).
Proof. intros Hv. destruct (vlog_arguments_run c Hv) as [a E]. exists a, c. by rewrite !app_nil_r. Qed.

Lemma does_client c : c.(client_interface) = true → does the_client c [] [] (λ _ _, True).
Proof.
  intros Hc. eapply does_step; [apply does_gets|]. intros ? ? _ [-> ->]. rewrite Hc. by apply does_ret.
Qed.

Lemma does_keys (i : nat) c :
  (i < length c.(tool_world).(env).(g_pmids_and_signers))%nat → Z.of_nat i < 2 ^ 31 →
  Z.of_nat (length c.(tool_world).(env).(g_pmids_and_signers)) < 2 ^ 63 →
  does (in_tool (GetPmidAndSigner (Z.of_nat i))) c [] []
    (λ k _, c.(tool_world).(env).(g_pmids_and_signers) !! i = Some k).
Proof.
  intros Hi Hi' Hl. destruct (lookup_lt_is_Some_2 _ _ Hi) as [keys Hkeys].
  eapply does_mono; [apply (does_in_tool _ _ keys c.(tool_world))|by intros ? ? _ ->]; [|done].
  rewrite GetPmidAndSigner_spec by lia. rewrite decide_True by lia. by rewrite Nat2Z.id, Hkeys.
Qed.

(** ** Storing the public keys *)

Lemma store_one_run p c :
  ∃ c', store_one answer p c = (Ok (negb (stored_ok c.(calls) p)), c') ∧ kept c c' ∧
    started_indices c'.(calls) = started_indices c.(calls) ∧
    stored_keys c'.(calls) = stored_keys c.(calls) ++ [p].
Proof.
  assert (K : ∀ l, silent_but_put l p → kept c (set_calls (c.(calls) ++ l) c) ∧
    started_indices (c.(calls) ++ l) = started_indices c.(calls) ∧
    stored_keys (c.(calls) ++ l) = stored_keys c.(calls) ++ [p]).
  { intros l [Hi Hs]. split; [by split|]. unfold started_indices, stored_keys in *.
    by rewrite !omap_app, Hi, Hs, app_nil_r. }
  unfold store_one, stored_ok, try_catch, call, launch, lift_res, raise, throw. unfold mbind, M_bind. cbn.
  destruct (answers answer (calls c) (PutPublicPmid p)) as [[]|e]; cbn; [|eexists; split; [done|by apply K]].
  destruct (MaidClient_Get answer _ _) as [q|e]; cbn; rewrite <- ?app_assoc.
  - destruct (EqualKeys p q); (eexists; split; [done|by apply K]).
  - eexists; split; [done|by apply K].
Qed.

(** The loop tries every key, and counts those that failed. *)
Lemma store_loop_run l failures c :
  0 ≤ failures → failures + Z.of_nat (length l) < 2 ^ 64 →
  ∃ failures', does (store_loop answer l failures) c [] l (λ f _, f = failures') ∧ failures ≤ failures' ∧
    (failures' = failures → Forall (λ p, ∃ t, stored_ok t p = true) l) ∧
    (failures' ≠ failures → Exists (λ p, ∃ t, stored_ok t p = false) l).
Proof.
  revert failures c. induction l as [|p l IH]; intros failures c Hf Hl; cbn [store_loop length] in *.
  - exists failures. split; [by apply does_ret|]. split_and!; [lia|done|lia].
  - destruct (store_one_run p c) as (c1 & E1 & K1 & Hi1 & Hs1).
    set (ok := stored_ok (calls c) p) in *.
    assert (Hp : ∃ t, stored_ok t p = ok) by by exists (calls c).
    set (f1 := if negb ok then to_u64 (failures + 1) else failures).
    assert (Hf1 : f1 = failures + if ok then 0 else 1).
    { unfold f1. destruct ok; cbn; [lia|]. apply to_u64_small. lia. }
    destruct (IH f1 c1) as (f2 & H2 & Hle & Heq & Hne); [destruct ok; lia..|].
    exists f2. split; [|destruct ok; split_and!; try lia].
    + eapply (does_bind _ _ _ [] [p] [] l (λ a c', a = negb ok ∧ c' = c1)); [|intros a c' _ [-> ->]; exact H2].
      exists (negb ok), c1. rewrite app_nil_r. split_and!; done.
    + intros ->. constructor; [done|]. apply Heq. lia.
    + intros Hn. right. apply Hne. lia.
    + intros _. by left.
Qed.

Lemma Store_run c :
  let pmids := c.(tool_world).(env).(g_public_pmids) in
  Z.of_nat (length pmids) < 2 ^ 64 →
  ∃ r c', Store answer c = (r, c') ∧ kept c c' ∧ started_indices c'.(calls) = started_indices c.(calls) ∧
    stored_keys c'.(calls) = stored_keys c.(calls) ++ pmids ∧
    (r = Ok tt ∧ Forall (λ p, ∃ t, stored_ok t p = true) pmids ∨
     r = Throw (maidsafe_error failed_to_handle_request) ∧ Exists (λ p, ∃ t, stored_ok t p = false) pmids).
Proof.
  intros pmids Hl. unfold Store.
  assert (E0 : in_tool GetPublicPmids c = (Ok pmids, c)) by by destruct c.
  rewrite (M_bind_run _ _ _ _ _ E0).
  destruct (store_loop_run pmids 0 c) as (f & (a & c1 & E1 & K1 & -> & Hi & Hs) & _ & Heq & Hne); [lia..|].
  rewrite (M_bind_run _ _ _ _ _ E1). rewrite app_nil_r in Hi. case_bool_decide as Hf.
  - eexists _, c1. split; [reflexivity|]. split_and!; [done..|]. left. by auto.
  - eexists _, c1. split; [reflexivity|]. split_and!; [done..|]. right. by auto.
Qed.

(** Storing the public keys tries every key of the environment, in order and whatever
    became of the ones before; it succeeds only when the network took every key and gave an equal
    one back, it fails only when some key failed or there is no client, and the client it made
    is stopped in either case. *)
Theorem StorePublicPmids_spec c :
  let pmids := c.(tool_world).(env).(g_public_pmids) in
  Z.of_nat (length pmids) < 2 ^ 64 →
  match StorePublicPmids answer c with
  | (Ok _, c') =>
      stored_keys c'.(calls) = stored_keys c.(calls) ++ pmids ∧ last c'.(calls) = Some StopMaidClient ∧
      Forall (λ p, ∃ t, stored_ok t p = true) pmids
  | (Throw e, c') =>
      answers answer c.(calls) (MakeSharedZeroState pmids) = Throws e ∧
        c'.(calls) = c.(calls) ++ [MakeSharedZeroState pmids] ∨
      e = maidsafe_error failed_to_handle_request ∧ last c'.(calls) = Some StopMaidClient ∧
        stored_keys c'.(calls) = stored_keys c.(calls) ++ pmids ∧
        Exists (λ p, ∃ t, stored_ok t p = false) pmids
  | (Fault _, _) => False
  end.
Proof.
  intros pmids Hl. unfold StorePublicPmids, PublicPmidStorer_make.
  assert (E0 : in_tool GetPublicPmids c = (Ok pmids, c)) by by destruct c.
  unfold mbind at 1, M_bind at 1. rewrite (M_bind_run _ _ _ _ _ E0). unfold call.
  destruct (answers answer (calls c) _) as [[]|e] eqn:Ea; cbn [of_lib]; [|by left].
  set (c1 := set_calls _ c). destruct (Store_run c1 Hl) as (r & c2 & E2 & K2 & _ & Hs2 & Hr).
  assert (Hs1 : stored_keys (calls c1) = stored_keys (calls c)).
  { unfold stored_keys. cbn. by rewrite omap_app, app_nil_r. }
  assert (Hs3 : stored_keys (calls c2 ++ [StopMaidClient]) = stored_keys (calls c) ++ pmids).
  { rewrite <- Hs1. etransitivity; [|exact Hs2]. unfold stored_keys. by rewrite omap_app, app_nil_r. }
  unfold finally, on_scope_exit. rewrite E2. destruct Hr as [[-> Hr]|[-> Hr]]; cbn; rewrite last_snoc.
  - by split_and!.
  - right. by split_and!.
Qed.
End starting.

(** * When nothing goes wrong *)
Section all_well.
Context `{P : Platform} `{B : Build}.
Context (answer : Environment).
Implicit Types c : LocalNetworkController.

(** No call throws, the disk works, the zero-state nodes join, and the network gives back
    what it was given. *)
Record all_well : Prop := {
  aw_answer : ∀ l x, answers answer l x = Normally tt;
  aw_directories : ∀ p o, ∃ o', fs_create_directories p o = (Normally tt, o');
  aw_space : ∀ p o, ∃ a o', fs_space_available p o = (Normally a, o');
  aw_join : ∀ p l, ZeroStateJoin_result answer p l = Normally 0;
  aw_get : ∀ p l, ∃ q,
    MaidClient_Get answer (PublicPmid_name p) (l ++ [PutPublicPmid p]) = Normally q ∧ EqualKeys p q = true;
}.
Context (W : all_well).

Lemma stored_ok_well l p : stored_ok answer l p = true.
Proof. unfold stored_ok. rewrite (aw_answer W). by destruct (aw_get W p l) as (q & -> & ->). Qed.

Lemma does_call x c : silent x → does (call answer x) c [] [] (λ _ _, True).
Proof.
  intros Hx. destruct (does_note x c Hx) as (a & c' & E & K & _ & H).
  unfold note, modify in E. injection E as _ <-. exists tt, (set_calls (calls c ++ [x]) c).
  unfold call. by rewrite (aw_answer W).
Qed.

(** The vault of an index. *)
Lemma prepare_and_start_run u (i : nat) c :
  c.(client_interface) = true → vlog_set c →
  (i < length c.(tool_world).(env).(g_pmids_and_signers))%nat → Z.of_nat i < 2 ^ 31 →
  Z.of_nat (length c.(tool_world).(env).(g_pmids_and_signers)) < 2 ^ 63 →
  does (prepare_and_start answer u (Z.of_nat i)) c [Z.of_nat i] [] (λ _ _, True).
Proof.
  intros Hc Hv Hi Hi' Hl. unfold prepare_and_start.
  eapply does_step; [by apply does_keys|]. intros keys c1 K1 _.
  eapply does_step; [apply does_gets|]. intros ? ? _ [-> ->]. cbv zeta.
  set (dir := Path_append _ _). destruct (aw_directories W dir (os (tool_world c1))) as [o Ho].
  eapply does_step; [apply (does_in_tool _ _ tt (set_os (λ _, o) (tool_world c1))); unfold os_call; by rewrite ?Ho|].
  intros [] c2 K2 _. pose proof (transitivity K1 K2) as K. unfold StartIndexedVault.
  eapply does_step; [apply does_vlog, (kp_vlog _ _ K Hv)|]. intros a c3 K3 _.
  eapply does_step; [apply does_client, (kp_client _ _ K3), (kp_client _ _ K), Hc|]. intros [] c4 K4 _.
  exists tt, (set_calls (calls c4 ++ [ClientStartVault dir u a.1 a.2 (Some (Z.of_nat i))]) c4).
  unfold call. rewrite (aw_answer W). split; [done|]. split; [by split|].
  unfold started_indices, stored_keys. cbn. by rewrite !omap_app.
Qed.

(** The same in a state that keeps the one it was checked in. *)
Lemma prepare_kept u (i : nat) c c' :
  kept c c' → c.(client_interface) = true → vlog_set c →
  (i < length c.(tool_world).(env).(g_pmids_and_signers))%nat → Z.of_nat i < 2 ^ 31 →
  Z.of_nat (length c.(tool_world).(env).(g_pmids_and_signers)) < 2 ^ 63 →
  does (prepare_and_start answer u (Z.of_nat i)) c' [Z.of_nat i] [] (λ _ _, True).
Proof.
  intros [He Hc Hv _] ? ? Hi ? Hl. rewrite <- He in Hi, Hl. apply prepare_and_start_run; auto.
Qed.

Lemma remaining_loop_run u n (i : nat) c :
  c.(client_interface) = true → vlog_set c →
  (i + n ≤ length c.(tool_world).(env).(g_pmids_and_signers))%nat → Z.of_nat (i + n) < 2 ^ 31 →
  Z.of_nat (length c.(tool_world).(env).(g_pmids_and_signers)) < 2 ^ 63 →
  does (remaining_loop answer n (Z.of_nat i) u) c (Z.of_nat <$> seq i n) [] (λ _ _, True).
Proof.
  revert i c. induction n as [|n IH]; intros i c Hc Hv Hi Hi' Hl; [by apply does_ret|].
  cbn [remaining_loop seq]. rewrite fmap_cons.
  apply (does_bind _ _ _ [Z.of_nat i] [] (Z.of_nat <$> seq (S i) n) [] (λ _ _, True)).
  { apply prepare_and_start_run; [done|done|lia..]. }
  intros [] c1 K1 _. eapply does_step; [by apply does_call|]. intros _ c2 K2 _.
  destruct (transitivity K1 K2) as [He Hc' Hv' _].
  replace (Z.of_nat i + 1) with (Z.of_nat (S i)) by lia.
  apply IH; [auto|auto|rewrite He; lia|lia|by rewrite He].
Qed.

Lemma StartFirstTwoVaults_run u c :
  c.(client_interface) = true → vlog_set c →
  (4 ≤ length c.(tool_world).(env).(g_pmids_and_signers))%nat →
  Z.of_nat (length c.(tool_world).(env).(g_pmids_and_signers)) < 2 ^ 63 →
  does (StartFirstTwoVaults answer u) c [2; 3] [] (λ _ _, True).
Proof.
  intros Hc Hv Hi Hl. unfold StartFirstTwoVaults.
  apply (does_bind _ _ _ [2] [] [3] [] (λ _ _, True)); [apply (prepare_kept u 2 c); [done|done|done|lia..]|].
  intros [] c1 K1 _. eapply does_step; [by apply does_try_catch, does_call|]. intros _ c2 K2 _.
  apply (does_bind _ _ _ [3] [] [] [] (λ _ _, True));
    [apply (prepare_kept u 3 c); [by transitivity c1|done|done|lia..]|].
  intros [] c3 K3 _. by apply does_try_catch, does_call.
Qed.

Lemma zero_state_run c :
  (2 ≤ length c.(tool_world).(env).(g_pmids_and_signers))%nat →
  Z.of_nat (length c.(tool_world).(env).(g_pmids_and_signers)) < 2 ^ 63 →
  does (StartZeroStateRoutingNodes answer) c [] [] (λ _ _, True).
Proof.
  intros Hi Hl. unfold StartZeroStateRoutingNodes.
  eapply does_step; [apply (does_keys 0); lia|]. intros keys0 c1 K1 _.
  eapply does_step; [by apply does_call|]. intros [] c2 K2 _.
  pose proof (transitivity K1 K2) as K. eapply does_step.
  { apply (does_keys 1); rewrite ?(kp_env _ _ K); lia. }
  intros keys1 c3 _ _. eapply does_step; [by apply does_call|]. intros [] c4 _ _.
  eapply does_step; [apply does_pmids|]. intros pmids c5 _ _.
  eapply does_step; [by apply does_call|]. intros [] c6 _ _.
  eapply does_step; [by apply does_launch|]. intros ? c7 _ ->.
  eapply does_step; [by apply does_launch|]. intros ? c8 _ ->. rewrite !(aw_join W).
  by apply does_ret.
Qed.

(** The manager and the client. *)
Lemma start_manager_run c :
  does (StartVaultManagerAndClientInterface answer) c [] [] (λ _ c', c'.(client_interface) = true).
Proof.
  assert (Hset : ∀ c a b, (c.(client_interface) = true → a = true) →
    does (modify (set_objects a b)) c [] [] (λ _ c', c'.(client_interface) = a)).
  { intros c0 a b H. exists tt, (set_objects a b c0). rewrite !app_nil_r. by split_and!. }
  unfold StartVaultManagerAndClientInterface.
  eapply does_step; [by apply does_call|]. intros [] c1 _ _.
  eapply does_step; [by apply (Hset c1 c1.(client_interface) true)|]. intros [] c2 _ _.
  eapply does_step; [by apply does_call|]. intros [] c3 _ _. by apply (Hset c3 true).
Qed.

(** The part that the zero-state nodes are needed for. *)
Lemma first_part_run u c :
  vlog_set c → (4 ≤ length c.(tool_world).(env).(g_pmids_and_signers))%nat →
  Z.of_nat (length c.(tool_world).(env).(g_pmids_and_signers)) < 2 ^ 63 →
  does (try_catch (StartZeroStateRoutingNodes answer;; StartVaultManagerAndClientInterface answer;;
          StartFirstTwoVaults answer u;; note FinishZeroStateNodes)
          (λ e, note FinishZeroStateNodes;; throw e)) c [2; 3] [] (λ _ c', c'.(client_interface) = true).
Proof.
  intros Hv Hi Hl. apply does_try_catch.
  eapply does_step; [apply zero_state_run; lia|]. intros [] c1 K1 _.
  eapply does_step; [apply start_manager_run|]. intros [] c2 K2 Hc2.
  destruct (transitivity K1 K2) as [He _ Hv' _].
  apply (does_bind _ _ _ [2; 3] [] [] [] (λ _ c', c'.(client_interface) = true)).
  { eapply does_mono; [apply StartFirstTwoVaults_run; [done|auto|by rewrite He..]|].
    intros [] c3 K3 _. by apply (kp_client _ _ K3). }
  intros [] c3 K3 Hc3. eapply does_mono; [by apply does_note|]. by intros _ ? _ ->.
Qed.

Lemma StorePublicPmids_run c :
  Z.of_nat (length c.(tool_world).(env).(g_public_pmids)) < 2 ^ 64 →
  does (StorePublicPmids answer) c [] c.(tool_world).(env).(g_public_pmids) (λ _ _, True).
Proof.
  intros Hl. unfold StorePublicPmids, PublicPmidStorer_make.
  eapply does_step.
  { eapply does_step; [apply does_pmids|]. intros pmids c1 K1 _. by apply does_call. }
  intros [] c1 K1 _. rewrite <- (kp_env _ _ K1) in *.
  destruct (Store_run answer c1 Hl) as (r & c2 & E2 & K2 & Hi & Hs & [[-> _]|[_ Hf]]).
  - destruct (does_note StopMaidClient c2) as (a & c3 & E3 & K3 & _ & Hi3 & Hs3); [done|].
    exists tt, c3. unfold finally, on_scope_exit. rewrite E2, E3. split; [done|]. split; [by transitivity c2|].
    rewrite Hi3, Hs3, Hi, Hs, !app_nil_r. done.
  - apply Exists_exists in Hf as (p & _ & t & Ht). by rewrite stored_ok_well in Ht.
Qed.

(** Creating the keys of the environment. *)
Lemma SetEnvironment_creates port root vault n w :
  root_exists root w.(os) → w.(env).(test_env_flag) = false → w.(env).(g_pmids_and_signers) = [] →
  w.(env).(g_public_pmids) = [] →
  ∃ w', SetEnvironment port root vault n w = (Ok tt, w') ∧
    length w'.(env).(g_pmids_and_signers) = Z.to_nat n ∧
    w'.(env).(g_public_pmids) = (λ k, PublicPmid_of_Pmid k.1) <$> w'.(env).(g_pmids_and_signers).
Proof.
  intros (o1 & o2 & E1 & E2) Hf Hk Hp. unfold SetEnvironment. mrun. rewrite Hf. unfold os_call.
  rewrite E1. mrun. rewrite E2. mrun.
  match goal with |- context [create_pmids _ ?w'] =>
    destruct (create_pmids_run (Z.to_nat n) w') as (l & o' & Hrun & Hl) end.
  { cbn. by rewrite Hp, Hk. }
  rewrite Hrun. eexists. split; [reflexivity|]. cbn. by rewrite Hk.
Qed.

Lemma max_usage_run a c n :
  16 ≤ n → n * 10 ≤ int_max → does (max_usage_of a n) c [] [] (λ _ _, True).
Proof.
  intros Hn Hm. unfold max_usage_of, int_max in *.
  eapply does_step; [apply does_int; unfold int_max; lia|]. intros ? c1 _ ->.
  destruct (Z.eqb_spec (10 * n) 0); [lia|]. by apply does_ret.
Qed.

Lemma space_run p c : does (in_tool (os_call (fs_space_available p))) c [] [] (λ _ _, True).
Proof.
  destruct (aw_space W p (os (tool_world c))) as (a & o & Ea).
  eapply does_mono; [apply (does_in_tool _ _ a (set_os (λ _, o) (tool_world c))); unfold os_call; by rewrite ?Ea|done].
Qed.

Lemma StartRemainingVaults_run u c :
  2 ≤ c.(vault_count) → c.(vault_count) + 2 ≤ int_max → c.(client_interface) = true → vlog_set c →
  Z.of_nat (length c.(tool_world).(env).(g_pmids_and_signers)) = c.(vault_count) + 2 →
  does (StartRemainingVaults answer u) c (Z.of_nat <$> seq 4 (Z.to_nat (c.(vault_count) - 2))) [] (λ _ _, True).
Proof.
  intros Hn Hm Hc Hv Hl. unfold int_max in Hm. unfold StartRemainingVaults.
  eapply does_step; [apply does_gets|]. intros ? ? _ [-> ->].
  eapply does_step; [apply does_int; unfold int_max; lia|]. intros ? c1 [He Hc1 Hv1 _] ->.
  replace (vault_count c + 2 - 4) with (vault_count c - 2) by lia.
  apply (remaining_loop_run u _ 4); [auto|auto|rewrite ?He; lia..].
Qed.

(** C38: starting a new network of [n] vaults, when nothing goes wrong, creates [n + 2] keys and
    starts exactly [n] vaults, one for each key of index 2 to [n + 1] and in that order - the
    keys of index 0 and 1 are left to the zero-state nodes -, then stores the public part of each
    key, in order, and tells the manager last that the network is stable. *)
Theorem StartNetwork_starts_all c :
  let n := c.(vault_count) in
  root_exists c.(test_env_root_dir) c.(tool_world).(os) →
  16 ≤ n → n * 10 ≤ int_max → vlog_set c → c.(tool_world).(env).(test_env_flag) = false →
  c.(tool_world).(env).(g_pmids_and_signers) = [] → c.(tool_world).(env).(g_public_pmids) = [] →
  ∃ c', StartNetwork answer c = (Ok tt, c') ∧
    let keys := c'.(tool_world).(env).(g_pmids_and_signers) in
    length keys = Z.to_nat (n + 2) ∧
    started_indices c'.(calls) = started_indices c.(calls) ++ (Z.of_nat <$> seq 2 (Z.to_nat n)) ∧
    stored_keys c'.(calls) = stored_keys c.(calls) ++ ((λ k, PublicPmid_of_Pmid k.1) <$> keys) ∧
    last c'.(calls) = Some MarkNetworkStable.
Proof.
  intros n Hroot Hn Hm Hv Hf Hk Hp. unfold int_max in Hm.
  destruct (SetEnvironment_creates (to_u16 c.(vault_manager_port)) c.(test_env_root_dir) c.(path_to_vault)
    (n + 2) c.(tool_world) Hroot Hf Hk Hp) as (w1 & E1 & Hl & Hpub).
  set (c1 := set_world w1 c).
  assert (Hpl : length w1.(env).(g_public_pmids) = Z.to_nat (n + 2)) by by rewrite Hpub, length_fmap.
  unfold StartNetwork, gets. unfold mbind at 1 2 3 4, M_bind at 1 2 3 4. fold n.
  rewrite (M_bind_run _ _ _ _ _ (int_of_run (n + 2) c ltac:(unfold int_max; lia))).
  rewrite (M_bind_run _ _ c tt c1) by (unfold in_tool, zoom; by rewrite E1).
  match goal with |- ∃ c', ?m c1 = _ ∧ _ => enough (D : does m c1 (Z.of_nat <$> seq 2 (Z.to_nat n))
    w1.(env).(g_public_pmids) (λ _ c', last c'.(calls) = Some MarkNetworkStable)) end.
  { destruct D as ([] & c' & E & K & HQ & Hi & Hs). exists c'. split; [exact E|].
    rewrite (kp_env _ _ K). change (env (tool_world c1)) with (env w1). cbv zeta. rewrite <- Hpub. by split_and!. }
  eapply does_step; [apply space_run|]. intros a c2 K2 _.
  eapply does_step; [by apply max_usage_run; unfold int_max|]. intros u c3 K3 _.
  assert (K13 : kept c1 c3) by by transitivity c2.
  replace (Z.to_nat n) with (2 + Z.to_nat (n - 2))%nat by lia. rewrite seq_app, fmap_app.
  rewrite <- (app_nil_l (g_public_pmids _)).
  eapply does_bind.
  { destruct K13 as [He _ Hv' _]. apply first_part_run; [by apply Hv'|rewrite He; cbn; lia..]. }
  intros [] c4 K4 Hc4. eapply does_step; [by apply does_call|]. intros [] c5 K5 _.
  eapply does_step; [by apply does_call|]. intros [] c6 K6 _.
  rewrite <- (app_nil_r (Z.of_nat <$> _)), <- (app_nil_l (g_public_pmids _)).
  assert (K16 : kept c1 c6) by by do 3 (etransitivity; [eassumption|]).
  eapply does_bind.
  { destruct K16 as [He _ Hv' Hcount]. change (vault_count c1) with n in Hcount. rewrite <- Hcount.
    apply StartRemainingVaults_run; rewrite ?Hcount, ?He; unfold int_max;
      [lia|lia|by eapply kp_client, kp_client|by apply Hv'|cbn; lia]. }
  intros [] c7 K7 _. eapply does_step; [apply does_int; unfold int_max; lia|]. intros k c8 K8 _.
  assert (K18 : kept c1 c8) by by do 2 (etransitivity; [eassumption|]).
  rewrite <- (app_nil_r (g_public_pmids _)). change (env w1) with (env (tool_world c1)).
  rewrite <- (kp_env _ _ K18). apply (does_bind _ _ _ [] _ [] [] (λ _ _, True)).
  { apply StorePublicPmids_run. rewrite (kp_env _ _ K18). cbn. lia. }
  intros [] c9 _ _. destruct (does_note MarkNetworkStable c9) as (b & c' & E & K & Hc' & H); [done|].
  exists tt, c'. unfold call. rewrite (aw_answer W). unfold note, modify in E. injection E as _ <-.
  split; [done|]. split; [done|]. split; [cbn; by rewrite last_snoc|exact H].
Qed.
End all_well.
