(* ===== verification/Menu.v ===== *)
(** The menu of the local network controller as a whole: which undefined behaviour a round
    can reach, and how it ends. *)
From S2P Require Export StartNetwork.

(** * The menu *)
Section menu.
Context `{P : Platform} `{B : Build}.
Context (answer : Environment).
Abbreviation C := LocalNetworkController.
Implicit Types c : C.

(** The class of a command. *)
Definition kind (x : Command) : Command :=
  match x with
  | Begin _ => Begin 0
  | ChooseExistingNetwork _ => ChooseExistingNetwork 0
  | ChooseTest _ => ChooseTest 0
  | ClearTestRootDir _ => ClearTestRootDir false
  | CreateTestRootDir _ => CreateTestRootDir false
  | x => x
  end.

(** What asking for a choice leaves as it is. *)
Record asks c c' : Prop := {
  as_kind : kind c'.(current_command) = kind c.(current_command);
  as_new : c'.(new_network) = c.(new_network);
  as_vlog : is_Some c.(tool_vlog_session_id) → is_Some c'.(tool_vlog_session_id);
  as_host : is_Some c.(tool_send_hostname) → is_Some c'.(tool_send_hostname);
  as_manager : c'.(vault_manager) = c.(vault_manager);
}.

#[export] Instance asks_preorder : PreOrder asks.
Proof. split; [done|]. intros c c' c'' [] []. split; [congruence|congruence|auto|auto|congruence]. Qed.

(** The conditions under which the program gets to a command. *)
Definition menu_ok c : Prop :=
  match c.(current_command) with
  | ChooseVaultCount => vlog_set c
  | ChooseToRevealHostname => is_Some c.(tool_vlog_session_id)
  | _ => True
  end.

(** What a made choice ensures. *)
Definition ready c : Prop :=
  match c.(current_command) with
  | Begin z => 1 ≤ z ≤ 3
  | ChooseExistingNetwork z => 1 ≤ z ≤ 2
  | ChooseVaultManagerPort _ => 1025 ≤ c.(vault_manager_port) ≤ 65536
  | ChooseVaultCount => (if c.(new_network) then 16 else 1) ≤ c.(vault_count) ≤ int_max
  | EnterVlogSessionId => is_Some c.(tool_vlog_session_id)
  | ChooseToRevealHostname => is_Some c.(tool_send_hostname)
  | _ => True
  end.

Lemma asks_in_tool {T} c0 (m : M World T) c :
  is_Fault (m c.(tool_world)).1 = false → asks c0 c → isafe (asks c0) (in_tool m) c.
Proof.
  intros Hm Hc. eapply isafe_run; [unfold in_tool, zoom; by rewrite (surjective_pairing (m (tool_world c)))|done|].
  trans c; [done|]. by split.
Qed.

Lemma os_call_no_fault {T} (f : OS → Lib T * OS) w : is_Fault (os_call f w).1 = false.
Proof. unfold os_call. by destruct (f (os w)) as [[?|?] ?]. Qed.

Lemma asks_modify c0 f c : (∀ c, asks c (f c)) → asks c0 c → isafe (asks c0) (modify f) c.
Proof. intros Hf Hc. apply isafe_modify. trans c; [done|apply Hf]. Qed.

Lemma read_line_no_fault n input : is_Fault (read_line n input).1 = false.
Proof. revert input. induction n as [|n IH]; intros [|[s| |] input]; try done. apply IH. Qed.

Lemma GetLine_asks c0 c : asks c0 c → isafe (asks c0) GetLine c.
Proof.
  intros Hc. apply isafe_bind; [by apply asks_modify|]. intros [] c1 _ H1.
  apply isafe_bind; [by apply isafe_gets|]. intros script c2 E _. injection E as _ <-.
  apply isafe_bind.
  - destruct script as [|s script].
    + apply isafe_bind; [by apply isafe_gets|]. intros input c3 E _. injection E as <- <-.
      pose proof (read_line_no_fault 1000 (std_cin c1)) as Hr.
      destruct (read_line 1000 (std_cin c1)) as [r rest]. cbn in Hr.
      apply isafe_bind; [by apply asks_modify|]. intros [] c4 _ H4.
      apply isafe_bind; [by apply isafe_lift_res|]. intros s c5 E _. injection E as _ <-. by apply isafe_ret.
    + apply isafe_bind; [by apply asks_modify|]. intros [] c4 _ H4. by apply isafe_ret.
  - intros ls c3 _ H3. apply isafe_bind.
    { unfold CheckForExitCommand. destruct (bool_decide _); [by apply isafe_throw|by apply isafe_ret]. }
    intros [] c4 _ H4. apply isafe_bind; [by apply asks_modify|]. intros [] c5 _ H5. by apply isafe_ret.
Qed.

Lemma stoi_no_fault s : is_Fault (stoi s) = false.
Proof.
  unfold stoi. destruct (match skip_spaces s with String _ _ => _ | _ => _ end) as [sign s'].
  destruct (read_digits s' None) as [v|]; [|done]. by destruct (_ && _).
Qed.

(** A conversion asks, and when it succeeds the choice is as its post-condition says. *)
Definition converts (I : C → Prop) (f : string → M C unit) (Q : C → Prop) : Prop :=
  ∀ c s, I c → wp (f s) (λ r c', is_Fault r = false ∧ asks c c' ∧ (r = Ok tt → Q c')) c.

Lemma converts_int (I : C → Prop) set d min max (Q : C → Prop) :
  (∀ z c, asks c (set z c)) → (∀ z c, I c → min ≤ z ≤ max → Q (set z c)) →
  converts I (ConvertInt set d min max) Q.
Proof.
  intros Hs HQ c s Hi. unfold ConvertInt. apply wp_bind.
  assert (Hr : ∃ r, (match d with
    | Some d => if bool_decide (s = "") then mret d else lift_res (stoi s)
    | None => lift_res (stoi s)
    end) c = (r, c) ∧ is_Fault r = false).
  { pose proof (stoi_no_fault s). destruct d as [d|]; [|by eexists].
    destruct (bool_decide (s = "")); by eexists. }
  destruct Hr as (r & Hr & Hn). unfold wp at 1. rewrite Hr. destruct r as [z|e|f]; [|by split_and!|done].
  cbn [fst snd]. unfold wp, mbind, M_bind, modify.
  destruct (Z.ltb_spec z min); cbn; [by split_and!|].
  rewrite Z.gtb_ltb. destruct (Z.ltb_spec max z); cbn; [by split_and!|].
  split_and!; [done|done|]. intros _. by apply HQ.
Qed.

Lemma converts_path (I : C → Prop) set d e (Q : C → Prop) :
  (∀ p c, asks c (set p c)) → (∀ c c', I c → asks c c' → Q c') → converts I (ConvertPath set d e) Q.
Proof.
  intros Hs HQ c s Hi. assert (H : isafe (asks c) (ConvertPath set d e s) c).
  { unfold ConvertPath, isafe. apply wp_on_scope_exit.
    assert (Hb : isafe (asks c) (let choice := if bool_decide (s = "") then d else Path_of_string s in
       modify (set choice);;
       (if e then there ← in_tool (os_call (fs_exists choice));
                  if there : bool then mret tt else raise invalid_argument
        else mret tt)) c).
    { cbv zeta. apply isafe_bind; [by apply asks_modify|]. intros [] c1 _ H1.
      destruct e; [|by apply isafe_ret].
      apply isafe_bind; [apply asks_in_tool; [apply os_call_no_fault|done]|]. intros [] c2 _ H2;
        [by apply isafe_ret|by apply isafe_throw]. }
    eapply isafe_wp; [exact Hb|]. intros [a|x|f] c1 Hf H1; [done| |done].
    unfold wp, modify. cbn. split; [done|]. trans c1; [done|apply Hs]. }
  destruct H as [H1 H2]. split_and!; [done|done|]. intros _. by eapply HQ.
Qed.

Lemma converts_bool (I : C → Prop) set d (Q : C → Prop) :
  (∀ b c, asks c (set b c)) → (∀ b c, I c → Q (set b c)) → converts I (ConvertBool set d) Q.
Proof.
  intros Hs HQ c s Hi. unfold ConvertBool, wp.
  destruct (bool_decide (s = "")); [split_and!; [done|apply Hs|intros _; by apply HQ]|].
  destruct (_ || _); [split_and!; [done|apply Hs|intros _; by apply HQ]|].
  destruct (_ || _); [split_and!; [done|apply Hs|intros _; by apply HQ]|]. by split_and!.
Qed.

(** The situation in which the choice of a command is asked for. *)
Definition asking (x : Command) (new : bool) c : Prop :=
  kind c.(current_command) = kind x ∧ c.(new_network) = new ∧
  (x = EnterVlogSessionId → is_Some c.(tool_vlog_session_id)) ∧
  (x = ChooseToRevealHostname → is_Some c.(tool_send_hostname)).

Lemma asking_asks x new c c' : asking x new c → asks c c' → asking x new c'.
Proof.
  intros (Hk & Hn & Hv & Hh) [A1 A2 A3 A4 A5]. split_and!; [congruence|congruence|auto|auto].
Qed.

Lemma set_choice_asks z c : asks c (set_choice z c).
Proof. split; try done. unfold set_choice. cbn. by destruct (current_command c). Qed.
Lemma set_flag_asks b c : asks c (set_flag b c).
Proof. split; try done. unfold set_flag. cbn. by destruct (current_command c). Qed.

Lemma convert_ready x new : converts (asking x new) (convert x new) ready.
Proof.
  assert (Hk : ∀ z c y, asking y new c → kind (current_command (set_choice z c)) = kind y).
  { intros z c y (Hy & _). unfold set_choice. cbn. rewrite <- Hy. by destruct (current_command c). }
  assert (Hset : ∀ c' p, asks c' (set_port p c')) by (intros; by split).
  assert (Hpath : ∀ c c', asking x new c → asks c c' →
    (kind x = ChoosePathToBootstrap ∨ kind x = ChoosePathToVault ∨ kind x = ChooseTestRootDir) → ready c').
  { intros c c' (Hx & _) [A1 _ _ _ _] Hor. unfold ready. rewrite Hx in A1.
    destruct (current_command c'); try done; destruct x; cbn in *; try done; by destruct Hor as [?|[?|?]]. }
  destruct x; cbn [convert].
  - apply converts_int; [apply set_choice_asks|]. intros z c (Hx & _) Hz. unfold ready, set_choice. cbn.
    by destruct (current_command c).
  - apply converts_int; [apply set_choice_asks|]. intros z c (Hx & _) Hz. unfold ready, set_choice. cbn.
    by destruct (current_command c).
  - apply converts_path; [by split|]. intros c c' Ha Hs. eapply Hpath; eauto.
  - apply converts_path; [by split|]. intros c c' Ha Hs. eapply Hpath; eauto.
  - apply converts_int; [apply set_choice_asks|]. intros z c (Hx & _) Hz. unfold ready, set_choice. cbn.
    by destruct (current_command c).
  - apply converts_path; [by split|]. intros c c' Ha Hs. eapply Hpath; eauto.
  - apply converts_bool; [by split|]. intros b c (Hx & _). unfold ready. cbn. by destruct (current_command c).
  - destruct new; (apply converts_int; [by split|]); intros z c (Hx & Hn & _) Hz; unfold ready; cbn;
      destruct (current_command c); try done; by rewrite Hn.
  - apply converts_int; [by split|]. intros z c (Hx & _) Hz. unfold ready. cbn.
    by destruct (current_command c).
  - apply converts_bool; [apply set_flag_asks|]. intros b c (Hx & _). unfold ready, set_flag. cbn.
    by destruct (current_command c).
  - apply converts_bool; [apply set_flag_asks|]. intros b c (Hx & _). unfold ready, set_flag. cbn.
    by destruct (current_command c).
  - intros c s (Hx & _). unfold ConvertString, modify, wp. cbn. split_and!; [done|by split|]. intros _.
    unfold ready. cbn. by destruct (current_command c).
Qed.

Lemma DoGetChoice_ready x new c :
  asking x new c →
  wp (DoGetChoice (convert x new)) (λ r c', is_Fault r = false ∧ asks c c' ∧ (r = Ok true → ready c')) c.
Proof.
  intros Hc. unfold DoGetChoice. apply wp_bind. eapply isafe_wp; [by apply GetLine_asks|].
  intros [[s src]|e|f] c1 Hf H1; [|done|done]. apply wp_try_catch. apply wp_bind.
  eapply wp_mono; [apply (convert_ready x new c1 s); by eapply asking_asks|]. cbn [fst snd].
  intros [[]|e|f] c2 (Hf2 & H2 & Hr); [| |done].
  - unfold wp. cbn. split_and!; [done|by trans c1|auto].
  - unfold wp. destruct src; cbn; (split_and!; [done|by trans c1|by intros [=]]).
Qed.

Lemma choice_loop_ready x new fuel c :
  asking x new c →
  wp (choice_loop fuel (convert x new)) (λ r c', is_Fault r = false ∧ asks c c' ∧ (r = Ok true → ready c')) c.
Proof.
  revert c. induction fuel as [|fuel IH]; intros c Hc; [by split_and!|]. cbn [choice_loop].
  apply wp_bind. eapply wp_mono; [by apply DoGetChoice_ready|].
  intros [[]|e|f] c1 (Hf1 & H1 & Hr1); [| |done|done].
  - unfold wp. cbn. auto.
  - eapply wp_mono; [apply IH; by eapply asking_asks|]. intros r c2 (? & ? & ?). split_and!; [done|by trans c1|done].
Qed.

(** Asking for the choice of the current command. *)
Lemma GetChoice_ready fuel c :
  wp (GetChoice fuel) (λ r c', is_Fault r = false ∧ asks c c' ∧ (r = Ok true → ready c')) c.
Proof.
  unfold GetChoice. apply wp_bind. unfold wp at 1, gets. cbn [fst snd].
  apply wp_bind. unfold wp at 1. cbn [fst snd]. apply wp_bind.
  set (x := current_command c).
  assert (H : ∃ c1, (match x with
      | ChooseToRevealHostname => modify (λ c, set_vlogging c.(tool_vlog_session_id) (Some false) c)
      | EnterVlogSessionId => modify (λ c, set_vlogging (Some "") c.(tool_send_hostname) c)
      | _ => mret tt
      end) c = (Ok tt, c1) ∧ asks c c1 ∧ asking x c.(new_network) c1).
  { subst x. destruct (current_command c) eqn:E; eexists; (split; [reflexivity|]);
      (split; [by split|]); split_and!; cbn; rewrite ?E; done. }
  destruct H as (c1 & E & H1 & Ha). unfold wp at 1. rewrite E. cbn [fst snd].
  eapply wp_mono; [by apply choice_loop_ready|]. intros r c2 (? & ? & ?). split_and!; [done|by trans c1|done].
Qed.

(** ** No undefined behaviour in the actions *)

Lemma create_pmids_no_fault n w : is_Fault (create_pmids n w).1 = false.
Proof.
  revert w. induction n as [|n IH]; intros w; [done|]. cbn [create_pmids].
  unfold mbind, M_bind, os_call', modify. destruct (CreatePmidAndSigner (os w)). apply IH.
Qed.

Lemma SetEnvironment_no_fault port root vault n w : is_Fault (SetEnvironment port root vault n w).1 = false.
Proof.
  unfold SetEnvironment. mrun. destruct (test_env_flag (env w)); [done|]. unfold os_call.
  destruct (fs_exists root (os w)) as [[[]|e] o1]; mrun; try done.
  destruct (fs_is_directory root o1) as [[[]|e] o2]; mrun; try done.
  match goal with |- context [create_pmids ?k ?w'] =>
    pose proof (create_pmids_no_fault k w'); by destruct (create_pmids k w') as [[?|?|?] ?] end.
Qed.

Lemma GetPmidAndSigner_no_fault i w : is_Fault (GetPmidAndSigner i w).1 = false.
Proof. unfold GetPmidAndSigner. mrun. destruct (_ <? _); [|done]. by destruct (_ !! _). Qed.

Section action_safety.
Context (n : Z).

(** What the actions rely on; [b] says that there is a client. *)
Definition acting (b : bool) c : Prop :=
  vlog_set c ∧ c.(vault_count) = n ∧ (b = true → c.(client_interface) = true).

Lemma acting_in_tool {T} b (m : M World T) c :
  (∀ w, is_Fault (m w).1 = false) → acting b c → isafe (acting b) (in_tool m) c.
Proof.
  intros Hm Hc. eapply isafe_run; [unfold in_tool, zoom; by rewrite (surjective_pairing (m (tool_world c)))|apply Hm|done].
Qed.

Lemma acting_call b x c : acting b c → isafe (acting b) (call answer x) c.
Proof. intros Hc. eapply isafe_run; [reflexivity|by destruct (answers answer (calls c) x)|done]. Qed.

Lemma acting_launch {T} b (result : list ToolCall → Lib T) x c :
  acting b c → isafe (acting b) (launch result x) c.
Proof. intros Hc. eapply isafe_run; [reflexivity|done|done]. Qed.

Lemma acting_future {T} b (future : Lib T) c : acting b c → isafe (acting b) (lift_res (of_lib future)) c.
Proof. intros Hc. eapply isafe_run; [reflexivity|by destruct future|done]. Qed.

Lemma acting_int b z c : - 2 ^ 31 ≤ z ≤ int_max → acting b c → isafe (acting b) (int_of z) c.
Proof. intros Hz Hc. unfold isafe, wp. by rewrite int_of_run. Qed.

Lemma acting_vlog b c : acting b c → isafe (acting b) vlog_arguments c.
Proof. intros Hc. destruct (vlog_arguments_run c (proj1 Hc)) as [a Ha]. by eapply isafe_run. Qed.

Lemma acting_client c : acting true c → isafe (acting true) the_client c.
Proof.
  intros Hc. destruct Hc as (Hv & Hn & Hcl). apply isafe_bind; [by apply isafe_gets|].
  intros t c' E _. injection E as <- <-. rewrite Hcl by done. by apply isafe_ret.
Qed.

Lemma acting_max_usage b a c : 1 ≤ n → 10 * n ≤ int_max → acting b c → isafe (acting b) (max_usage_of a n) c.
Proof.
  intros H1 H2 Hc. apply isafe_bind; [apply acting_int; [lia|done]|]. intros d c' E Hc'.
  rewrite int_of_run in E by lia. injection E as <- <-.
  destruct (Z.eqb_spec (10 * n) 0); [lia|by apply isafe_ret].
Qed.

Lemma acting_manager b c :
  acting b c → wp (StartVaultManagerAndClientInterface answer)
    (λ r c', is_Fault r = false ∧ acting b c' ∧ (r = Ok tt → acting true c')) c.
Proof.
  intros Hc. unfold StartVaultManagerAndClientInterface, wp, mbind, M_bind, call, modify.
  destruct (answers answer (calls c) MakeVaultManager); [|by split_and!]. cbn [of_lib].
  destruct (answers answer _ MakeClientInterface); [|by split_and!]. cbn. destruct Hc as (? & ? & ?). by split_and!.
Qed.

Lemma acting_prepare u i c : acting true c → isafe (acting true) (prepare_and_start answer u i) c.
Proof.
  intros Hc. apply isafe_bind; [apply acting_in_tool; [apply GetPmidAndSigner_no_fault|done]|].
  intros keys c1 _ H1. apply isafe_bind; [by apply isafe_gets|]. intros root c2 _ H2. cbv zeta.
  apply isafe_bind; [apply acting_in_tool; [apply os_call_no_fault|done]|]. intros [] c3 _ H3.
  apply isafe_bind; [by apply acting_vlog|]. intros a c4 _ H4.
  apply isafe_bind; [by apply acting_client|]. intros [] c5 _ H5. by apply acting_call.
Qed.

Lemma acting_StartVaults k u c : acting true c → isafe (acting true) (StartVaults answer k u) c.
Proof.
  revert c. induction k as [|k IH]; intros c Hc; [by apply isafe_ret|]. cbn [StartVaults].
  apply isafe_bind; [by apply acting_vlog|]. intros a c4 _ H4.
  apply isafe_bind; [by apply acting_client|]. intros [] c5 _ H5.
  apply isafe_bind; [by apply acting_call|]. intros [] c6 _ H6.
  apply isafe_bind; [by apply acting_call|]. intros [] c7 _ H7. by apply IH.
Qed.

Lemma acting_remaining k i u c : acting true c → isafe (acting true) (remaining_loop answer k i u) c.
Proof.
  revert i c. induction k as [|k IH]; intros i c Hc; [by apply isafe_ret|]. cbn [remaining_loop].
  apply isafe_bind; [by apply acting_prepare|]. intros [] c1 _ H1.
  apply isafe_bind; [by apply acting_call|]. intros [] c2 _ H2. by apply IH.
Qed.

Lemma acting_first_two u c : acting true c → isafe (acting true) (StartFirstTwoVaults answer u) c.
Proof.
  intros Hc. apply isafe_bind; [by apply acting_prepare|]. intros [] c1 _ H1.
  apply isafe_bind; [apply isafe_try_catch; [by apply acting_call|intros; by apply isafe_ret]|]. intros [] c2 _ H2.
  apply isafe_bind; [by apply acting_prepare|]. intros [] c3 _ H3.
  apply isafe_try_catch; [by apply acting_call|intros; by apply isafe_ret].
Qed.

Lemma acting_weaken {T} (m : M C T) c : isafe (acting true) m c → isafe (acting false) m c.
Proof.
  intros H. eapply isafe_wp; [exact H|]. intros r c' Hf (? & ? & _). by split_and!.
Qed.

(** What follows the manager and the client has a client. *)
Lemma acting_with_client {T} (k : M C T) c :
  (∀ c', acting true c' → isafe (acting true) k c') → acting false c →
  isafe (acting false) (StartVaultManagerAndClientInterface answer;; k) c.
Proof.
  intros Hk Hc. unfold isafe. apply wp_bind. eapply wp_mono; [by apply acting_manager|].
  intros [[]|e|f] c' (Hf & H1 & H2); [|by split|done]. apply acting_weaken, Hk. auto.
Qed.

Lemma wp_gets_bind {T U} (f : C → T) (k : T → M C U) Q c : wp (k (f c)) Q c → wp (gets f ≫= k) Q c.
Proof. done. Qed.
Lemma isafe_gets_bind {T U} I (f : C → T) (k : T → M C U) c : isafe I (k (f c)) c → isafe I (gets f ≫= k) c.
Proof. done. Qed.

Lemma acting_begin {T} port root vault m (k : Z → M C T) c :
  (∀ a c', acting false c' → isafe (acting false) (k a) c') → acting false c →
  isafe (acting false) (in_tool (SetEnvironment port root vault m);;
    available ← in_tool (os_call (fs_space_available root)); k available) c.
Proof.
  intros Hk Hc. apply isafe_bind; [apply acting_in_tool; [intros; apply SetEnvironment_no_fault|done]|].
  intros [] c1 _ H1. apply isafe_bind; [apply acting_in_tool; [intros; apply os_call_no_fault|done]|].
  intros a c2 _ H2. by apply Hk.
Qed.

(** Too many vaults: the space of a vault is not computed. *)
Lemma overflow_begin {T} port root vault m (k : Z → Z → M C T) c :
  1 ≤ n → int_max < 10 * n → acting false c →
  wp (in_tool (SetEnvironment port root vault m);;
      available ← in_tool (os_call (fs_space_available root));
      max_usage ← max_usage_of available n; k available max_usage)
    (λ r c', c'.(vault_count) = n ∧ (is_Fault r = true → r = Fault bad_arithmetic)) c.
Proof.
  intros H1 H2 Hc. apply wp_bind.
  eapply isafe_wp; [apply acting_in_tool; [intros; apply SetEnvironment_no_fault|exact Hc]|].
  intros [[]|e|f] c1 Hf (_ & Hn1 & _); [|by split|done].
  assert (Hc1 : isafe (λ c', c'.(vault_count) = n) (in_tool (os_call (fs_space_available root))) c1).
  { eapply isafe_run; [unfold in_tool, zoom; by rewrite (surjective_pairing (os_call _ _))
    |apply os_call_no_fault|done]. }
  apply wp_bind. eapply isafe_wp; [exact Hc1|]. intros [a|e|f] c2 Hf2 Hn2; [|by split|done].
  unfold max_usage_of, int_of, wp, mbind, M_bind.
  destruct (Z.leb_spec (10 * n) int_max); [lia|]. rewrite andb_false_r. by split.
Qed.

Lemma acting_ConnectToNetwork c :
  1 ≤ n → 10 * n ≤ int_max → acting false c → isafe (acting false) (ConnectToNetwork answer) c.
Proof.
  intros H1 H2 Hc. unfold ConnectToNetwork. do 4 apply isafe_gets_bind.
  rewrite (proj1 (proj2 Hc)). apply acting_begin; [|done]. intros a c1 Hc1.
  apply isafe_bind; [by apply acting_max_usage|]. intros u c2 _ Hc2.
  apply isafe_bind; [by apply isafe_gets|]. intros b c3 _ Hc3.
  apply isafe_bind; [by apply acting_call|]. intros [] c4 _ Hc4.
  apply acting_with_client; [|done]. intros c5 Hc5.
  apply isafe_bind; [by apply acting_StartVaults|]. intros [] c6 _ Hc6. by apply acting_call.
Qed.

Lemma acting_StartRemainingVaults u c :
  1 ≤ n → 10 * n ≤ int_max → acting true c → isafe (acting true) (StartRemainingVaults answer u) c.
Proof.
  intros H1 H2 Hc. unfold StartRemainingVaults. apply isafe_gets_bind.
  rewrite (proj1 (proj2 Hc)). unfold int_max in H2.
  apply isafe_bind; [apply acting_int; [unfold int_max; lia|done]|]. intros k c1 _ Hc1.
  by apply acting_remaining.
Qed.

Lemma acting_keys b i c : acting b c → isafe (acting b) (in_tool (GetPmidAndSigner i)) c.
Proof. apply acting_in_tool, GetPmidAndSigner_no_fault. Qed.

Lemma acting_zero_state b c : acting b c → isafe (acting b) (StartZeroStateRoutingNodes answer) c.
Proof.
  intros Hc. unfold StartZeroStateRoutingNodes.
  repeat (apply isafe_bind; [first [by apply acting_keys|by apply acting_call|by apply acting_launch
    |by apply acting_future|by apply acting_in_tool]|]; intros).
  apply isafe_bind; [|intros []; intros; by eapply isafe_run].
  case_bool_decide; [|by eapply isafe_run].
  apply isafe_bind; [by apply acting_future|]. intros. by eapply isafe_run.
Qed.

Lemma acting_store_loop b l failures c : acting b c → isafe (acting b) (store_loop answer l failures) c.
Proof.
  revert failures c. induction l as [|p l IH]; intros failures c Hc; cbn [store_loop]; [by eapply isafe_run|].
  apply isafe_bind; [|intros; by apply IH]. apply isafe_try_catch; [|intros; by eapply isafe_run].
  repeat (apply isafe_bind; [first [by apply acting_call|by apply acting_launch|by apply acting_future]|]; intros).
  apply isafe_bind; [by destruct (EqualKeys p _); eapply isafe_run|]. intros. by eapply isafe_run.
Qed.

Lemma acting_store b c : acting b c → isafe (acting b) (StorePublicPmids answer) c.
Proof.
  intros Hc. unfold StorePublicPmids, PublicPmidStorer_make.
  apply isafe_bind.
  { apply isafe_bind; [by apply acting_in_tool|]. intros. by apply acting_call. }
  intros [] c1 _ Hc1. assert (H : isafe (acting b) (Store answer) c1).
  { apply isafe_bind; [by apply acting_in_tool|]. intros pmids c2 _ Hc2.
    apply isafe_bind; [by apply acting_store_loop|]. intros f c3 _ Hc3. by case_bool_decide; eapply isafe_run. }
  unfold isafe, wp, finally, on_scope_exit in *. by destruct (Store answer c1) as [[[]|e|f] c2].
Qed.

(** The first part of a network, after which there is a client. *)
Lemma acting_first_part u c :
  acting false c →
  wp (try_catch (StartZeroStateRoutingNodes answer;; StartVaultManagerAndClientInterface answer;;
        StartFirstTwoVaults answer u;; note FinishZeroStateNodes)
        (λ e, note FinishZeroStateNodes;; throw e))
    (λ r c', is_Fault r = false ∧ acting false c' ∧ (r = Ok tt → acting true c')) c.
Proof.
  intros Hc. apply wp_try_catch, wp_bind.
  eapply isafe_wp; [by apply acting_zero_state|]. intros [[]|e|f] c1 Hf1 H1; [|by split_and!|done].
  apply wp_bind. eapply wp_mono; [by apply acting_manager|].
  intros [[]|e|f] c2 (Hf2 & H2 & H2'); [|by split_and!|done].
  apply wp_bind. eapply isafe_wp; [apply acting_first_two; by auto|].
  intros [[]|e|f] c3 Hf3 (? & ? & ?); [by split_and!|by split_and!|done].
Qed.

Lemma acting_StartNetwork c :
  1 ≤ n → 10 * n ≤ int_max → acting false c → isafe (acting false) (StartNetwork answer) c.
Proof.
  intros H1 H2 Hc. unfold StartNetwork. do 4 apply isafe_gets_bind.
  rewrite (proj1 (proj2 Hc)). unfold int_max in H2.
  apply isafe_bind; [apply acting_int; [unfold int_max; lia|done]|]. intros m c0 _ Hc0.
  apply acting_begin; [|done]. intros a c1 Hc1.
  apply isafe_bind; [by apply acting_max_usage|]. intros u c2 _ Hc2.
  unfold isafe. apply wp_bind. eapply wp_mono; [by apply acting_first_part|].
  intros [[]|e|f] c3 (Hf & H3 & H3'); [|by split|done]. apply acting_weaken.
  apply isafe_bind; [apply acting_call; by auto|]. intros [] c4 _ Hc4.
  apply isafe_bind; [by apply acting_call|]. intros [] c5 _ Hc5.
  apply isafe_bind; [by apply acting_StartRemainingVaults|]. intros [] c6 _ Hc6.
  apply isafe_bind; [apply acting_int; [unfold int_max; lia|done]|]. intros k c7 _ Hc7.
  apply isafe_bind; [by apply acting_store|]. intros [] c8 _ Hc8. by apply acting_call.
Qed.

(** What the handler of the number of vaults starts. *)
Lemma start_vaults_safe new c :
  1 ≤ n → acting false c →
  wp (if new : bool then StartNetwork answer else ConnectToNetwork answer)
    (λ r c', is_Fault r = true → r = Fault bad_arithmetic ∧ int_max < 10 * c'.(vault_count)) c.
Proof.
  intros H1 Hc. destruct (Z.le_gt_cases (10 * n) int_max) as [H2|H2].
  - assert (H : isafe (acting false) (if new then StartNetwork answer else ConnectToNetwork answer) c)
      by (destruct new; [by apply acting_StartNetwork|by apply acting_ConnectToNetwork]).
    eapply isafe_wp; [exact H|]. by intros [?|?|?].
  - destruct new.
    + unfold StartNetwork. do 4 apply wp_gets_bind. rewrite (proj1 (proj2 Hc)).
      destruct (Z.le_gt_cases (n + 2) int_max) as [H3|H3].
      * apply wp_bind. unfold wp at 1. rewrite int_of_run by (unfold int_max in *; lia). cbn [fst snd].
        eapply wp_mono; [by eapply overflow_begin|]. cbn. intros r c' (-> & H). auto.
      * apply wp_bind. unfold int_of, wp.
        destruct (Z.leb_spec (n + 2) int_max); [lia|]. rewrite andb_false_r.
        cbn. intros _. rewrite (proj1 (proj2 Hc)). by split.
    + unfold ConnectToNetwork. do 4 apply wp_gets_bind. rewrite (proj1 (proj2 Hc)).
      eapply wp_mono; [by eapply (overflow_begin _ _ _ _ (λ _ u, _))|]. cbn. intros r c' (-> & H). auto.
Qed.
End action_safety.

(** ** Handling a choice *)

(** What the handler of a choice that was made ends in. *)
Definition handled c (r : Res unit) c' : Prop :=
  match r with
  | Ok _ => menu_ok c'
  | Throw _ => True
  | Fault f => (f = bad_arithmetic ∧ int_max < 10 * c'.(vault_count)) ∨
               (f = dangling_reference ∧ kind c.(current_command) = ChooseTest 0)
  end.

Lemma wp_in_tool {T U} (m : M World T) (k : T → M C U) (Q : Res U → C → Prop) c :
  (∀ w, is_Fault (m w).1 = false) → (∀ e c', Q (Throw e) c') →
  (∀ a w, wp (k a) Q (set_world w c)) → wp (in_tool m ≫= k) Q c.
Proof.
  intros Hm Hq Hk. apply wp_bind. unfold wp at 1, in_tool, zoom. specialize (Hm (tool_world c)).
  destruct (m (tool_world c)) as [[a|e|f] w]; [apply Hk|apply Hq|done].
Qed.

Lemma ConnectToVaultManager_action_safe c :
  isafe (λ _, True) (ConnectToVaultManager_action answer) c.
Proof.
  unfold ConnectToVaultManager_action, isafe. apply wp_gets_bind.
  apply wp_in_tool; [intros; apply SetEnvironment_no_fault|done|]. intros [] w.
  apply wp_bind. unfold wp at 1, call. destruct (answers answer _ _); [by split|by split].
Qed.

Lemma HandleChoice_handled c : menu_ok c → ready c → wp (HandleChoice answer) (handled c) c.
Proof.
  intros Hm Hr. unfold HandleChoice. apply wp_gets_bind.
  unfold menu_ok in Hm. unfold ready in Hr.
  destruct (current_command c) as [z|z| | |z| | | |run|clear|create|] eqn:E.
  - assert (z = 1 ∨ z = 2 ∨ z = 3) as [->|[->| ->]] by lia; done.
  - assert (z = 1 ∨ z = 2) as [->| ->] by lia; done.
  - done.
  - done.
  - unfold wp. cbn. right. by rewrite E.
  - unfold ChooseTestRootDir_HandleChoice. apply wp_gets_bind. apply wp_in_tool; [intros; apply os_call_no_fault|done|]. intros [] w; [|done].
    apply wp_in_tool; [intros; apply os_call_no_fault|done|]. by intros [] w'.
  - destruct Hr as [h Hh]. unfold wp. cbn. by intros _.
  - apply wp_gets_bind, wp_bind.
    assert (H1 : 1 ≤ vault_count c) by (destruct (new_network c); lia).
    eapply wp_mono; [apply (start_vaults_safe (vault_count c) (new_network c) c H1); by split_and!|].
    intros [[]|e|f] c' H; [done|done|]. destruct H as [[=] ?]; [done|]. by left.
  - destruct run.
    + apply wp_bind. eapply isafe_wp; [apply ConnectToVaultManager_action_safe|]. by intros [[]|e|f] c' Hf _.
    + unfold ChooseVaultManagerPort_HandleChoice, wp. destruct USE_VLOGGING eqn:Ev; cbn; [done|]. unfold menu_ok, vlog_set. cbn. congruence.
  - destruct clear; [|done]. unfold ClearTestRootDir_HandleChoice. apply wp_gets_bind.
    apply wp_in_tool; [intros; apply os_call_no_fault|done|]. intros _ w.
    by apply wp_in_tool; [intros; apply os_call_no_fault|done|].
  - destruct create; [|done]. unfold CreateTestRootDir_HandleChoice. apply wp_gets_bind.
    by apply wp_in_tool; [intros; apply os_call_no_fault|done|].
  - unfold EnterVlogSessionId_HandleChoice. apply wp_gets_bind. destruct Hr as [v Hv]. rewrite Hv. destruct (bool_decide (v = "")); unfold wp; cbn;
      unfold menu_ok, vlog_set; cbn; by rewrite ?Hv.
Qed.

Lemma menu_ok_asks c c' : asks c c' → menu_ok c → menu_ok c'.
Proof.
  intros [A1 A2 A3 A4 A5] Hm. unfold menu_ok in *.
  destruct (current_command c), (current_command c'); try done; try (by cbn in A1).
  - auto.
  - intros Hv. destruct (Hm Hv). auto.
Qed.

(** C37: the main loop of the controller keeps the conditions of its menu, whatever is entered and
    however the system answers: a round ends the program with a code or leads to a command whose
    conditions hold, and its only undefined behaviours are the overflow of ten times the
    number of vaults, the choice of the tests menu, which is read after its object was
    destroyed, and the tear-down of a manager that was never made, when a
    [timed_out] leaves a handler. *)
Theorem main_round_safe fuel c :
  menu_ok c →
  wp (main_round answer fuel)
    (λ r c', match r with
             | Ok None => menu_ok c'
             | Ok (Some _) => True
             | Throw _ => False
             | Fault f => (f = bad_arithmetic ∧ int_max < 10 * c'.(vault_count)) ∨
                          (f = dangling_reference ∧ kind c.(current_command) = ChooseTest 0) ∨
                          (f = null_deref ∧ c'.(vault_manager) = false)
             end) c.
Proof.
  intros Hm. unfold main_round. apply wp_try_catch, wp_bind.
  eapply wp_mono; [apply GetChoice_ready|].
  intros [[]|[[]|]|f] c1 (Hf & Ha & Hr); [| |done..].
  - apply wp_try_catch, wp_bind.
    eapply wp_mono; [apply HandleChoice_handled; [by eapply menu_ok_asks|by apply Hr]|].
    intros [[]|e|f] c2 Hh; [done| |destruct Hh as [Hh|[Hh1 Hh2]]; [by left|right; left; split; [done|by rewrite <- (as_kind _ _ Ha)]]]. case_bool_decide as Ee.
    + apply wp_gets_bind. destruct (vault_manager c2) eqn:Ev; [|by do 2 right].
      apply wp_bind. unfold wp at 1, call. destruct (answers answer _ _) as [|[[]|]]; done.
    + by destruct e as [[]|].
  - by eapply menu_ok_asks.
Qed.

(** The tests menu has no way to quit but [q]: the numbers it offers for quitting, 100 and
    101, make its handler read a member of the object it has just destroyed, while [q]
    (in either case) ends the program normally. *)
Theorem tests_menu_quits fuel c k line rest :
  c.(current_command) = ChooseTest k → c.(script_commands) = [] → c.(std_cin) = Line line :: rest →
  (to_lower_copy line = "q" → (main_round answer (S fuel) c).1 = Ok (Some 0)) ∧
  (to_lower_copy line ≠ "q" → line = "100" ∨ line = "101" →
   (main_round answer (S fuel) c).1 = Fault dangling_reference).
Proof.
  intros Hc Hs Hi. split.
  - intros Hq. unfold main_round, GetChoice, try_catch, mbind, M_bind, gets. rewrite Hc. cbn [choice_loop].
    unfold DoGetChoice, GetLine, CheckForExitCommand, mbind, M_bind, gets, modify. cbn.
    rewrite Hs. cbn. rewrite Hi. cbn. by rewrite bool_decide_eq_true_2.
  - intros Hq Hl.
    assert (Hg : ∃ c1 z, GetChoice (S fuel) c = (Ok true, c1) ∧ c1.(current_command) = ChooseTest z).
    { unfold GetChoice, mbind, M_bind, gets. rewrite Hc. cbn [choice_loop].
      unfold DoGetChoice, GetLine, CheckForExitCommand, mbind, M_bind, gets, modify, try_catch. cbn.
      rewrite Hs. cbn. rewrite Hi. cbn. rewrite bool_decide_eq_false_2 by done. cbn.
      destruct Hl as [-> | ->]; do 2 eexists; (split; [reflexivity|]); cbn; unfold set_choice; cbn; by rewrite Hc. }
    destruct Hg as (c1 & z & Hg & Hc1). unfold main_round, try_catch.
    rewrite (M_bind_run _ _ _ _ _ Hg). unfold HandleChoice, mbind, M_bind, gets. by rewrite Hc1.
Qed.
End menu.
