(* ===== verification/Replay.v ===== *)
(** A session of the local network controller: the start of [tools/main.cc], the
    commands that the destructor of the controller prints, and replaying them as a script. *)
From S2P Require Export Menu Prompts.
From S2P Require Import Demo.

(** The loop of [std::getline] over a file: its lines without the newlines; nothing after the
    last newline is no line. *)
Fixpoint getlines (s : string) : list string :=
  match s with
  | EmptyString => []
  | String c s' =>
      if bool_decide (String c "" = nl) then "" :: getlines s'
      else match getlines s' with [] => [String c ""] | l :: ls => String c l :: ls end
  end.

Section replay.
Context `{P : Platform} `{B : Build}.
Abbreviation C := LocalNetworkController.
Implicit Types c : C.
Context (answer : Environment).

(** ** Starting and ending *)

(** [boost::filesystem::is_regular_file], and the contents of a file as [std::ifstream] reads
    them, nothing when it cannot be opened. *)
Context (is_regular_file : Path → OS → Lib bool * OS) (read_file : Path → OS → string).

Definition kBegin : string := "### Commands begin.".
Definition kEnd : string := "### Commands end.".

(** [LocalNetworkController(script_path)] *)
Definition LocalNetworkController_make (cin : list Input) (script_path : Path) : M World C :=
  lines ← (if Path_empty script_path then mret [] else
             there ← os_call (fs_exists script_path);
             regular ← (if there : bool then os_call (is_regular_file script_path) else mret false);
             if regular : bool then gets (λ w, getlines (read_file script_path w.(os)))
             else raise invalid_argument);
  gets (λ w, mkController w cin [] lines [kBegin] (Begin 0) false false
               Path_default Path_default Path_default 0 0 false None None).

(** What [main] makes of an exception. *)
Definition exit_code (error : exn) : Z :=
  match error with
  | maidsafe_error success => 0
  | maidsafe_error code => ErrorToInt code
  | std_exception => ErrorToInt unknown
  end.

(** [main] up to its loop, with the arguments that [Logging::Initialise] leaves: the controller
    or the exit code. *)
Definition main_start (unuseds : list string) (cin : list Input) : M World (C + Z) :=
  try_catch
    (script_path ← (match unuseds with
                    | [_; script_path] => mret (Path_of_string script_path)
                    | [_] => mret Path_default
                    | _ => raise invalid_argument
                    end);
     c ← LocalNetworkController_make cin script_path;
     mret (inl c))
    (λ error, mret (inr (exit_code error))).

(** What the destructor prints of the commands, from their beginning to their end. *)
Definition commands_text (entered_commands : list string) : string :=
  text ((λ command, command +:+ nl) <$> entered_commands) +:+ kEnd +:+ nl.

(** [~LocalNetworkController()], with what it prints; the error of removing the file is ignored. *)
Definition LocalNetworkController_destroy : M C string :=
  entered ← gets entered_commands;
  if bool_decide (length entered = 1%nat) then mret "" else
  note RemoveLocalNetworkBootstrapFile;;
  mret (text [nl; nl; "Sequence of entered commands:"; nl; nl; commands_text entered; nl]).

(** The first [n] rounds of the loop of [main], as long as there is no exit code. *)
Fixpoint rounds (n fuel : nat) : M C (option Z) :=
  match n with
  | O => mret None
  | S n => code ← main_round answer fuel; match code with None => rounds n fuel | _ => mret code end
  end.

(** A session of typed lines that are accepted at once, one a round. *)
Inductive session (fuel : nat) : C → list string → C → Prop :=
| session_nil c : session fuel c [] c
| session_round c s rest c1 ls c2 :
    c.(script_commands) = [] → c.(std_cin) = Line s :: rest → (GetChoice 1 c).1 = Ok true →
    main_round answer fuel c = (Ok None, c1) → session fuel c1 ls c2 →
    session fuel c (s :: ls) c2.

(** ** Operations that do not look at where lines come from *)

Definition blind {T} (m : M C T) : Prop :=
  ∀ i s e c, m (set_input i s e c) = ((m c).1, set_input i s e (m c).2).

Lemma blind_bind {T U} (m : M C T) (k : T → M C U) :
  blind m → (∀ a, blind (k a)) → blind (m ≫= k).
Proof.
  intros Hm Hk i s e0 c. unfold mbind, M_bind. rewrite Hm.
  destruct (m c) as [[a|e|f] c']; cbn; [apply Hk|done|done].
Qed.

Lemma blind_try_catch {T} (m : M C T) h : blind m → (∀ e, blind (h e)) → blind (try_catch m h).
Proof.
  intros Hm Hh i s e0 c. unfold try_catch. rewrite Hm.
  destruct (m c) as [[a|e|f] c']; cbn; [done|apply Hh|done].
Qed.

Lemma blind_on_scope_exit {T} k (m : M C T) : blind m → blind k → blind (on_scope_exit k m).
Proof.
  intros Hm Hk i s e0 c. unfold on_scope_exit. rewrite Hm. destruct (m c) as [[a|e|f] c']; cbn; try done.
  rewrite Hk. by destruct (k c') as [[?|?|?] ?].
Qed.

Lemma blind_finally {T} k (m : M C T) : blind m → blind k → blind (finally k m).
Proof.
  intros Hm Hk i s e0 c. unfold finally. rewrite (blind_on_scope_exit k m Hm Hk).
  destruct (on_scope_exit k m c) as [[a|e|f] c']; cbn; try done.
  rewrite Hk. by destruct (k c') as [[?|?|?] ?].
Qed.

Lemma blind_gets {T} (f : C → T) : (∀ i s e c, f (set_input i s e c) = f c) → blind (gets f).
Proof. intros Hf i s e c. unfold gets. by rewrite Hf. Qed.

Lemma blind_modify f : (∀ i s e c, f (set_input i s e c) = set_input i s e (f c)) → blind (modify f).
Proof. intros Hf i s e c. unfold modify. by rewrite Hf. Qed.

Lemma blind_const {T} (r : Res T) : blind (λ c, (r, c)).
Proof. done. Qed.

Lemma blind_in_tool {T} (m : M World T) : blind (in_tool m).
Proof. intros i s e c. unfold in_tool, zoom. cbn. by destruct (m (tool_world c)). Qed.

(** Show blindness branch by branch; [tac] closes the calls of other operations. *)
Ltac blind_with tac :=
  repeat lazymatch goal with
    | |- blind (mbind _ _) => apply blind_bind; [|intros ?]
    | |- blind (try_catch _ _) => apply blind_try_catch; [|intros ?]
    | |- blind (on_scope_exit _ _) => apply blind_on_scope_exit
    | |- blind (finally _ _) => apply blind_finally
    | |- blind (mret _) => apply blind_const
    | |- blind (throw _) => apply blind_const
    | |- blind (raise _) => apply blind_const
    | |- blind (crash _) => apply blind_const
    | |- blind (lift_res _) => apply blind_const
    | |- blind (gets _) => by apply blind_gets
    | |- blind (modify _) => by apply blind_modify
    | |- blind (note _) => by apply blind_modify
    | |- blind (in_tool _) => apply blind_in_tool
    | |- blind (call _ _) => done
    | |- blind (launch _ _) => done
    | |- blind (assert_ ?b) => unfold assert_; destruct b
    | |- blind (int_of _) => unfold int_of
    | |- blind (match ?x with _ => _ end) => destruct x
    | |- blind ((match ?x with _ => _ end) _) => destruct x; cbv beta
    | |- blind _ => tac
    end.

Lemma vlog_arguments_blind : blind vlog_arguments.
Proof. unfold vlog_arguments. blind_with ltac:(fail). Qed.

Lemma StartManager_blind : blind (StartVaultManagerAndClientInterface answer).
Proof. unfold StartVaultManagerAndClientInterface. blind_with ltac:(fail). Qed.

Lemma prepare_and_start_blind u n : blind (prepare_and_start answer u n).
Proof.
  unfold prepare_and_start, StartIndexedVault, the_client. blind_with ltac:(apply vlog_arguments_blind).
Qed.

Lemma StartVaults_blind n u : blind (StartVaults answer n u).
Proof.
  induction n as [|n IH]; cbn [StartVaults]; unfold the_client;
    blind_with ltac:(first [apply vlog_arguments_blind|apply IH]).
Qed.

Lemma remaining_loop_blind n i u : blind (remaining_loop answer n i u).
Proof.
  revert i. induction n as [|n IH]; intros i; cbn [remaining_loop];
    blind_with ltac:(first [apply prepare_and_start_blind|apply IH]).
Qed.

Lemma store_loop_blind l n : blind (store_loop answer l n).
Proof.
  revert n. induction l as [|p l IH]; intros n; cbn [store_loop]; unfold store_one;
    blind_with ltac:(apply IH).
Qed.

Lemma ConnectToNetwork_blind : blind (ConnectToNetwork answer).
Proof.
  unfold ConnectToNetwork, max_usage_of.
  blind_with ltac:(first [apply StartManager_blind|apply StartVaults_blind]).
Qed.

Lemma StartNetwork_blind : blind (StartNetwork answer).
Proof.
  unfold StartNetwork, max_usage_of, StartFirstTwoVaults, StartRemainingVaults, StorePublicPmids,
    PublicPmidStorer_make, Store, StartZeroStateRoutingNodes.
  blind_with ltac:(first [apply StartManager_blind|apply prepare_and_start_blind
                         |apply remaining_loop_blind|apply store_loop_blind]).
Qed.

Lemma HandleChoice_blind : blind (HandleChoice answer).
Proof.
  unfold HandleChoice, Begin_HandleChoice, ChooseExistingNetwork_HandleChoice,
    ChoosePathToBootstrap_HandleChoice, ChoosePathToVault_HandleChoice, ChooseTest_HandleChoice,
    ChooseTestRootDir_HandleChoice, ChooseToRevealHostname_HandleChoice, ChooseVaultCount_HandleChoice,
    ChooseVaultManagerPort_HandleChoice, ClearTestRootDir_HandleChoice, CreateTestRootDir_HandleChoice,
    EnterVlogSessionId_HandleChoice, ConnectToVaultManager_action.
  blind_with ltac:(first [apply StartNetwork_blind|apply ConnectToNetwork_blind]).
Qed.

Lemma convert_blind x new s : blind (convert x new s).
Proof.
  destruct x; cbn [convert];
    unfold Begin_GetChoice, ChooseExistingNetwork_GetChoice, ChooseTest_GetChoice,
      ChoosePathToBootstrap_GetChoice, ChoosePathToVault_GetChoice, ChooseTestRootDir_GetChoice,
      ChooseVaultManagerPort_GetChoice, ChooseVaultCount_GetChoice, ClearTestRootDir_GetChoice,
      CreateTestRootDir_GetChoice, ChooseToRevealHostname_GetChoice, EnterVlogSessionId_GetChoice.
  all: try destruct new; unfold ConvertInt, ConvertPath, ConvertBool, ConvertString; cbv zeta;
    blind_with ltac:(fail).
Qed.

(** ** Reading a line, typed or from a script *)

(** How the command that asks records a line. *)
Definition recorded (x : Command) (s : string) : string := "### " +:+ kPreamble_ x +:+ nl +:+ s.

Lemma GetLine_typed c s rest :
  c.(script_commands) = [] → c.(std_cin) = Line s :: rest →
  GetLine c =
    (if bool_decide (to_lower_copy s = kQuitCommand_)
     then (Throw (maidsafe_error success), set_input rest [] c.(entered_commands) c)
     else (Ok (s, kStdCin), set_input rest [] (c.(entered_commands) ++ [recorded c.(current_command) s]) c)).
Proof.
  intros Hs Hi. unfold GetLine, mbind, M_bind, modify, gets. cbn. rewrite Hs. cbn. rewrite Hi. cbn.
  unfold CheckForExitCommand. by destruct (bool_decide _).
Qed.

Lemma GetLine_scripted c s tail :
  drop_comments c.(script_commands) = s :: tail → to_lower_copy s ≠ kQuitCommand_ →
  GetLine c = (Ok (s, kScript),
    set_input c.(std_cin) tail (c.(entered_commands) ++ [recorded c.(current_command) s]) c).
Proof.
  intros Hs Hq. unfold GetLine, mbind, M_bind, modify, gets. cbn. rewrite Hs. cbn.
  unfold CheckForExitCommand. by rewrite bool_decide_false.
Qed.

Lemma choice_loop_S n f c :
  choice_loop (S n) f c =
    match DoGetChoice f c with
    | (Ok true, c') => (Ok true, c')
    | (Ok false, c') => choice_loop n f c'
    | r => r
    end.
Proof. cbn [choice_loop]. unfold mbind, M_bind. by destruct (DoGetChoice f c) as [[[]|?|?] ?]. Qed.

(** A typed line that is accepted at once is accepted from a script as well. *)
Lemma choice_replayed n f c s rest scr tail i e :
  (∀ s, blind (f s)) →
  c.(script_commands) = [] → c.(std_cin) = Line s :: rest → (choice_loop 1 f c).1 = Ok true →
  drop_comments scr = s :: tail →
  ∃ c', choice_loop (S n) f c =
      (Ok true, set_input rest [] (c.(entered_commands) ++ [recorded c.(current_command) s]) c') ∧
    choice_loop (S n) f (set_input i scr e c) =
      (Ok true, set_input i tail (e ++ [recorded c.(current_command) s]) c').
Proof.
  intros Hf Hs Hi Hc Hd. rewrite choice_loop_S in Hc. rewrite !choice_loop_S.
  unfold DoGetChoice, mbind, M_bind, try_catch in *. rewrite (GetLine_typed c s rest Hs Hi) in Hc |- *.
  case_bool_decide as Hq; [done|].
  rewrite (GetLine_scripted (set_input i scr e c) s tail) by done. cbn [fst snd] in Hc |- *.
  change (set_input (std_cin (set_input i scr e c)) tail
    (entered_commands (set_input i scr e c) ++ [recorded (current_command (set_input i scr e c)) s])
    (set_input i scr e c)) with (set_input i tail (e ++ [recorded (current_command c) s]) c).
  rewrite (Hf s _ _ _ c) in Hc. do 2 rewrite (Hf s _ _ _ c).
  destruct (f s c) as [[[]|x|x] c']; cbn in *; [|done..].
  by exists c'.
Qed.

(** The rest of a round, once a choice was made. *)
Definition after_choice : M C (option Z) :=
  try_catch
    (try_catch (HandleChoice answer;; mret None)
       (λ error, if bool_decide (error = maidsafe_error timed_out) then
                   there ← gets vault_manager;
                   if there : bool then call answer ManagerTearDownWithInterval;; mret (Some 0)
                   else crash null_deref
                 else throw error))
    (λ error, mret (Some (exit_code error))).

Lemma main_round_chosen k c c' :
  GetChoice k c = (Ok true, c') → main_round answer k c = after_choice c'.
Proof.
  intros E. unfold main_round, after_choice. unfold try_catch at 1, mbind at 1, M_bind at 1. rewrite E.
  unfold try_catch at 2. destruct (try_catch _ _ c') as [[?|[[]|]|?] ?]; done.
Qed.

Lemma after_choice_blind : blind after_choice.
Proof. unfold after_choice. blind_with ltac:(apply HandleChoice_blind). Qed.

(** What a command clears before it asks. *)
Definition cleared c : C :=
  match c.(current_command) with
  | ChooseToRevealHostname => set_vlogging c.(tool_vlog_session_id) (Some false) c
  | EnterVlogSessionId => set_vlogging (Some "") c.(tool_send_hostname) c
  | _ => c
  end.

Lemma GetChoice_cleared k c :
  GetChoice k c = choice_loop k (convert c.(current_command) c.(new_network)) (cleared c).
Proof. unfold GetChoice, cleared, mbind, M_bind, gets, modify. by destruct (current_command c). Qed.

Lemma cleared_input i s e c : cleared (set_input i s e c) = set_input i s e (cleared c).
Proof. unfold cleared. cbn. by destruct (current_command c). Qed.

Lemma cleared_same c :
  current_command (cleared c) = current_command c ∧ std_cin (cleared c) = std_cin c ∧
  script_commands (cleared c) = script_commands c ∧ entered_commands (cleared c) = entered_commands c.
Proof. unfold cleared. destruct (current_command c) eqn:E; by split_and!. Qed.

(** A round that takes a typed line, and the same round on a script. *)
Lemma round_replayed n c s rest c1 scr tail i e :
  c.(script_commands) = [] → c.(std_cin) = Line s :: rest → (GetChoice 1 c).1 = Ok true →
  main_round answer (S n) c = (Ok None, c1) → drop_comments scr = s :: tail →
  c1.(entered_commands) = c.(entered_commands) ++ [recorded c.(current_command) s] ∧
  main_round answer (S n) (set_input i scr e c) =
    (Ok None, set_input i tail (e ++ [recorded c.(current_command) s]) c1).
Proof.
  intros Hs Hi Hc Hr Hd. destruct (cleared_same c) as (H1 & H2 & H3 & H4).
  rewrite GetChoice_cleared in Hc.
  destruct (choice_replayed n (convert c.(current_command) c.(new_network)) (cleared c) s rest scr tail i e)
    as (c' & E1 & E2); [intros; apply convert_blind|congruence|congruence|done|done|].
  rewrite H1, H4 in E1. rewrite H1 in E2.
  erewrite main_round_chosen in Hr by by rewrite GetChoice_cleared.
  erewrite main_round_chosen by by rewrite GetChoice_cleared, cleared_input.
  rewrite after_choice_blind in Hr |- *. injection Hr as Hr <-. by rewrite Hr.
Qed.

(** ** The lines that the destructor prints *)

Lemma getlines_line l s : has_newline l = false → getlines (l +:+ nl +:+ s) = l :: getlines s.
Proof.
  induction l as [|a l IH]; intros Hl; [done|]. cbn [has_newline] in Hl.
  apply orb_false_iff in Hl as [Ha Hl]. change (String a l +:+ nl +:+ s) with (String a (l +:+ nl +:+ s)).
  cbn [getlines]. by rewrite Ha, IH.
Qed.

Lemma has_newline_app a b : has_newline (a +:+ b) = has_newline a || has_newline b.
Proof.
  induction a as [|x a IH]; [done|]. change (String x a +:+ b) with (String x (a +:+ b)).
  cbn [has_newline]. by rewrite IH, orb_assoc.
Qed.

Lemma preamble_line x : has_newline ("### " +:+ kPreamble_ x) = false.
Proof. by destruct x; vm_compute. Qed.

Lemma drop_comment s l : drop_comments (("### " +:+ s) :: l) = drop_comments l.
Proof. cbn [drop_comments]. by destruct s. Qed.

(** A line that a script can hold: a line of its own that is no comment. *)
Definition plain_line (s : string) : Prop := has_newline s = false ∧ String.substring 0 4 s ≠ "### ".

Lemma drop_plain_line s l : plain_line s → drop_comments (s :: l) = s :: l.
Proof. intros [_ Hs]. cbn [drop_comments]. by rewrite bool_decide_false. Qed.

Definition script_of (es : list (Command * string)) : list string :=
  mjoin ((λ x, ["### " +:+ kPreamble_ x.1; x.2]) <$> es).

Lemma getlines_entries es s :
  Forall plain_line (es.*2) →
  getlines (text ((λ command, command +:+ nl) <$> ((λ x, recorded x.1 x.2) <$> es)) +:+ s) =
    script_of es ++ getlines s.
Proof.
  induction es as [|[x l] es IH]; intros Hes; [done|]. apply Forall_cons in Hes as [[Hl _] Hes].
  change (script_of ((x, l) :: es) ++ getlines s) with
    (("### " +:+ kPreamble_ x) :: l :: (script_of es ++ getlines s)).
  rewrite !fmap_cons, text_cons, <- (IH Hes). unfold recorded at 1. cbn [fst snd].
  transitivity (getlines (("### " +:+ kPreamble_ x) +:+ nl +:+ (l +:+ nl +:+
    (text ((λ command, command +:+ nl) <$> ((λ x, recorded x.1 x.2) <$> es)) +:+ s)))).
  { f_equal. by rewrite !append_assoc. }
  rewrite getlines_line by apply preamble_line. by rewrite getlines_line.
Qed.

Lemma commands_text_lines es :
  Forall plain_line (es.*2) →
  getlines (commands_text (kBegin :: ((λ x, recorded x.1 x.2) <$> es))) = kBegin :: script_of es ++ [kEnd].
Proof.
  intros Hes. unfold commands_text. rewrite fmap_cons, text_cons.
  transitivity (getlines (kBegin +:+ nl +:+
    (text ((λ command, command +:+ nl) <$> ((λ x, recorded x.1 x.2) <$> es)) +:+ kEnd +:+ nl +:+ ""))).
  { by f_equal. }
  by rewrite getlines_line, getlines_entries.
Qed.

(** A session and the rounds of its replay. *)
Lemma session_rounds n c ls c2 :
  session (S n) c ls c2 → Forall plain_line ls →
  ∃ es, es.*2 = ls ∧ c2.(entered_commands) = c.(entered_commands) ++ ((λ x, recorded x.1 x.2) <$> es) ∧
    ∀ i e scr post, drop_comments scr = drop_comments (script_of es ++ post) →
      ∃ rest, rounds (length ls) (S n) (set_input i scr e c) =
          (Ok None, set_input i rest (e ++ ((λ x, recorded x.1 x.2) <$> es)) c2) ∧
        drop_comments rest = drop_comments post.
Proof.
  induction 1 as [c|c s rest c1 ls c2 Hs Hi Hc Hr Hsess IH]; intros Hls.
  - exists []. split_and!; [done|by rewrite app_nil_r|]. intros i e scr post Hd. exists scr.
    by rewrite app_nil_r.
  - apply Forall_cons in Hls as [Hp Hls]. destruct (IH Hls) as (es & <- & He & Hrounds).
    exists ((c.(current_command), s) :: es).
    assert (Hone : ∀ i e scr tail, drop_comments scr = s :: tail → _) by
      (intros i e scr tail; exact (round_replayed n c s rest c1 scr tail i e Hs Hi Hc Hr)).
    split_and!; [done| |].
    + destruct (Hone [] [] [s] [] (drop_plain_line s [] Hp)) as [E _]. rewrite He, E. by rewrite <- (assoc_L (++)).
    + intros i e scr post Hd. unfold script_of in Hd. rewrite fmap_cons in Hd. cbn [mjoin list_join fst snd] in Hd.
      cbn [app] in Hd. rewrite drop_comment, drop_plain_line in Hd by done.
      destruct (Hone i e scr _ Hd) as [_ E].
      destruct (Hrounds i (e ++ [recorded c.(current_command) s]) _ post eq_refl) as (r & E2 & Hpost).
      exists r. split; [|done]. cbn [length rounds fmap list_fmap]. unfold mbind, M_bind. rewrite E.
      etransitivity; [exact E2|]. by rewrite <- (assoc_L (++)).
Qed.

Lemma commands_text_drop es :
  Forall plain_line (es.*2) →
  drop_comments (getlines (commands_text (kBegin :: ((λ x, recorded x.1 x.2) <$> es)))) =
    drop_comments (script_of es ++ [kEnd]).
Proof. intros Hes. by rewrite commands_text_lines. Qed.

(** C39: the commands that the controller prints when it is destroyed, from their beginning to
    their end, are a script that repeats the session: given the lines as typed, each accepted at
    once and none a comment, the loop of [main] on that script goes through the same rounds
    without reading the standard input, to the same state, and leaves no line of the script. *)
Theorem session_replays n c0 ls c2 :
  c0.(entered_commands) = [kBegin] → session (S n) c0 ls c2 → Forall plain_line ls → ls ≠ [] →
  ∃ before after,
    (LocalNetworkController_destroy c2).1 =
      Ok (text [before; commands_text c2.(entered_commands); after]) ∧
    ∀ i, ∃ script,
      rounds (length ls) (S n)
        (set_input i (getlines (commands_text c2.(entered_commands))) [kBegin] c0) =
        (Ok None, set_input i script c2.(entered_commands) c2) ∧
      drop_comments script = [].
Proof.
  intros H0 Hs Hls Hne. destruct (session_rounds n c0 ls c2 Hs Hls) as (es & <- & He & Hr).
  rewrite H0 in He. exists (text [nl; nl; "Sequence of entered commands:"; nl; nl]), nl.
  split.
  - unfold LocalNetworkController_destroy, mbind, M_bind, gets. rewrite He. rewrite bool_decide_false.
    + done.
    + rewrite length_app, length_fmap. cbn. destruct es; [done|]. cbn. lia.
  - intros i. rewrite He. destruct (Hr i [kBegin] _ [kEnd] (commands_text_drop es Hls)) as (rest & E & Hd).
    by exists rest.
Qed.

(** A line that is refused is recorded, and so printed, among the commands, too; but
    typed, it is asked for again, and from a script it ends the program. *)
Theorem refused_line_ends_replay n c s e :
  to_lower_copy s ≠ kQuitCommand_ →
  (∀ c', (convert c.(current_command) c.(new_network) s c').1 = Throw e) →
  (∀ rest, c.(script_commands) = [] → c.(std_cin) = Line s :: rest →
    ∃ c', GetChoice 1 c = (Ok false, c') ∧
      c'.(entered_commands) = c.(entered_commands) ++ [recorded c.(current_command) s]) ∧
  (∀ tail, drop_comments c.(script_commands) = s :: tail →
    ∃ c', main_round answer (S n) c = (Ok (Some (exit_code e)), c')).
Proof.
  intros Hq Hf. destruct (cleared_same c) as (H1 & H2 & H3 & H4).
  assert (Hdo : ∀ i tail l,
    convert c.(current_command) c.(new_network) s (set_input i tail l (cleared c)) =
      (Throw e, set_input i tail l (convert c.(current_command) c.(new_network) s (cleared c)).2)).
  { intros i tail l. rewrite convert_blind. by rewrite Hf. }
  split.
  - intros rest Hs Hi. rewrite GetChoice_cleared, choice_loop_S.
    unfold DoGetChoice, mbind, M_bind, try_catch. rewrite (GetLine_typed _ s rest) by congruence.
    rewrite bool_decide_false by done. cbn [fst snd]. rewrite Hdo. eexists. split; [reflexivity|].
    cbn. by rewrite H1, H4.
  - intros tail Hd. unfold main_round, try_catch at 1, mbind at 1, M_bind at 1.
    rewrite GetChoice_cleared, choice_loop_S. unfold DoGetChoice at 1, mbind at 1, M_bind at 1.
    rewrite (GetLine_scripted _ s tail) by (try done; by rewrite H3). cbn [fst snd].
    unfold try_catch at 1, mbind at 1, M_bind at 1. rewrite Hdo. cbn.
    destruct e as [[]|]; by eexists.
Qed.

(** The start: too many arguments or a script that is no regular file end it with an exit code,
    otherwise the lines of the script are what is read first. *)
Theorem main_start_spec unuseds cin w :
  let '(r, w') := main_start unuseds cin w in
  match unuseds with
  | [_] => Path_empty Path_default = true → ∃ c, r = Ok (inl c) ∧ c.(script_commands) = [] ∧ w' = w
  | [_; path] =>
      let p := Path_of_string path in
      Path_empty p = false → (fs_exists p w.(os)).1 = Normally true →
      (is_regular_file p (fs_exists p w.(os)).2).1 = Normally true →
      ∃ c, r = Ok (inl c) ∧ c.(script_commands) = getlines (read_file p w'.(os)) ∧
        c.(entered_commands) = [kBegin] ∧ c.(std_cin) = cin ∧ c.(current_command) = Begin 0
  | _ => r = Ok (inr (ErrorToInt invalid_argument)) ∧ w' = w
  end.
Proof.
  destruct (main_start unuseds cin w) as [r w'] eqn:E.
  unfold main_start, LocalNetworkController_make, try_catch, mbind, M_bind, gets, os_call in E.
  destruct unuseds as [|x [|y [|]]]; cbn in E.
  - by injection E as <- <-.
  - intros He. rewrite He in E. cbn in E. injection E as <- <-. by eexists.
  - cbn zeta. intros He H1 H2. rewrite He in E.
    destruct (fs_exists _ _) as [l1 o1]. cbn in *. subst l1. cbn in E.
    destruct (is_regular_file _ _) as [l2 o2]. cbn in *. subst l2. cbn in E.
    injection E as <- <-. by eexists.
  - by injection E as <- <-.
Qed.
End replay.
