(* ===== verification/NetworkTestHelper.v ===== *)
(** [tools/network_test_helper.cc]: the program that brings up a local network for tests by
    running the local network controller on a script, and that script. *)
From S2P Require Export Menu.
From S2P Require Import Demo.

(** [network_test_helper.script] *)
Definition network_test_helper_script : list string :=
  ["### Commands begin.";
   "### Initial options."; "1";
   "### Path to VaultManager root directory."; "";
   "### Clear VaultManager root directory."; "";
   "### Path to vault executable."; "";
   "### VaultManager listening port."; "5583";
   "### Number of Vaults to start."; "";
   "### Commands end."].

Section network_test_helper.
Context `{P : Platform} `{B : Build}.
(** [ThisExecutableDir()], and the creation of directories with the [bool] it returns. *)
Context (ThisExecutableDir : Path).
Context (create_directories create_directory : Path → OS → Lib bool * OS).
(** What connecting to the manager and waiting for its network gives, the time it is tried. *)
Context (stable_network : nat → Lib unit).

(** The process of the helper; [waits] counts the calls of [WaitForStableNetwork]. *)
Record Helper := mkHelper { helper_world : World; waits : nat }.

Definition in_helper {T} (m : M World T) : M Helper T :=
  zoom helper_world (λ w h, mkHelper w h.(waits)) m.

(** [void WaitForStableNetwork()] *)
Definition HelperWaitForStableNetwork : M Helper unit := λ h,
  (of_lib (stable_network h.(waits)), mkHelper h.(helper_world) (S h.(waits))).

(** [void StartNetwork()] *)
Definition HelperStartNetwork : M Helper unit := in_helper (
  let tool_path := GetOtherExecutablePath "local_network_controller" in
  tool ← os_call (fs_exists tool_path);
  (if tool : bool then mret tt else raise no_such_element);;
  let script_path := Path_append ThisExecutableDir "network_test_helper.script" in
  script ← os_call (fs_exists script_path);
  (if script : bool then mret tt else raise no_such_element);;
  let test_env_root_dir := Path_append fs_temp_directory_path "MaidSafe_TestNetwork" in
  there ← os_call (fs_exists test_env_root_dir);
  (if there : bool then
     directory ← os_call (fs_is_directory test_env_root_dir);
     if directory : bool then mret tt else raise filesystem_io_error
   else
     created ← os_call (create_directories test_env_root_dir);
     if created : bool then mret tt else raise filesystem_io_error);;
  empty ← os_call (fs_is_empty test_env_root_dir);
  (if empty : bool then
     created ← os_call (create_directory (Path_append test_env_root_dir "script_workaround"));
     if created : bool then mret tt else raise filesystem_io_error
   else mret tt);;
  let args := [Path_string tool_path; Path_string script_path] in
  os_call (bp_execute tool_path (ConstructCommandLine args));;
  mret tt).

(** The exit code of an error; [None] to go on. *)
Definition exit_code_of (error : error_code) : option Z :=
  if decide (error = failed_to_connect) then None else Some (ErrorToInt error).

(** The last loop of [main], with the attempts left. *)
Fixpoint retry_loop (attempts : nat) : M Helper (option Z) :=
  match attempts with
  | O => mret None
  | S attempts =>
      code ← try_catch (HelperWaitForStableNetwork;; mret (Some 0))
               (λ error, match error with
                         | maidsafe_error error => mret (exit_code_of error)
                         | std_exception => throw error
                         end);
      match code with Some code => mret (Some code) | None => retry_loop attempts end
  end.

(** [main]; [unuseds] is how many arguments [Logging::Initialise] leaves. *)
Definition helper_main (unuseds : nat) : M Helper Z :=
  code ← try_catch ((if bool_decide (unuseds = 1%nat) then mret tt else raise invalid_argument);;
                    HelperWaitForStableNetwork;; mret (Some 0))
           (λ error, match error with
                     | maidsafe_error error => mret (exit_code_of error)
                     | std_exception => mret (Some (ErrorToInt unknown))
                     end);
  match code with
  | Some code => mret code
  | None =>
      code ← try_catch (HelperStartNetwork;; mret None)
               (λ error, match error with
                         | maidsafe_error error => mret (Some (ErrorToInt error))
                         | std_exception => mret (Some (ErrorToInt unknown))
                         end);
      match code with
      | Some code => mret code
      | None => code ← retry_loop 5; mret (default (ErrorToInt unknown) code)
      end
  end.
End network_test_helper.

(** * The helper *)
Section helper_theorems.
Context `{P : Platform} `{B : Build}.
Context (ThisExecutableDir : Path).
Context (create_directories create_directory : Path → OS → Lib bool * OS).
Context (stable_network : nat → Lib unit).
Abbreviation main := (helper_main ThisExecutableDir create_directories create_directory stable_network).
Abbreviation start := (HelperStartNetwork ThisExecutableDir create_directories create_directory).

(** The wait did not fail to connect. *)
Definition settled (k : nat) : Prop := stable_network k ≠ Throws (maidsafe_error failed_to_connect).

#[export] Instance settled_dec k : Decision (settled k).
Proof.
  unfold settled. destruct (stable_network k) as [[]|[e|]]; [by left| |by left].
  destruct (decide (e = failed_to_connect)) as [->|He]; [by right; intros []|left; congruence].
Defined.

(** The exit code of an exception that [main] catches. *)
Definition code_of (e : exn) : Z :=
  ErrorToInt (match e with maidsafe_error e => e | std_exception => unknown end).

(** How a wait of the last loop ends [main]: a [std::exception] is not caught. *)
Definition ends (k : nat) : Res Z :=
  match stable_network k with
  | Normally _ => Ok 0
  | Throws (maidsafe_error e) => Ok (ErrorToInt e)
  | Throws std_exception => Throw std_exception
  end.

Lemma settled_cases k :
  ¬ settled k ∧ stable_network k = Throws (maidsafe_error failed_to_connect) ∨ settled k.
Proof.
  unfold settled. destruct (stable_network k) as [[]|[e|]]; [by right| |by right].
  destruct (decide (e = failed_to_connect)) as [->|He]; [left; by split; [intros []|]|right; congruence].
Qed.

Lemma list_find_cons_dec {T} (Q : T → Prop) `{∀ x, Decision (Q x)} x l :
  list_find Q (x :: l) = if decide (Q x) then Some (0%nat, x) else prod_map S id <$> list_find Q l.
Proof. done. Qed.

Lemma retry_loop_run attempts h :
  retry_loop stable_network attempts h =
    match list_find settled (seq h.(waits) attempts) with
    | Some (_, k) => (Some <$> ends k, mkHelper h.(helper_world) (S k))
    | None => (Ok None, mkHelper h.(helper_world) (h.(waits) + attempts))
    end.
Proof.
  revert h. induction attempts as [|n IH]; intros [w k].
  - cbn. by rewrite Nat.add_0_r.
  - cbn [retry_loop seq waits helper_world]. rewrite list_find_cons_dec.
    unfold HelperWaitForStableNetwork, try_catch, mbind, M_bind. cbn [waits helper_world].
    destruct (settled_cases k) as [[Hk E]|Hk].
    + rewrite E, decide_False by done. cbn. rewrite IH. cbn [waits helper_world].
      destruct (list_find settled (seq (S k) n)) as [[j k']|]; [done|]. cbn. by rewrite Nat.add_succ_r.
    + rewrite decide_True by done. cbn [prod_map]. unfold ends, settled in *.
      destruct (stable_network k) as [[]|[e|]]; cbn; [done| |done].
      unfold exit_code_of. by rewrite decide_False by congruence.
Qed.

(** The helper looks for a network and starts one only when connecting to it failed; a
    failure to start ends it with its code; otherwise it waits up to five more times, as
    long as connecting fails, and ends as the first other answer says - which is not caught
    when it is no [maidsafe_error] - or with [unknown]. *)
Theorem helper_main_spec w :
  main 1 (mkHelper w 0) =
    match stable_network 0 with
    | Normally _ => (Ok 0, mkHelper w 1)
    | Throws e =>
        if decide (e = maidsafe_error failed_to_connect) then
          match start (mkHelper w 1) with
          | (Ok _, h) =>
              match list_find settled (seq 1 5) with
              | Some (_, k) => (ends k, mkHelper h.(helper_world) (S k))
              | None => (Ok (ErrorToInt unknown), mkHelper h.(helper_world) 6)
              end
          | (Throw e, h) => (Ok (code_of e), h)
          | (Fault f, h) => (Fault f, h)
          end
        else (Ok (code_of e), mkHelper w 1)
    end.
Proof.
  unfold helper_main. rewrite bool_decide_eq_true_2 by done.
  unfold HelperWaitForStableNetwork, try_catch, mbind, M_bind, mret, M_ret. cbn [waits helper_world of_lib].
  destruct (stable_network 0) as [[]|[e|]]; cbn [of_lib]; [done| |done].
  unfold exit_code_of. destruct (decide (e = failed_to_connect)) as [->|He].
  - rewrite decide_True by done.
    assert (Hwaits : (start (mkHelper w 1)).2.(waits) = 1%nat).
    { unfold HelperStartNetwork, in_helper, zoom.
      match goal with |- context [let '(_, _) := ?x in _] => by destruct x end. }
    destruct (start (mkHelper w 1)) as [[[]|[e|]|f] h]; cbn -[retry_loop list_find seq] in Hwaits |- *; [|done..].
    rewrite retry_loop_run, Hwaits.
    destruct (list_find settled (seq 1 5)) as [[j k]|]; [|done]. unfold ends.
    by destruct (stable_network k) as [[]|[e|]].
  - rewrite decide_False by congruence. done.
Qed.
End helper_theorems.

(** * The script *)
Section script.
Context `{P : Platform} `{B : Build}.
Context (answer : Environment).
Abbreviation C := LocalNetworkController.
Implicit Types c : C.

(** A round of the controller's loop that goes on. *)
Definition round (c c' : C) : Prop := ∀ fuel, main_round answer (S fuel) c = (Ok None, c').

(** The controller after a line of the script was taken. *)
Definition after_line (line : string) (rest : list string) (c : C) : C :=
  set_input c.(std_cin) rest
    (c.(entered_commands) ++ ["### " +:+ kPreamble_ c.(current_command) +:+ newline +:+ line]) c.

Lemma GetLine_script c line rest :
  drop_comments c.(script_commands) = line :: rest → to_lower_copy line ≠ "q" →
  GetLine c = (Ok (line, kScript), after_line line rest c).
Proof.
  intros Hs Hq. unfold GetLine, CheckForExitCommand, modify, gets, mbind, M_bind, mret, M_ret.
  cbn [script_commands set_input]. rewrite Hs. cbn [fst snd]. by rewrite bool_decide_eq_false_2.
Qed.

(** What [GetChoice] resets before it asks. *)
Definition prepared (c : C) : C :=
  match c.(current_command) with
  | ChooseToRevealHostname => set_vlogging c.(tool_vlog_session_id) (Some false) c
  | EnterVlogSessionId => set_vlogging (Some "") c.(tool_send_hostname) c
  | _ => c
  end.

Lemma GetChoice_script fuel c line rest c1 :
  drop_comments c.(script_commands) = line :: rest → to_lower_copy line ≠ "q" →
  convert c.(current_command) c.(new_network) line (after_line line rest (prepared c)) = (Ok tt, c1) →
  GetChoice (S fuel) c = (Ok true, c1).
Proof.
  intros Hs Hq Hc. unfold GetChoice, gets. unfold mbind at 1 2, M_bind at 1 2.
  rewrite (M_bind_run _ _ c tt (prepared c)) by (unfold prepared; by destruct (current_command c)).
  cbn [choice_loop]. unfold DoGetChoice at 1.
  assert (E : DoGetChoice (convert c.(current_command) c.(new_network)) (prepared c) = (Ok true, c1)).
  { assert (Hs' : drop_comments (prepared c).(script_commands) = line :: rest).
    { unfold prepared. by destruct (current_command c). }
    unfold DoGetChoice. rewrite (M_bind_run _ _ _ _ _ (GetLine_script _ _ _ Hs' Hq)).
    unfold try_catch, mbind, M_bind. cbn [fst snd]. by rewrite Hc. }
  unfold DoGetChoice in E. by rewrite (M_bind_run _ _ _ _ _ E).
Qed.

Lemma round_script c line rest c1 c2 :
  drop_comments c.(script_commands) = line :: rest → to_lower_copy line ≠ "q" →
  convert c.(current_command) c.(new_network) line (after_line line rest (prepared c)) = (Ok tt, c1) →
  HandleChoice answer c1 = (Ok tt, c2) → round c c2.
Proof.
  intros Hs Hq Hc Hh fuel. unfold main_round, try_catch.
  rewrite (M_bind_run _ _ _ _ _ (GetChoice_script fuel _ _ _ _ Hs Hq Hc)).
  by rewrite (M_bind_run _ _ _ _ _ Hh).
Qed.

(** No line of the script asks to quit. *)
Definition no_quit : Prop := ∀ line, line ∈ ["1"; ""; "5583"] → to_lower_copy line ≠ "q".

(** Where the controller is. *)
Record at_menu (x : Command) (script : list string) (o : OS) c : Prop := {
  am_command : c.(current_command) = x;
  am_new : c.(new_network) = true;
  am_script : c.(script_commands) = script;
  am_os : c.(tool_world).(os) = o;
}.

Lemma script_begin c script rest o :
  no_quit → c.(current_command) = Begin 0 → c.(script_commands) = script → c.(tool_world).(os) = o →
  drop_comments script = "1" :: rest → ∃ c', round c c' ∧ at_menu ChooseTestRootDir rest o c'.
Proof.
  intros Hq Hc <- Ho Hs. eexists. split.
  - eapply (round_script c "1" rest); [done|apply Hq; by left| |].
    + unfold prepared. rewrite Hc. cbn [convert]. unfold Begin_GetChoice, ConvertInt. reflexivity.
    + unfold HandleChoice, mbind, M_bind, gets. unfold set_choice, after_line. cbn. rewrite Hc. reflexivity.
  - by split.
Qed.

Lemma script_root c script rest o o1 o2 (empty : bool) :
  no_quit → at_menu ChooseTestRootDir script o c → drop_comments script = "" :: rest →
  fs_exists kTestEnvRootDir o = (Normally true, o1) → fs_is_empty kTestEnvRootDir o1 = (Normally empty, o2) →
  ∃ c', round c c' ∧ c'.(test_env_root_dir) = kTestEnvRootDir ∧
    at_menu (if empty then ChoosePathToVault else ClearTestRootDir false) rest o2 c'.
Proof.
  intros Hq [Hc Hn <- <-] Hs E1 E2. destruct empty; eexists; split.
  - eapply (round_script c "" rest (set_paths kTestEnvRootDir c.(path_to_vault) c.(path_to_bootstrap_file)
      (after_line "" rest c))); [done|apply Hq; right; by left| |].
    + unfold prepared. by rewrite Hc.
    + unfold HandleChoice, mbind, M_bind, gets, after_line. cbn. rewrite Hc.
      unfold ChooseTestRootDir_HandleChoice, in_tool, zoom, os_call, mbind, M_bind, gets. cbn.
      rewrite E1. cbn. by rewrite E2.
  - by split; [|split].
  - eapply (round_script c "" rest (set_paths kTestEnvRootDir c.(path_to_vault) c.(path_to_bootstrap_file)
      (after_line "" rest c))); [done|apply Hq; right; by left| |].
    + unfold prepared. by rewrite Hc.
    + unfold HandleChoice, mbind, M_bind, gets, after_line. cbn. rewrite Hc.
      unfold ChooseTestRootDir_HandleChoice, in_tool, zoom, os_call, mbind, M_bind, gets. cbn.
      rewrite E1. cbn. by rewrite E2.
  - by split; [|split].
Qed.

Lemma script_clear c script rest o o1 o2 root :
  no_quit → at_menu (ClearTestRootDir false) script o c → drop_comments script = "" :: rest →
  c.(test_env_root_dir) = root → fs_remove_all root o = (Normally tt, o1) →
  fs_create_directories root o1 = (Normally tt, o2) →
  ∃ c', round c c' ∧ c'.(test_env_root_dir) = root ∧ at_menu ChoosePathToVault rest o2 c'.
Proof.
  intros Hq [Hc Hn <- <-] Hs <- E1 E2. eexists. split.
  - eapply (round_script c "" rest); [done|apply Hq; right; by left| |].
    + unfold prepared. rewrite Hc. cbn [convert]. reflexivity.
    + unfold HandleChoice, mbind, M_bind, gets, after_line, set_flag. cbn. rewrite Hc.
      unfold ClearTestRootDir_HandleChoice, in_tool, zoom, os_call, mbind, M_bind, gets. cbn.
      rewrite E1. cbn. by rewrite E2.
  - by split; [|split].
Qed.

Lemma script_vault c script rest o o1 :
  no_quit → at_menu ChoosePathToVault script o c → drop_comments script = "" :: rest →
  fs_exists kPathToVault o = (Normally true, o1) →
  ∃ c', round c c' ∧ c'.(test_env_root_dir) = c.(test_env_root_dir) ∧ c'.(path_to_vault) = kPathToVault ∧
    at_menu (ChooseVaultManagerPort false) rest o1 c'.
Proof.
  intros Hq [Hc Hn <- <-] Hs E1. eexists. split.
  - eapply (round_script c "" rest); [done|apply Hq; right; by left| |].
    + unfold prepared. rewrite Hc. cbn [convert]. unfold ChoosePathToVault_GetChoice, ConvertPath, on_scope_exit, in_tool, zoom, os_call,
        mbind, M_bind, after_line, modify. cbn. change (bool_decide ("" = "")) with true. cbv iota. rewrite E1. reflexivity.
    + unfold HandleChoice, mbind, M_bind, gets. cbn. by rewrite Hc.
  - by split_and!; [..|split].
Qed.

Lemma script_port c script line rest o port :
  no_quit → at_menu (ChooseVaultManagerPort false) script o c →
  drop_comments script = line :: rest →
  line = "5583" ∧ port = 5583 ∨ line = "" ∧ port = kVaultManagerPort →
  ∃ c', round c c' ∧ c'.(test_env_root_dir) = c.(test_env_root_dir) ∧ c'.(path_to_vault) = c.(path_to_vault) ∧
    c'.(vault_manager_port) = port ∧ at_menu (if USE_VLOGGING then EnterVlogSessionId else ChooseVaultCount) rest o c'.
Proof.
  intros Hq [Hc Hn <- <-] Hs Hl.
  exists (set_command (if USE_VLOGGING then EnterVlogSessionId else ChooseVaultCount) (set_port port (after_line line rest c))). split.
  - eapply (round_script c line rest (set_port port (after_line line rest c))); [done| | |].
    + apply Hq. destruct Hl as [[-> _]|[-> _]]; [do 2 right|right]; by left.
    + unfold prepared. rewrite Hc. by destruct Hl as [[-> ->]|[-> ->]].
    + unfold HandleChoice, mbind, M_bind, gets. cbn. rewrite Hc.
      unfold ChooseVaultManagerPort_HandleChoice. by destruct USE_VLOGGING.
  - by split_and!; [..|split].
Qed.

(** The questions of a build with VLOGGING: the session's identifier, which is any line, *)
Lemma script_session c script line rest o :
  no_quit → at_menu EnterVlogSessionId script o c → drop_comments script = line :: rest →
  line ∈ ["1"; ""; "5583"] →
  ∃ c', round c c' ∧ c'.(test_env_root_dir) = c.(test_env_root_dir) ∧ c'.(path_to_vault) = c.(path_to_vault) ∧
    c'.(vault_manager_port) = c.(vault_manager_port) ∧ c'.(tool_vlog_session_id) = Some line ∧
    at_menu (if bool_decide (line = "") then ChooseVaultCount else ChooseToRevealHostname) rest o c'.
Proof.
  intros Hq [Hc Hn <- <-] Hs Hl.
  set (c1 := set_vlogging (Some line) c.(tool_send_hostname) (after_line line rest (prepared c))).
  exists (if bool_decide (line = "") then set_command ChooseVaultCount (set_vlogging (Some line) (Some false) c1)
          else set_command ChooseToRevealHostname c1).
  assert (Hcommand : c1.(current_command) = EnterVlogSessionId) by (unfold c1, prepared; by rewrite Hc).
  split.
  - apply (round_script c line rest c1); [done|by apply Hq| |].
    + unfold c1, prepared. by rewrite Hc.
    + unfold HandleChoice, mbind, M_bind, gets. rewrite Hcommand.
      unfold EnterVlogSessionId_HandleChoice, mbind, M_bind, gets, modify.
      change (tool_vlog_session_id c1) with (Some line). cbv beta iota. by case_bool_decide.
  - unfold c1, prepared. rewrite Hc. case_bool_decide; by split_and!; [..|split].
Qed.

(** and whether to reveal the host's name. *)
Lemma script_reveal c script rest o :
  no_quit → at_menu ChooseToRevealHostname script o c → drop_comments script = "" :: rest →
  ∃ c', round c c' ∧ c'.(test_env_root_dir) = c.(test_env_root_dir) ∧ c'.(path_to_vault) = c.(path_to_vault) ∧
    c'.(vault_manager_port) = c.(vault_manager_port) ∧ c'.(tool_vlog_session_id) = c.(tool_vlog_session_id) ∧
    at_menu ChooseVaultCount rest o c'.
Proof.
  intros Hq [Hc Hn <- <-] Hs. eexists. split.
  - eapply (round_script c "" rest); [done|apply Hq; right; by left| |].
    + unfold prepared. rewrite Hc. reflexivity.
    + unfold HandleChoice, mbind, M_bind, gets. cbn. rewrite Hc. reflexivity.
  - by split_and!; [..|split].
Qed.

Lemma script_count c script line rest o count fuel :
  no_quit → at_menu ChooseVaultCount script o c → drop_comments script = line :: rest →
  line = "5583" ∧ count = 5583 ∨ line = "" ∧ count = kVaultCountNewNetwork →
  ∃ c', GetChoice (S fuel) c = (Ok true, c') ∧ c'.(vault_count) = count ∧
    c'.(test_env_root_dir) = c.(test_env_root_dir) ∧ c'.(path_to_vault) = c.(path_to_vault) ∧
    c'.(vault_manager_port) = c.(vault_manager_port) ∧ at_menu ChooseVaultCount rest o c'.
Proof.
  intros Hq [Hc Hn <- <-] Hs Hl. exists (set_count count (after_line line rest c)). split.
  - eapply (GetChoice_script fuel c line rest); [done| |].
    + apply Hq. destruct Hl as [[-> _]|[-> _]]; [do 2 right|right]; by left.
    + unfold prepared. rewrite Hc, Hn. by destruct Hl as [[-> ->]|[-> ->]].
  - by split_and!; [..|split].
Qed.

(** The choice of the number of vaults, with what [StartNetwork] will be given. *)
Definition about_to_start (fuel : nat) (count port : Z) c : Prop :=
  c.(current_command) = ChooseVaultCount ∧
  ∃ c', GetChoice (S fuel) c = (Ok true, c') ∧ c'.(current_command) = ChooseVaultCount ∧
    c'.(new_network) = true ∧ c'.(vault_count) = count ∧ c'.(vault_manager_port) = port ∧
    c'.(test_env_root_dir) = kTestEnvRootDir ∧ c'.(path_to_vault) = kPathToVault.

Lemma script_end c script line rest o count port fuel :
  no_quit → at_menu ChooseVaultCount script o c → drop_comments script = line :: rest →
  line = "5583" ∧ count = 5583 ∨ line = "" ∧ count = kVaultCountNewNetwork →
  c.(vault_manager_port) = port → c.(test_env_root_dir) = kTestEnvRootDir → c.(path_to_vault) = kPathToVault →
  about_to_start fuel count port c.
Proof.
  intros Hq Hc Hs Hl <- Hr Hv. split; [apply Hc|].
  destruct (script_count c script line rest o count fuel Hq Hc Hs Hl) as (c' & E & H1 & H2 & H3 & H4 & H5).
  exists c'. split_and!; [done|apply H5|apply H5|done..|congruence|congruence].
Qed.

(** The choice of the number of vaults when the script is used up: whoever sits there is asked. *)
Definition asks_operator (session : string) (port : Z) c : Prop :=
  c.(current_command) = ChooseVaultCount ∧ c.(new_network) = true ∧ c.(vault_manager_port) = port ∧
  c.(test_env_root_dir) = kTestEnvRootDir ∧ c.(path_to_vault) = kPathToVault ∧
  c.(tool_vlog_session_id) = Some session ∧
  ∀ line input, c.(std_cin) = Line line :: input → to_lower_copy line ≠ "q" → (GetLine c).1 = Ok (line, kStdCin).

Lemma operator_asked c script o session port :
  at_menu ChooseVaultCount script o c → drop_comments script = [] → c.(vault_manager_port) = port →
  c.(test_env_root_dir) = kTestEnvRootDir → c.(path_to_vault) = kPathToVault →
  c.(tool_vlog_session_id) = Some session → asks_operator session port c.
Proof.
  intros [Hc Hn <- _] Hs Hp Hr Hv Hsess. split_and!; [done..|]. intros line input Hi Hl.
  unfold GetLine, CheckForExitCommand, modify, gets, mbind, M_bind, mret, M_ret.
  cbn [script_commands std_cin set_input]. rewrite Hs, Hi. cbn. by rewrite bool_decide_eq_false_2.
Qed.

(** C40: the script and the menu of a build without VLOGGING stay in step when the root directory exists
    and holds something, as the helper arranges: after five rounds the controller is about to start a new
    network of 16 vaults on port 5583.  When the directory is empty the menu skips a question and the
    script falls out of step: four rounds later the controller is about to start 5583 vaults on the default
    port.  A build with VLOGGING asks for a session after the port, so the script runs out one question
    too early, and the number of vaults is asked of whoever sits there: with the empty session on
    port 5583, or, when the directory is empty, with the session "5583" on the default port. *)
Theorem script_in_step fuel c o1 o2 o3 o4 o5 :
  no_quit → c.(current_command) = Begin 0 → c.(script_commands) = network_test_helper_script →
  fs_exists kTestEnvRootDir c.(tool_world).(os) = (Normally true, o1) →
  (fs_is_empty kTestEnvRootDir o1 = (Normally false, o2) → fs_remove_all kTestEnvRootDir o2 = (Normally tt, o3) →
   fs_create_directories kTestEnvRootDir o3 = (Normally tt, o4) → fs_exists kPathToVault o4 = (Normally true, o5) →
   if USE_VLOGGING then ∃ c', nsteps round 6 c c' ∧ asks_operator "" 5583 c'
   else ∃ c', nsteps round 5 c c' ∧ about_to_start fuel 16 5583 c') ∧
  (fs_is_empty kTestEnvRootDir o1 = (Normally true, o2) → fs_exists kPathToVault o2 = (Normally true, o3) →
   if USE_VLOGGING then ∃ c', nsteps round 6 c c' ∧ asks_operator "5583" 44444 c'
   else ∃ c', nsteps round 4 c c' ∧ about_to_start fuel 5583 44444 c').
Proof.
  intros Hq Hc Hs E1.
  destruct (script_begin c _ _ _ Hq Hc Hs eq_refl eq_refl) as (c1 & R1 & M1).
  split; [intros E2 E3 E4 E5|intros E2 E3].
  - destruct (script_root c1 _ _ _ _ _ false Hq M1 eq_refl E1 E2) as (c2 & R2 & D2 & M2).
    destruct (script_clear c2 _ _ _ _ _ _ Hq M2 eq_refl D2 E3 E4) as (c3 & R3 & D3 & M3).
    destruct (script_vault c3 _ _ _ _ Hq M3 eq_refl E5) as (c4 & R4 & D4 & V4 & M4).
    destruct (script_port c4 _ _ _ _ 5583 Hq M4 eq_refl (or_introl (conj eq_refl eq_refl)))
      as (c5 & R5 & D5 & V5 & P5 & M5).
    destruct USE_VLOGGING; [destruct (script_session c5 _ _ _ _ Hq M5 eq_refl) as (c6 & R6 & D6 & V6 & P6 & S6 & M6);
      [right; by left|]; exists c6|exists c5]; (split; [repeat (eapply nsteps_l; [eassumption|]); constructor|]).
    + eapply operator_asked; [exact M6|done|congruence..].
    + eapply (script_end c5); [done|exact M5|reflexivity|by right|done|congruence|congruence].
  - destruct (script_root c1 _ _ _ _ _ true Hq M1 eq_refl E1 E2) as (c2 & R2 & D2 & M2).
    destruct (script_vault c2 _ _ _ _ Hq M2 eq_refl E3) as (c3 & R3 & D3 & V3 & M3).
    destruct (script_port c3 _ _ _ _ 44444 Hq M3 eq_refl (or_intror (conj eq_refl eq_refl)))
      as (c4 & R4 & D4 & V4 & P4 & M4).
    destruct USE_VLOGGING; [destruct (script_session c4 _ _ _ _ Hq M4 eq_refl) as (c5 & R5 & D5 & V5 & P5 & S5 & M5);
      [do 2 right; by left|]; destruct (script_reveal c5 _ _ _ Hq M5 eq_refl) as (c6 & R6 & D6 & V6 & P6 & S6 & M6);
      exists c6|exists c4]; (split; [repeat (eapply nsteps_l; [eassumption|]); constructor|]).
    + eapply operator_asked; [exact M6|done|congruence..].
    + eapply (script_end c4); [done|exact M4|reflexivity|by left|done|congruence|congruence].
Qed.
End script.
