(* ===== verification/Scenarios.v ===== *)
(** Runs of the demonstration platform: a manager that clients connect to, that starts
    vaults and that vaults report in to. *)
From S2P Require Export Requests TearDown.
From S2P Require Import Demo.

(** The bytes of a message. *)
Definition demo_bytes (m : Message (P:=DemoPlatform)) : bytes :=
  match Serialise (B:=demo_build) m with Ok bs => bs | _ => [] end.

Definition demo_handle (e : Event) (w : World (P:=DemoPlatform)) : World :=
  (handle (B:=demo_build) e w).2.

Fixpoint demo_run (es : list Event) (w : World (P:=DemoPlatform)) : World :=
  match es with [] => w | e :: es => demo_run es (demo_handle e w) end.

(** The conditions of an event, as a test. *)
Definition demo_event_ok (w : World (P:=DemoPlatform)) (e : Event) : bool :=
  match e with
  | NewConnection k =>
      bool_decide (k ≠ null_connection) && bool_decide (w.(nc).(connections_) !! k = None) &&
      bool_decide (ClientConnections.table w.(cc) !! k = None) &&
      forallb (λ c, bool_decide (k ∉ child_connections c)) (vaults w)
  | MessageReceived k _ | ConnectionClosed k => bool_decide (k ≠ null_connection)
  | _ => true
  end.

Lemma demo_event_ok_spec w e : demo_event_ok w e = true → event_ok w e.
Proof.
  destruct e as [k|k bs|k|r s|j r|k r|k r|]; cbn; try done; rewrite ?andb_true_iff, ?bool_decide_eq_true; try done.
  intros [[[H1 H2] H3] H4]. split_and!; [done|rewrite H2; by intros []|rewrite H3; by intros []|].
  intros (c & Hc & Hk). rewrite forallb_forall in H4. apply list_elem_of_In in Hc.
  specialize (H4 c Hc). by apply bool_decide_eq_true in H4.
Qed.

(** Every event of a run is one the environment may deliver, and none ends in undefined
    behaviour. *)
Fixpoint demo_run_ok (es : list Event) (w : World (P:=DemoPlatform)) : bool :=
  match es with
  | [] => true
  | e :: es => demo_event_ok w e && negb (is_Fault (handle (B:=demo_build) e w).1) &&
               demo_run_ok es (demo_handle e w)
  end.

Lemma demo_run_wf es w : system_wf w → demo_run_ok es w = true → system_wf (demo_run es w).
Proof.
  revert w. induction es as [|e es IH]; intros w Hw H; [done|]. cbn in H.
  apply andb_true_iff in H as [[He Hf]%andb_true_iff H]. apply IH; [|done].
  apply handle_wf; [done|by apply demo_event_ok_spec|by apply negb_true_iff].
Qed.

(** A manager on a machine where the next two processes get the ids 101 and 102. *)
Definition manager_world : World (P:=DemoPlatform) :=
  set_os (λ o, mkDemoOS o.(demo_files) [Normally 101; Normally 102] [] [] 0) demo_world.

Lemma manager_world_wf : system_wf manager_world.
Proof. by apply system_empty. Qed.

(** A client on connection [k] with the keys of [maid] authenticates itself. *)
Definition authenticates (k : ConnectionPtr) (maid : string) (challenge : bytes) : list Event :=
  [NewConnection k; MessageReceived k (demo_bytes ValidateConnectionRequest_);
   MessageReceived k (demo_bytes (ChallengeResponse_
     (mkChallengeResponse (P:=DemoPlatform) (Some maid) (challenge, maid))))].

(** The challenge of a machine that has made [n] random values. *)
Definition demo_challenge (n : Z) : bytes :=
  (RandomBytes (Platform:=DemoPlatform) 100 200 (mkDemoOS ∅ [] [] [] n)).1.

Definition demo_start (label dir : string) : Message (P:=DemoPlatform) :=
  StartVaultRequest_ (mkStartVaultRequest (P:=DemoPlatform) label dir "" false None 1000).

(** "alice" is a client on connection 1. *)
Definition alice_events : list Event := authenticates 1%N "alice" (demo_challenge 0).
Definition alice_world : World (P:=DemoPlatform) := demo_run alice_events manager_world.

(** She has started the vault "v1" in "/v/1", whose process reports in on connection 7. *)
Definition vault_events : list Event := [MessageReceived 1%N (demo_bytes (demo_start "v1" "/v/1"))].
Definition starting_world : World (P:=DemoPlatform) := demo_run vault_events alice_world.
Definition report_events : list Event :=
  [NewConnection 7%N; MessageReceived 7%N (demo_bytes (VaultStarted_ (mkVaultStarted 101)))].
Definition running_world : World (P:=DemoPlatform) := demo_run report_events starting_world.

Lemma alice_world_wf : system_wf alice_world.
Proof. apply demo_run_wf; [apply manager_world_wf|vm_compute; reflexivity]. Qed.

Lemma starting_world_wf : system_wf starting_world.
Proof. apply demo_run_wf; [apply alice_world_wf|vm_compute; reflexivity]. Qed.

Lemma running_world_wf : system_wf running_world.
Proof. apply demo_run_wf; [apply starting_world_wf|vm_compute; reflexivity]. Qed.
