(* ===== verification/Witnesses.v ===== *)
(** The theorems at concrete inputs of the demonstration platform: for each theorem with
    hypotheses, values that satisfy them and what the theorem says of these values. *)
From S2P Require Export Scenarios.
From S2P Require Import Service.
From S2P Require Import Demo.

Abbreviation DP := DemoPlatform (only parsing).
Abbreviation DB := demo_build (only parsing).

(** A decidable proposition about concrete values. *)
Ltac decide_by_vm :=
  match goal with |- ?Q => apply (bool_decide_eq_true_1 Q); vm_compute; reflexivity end.

(** An equation between concrete values. *)
Ltac by_vm := match goal with |- _ = ?b => vm_cast_no_check (eq_refl b) end.

Definition report_message : Message (P:=DP) := VaultStarted_ (mkVaultStarted 101).

(** ** The manager *)

(** The process of "v1" reports in on the silent connection 7. *)
Lemma handle_keeps_invariant_witness :
  let w := demo_handle (NewConnection 7%N) starting_world in
  let e := MessageReceived 7%N (demo_bytes report_message) in
  is_Fault (handle (B:=DB) e w).1 = false ∧ system_wf (handle (B:=DB) e w).2.
Proof.
  intros w e.
  assert (Hw : system_wf w) by (apply (demo_run_wf [NewConnection 7%N]); [apply starting_world_wf|by vm_compute]).
  destruct (handle_keeps_invariant (B:=DB) e w Hw) as [H1 H2]; [done|].
  assert (Hf : is_Fault (handle (B:=DB) e w).1 = false).
  { apply H1. split.
    - intros (body & m & Ht & _). vm_compute in Ht. discriminate.
    - intros (body & q & Ht & _). vm_compute in Ht. discriminate. }
  split; [exact Hf|exact (H2 Hf)].
Defined.

(** The manager that was made on this machine, and accepted a connection. *)
Definition made_world : World (P:=DP) := (VaultManager_make (B:=DB) manager_world).2.
Definition accepting_world : World (P:=DP) := demo_handle (NewConnection 7%N) made_world.

Lemma reachable_invariant_witness :
  reachable (B:=DB) accepting_world ∧ is_Some (accepting_world.(nc).(connections_) !! 7%N) ∧
  ClientConnections.table accepting_world.(cc) !! 7%N = None.
Proof.
  assert (Hm : (VaultManager_make (B:=DB) manager_world).1 = Ok tt) by (vm_compute; reflexivity).
  assert (Hs : (handle (B:=DB) (NewConnection 7%N) made_world).1 = Ok tt) by (vm_compute; reflexivity).
  assert (He : event_ok made_world (NewConnection 7%N)) by (apply demo_event_ok_spec; vm_compute; reflexivity).
  assert (Hr : reachable (B:=DB) accepting_world).
  { exists manager_world, made_world. split; [reflexivity|]. split; [rewrite <- Hm; apply surjective_pairing|].
    eapply rtc_l; [|apply rtc_refl].
    eapply (step_event _ _ _ _ He); [apply surjective_pairing|by rewrite Hs]. }
  split; [exact Hr|]. assert (Hk : is_Some (accepting_world.(nc).(connections_) !! 7%N)) by decide_by_vm.
  split; [exact Hk|]. destruct (reachable_invariant (B:=DB) _ Hr) as (_ & _ & _ & _ & H & _). by apply H.
Defined.

(** The same machine with a release build. *)
Definition release_build : Build := {| TESTING := false; USE_VLOGGING := false |}.
Definition released_world : World (P:=DP) := (VaultManager_make (B:=release_build) manager_world).2.

Lemma manager_starts_afresh_witness :
  (VaultManager_make (B:=release_build) manager_world).1 = Ok tt ∧ one_fresh_vault released_world.
Proof.
  assert (Hm : (VaultManager_make (B:=release_build) manager_world).1 = Ok tt) by (vm_compute; reflexivity).
  split; [exact Hm|].
  apply (manager_starts_afresh (B:=release_build) manager_world released_world); [reflexivity|].
  rewrite <- Hm. apply surjective_pairing.
Defined.

(** The last event of "alice"'s authentication. *)
Definition challenged_world : World (P:=DP) := demo_run (take 2 alice_events) manager_world.
Definition alice_response : bytes := demo_bytes (ChallengeResponse_
  (mkChallengeResponse (P:=DP) (Some "alice") (demo_challenge 0, "alice"))).

Lemma clients_are_authenticated_witness :
  let w := challenged_world in
  let e := MessageReceived 1%N alice_response in
  validated (handle (B:=DB) e w).2 !! 1%N = Some "alice" ∧ validated w !! 1%N ≠ Some "alice" ∧
  ∃ challenge t, w.(cc).(unvalidated_clients_) !! 1%N = Some (challenge, t).
Proof.
  intros w e.
  assert (H1 : validated (handle (B:=DB) e w).2 !! 1%N = Some "alice") by (vm_compute; reflexivity).
  assert (H2 : validated w !! 1%N ≠ Some "alice") by (vm_compute; discriminate).
  split_and!; [exact H1|exact H2|].
  destruct (clients_are_authenticated (B:=DB) e w 1%N _ H1 H2) as (bs & body & r & m & ch & t & _ & _ & _ & _ & _ & H & _).
  by exists ch, t.
Defined.

Lemma ownership_is_authorised_witness :
  let w := alice_world in
  let e := MessageReceived 1%N (demo_bytes (demo_start "v1" "/v/1")) in
  owns (handle (B:=DB) e w).2 "v1" "alice" ∧ ¬ owns w "v1" "alice" ∧
  ∃ k bs, e = MessageReceived k bs ∧ asks_for (B:=DB) bs "v1" ∧ validated w !! k = Some "alice".
Proof.
  intros w e.
  assert (H1 : owns (handle (B:=DB) e w).2 "v1" "alice").
  { left. exists (started_child (requested_vault (B:=DB) (mkStartVaultRequest (P:=DP) "v1" "/v/1" "" false None 1000)
      "alice" (Some 0%nat)) 0 101).
    split; [|split; reflexivity]. apply (list_elem_of_lookup_2 _ 0). by_vm. }
  assert (H2 : ¬ owns w "v1" "alice").
  { assert (Hv : vaults w = []) by by_vm. assert (Hq : w.(queue) = []) by by_vm.
    intros [(c & H & _)|[(c & f & H & _)|(i & r & H & _)]]; rewrite ?Hv, ?Hq in H; by apply elem_of_nil in H. }
  split_and!; [exact H1|exact H2|]. exact (ownership_is_authorised (B:=DB) e w _ _ H1 H2).
Defined.

(** The vault "v1" exits: its connection closes, and the process starts it again. *)
Lemma restarts_end_witness :
  let w' := demo_handle (ConnectionClosed 7%N) running_world in
  unattended (B:=DB) running_world w' ∧ (1 ≤ budget running_world)%nat ∧
  (launched w' ≤ launched running_world + chances running_world)%nat.
Proof.
  intros w'.
  assert (Hu : unattended (B:=DB) running_world w').
  { exists (ConnectionClosed 7%N). split_and!; [|done|done]. cbn [disturbs]. decide_by_vm. }
  destruct (restarts_end (B:=DB) 1 running_world w' running_world_wf) as (H1 & H2 & _).
  { eapply nsteps_l; [exact Hu|constructor]. }
  split_and!; [exact Hu|exact H1|exact H2].
Defined.

(** ** Requests *)

Definition start_request (label dir : string) : StartVaultRequest (P:=DP) :=
  mkStartVaultRequest (P:=DP) label dir "" false None 1000.
Definition take_request (label dir : string) : TakeOwnershipRequest (P:=DP) :=
  mkTakeOwnershipRequest (P:=DP) label dir 2000.

Lemma StartVault_validated_witness :
  let w := alice_world in
  validated w !! 1%N = Some "alice" ∧
  HandleStartVaultRequest (B:=DB) 1%N (start_request "v1" "/v/1") w =
    start_and_save (B:=DB) 1%N (requested_vault (B:=DB) (start_request "v1" "/v/1") "alice" (Some 0%nat))
      (set_pmids (λ l, l ++ [(CreatePmidAndSigner w.(os)).1])
        (set_os (λ _, (CreatePmidAndSigner w.(os)).2) w)).
Proof.
  intros w. assert (H : validated w !! 1%N = Some "alice") by by_vm. split; [exact H|].
  exact (StartVault_validated (B:=DB) 1%N (start_request "v1" "/v/1") w "alice" H eq_refl (λ _, eq_refl)).
Defined.

Lemma StartVault_unvalidated_witness :
  let w := manager_world in
  validated w !! 1%N = None ∧
  HandleStartVaultRequest (B:=DB) 1%N (start_request "v1" "/v/1") w =
    answer_error (B:=DB) 1%N "" (maidsafe_error connection_not_found) w.
Proof.
  intros w. assert (H : validated w !! 1%N = None) by by_vm. split; [exact H|].
  exact (StartVault_unvalidated (B:=DB) 1%N (start_request "v1" "/v/1") w H).
Defined.

Lemma TakeOwnership_refused_witness :
  ∃ e, HandleTakeOwnershipRequest (B:=DB) 1%N (take_request "v9" "/v/9") running_world =
    answer_error (B:=DB) 1%N "" e running_world.
Proof.
  apply (TakeOwnership_refused (B:=DB) 1%N (take_request "v9" "/v/9") _ running_world_wf).
  right. decide_by_vm.
Defined.

(** The vault "v1" of "alice", running. *)
Definition v1 : Child (P:=DP) :=
  set_status kRunning (set_timer (λ _, mkTimer 2 []) (set_info (set_connection 7%N)
    (started_child (requested_vault (B:=DB) (start_request "v1" "/v/1") "alice" (Some 0%nat)) 0 101))).

Lemma v1_managed : managed running_world "v1" 0%nat v1.
Proof. split; [by_vm|reflexivity]. Qed.
Lemma alice_validated : validated running_world !! 1%N = Some "alice".
Proof. by_vm. Qed.

Lemma TakeOwnership_same_dir_witness :
  ∃ w', HandleTakeOwnershipRequest (B:=DB) 1%N (take_request "v1" "/v/1") running_world = (Ok tt, w') ∧
    vaults w' = alter (set_info (set_owner "alice" 2000)) 0%nat (vaults running_world).
Proof.
  pose proof (TakeOwnership_same_dir (B:=DB) 1%N (take_request "v1" "/v/1") running_world "alice" 0%nat v1
    running_world_wf alice_validated v1_managed eq_refl) as H. cbv zeta in H.
  assert (Hr : (TryTakeOwnership (B:=DB) 1%N (take_request "v1" "/v/1") running_world).1 = Ok tt) by by_vm.
  destruct (TryTakeOwnership (B:=DB) 1%N (take_request "v1" "/v/1") running_world) as [r w'].
  cbn in Hr. rewrite Hr in H. destruct H as (H1 & H2 & _). exists w'. split; [exact H1|exact H2].
Defined.

Lemma TakeOwnership_new_dir_witness :
  (HandleTakeOwnershipRequest (B:=DB) 1%N (take_request "v1" "/v/2") running_world).1 = Ok tt.
Proof.
  pose proof (TakeOwnership_new_dir (B:=DB) 1%N (take_request "v1" "/v/2") running_world "alice" 0%nat v1
    running_world_wf alice_validated v1_managed ltac:(vm_compute; discriminate)) as H.
  cbn zeta in H. change (vault_connection v1 =? null_connection)%N with false in H. cbn beta iota in H.
  rewrite H. reflexivity.
Defined.

(** The vault that is to move has been told to stop. *)
Definition moving_world : World (P:=DP) :=
  demo_run [MessageReceived 1%N (demo_bytes (TakeOwnershipRequest_ (take_request "v1" "/v/2")))] running_world.
Lemma moving_world_wf : system_wf moving_world.
Proof. apply demo_run_wf; [apply running_world_wf|vm_compute; reflexivity]. Qed.

Definition moving_v1 : Child (P:=DP) :=
  set_timer (stop_timer "v1") (stopping (Some (ChangeChunkstorePath_on_exit
    (moved_vault (take_request "v1" "/v/2") "alice" v1))) v1).

Lemma moved_vault_exit_witness :
  (OnProcessExit run_functor "v1" 0 false moving_world).1 = Ok tt.
Proof.
  assert (Hm : managed moving_world "v1" 0%nat moving_v1) by (split; [by_vm|reflexivity]).
  rewrite (moved_vault_exit (P:=DP) "v1" 0 false moving_world 0%nat moving_v1
    (moved_vault (take_request "v1" "/v/2") "alice" v1) moving_world_wf Hm eq_refl eq_refl). reflexivity.
Defined.

(** ** Vaults that report in *)

(** The vault "v1", started and silent, and its connection. *)
Definition reporting_world : World (P:=DP) := demo_run [NewConnection 7%N] starting_world.
Lemma reporting_world_wf : system_wf reporting_world.
Proof. apply demo_run_wf; [apply starting_world_wf|vm_compute; reflexivity]. Qed.
Definition starting_v1 : Child (P:=DP) :=
  started_child (requested_vault (B:=DB) (start_request "v1" "/v/1") "alice" (Some 0%nat)) 0 101.

(** A take-over of it with another disk usage cannot tell it. *)
Lemma same_dir_unconnected_witness :
  (TryTakeOwnership (B:=DB) 1%N (take_request "v1" "/v/1") starting_world).1 = Fault null_deref.
Proof.
  rewrite (same_dir_unconnected (B:=DB) 1%N (take_request "v1" "/v/1") starting_world "alice" 0%nat starting_v1
    (demo_bytes (MaxDiskUsageUpdate_ (mkMaxDiskUsageUpdate 2000))) starting_world_wf); [reflexivity|by_vm| |by_vm| |by_vm].
  - split; [by_vm|reflexivity].
  - split_and!; [by_vm|discriminate|discriminate].
Qed.

Definition v1_keys : Pmid (Platform:=DP) * Anpmid (Platform:=DP) := ("pmid1", "anpmid1").

Lemma VaultStarted_known_witness :
  let w := reporting_world in
  ∃ w', VaultManager.HandleVaultStarted (B:=DB) 7%N (mkVaultStarted 101) w = (Ok tt, w') ∧
    vaults w' = alter (connected 7%N) 0%nat (vaults w) ∧
    w'.(nc).(connections_) = delete 7%N w.(nc).(connections_).
Proof.
  intros w.
  assert (Hn : is_Some (w.(nc).(connections_) !! 7%N)) by decide_by_vm.
  assert (Hf : list_find (λ c, GetProcessId c = (mkVaultStarted 101).(process_id)) (vaults w) =
    Some (0%nat, starting_v1)) by by_vm.
  assert (Hk : w.(pmids) !! 0%nat = Some v1_keys) by by_vm.
  assert (Hs : Serialise (B:=DB) (started_response (B:=DB) w 7%N starting_v1 v1_keys) =
    Ok (demo_bytes (started_response (B:=DB) w 7%N starting_v1 v1_keys))) by by_vm.
  destruct (VaultStarted_known (B:=DB) 7%N (mkVaultStarted 101) w 0 starting_v1 0 v1_keys _
    reporting_world_wf Hn Hf eq_refl Hk Hs) as (w' & rest & H1 & H2 & H3 & _).
  exists w'. split_and!; [exact H1|exact H2|exact H3].
Defined.

Lemma VaultStarted_unknown_witness :
  ∃ e, VaultManager.HandleVaultStarted (B:=DB) 7%N (mkVaultStarted 999) reporting_world =
    (Throw (maidsafe_error e), NewConnections.set_connections (delete 7%N) reporting_world).
Proof.
  destruct (VaultStarted_unknown (B:=DB) 7%N (mkVaultStarted 999) reporting_world) as (e & H & _).
  - right. cbn [process_id]. decide_by_vm.
  - exists e. exact H.
Defined.

Lemma network_stable_announced_witness :
  (HandleSetNetworkAsStable (B:=DB) running_world).1 = Ok tt ∧
  (HandleSetNetworkAsStable (B:=DB) running_world).2.(network_stable_) = true.
Proof.
  destruct (network_stable_announced (B:=DB) running_world (demo_bytes NetworkStableResponse_)
    running_world_wf ltac:(by_vm)) as (H & _). rewrite H. split; reflexivity.
Defined.

Lemma log_goes_to_owner_witness :
  let m := mkLogMessage "hello" in
  HandleLogMessage (B:=DB) 7%N m running_world = (Ok tt, running_world) ∨
  ∃ c cl bs, c ∈ vaults running_world ∧ vault_connection c = 7%N ∧
    validated running_world !! cl = Some c.(info).(owner_name) ∧ Serialise (B:=DB) (LogMessage_ m) = Ok bs ∧
    HandleLogMessage (B:=DB) 7%N m running_world = (Ok tt, set_trace (λ t, t ++ [Sent cl bs]) running_world).
Proof.
  exact (log_goes_to_owner (B:=DB) 7%N (mkLogMessage "hello") running_world running_world_wf
    ltac:(discriminate)).
Defined.

Lemma vault_lifecycle_witness :
  life running_world (ConnectionClosed 7%N) (ids (handle (B:=DB) (ConnectionClosed 7%N) running_world).2) ∧
  length (ids running_world) = 1%nat ∧
  length (ids (handle (B:=DB) (ConnectionClosed 7%N) running_world).2) = 0%nat ∧
  running_world.(pmids) `prefix_of` (handle (B:=DB) (ConnectionClosed 7%N) running_world).2.(pmids).
Proof.
  pose proof (vault_lifecycle (B:=DB) (ConnectionClosed 7%N) running_world running_world_wf) as [H1 H2].
  split; [exact H1|]. split; [by_vm|]. split; [by_vm|]. apply H2. intros k bs E. discriminate E.
Defined.

(** The manager is torn down while "v1" runs. *)
Lemma tear_down_ends_witness :
  (TearDownWithInterval (B:=DB) running_world).1 = Ok tt ∧
  Sent (vault_connection v1) (shutdown_bytes (B:=DB)) ∈ (TearDownWithInterval (B:=DB) running_world).2.(trace).
Proof.
  assert (H1 : running_world.(pm).(stop_all_flag_) = false) by by_vm.
  assert (H2 : null_connection ∉ vault_connection <$> vaults running_world) by decide_by_vm.
  assert (H3 : running_world.(queue) = []) by by_vm.
  destruct (tear_down_ends (B:=DB) running_world running_world_wf H1 H2) as (w1 & E & H & _).
  { rewrite H3. constructor. }
  rewrite E. split; [done|]. apply H, list_elem_of_lookup. exists 0%nat. apply v1_managed.
Defined.

(** ** The components of the manager *)

Lemma ClientConnections_refines_witness :
  let r := ClientConnections.run_call (ClientConnections.CallFindValidated 1%N) alice_world in
  r.1 = Ok (ClientConnections.Found "alice") ∧
  ClientConnections.table (ClientConnections.cw r.2) !! 1%N = Some (ClientConnections.Validated "alice").
Proof.
  intros r.
  destruct (ClientConnections.ClientConnections_refines alice_world (ClientConnections.CallFindValidated 1%N)
    (sys_cc _ alice_world_wf) I) as (H1 & H2 & _).
  assert (Ht : ClientConnections.table (ClientConnections.cw alice_world) !! 1%N =
    Some (ClientConnections.Validated "alice")) by by_vm.
  cbn [ClientConnections.spec_call] in H1, H2. rewrite Ht in H1, H2.
  split; [exact H1|]. etransitivity; [exact (f_equal (.!! 1%N) H2)|exact Ht].
Defined.

Lemma ConfigFile_load_save_witness :
  let c := mkConfigFile (P:=DP) [x00; x01; x02] [set_connection 7%N v1.(info)] in
  ∃ b, ConfigFile_save [v1_keys] c = Ok b ∧
    ConfigFile_load (b ++ [x00]) = Ok (mkConfigFile (P:=DP) [x00; x01; x02] [], [x00]).
Proof.
  intros c. destruct (ConfigFile_save [v1_keys] c) as [b|e|f] eqn:E.
  - exists b. split; [reflexivity|]. exact (ConfigFile_load_save [v1_keys] c b [x00] E).
  - exfalso. assert (H : (if ConfigFile_save [v1_keys] c is Ok _ then true else false) = true) by by_vm.
    by rewrite E in H.
  - exfalso. assert (H : (if ConfigFile_save [v1_keys] c is Ok _ then true else false) = true) by by_vm.
    by rewrite E in H.
Defined.

Lemma AddProcess_spec_witness :
  let i := requested_vault (B:=DB) (start_request "v1" "/v/3") "bob" (Some 0%nat) in
  AddProcess i 0 running_world = (Throw (maidsafe_error already_initialised), running_world).
Proof.
  intros i.
  assert (Hp : ptr_ok running_world.(pmids) i.(pmid_and_signer)) by (cbn; decide_by_vm).
  assert (Hb : ¬ bad_arguments i 0) by decide_by_vm.
  assert (Hc : clashes running_world i) by decide_by_vm.
  pose proof (AddProcess_spec i 0 running_world (sys_pm _ running_world_wf) Hp) as H.
  destruct (AddProcess i 0 running_world) as [[[]|e|f] w']; [|destruct H as (_ & _ & H & _)|done].
  - by destruct H as (_ & H & _).
  - destruct (H Hb Hc) as [-> ->]. reflexivity.
Defined.

Lemma one_start_at_a_time_witness :
  let i := requested_vault (B:=DB) (start_request "v2" "/v/2") "alice" (Some 0%nat) in
  AddProcess i 0 starting_world = (Throw (maidsafe_error already_initialised), starting_world).
Proof.
  intros i.
  assert (Hp : ptr_ok starting_world.(pmids) i.(pmid_and_signer)) by (cbn; decide_by_vm).
  assert (Hb : ¬ bad_arguments i 0) by decide_by_vm.
  assert (Hc : starting_v1 ∈ vaults starting_world) by (apply (list_elem_of_lookup_2 _ 0); by_vm).
  exact (one_start_at_a_time i 0 starting_world starting_v1 (sys_pm _ starting_world_wf) Hp Hb Hc eq_refl eq_refl).
Defined.

Lemma OnProcessExit_spec_witness :
  ∃ w', OnProcessExit run_functor "v1" 0 false running_world = (Ok tt, w') ∧ vaults w' = [] ∧
    length w'.(queue) = 1%nat.
Proof.
  pose proof (OnProcessExit_spec run_functor "v1" 0 false running_world (sys_pm _ running_world_wf)) as H.
  assert (Hf : list_find (λ c, vault_label c = "v1") (vaults running_world) = Some (0%nat, v1)) by by_vm.
  assert (Hv : vaults running_world = [v1]) by by_vm. assert (Hq : running_world.(queue) = []) by by_vm.
  rewrite Hf in H. destruct (H eq_refl) as (w' & H1 & _ & H3 & _ & _ & H6).
  exists w'. split; [exact H1|]. rewrite H3, H6, Hv, Hq. split; reflexivity.
Defined.

Lemma StopAll_spec_witness :
  (∃ w', StopAll (B:=DB) running_world = (Ok tt, w') ∧ vaults w' = stopped <$> vaults running_world) ∧
  is_Fault (StopAll (B:=DB) starting_world).1 = true.
Proof.
  split.
  - destruct (StopAll_spec (B:=DB) running_world (sys_pm _ running_world_wf)) as (_ & _ & H).
    destruct (H ltac:(by_vm)) as [_ H']. assert (Hn : null_connection ∉ vault_connection <$> vaults running_world)
      by decide_by_vm.
    destruct (H' Hn) as (w' & H1 & H2 & _). exists w'. split; [exact H1|exact H2].
  - destruct (StopAll_spec (B:=DB) starting_world (sys_pm _ starting_world_wf)) as (_ & _ & H).
    destruct (H ltac:(by_vm)) as [H' _]. apply H'. decide_by_vm.
Defined.

Lemma SetEnvironment_spec_witness :
  let x := SetEnvironment (P:=DP) 5000 "/bin/vault" "/bin/vault" 2 demo_world in
  x.1 = Ok tt ∧ length x.2.(env).(g_pmids_and_signers) = 2%nat.
Proof.
  intros x.
  pose proof (proj2 (SetEnvironment_spec (P:=DP) 5000 "/bin/vault" "/bin/vault" 2 demo_world eq_refl eq_refl)
    eq_refl) as H.
  change (SetEnvironment (P:=DP) 5000 "/bin/vault" "/bin/vault" 2 demo_world) with x in H.
  assert (Hr : x.1 = Ok tt) by by_vm. clearbody x. destruct x as [r w']. cbn in Hr, H |- *. rewrite Hr in H.
  split; [exact Hr|]. destruct H as (keys & -> & Hl & _). exact Hl.
Defined.

(** The empty message, and one that is not for the manager. *)
Lemma malformed_ignored_witness :
  HandleReceivedMessage (B:=DB) 3%N [] running_world = (Ok tt, running_world) ∧
  HandleReceivedMessage (B:=DB) 3%N (demo_bytes VaultShutdownRequest_) running_world = (Ok tt, running_world).
Proof.
  split.
  - exact (malformed_ignored (B:=DB) 3%N [] running_world).
  - assert (Ht : ParseTag (demo_bytes VaultShutdownRequest_) = Ok (kVaultShutdownRequest, [])) by by_vm.
    pose proof (malformed_ignored (B:=DB) 3%N (demo_bytes VaultShutdownRequest_) running_world) as H.
    rewrite Ht in H. exact (proj1 H eq_refl).
Defined.

(** ** The Windows service *)

#[export] Instance DemoWindows : WindowsApi (P:=DP) := {|
  SERVICE_WIN32_OWN_PROCESS := 16; SERVICE_START_PENDING := 2; SERVICE_RUNNING := 4; SERVICE_STOPPED := 1;
  SERVICE_ACCEPT_STOP := 1; SERVICE_ACCEPT_SHUTDOWN := 4; SERVICE_CONTROL_STOP := 1;
  SERVICE_CONTROL_SHUTDOWN := 5; ERROR_SERVICE_SPECIFIC_ERROR := 1066;
  CTRL_C_EVENT := 0; CTRL_CLOSE_EVENT := 2; CTRL_SHUTDOWN_EVENT := 6;
  RegisterServiceCtrlHandler _ os := (7, os); SetConsoleCtrlHandler os := (true, os);
|}.

Definition new_service : Service (P:=DP) :=
  mkService false (mkServiceStatus 0 0 0 0 0 0 0) 0 [] manager_world.
Definition registered_service : Service (P:=DP) := (ServiceMain_begin new_service).2.
Definition stopped_service : Service (P:=DP) := (ControlHandler 1 registered_service).2.

(** The service is asked to stop before its manager was constructed, and once more. *)
Lemma service_reports_witness :
  stopped_service.(manager) = registered_service.(manager) ∧
  (ControlHandler 5 stopped_service).1 = Throw std_exception.
Proof.
  assert (Hb : (ServiceMain_begin new_service).1 = Ok tt) by (vm_compute; reflexivity).
  assert (Hc : (ControlHandler 1 registered_service).1 = Ok tt) by (vm_compute; reflexivity).
  assert (Hset : stopped_service.(g_shutdown_promise) = true) by (vm_compute; reflexivity).
  destruct (service_reports (VaultManager_make (B:=DB)) (VaultManager_destroy (B:=DB)) new_service registered_service
    Starting stopped_service eq_refl eq_refl) as [[_ _ H1] H2].
  - rewrite <- Hb. apply surjective_pairing.
  - eapply rtc_l; [|apply rtc_refl]. apply (service_controlled _ _ Starting 1).
    rewrite <- Hc. apply surjective_pairing.
  - split; [exact H1|]. apply (H2 Hset). by right.
Defined.

Lemma stop_reported_early_witness :
  ∃ s1, ControlHandler 1 registered_service = (Ok tt, s1) ∧ s1.(manager) = registered_service.(manager).
Proof.
  destruct (stop_reported_early (VaultManager_make (B:=DB)) 1 registered_service) as (s1 & H1 & H2 & _);
    [by left|by vm_compute|]. by exists s1.
Defined.
