(* ===== verification/ClientWitnesses.v ===== *)
(** The theorems of the clients, the vaults, the executable and the local network
    controller at concrete inputs of the demonstration platform. *)
From S2P Require Export Witnesses Network Relocation Tests Main NetworkTestHelper Replay DummyVault.
From S2P Require Import Demo.

(** ** [RpcHelper] *)

(** Requests that are answered with the integer itself. *)
Definition demo_value (z : Z) : Res Z := Ok z.

Lemma futures_are_set_once_and_always_witness :
  ∃ s1 s2, for_each (rpc_step demo_value) [Register; Wait 0; Response 7] Rpc_make = (Ok tt, s1) ∧
    for_each (rpc_step demo_value) [Response 8] s1 = (Ok tt, s2) ∧
    ∃ p', s2.(requests) !! 0%nat = Some p' ∧ p'.(promise) = Some (Value 7).
Proof.
  destruct (futures_are_set_once_and_always demo_value [Register; Wait 0; Response 7] [Response 8])
    as (s1 & s2 & H1 & H2 & H3 & _).
  { repeat constructor. }
  exists s1, s2. split_and!; [exact H1|exact H2|].
  vm_compute in H1. injection H1 as <-. exact (H3 0%nat _ _ eq_refl eq_refl).
Defined.

Lemma response_reaches_unexpired_witness :
  let evs := [Register; Register; Wait 0; Expires 0 false] in
  let s := (for_each (rpc_step demo_value) evs Rpc_make).2 in
  ∃ s', rpc_step demo_value (RunHandler 0) s = (Ok tt, s') ∧ reached s' = [] ∧
    rpc_step demo_value (Response 7) s' = (Ok tt, s').
Proof.
  intros evs s.
  destruct (response_reaches_unexpired demo_value evs s 7) as (_ & _ & H).
  - repeat constructor.
  - reflexivity.
  - reflexivity.
  - exact (H 0%nat _ _ eq_refl eq_refl ltac:(discriminate)).
Defined.

(** ** The repository's tests *)

(** Each of the first three waits ends while the test waits for that future; then the callback
    runs, before two handlers that come too late. *)
Definition test_schedule (i : nat) : list (RpcEvent (Challenge (P:=DP))) :=
  if (i <? 3)%nat then [Expires i false; RunHandler i]
  else if (i =? 3)%nat then [RunHandler 0; Response (mkChallenge (P:=DP) []); RunHandler 3; Expires 4 false]
  else [].

Lemma rpc_helper_test_passes_witness :
  ∃ s, BEH_SetResponseCallback (P:=DP) (λ a b, bool_decide (a = b)) (mkChallenge (P:=DP) []) test_schedule Rpc_make =
    (Ok (Some true), s).
Proof.
  apply (rpc_helper_test_passes (P:=DP) (λ a b, bool_decide (a = b)) (mkChallenge (P:=DP) []) test_schedule
    [RunHandler 0] [RunHandler 3; Expires 4 false]); [reflexivity| |reflexivity|].
  - intros [|[|[|i]]] Hi; [..|lia]; (split; [repeat constructor|by exists [], [], []]).
  - constructor; [by exists 0%nat|constructor].
Defined.

Definition tested_world : World (P:=DP) := (BEH_Basic_begin (P:=DP) (B:=DB) "/bin/vault" "/bin/vault" manager_world).2.

Lemma vault_manager_test_passes_witness :
  vaults tested_world = [] ∧ ∃ w3, BEH_Basic_end (B:=DB) tested_world = (Ok tt, w3).
Proof.
  assert (Hm : (BEH_Basic_begin (P:=DP) (B:=DB) "/bin/vault" "/bin/vault" manager_world).1 = Ok tt) by by_vm.
  destruct (vault_manager_test_passes (P:=DP) (B:=DB) "/bin/vault" "/bin/vault" manager_world tested_world)
    as [Hv H]; [reflexivity|reflexivity|rewrite <- Hm; apply surjective_pairing|].
  split; [exact Hv|]. apply H; [apply rtc_refl|]. rewrite Hv. apply not_elem_of_nil.
Defined.

(** ** [ClientInterface] *)

Lemma demo_connects_properly : connects_properly (P:=DP).
Proof. intros port o k o' H. cbn in H. case_bool_decide; by simplify_eq. Qed.

Lemma ConnectToVaultManager_spec_witness :
  ConnectToVaultManager (B:=DB) manager_world = (Ok 9%N, manager_world).
Proof.
  rewrite (ConnectToVaultManager_spec (B:=DB) manager_world 5583); [reflexivity..|cbn; lia|cbn; lia].
Defined.

(** A client of "alice", connected, and waiting for a vault "v1". *)
Definition new_client : ClientInterface (P:=DP) :=
  (ClientInterface_begin (B:=DB) (ClientInterface_fields (P:=DP) "alice" manager_world)).2.
Lemma new_client_begins :
  ClientInterface_begin (B:=DB) (ClientInterface_fields (P:=DP) "alice" manager_world) = (Ok 0%nat, new_client).
Proof. vm_cast_no_check (eq_refl (@Ok nat 0%nat, new_client)). Qed.
Lemma new_client_wf : client_wf new_client.
Proof. by eapply (ClientInterface_begin_wf (B:=DB)); [apply demo_connects_properly|apply new_client_begins]. Qed.

#[local] Abbreviation result r := (promise (vr_request r)).

(** It has asked for the vault "v1". *)
Definition asking_client : ClientInterface (P:=DP) := (client_step (B:=DB) (Adds (P:=DP) "v1") new_client).2.
Lemma asking_client_wf : client_wf asking_client.
Proof. by apply (client_step_good (B:=DB) (Adds (P:=DP) "v1") new_client I new_client_wf). Qed.

Lemma vault_futures_end_witness :
  ∃ (r : VaultRequest (P:=DP)) c' (r' : VaultRequest (P:=DP)),
    asking_client.(vault_requests) !! 0%nat = Some r ∧ r.(vr_request).(timeout) = 30 ∧
    for_each (client_step (B:=DB)) [VaultWaitEnds 0 false; VaultTimerRuns 0] asking_client = (Ok tt, c') ∧
    c'.(vault_requests) !! 0%nat = Some r' ∧ is_Some (result r').
Proof.
  assert (Hs : client_steps (B:=DB) (λ _, True) new_client asking_client).
  { apply rtc_once. exists (Adds (P:=DP) "v1"). split_and!; [exact I|exact I|reflexivity]. }
  destruct (vault_futures_end (P:=DP) (B:=DB) "alice" manager_world 0 new_client asking_client (Adds (P:=DP) "v2")
    demo_connects_properly new_client_begins Hs I) as [_ H].
  destruct (asking_client.(vault_requests) !! 0%nat) as [r|] eqn:E.
  - destruct (H 0%nat r E) as (H0 & _ & c' & r' & H1 & H2 & H3 & _). exists r, c', r'. rewrite H3.
    split_and!; [reflexivity|exact H0|exact H1|exact H2|by eexists].
  - exfalso. assert (Hn : (if asking_client.(vault_requests) !! 0%nat is Some _ then true else false) = true) by by_vm.
    by rewrite E in Hn.
Defined.

Definition v1_response : VaultRunningResponse (P:=DP) :=
  mkVaultRunningResponse (P:=DP) "v1" None (Some timed_out).

Lemma vault_response_settles_witness :
  ∃ c', ci_HandleReceivedMessage (B:=DB) (demo_bytes (VaultRunningResponse_ v1_response)) asking_client = (Ok tt, c') ∧
    ∃ r', c'.(vault_requests) !! 0%nat = Some r' ∧ result r' = Some (Exception (maidsafe_error timed_out)).
Proof.
  destruct (vault_response_settles (B:=DB) asking_client v1_response
    (demo_bytes (VaultRunningResponse_ v1_response)) asking_client_wf) as (o & c' & Ho & H1 & H2).
  - by_vm.
  - intros k Hk. discriminate.
  - exists c'. split; [exact H1|].
    assert (Hl : asking_client.(ongoing_vault_requests_) !! v1_response.(vrr_vault_label) = Some 0%nat) by by_vm.
    rewrite Hl in H2. destruct H2 as (_ & (r & r' & _ & _ & _ & H3 & H4) & _). exists r'.
    split; [exact H3|]. rewrite H4, <- Ho. reflexivity.
Defined.

Lemma second_request_unanswered_witness :
  ∃ c1, AddVaultRequest (P:=DP) "v1" asking_client = (Ok 1%nat, c1) ∧
    ∃ r, c1.(vault_requests) !! 1%nat = Some r ∧ result r = None.
Proof.
  assert (Hl : asking_client.(ongoing_vault_requests_) !! ("v1" : NonEmptyString (Platform:=DP)) = Some 0%nat) by by_vm.
  assert (Hn : length asking_client.(vault_requests) = 1%nat) by by_vm.
  destruct (second_request_unanswered (P:=DP) (B:=DB) asking_client "v1" 0 asking_client_wf Hl) as (c1 & H1 & _ & H3).
  rewrite Hn in H1, H3. exists c1. split; [exact H1|]. apply H3. apply rtc_refl.
Defined.

(** ** [VaultInterface] *)

(** A vault that has told the manager its process id. *)
Definition new_vault : VaultInterface (P:=DP) :=
  (VaultInterface_begin (B:=DB) (VaultInterface_fields (P:=DP) 5585 manager_world)).2.
Lemma new_vault_begins :
  VaultInterface_begin (B:=DB) (VaultInterface_fields (P:=DP) 5585 manager_world) = (Ok 0%nat, new_vault).
Proof. vm_cast_no_check (eq_refl (@Ok nat 0%nat, new_vault)). Qed.

Lemma exit_code_first_wins_witness :
  let v := vault_run (B:=DB) [VConnectionCloses; VStopProcess; VConnectionCloses] new_vault in
  (WaitForExit v).1 = Ok (first_exit [VConnectionCloses; VStopProcess; VConnectionCloses]) ∧
  (WaitForExit (vault_run (B:=DB) [VWaitForExit; VStopProcess] new_vault)).1 = Throw std_exception.
Proof.
  intros v. split.
  - apply (exit_code_first_wins (B:=DB) 5585 manager_world 0 new_vault [VConnectionCloses; VStopProcess; VConnectionCloses]
      new_vault_begins).
  - apply (exit_code_first_wins (B:=DB) 5585 manager_world 0 new_vault [VWaitForExit; VStopProcess] new_vault_begins).
Defined.

Definition started_bytes : bytes := demo_bytes (VaultStartedResponse_
  (VaultStartedResponse_make (P:=DP) (B:=DB) "pmid1" ["pmid1"] v1.(info) [x00; x01; x02])).

Lemma configuration_delivered_witness :
  ∃ v1 v2 c, vi_HandleReceivedMessage (B:=DB) started_bytes new_vault = (Ok tt, v1) ∧
    VaultInterface_resume 0 v1 = (Ok true, v2) ∧ GetConfiguration (B:=DB) v2 = (Ok c, v2).
Proof.
  destruct (configuration_delivered (P:=DP) (B:=DB) 5585 manager_world 0 new_vault "pmid1" ["pmid1"] v1.(info)
    [x00; x01; x02] started_bytes (demo_connects_properly 5585) new_vault_begins ltac:(by_vm))
    as (v1 & v2 & H1 & H2 & H3 & _).
  exists v1, v2. eexists. split_and!; [exact H1|exact H2|exact H3].
Defined.

Lemma vault_interface_hazards_witness :
  (VaultInterface_destroy (vault_step (B:=DB) VKillConnection new_vault).2).1 = Fault null_deref.
Proof.
  exact (proj2 (proj2 (vault_interface_hazards (P:=DP) (B:=DB) 5585 manager_world 0 new_vault "pmid1" ["pmid1"] v1.(info)
    [x00; x01; x02] started_bytes new_vault_begins ltac:(by_vm)))).
Defined.

(** The dummy vault on port 5585, which loses its connection. *)
Lemma dummy_vault_of_manager_witness :
  let s := dummy_run (B:=DB) [Interface (VReceives started_bytes); MainProceeds; Interface VConnectionCloses]
             (Connecting 0, new_vault) in
  s.1 = Running no_worker false ∧ (dummy_step (B:=DB) s MainProceeds).1 = Crashed no_state.
Proof.
  assert (Hp : dummy_port ["dummy_vault"; "5585"] = Ok 5585) by (vm_compute; reflexivity).
  assert (Hb : dummy_begin (B:=DB) ["dummy_vault"; "5585"] manager_world = (Connecting 0, new_vault)).
  { unfold dummy_begin. rewrite Hp. by rewrite new_vault_begins. }
  assert (He : Forall handler_event [VConnectionCloses]) by by repeat constructor.
  destruct (dummy_vault_of_manager (P:=DP) (B:=DB) ["dummy_vault"; "5585"] 5585 manager_world 0 new_vault "pmid1"
    ["pmid1"] v1.(info) [x00; x01; x02] started_bytes [VConnectionCloses] (demo_connects_properly 5585) Hp Hb
    ltac:(by_vm) He) as [H1 H2].
  split; [exact H1|]. etransitivity; [exact H2|]. by_vm.
Defined.

(** ** The handshake *)

Lemma demo_archives_all : archives_all (P:=DP) (B:=DB).
Proof.
  intros m Hm. destruct m as [|[]|[? ?]|[]|[]|[]|[]|[]| |[]| |[]| | |]; destruct Hm as [Hm|Hm]; try discriminate Hm;
    eexists; reflexivity.
Qed.

Lemma demo_signatures_check : signatures_check (P:=DP).
Proof. intros challenge maid. by apply bool_decide_eq_true_2. Qed.

(** A manager that has accepted connection 5. *)
Definition contacted_world : World (P:=DP) := demo_run [NewConnection 5%N] manager_world.
Lemma contacted_world_wf : system_wf contacted_world.
Proof. apply demo_run_wf; [apply manager_world_wf|vm_compute; reflexivity]. Qed.


(** The test's manager, and that manager with connection 5. *)
Definition client_tested_world : World (P:=DP) :=
  (client_test_begin (P:=DP) (B:=DB) "/bin/vault" "/bin/vault" manager_world).2.
Definition client_tested_contacted : World (P:=DP) := demo_handle (NewConnection 5%N) client_tested_world.

Lemma client_interface_test_passes_witness :
  ∃ w3 c1 c3 w5, HandleReceivedMessage (B:=DB) 5%N (demo_bytes ValidateConnectionRequest_) client_tested_contacted = (Ok tt, w3) ∧
    client_test_scope (P:=DP) (B:=DB) 0 c1 = (Ok true, c3) ∧ client_test_end (B:=DB) w3 = (Ok tt, w5).
Proof.
  assert (Hm : (client_test_begin (P:=DP) (B:=DB) "/bin/vault" "/bin/vault" manager_world).1 = Ok tt) by by_vm.
  destruct (client_interface_test_passes (P:=DP) (B:=DB) "/bin/vault" "/bin/vault" "alice" manager_world
    client_tested_world manager_world 0 new_client 5%N (demo_bytes ValidateConnectionRequest_) client_tested_contacted)
    as (bs2 & bs3 & w3 & c1 & c3 & H1 & _ & _ & H4 & _ & H6);
    [reflexivity|apply demo_connects_properly|apply demo_archives_all|reflexivity| |apply new_client_begins| |decide_by_vm|by_vm|].
  - rewrite <- Hm. apply surjective_pairing.
  - eapply rtc_l; [|apply rtc_refl]. exists (NewConnection 5%N). eexists. split_and!.
    + apply demo_event_ok_spec. by_vm.
    + done.
    + apply surjective_pairing.
    + by_vm.
  - destruct (H6 w3 (rtc_refl _ _)) as [w5 H]. exists w3, c1, c3, w5. split; [exact H1|]. split; [exact H4|exact H].
Defined.

(** ** [Network] *)

(** Nobody but the client "alice" has the keys of "alice". *)
Definition names_of_alice (n : Identity (Platform:=DP)) : Prop := n = "alice".

Lemma demo_server_step (net : Network (P:=DP)) e peer :
  demo_event_ok net.(server) e = true → arrives names_of_alice net e →
  (∀ i, peer = Some i → is_Some (net.(members) !! i)) →
  is_Fault (handle (B:=DB) e net.(server)).1 = false →
  net_step (B:=DB) names_of_alice net (mkNetwork (demo_handle e net.(server)) net.(members) (accept peer e net.(peer_of))).
Proof.
  intros He Ha Hp Hf. eapply (net_server _ _ e peer); [by apply demo_event_ok_spec|done|done| |exact Hf].
  apply surjective_pairing.
Qed.

Definition at_client (e : ClientEvent (P:=DP)) (c : ClientInterface (P:=DP)) : ClientInterface (P:=DP) :=
  (client_step (B:=DB) e c).2.

(** "alice" connects, answers the challenge, and asks for the vault "v1". *)
Definition arrives_1 : Event := NewConnection 5%N.
Definition arrives_2 : Event := MessageReceived 5%N (demo_bytes ValidateConnectionRequest_).
Definition arrives_3 : Event := MessageReceived 5%N alice_response.
Definition arrives_4 : Event := MessageReceived 5%N (demo_bytes (demo_start "v1" "/v/1")).
Definition server_2 := demo_handle arrives_2 (demo_handle arrives_1 manager_world).
Definition server_3 := demo_handle arrives_3 server_2.
Definition server_4 := demo_handle arrives_4 server_3.
Definition told_client := at_client (Receives (demo_bytes (Challenge_ (mkChallenge (P:=DP) (demo_challenge 0))))) new_client.
Definition responding_client := at_client (Resume 0) told_client.
Definition requesting_client := at_client (Sends (demo_start "v1" "/v/1")) responding_client.

Definition first_network : Network (P:=DP) := mkNetwork manager_world [] ∅.
Definition last_network : Network (P:=DP) := mkNetwork server_4 [requesting_client] {[5%N := 0%nat]}.

Lemma demo_network_runs : rtc (net_step (B:=DB) names_of_alice) first_network last_network.
Proof.
  eapply rtc_l; [apply (net_connects (P:=DP) (B:=DB) names_of_alice _ "alice" manager_world 0 new_client);
    [reflexivity|apply new_client_begins]|].
  eapply rtc_l; [apply (demo_server_step _ arrives_1 (Some 0%nat)); [by_vm|exact I|by intros i [= <-]|by_vm]|].
  eapply rtc_l; [apply (demo_server_step _ arrives_2 None); [by_vm| |done|by_vm]|].
  { exists new_client. split; [reflexivity|]. apply (list_elem_of_lookup_2 _ 0). by_vm. }
  eapply rtc_l; [apply (net_client _ _ 0 (Receives (demo_bytes (Challenge_ (mkChallenge (P:=DP) (demo_challenge 0))))) new_client); [reflexivity|]|].
  { exists 5%N. split; [reflexivity|]. apply (list_elem_of_lookup_2 _ 1). by_vm. }
  eapply rtc_l; [apply (net_client _ _ 0 (Resume 0) told_client); [reflexivity|exact I]|].
  eapply rtc_l; [apply (demo_server_step _ arrives_3 None); [by_vm| |done|by_vm]|].
  { exists responding_client. split; [reflexivity|]. apply (list_elem_of_lookup_2 _ 1). by_vm. }
  eapply rtc_l; [apply (net_client _ _ 0 (Sends (demo_start "v1" "/v/1")) responding_client); [reflexivity|exact I]|].
  eapply rtc_l; [apply (demo_server_step _ arrives_4 None); [by_vm| |done|by_vm]|].
  { exists requesting_client. split; [reflexivity|]. apply (list_elem_of_lookup_2 _ 2). by_vm. }
  apply rtc_refl.
Qed.

Lemma owners_have_asked_witness :
  owns last_network.(server) "v1" "alice" ∧ validated last_network.(server) !! 5%N = Some "alice" ∧
  has_asked (B:=DB) names_of_alice last_network "v1" "alice".
Proof.
  destruct (owners_have_asked (P:=DP) (B:=DB) names_of_alice first_network last_network) as (_ & _ & H).
  - split_and!; [reflexivity|reflexivity|reflexivity|].
    intros l n _ [(c & Hc & _)|[(c & f & Hc & _)|(i & r & Hr & _)]].
    + by apply elem_of_nil in Hc.
    + by apply elem_of_nil in Hc.
    + by apply elem_of_nil in Hr.
  - apply demo_network_runs.
  - assert (Ho : owns last_network.(server) "v1" "alice").
    { left. assert (Hl : (λ c : Child (P:=DP), (vault_label c, c.(info).(owner_name))) <$> vaults server_4 =
        [("v1", "alice")]) by by_vm.
      destruct (vaults server_4) as [|c [|? ?]] eqn:Ev; [discriminate Hl| |discriminate Hl].
      injection Hl as H1 H2. exists c. split; [|by split].
      change (vaults (server last_network)) with (vaults server_4). rewrite Ev. by left. }
    split_and!; [exact Ho|by_vm|by apply H].
Defined.

(** ** [Relocation] *)

(** "alice" wants "v1" in "/v/2". *)
Definition move_request : TakeOwnershipRequest := take_request "v1" "/v/2".

Lemma v1_moving w :
  system_wf w → validated w !! 1%N = Some "alice" → managed w "v1" 0%nat v1 →
  moving 1%N move_request "alice" 0%nat v1 w.
Proof. intros Hw Ha Hm. split; [done|done|done|by vm_compute|by vm_compute]. Qed.

Definition moved_world : World (P:=DP) :=
  (add_and_save (P:=DP) (moved_vault move_request "alice" v1)
     (after_exit 0 (leaving move_request "alice" v1) true (told_to_move (P:=DP) (B:=DB) move_request "alice" 0 v1 running_world))).2.

Lemma vault_moves_witness :
  ∃ pid, handle (B:=DB) (ConnectionClosed 7%N) (told_to_move (P:=DP) (B:=DB) move_request "alice" 0 v1 running_world) =
      (Ok tt, moved_world) ∧
    vaults moved_world = [started_child (moved_vault move_request "alice" v1) 0 pid].
Proof.
  assert (E : (add_and_save (P:=DP) (moved_vault move_request "alice" v1)
     (after_exit 0 (leaving move_request "alice" v1) true
        (told_to_move (P:=DP) (B:=DB) move_request "alice" 0 v1 running_world))).1 = Ok tt) by by_vm.
  destruct (vault_moves (P:=DP) (B:=DB) 1%N move_request "alice" 0%nat v1 running_world
    (demo_bytes (TakeOwnershipRequest_ move_request)) new_vault
    (v1_moving _ running_world_wf alice_validated v1_managed)) as (_ & _ & _ & H); [by_vm|by_vm|by_vm|by_vm|].
  destruct (H moved_world) as (H1 & [pid H2] & _).
  { rewrite <- E. apply surjective_pairing. }
  exists pid. split; [exact H1|exact H2].
Defined.

(** The same machine when the process 101 has ended and was not waited for yet. *)
Definition all_ended (w : World (P:=DP)) : World (P:=DP) :=
  set_os (λ o, mkDemoOS o.(demo_files) o.(demo_execute) [] [(101, 0)] o.(demo_counter)) w.
Definition ended_world : World (P:=DP) := all_ended running_world.
Lemma all_ended_wf w : system_wf w → system_wf (all_ended w).
Proof. intros Hw. by eapply system_same; [apply Hw|..]. Qed.
Lemma all_ended_same w k n l j c :
  validated w !! k = Some n → managed w l j c →
  validated (all_ended w) !! k = Some n ∧ managed (all_ended w) l j c.
Proof. by intros Ha Hm. Qed.
Lemma ended_world_wf : system_wf ended_world.
Proof. apply all_ended_wf, running_world_wf. Qed.
Definition ended_os : DemoOS := (demo_wait ended_world.(os)).2.
Definition told_world : World (P:=DP) := told_to_move (P:=DP) (B:=DB) move_request "alice" 0 v1 ended_world.
Definition replaced_world : World (P:=DP) :=
  (add_and_save (P:=DP) (moved_vault move_request "alice" v1)
     (after_exit 0 (leaving move_request "alice" v1) false (reaped ended_os told_world))).2.

Lemma moved_vault_pays_witness :
  ∃ w3 w4, handle (B:=DB) (SignalReceived wait_done SIGCHLD) told_world = (Ok tt, w3) ∧
    handle (B:=DB) (ConnectionClosed 7%N) w3 = (Ok tt, w4) ∧ vaults w4 = [] ∧
    w4.(queue) = [RestartVault (set_connection null_connection (moved_vault move_request "alice" v1)) 0].
Proof.
  destruct (all_ended_same _ _ _ _ _ _ alice_validated v1_managed) as [Ha Hm].
  assert (E : (add_and_save (P:=DP) (moved_vault move_request "alice" v1)
     (after_exit 0 (leaving move_request "alice" v1) false (reaped ended_os told_world))).1 = Ok tt) by by_vm.
  destruct (moved_vault_pays (P:=DP) (B:=DB) 1%N move_request "alice" 0%nat v1 ended_world
    (demo_bytes (TakeOwnershipRequest_ move_request)) 101 0 ended_os replaced_world
    (v1_moving _ ended_world_wf Ha Hm)) as (w3 & w4 & new & H1 & H2 & H3 & H4 & _ & H6).
  - by_vm.
  - by_vm.
  - by_vm.
  - by vm_compute.
  - by_vm.
  - decide_by_vm.
  - rewrite <- E. apply surjective_pairing.
  - exists w3, w4. split; [exact H1|]. split; [exact H3|]. split; [exact H4|exact H6].
Defined.

(** ** [StableNetwork] *)

Lemma stable_network_reached_witness :
  ∃ w' t, receives_all (B:=DB) [(9%N, demo_bytes SetNetworkAsStable_); (1%N, demo_bytes NetworkStableRequest_)]
      running_world = (Ok tt, w') ∧
    w'.(trace) = running_world.(trace) ++ t ∧ Sent 1%N (demo_bytes NetworkStableResponse_) ∈ t.
Proof.
  destruct (stable_network_reached (B:=DB) eq_refl 1%N 9%N new_client new_client running_world
    (demo_bytes NetworkStableRequest_) (demo_bytes SetNetworkAsStable_) (demo_bytes NetworkStableResponse_))
    as (wt & mk & _ & _ & _ & _ & H & _); [apply running_world_wf|decide_by_vm|by_vm|by_vm|by_vm|by_vm|decide_by_vm|decide_by_vm|by_vm|by_vm|by_vm|].
  apply H. apply perm_swap.
Defined.

(** ** [main] *)

(** A command line that asks for port 80. *)
Definition demo_options (argv : list string) : Lib Options := Normally (mkOptions false (Some 80) None None).

Lemma main_rejects_options_witness :
  ∃ x, main_begin (P:=DP) (B:=DB) demo_options ["--port=80"] demo_world = (Ok (Some (-5)), set_os (λ _, x) demo_world).
Proof.
  apply (main_rejects_options (P:=DP) (B:=DB) demo_options ["--port=80"] (mkOptions false (Some 80) None None)
    demo_world eq_refl).
  right. split; [reflexivity|]. left. exists 80. split; [reflexivity|lia].
Defined.

(** ** The local network controller *)

(** A network that gives back every key. *)
Definition demo_answer : Environment (P:=DP) :=
  mkEnvironment DP (λ _ _, Normally tt) (λ _ _, Normally 0) (λ name _, Normally name).

Lemma demo_all_well : all_well (P:=DP) demo_answer.
Proof.
  split; intros; repeat eexists. unfold EqualKeys. cbn. by rewrite !bool_decide_true.
Qed.

(** The controller, about to start 16 vaults, or at the menu of tests. *)
Definition demo_controller (c : Command) (lines : list Input) : LocalNetworkController (P:=DP) :=
  mkController (P:=DP) demo_world lines [] [] [] c false false "/bin/vault" "/bin/vault" "/boot" 5000 16 true None None.

Lemma main_round_safe_witness :
  menu_ok (B:=DB) (demo_controller (Begin 0) [Line "2"]) ∧
  menu_ok (B:=DB) (main_round (B:=DB) demo_answer 1 (demo_controller (Begin 0) [Line "2"])).2.
Proof.
  assert (H0 : menu_ok (B:=DB) (demo_controller (Begin 0) [Line "2"])) by exact I.
  pose proof (main_round_safe (B:=DB) demo_answer 1 (demo_controller (Begin 0) [Line "2"]) H0) as H.
  unfold wp in H.
  assert (Hr : (main_round (B:=DB) demo_answer 1 (demo_controller (Begin 0) [Line "2"])).1 = Ok None) by by_vm.
  rewrite Hr in H. split; [exact H0|exact H].
Defined.

Lemma tests_menu_quits_witness :
  (main_round (B:=DB) demo_answer 1 (demo_controller (ChooseTest 0) [Line "101"])).1 = Fault dangling_reference ∧
  (main_round (B:=DB) demo_answer 1 (demo_controller (ChooseTest 0) [Line "Q"])).1 = Ok (Some 0).
Proof.
  split.
  - apply (tests_menu_quits (B:=DB) demo_answer 0 (demo_controller (ChooseTest 0) [Line "101"]) 0 "101" []
      eq_refl eq_refl eq_refl); [discriminate|by right].
  - apply (tests_menu_quits (B:=DB) demo_answer 0 (demo_controller (ChooseTest 0) [Line "Q"]) 0 "Q" []
      eq_refl eq_refl eq_refl). reflexivity.
Defined.

Lemma StartNetwork_starts_all_witness :
  ∃ c', StartNetwork (B:=DB) demo_answer (demo_controller ChooseVaultCount []) = (Ok tt, c') ∧
    started_indices c'.(calls) = [2; 3; 4; 5; 6; 7; 8; 9; 10; 11; 12; 13; 14; 15; 16; 17].
Proof.
  assert (Hr : root_exists (P:=DP) "/bin/vault" demo_os) by (exists demo_os, demo_os; split; by_vm).
  destruct (StartNetwork_starts_all (B:=DB) demo_answer demo_all_well (demo_controller ChooseVaultCount []) Hr)
    as (c' & H1 & _ & H2 & _); [cbn; lia|vm_compute; discriminate|discriminate|reflexivity..|].
  exists c'. split; [exact H1|exact H2].
Defined.

(** ** A request for a vault *)

Lemma demo_archives_replies : archives_replies (P:=DP) (B:=DB).
Proof.
  split.
  - intros m. eexists. reflexivity.
  - intros [? [pmid|] ? ? ? ? ?] H; [eexists; reflexivity|by destruct H].
  - intros l [key [keys|]] H; [eexists; reflexivity|by destruct H].
Qed.

Lemma alice_only k' : validated alice_world !! k' = Some "alice" ↔ k' = 1%N.
Proof.
  assert (E : validated alice_world = {[ 1%N := "alice" ]}) by by_vm.
  rewrite E. rewrite lookup_singleton_Some. naive_solver.
Qed.

Definition v1_request : StartVaultRequest (P:=DP) := start_request "v1" "/v/1".

(** What alice's request for [v1] does to her world. *)
Definition v1_vault : VaultInfo (P:=DP) :=
  requested_vault (B:=DB) v1_request "alice" (Some (length alice_world.(pmids))).
Definition v1_bytes : bytes := demo_bytes (StartVaultRequest_ v1_request).
Definition added_world : World (P:=DP) := (add_and_save v1_vault (with_keys alice_world)).2.

Lemma v1_serialised : Serialise (B:=DB) (StartVaultRequest_ v1_request) = Ok v1_bytes.
Proof. by_vm. Qed.

Lemma v1_added : add_and_save v1_vault (with_keys alice_world) = (Ok tt, added_world).
Proof.
  assert (E : (add_and_save v1_vault (with_keys alice_world)).1 = Ok tt) by by_vm.
  unfold added_world. destruct (add_and_save _ _) as [r w]. cbn in E. by subst r.
Qed.

Lemma added_ids : NoDup (GetProcessId <$> vaults added_world).
Proof. decide_by_vm. Qed.

Lemma added_open : event_ok added_world (NewConnection 7%N).
Proof. apply demo_event_ok_spec. vm_compute. reflexivity. Qed.

Lemma no_vaults_yet : vaults alice_world = [].
Proof. by_vm. Qed.

Lemma v1_keys_drawn : (CreatePmidAndSigner alice_world.(os)).1 = v1_keys.
Proof. by_vm. Qed.

Lemma v1_pending : asking_client.(ongoing_vault_requests_) !! v1_request.(svr_vault_label) = Some 0%nat.
Proof. by_vm. Qed.

Lemma vault_request_served_witness :
  ∃ w3 v c' r, vaults w3 = [v] ∧ v.(status) = kRunning ∧ vault_connection v = 7%N ∧
    c'.(vault_requests) !! 0%nat = Some r ∧ result r = Some (Value v1_keys).
Proof.
  assert (Hq : StartVaultRequest_of_build (B:=DB) v1_request) by (split_and!; done).
  destruct (vault_request_served (P:=DP) (B:=DB) asking_client 0 1%N 7%N v1_request v1_bytes alice_world
    added_world "alice" demo_archives_replies asking_client_wf v1_pending Hq v1_serialised eq_refl eq_refl
    alice_world_wf alice_only eq_refl v1_added added_ids added_open)
    as (v & bsv & bs2 & bs3 & w2 & w3 & c' & r & _ & _ & _ & _ & _ & _ & _ & H8 & _ & H10 & H11).
  rewrite no_vaults_yet in H8. rewrite v1_keys_drawn in H11.
  exists w3, (connected 7%N v), c', r. split_and!; [exact H8|reflexivity|reflexivity|exact H10|exact H11].
Defined.

(** ** The script *)

(** The default root directory is there, empty or with a file in it; so is the vault. *)
Definition script_os (files : gmap string bytes) : DemoOS :=
  mkDemoOS (<["/bin/vault" := []]> (<["/tmp/MaidSafe_TestNetwork" := []]> files)) [] [] [] 0.
Definition one_file : gmap string bytes := {[ "/tmp/MaidSafe_TestNetwork/f" := [] ]}.
Definition script_controller (files : gmap string bytes) : LocalNetworkController (P:=DP) :=
  set_world (set_os (λ _, script_os files) demo_world)
    (set_input [] network_test_helper_script [] (demo_controller (Begin 0) [])).
(** A build with VLOGGING. *)
Definition vlogging_build : Build := {| TESTING := true; USE_VLOGGING := true |}.

Lemma demo_no_quit : no_quit (P:=DP).
Proof.
  intros line Hl. assert (E : Forall (λ l, bool_decide (to_lower_copy (Platform:=DP) l ≠ "q") = true) ["1"; ""; "5583"])
    by (repeat constructor). rewrite Forall_forall in E. exact (bool_decide_eq_true_1 _ (E line Hl)).
Qed.

Lemma script_in_step_witness :
  (∃ c', nsteps (round (B:=DB) demo_answer) 5 (script_controller one_file) c' ∧ about_to_start 0 16 5583 c') ∧
  (∃ c', nsteps (round (B:=DB) demo_answer) 4 (script_controller ∅) c' ∧ about_to_start 0 5583 44444 c') ∧
  (∃ c', nsteps (round (B:=vlogging_build) demo_answer) 6 (script_controller one_file) c' ∧ asks_operator "" 5583 c') ∧
  (∃ c', nsteps (round (B:=vlogging_build) demo_answer) 6 (script_controller ∅) c' ∧ asks_operator "5583" 44444 c').
Proof.
  assert (E1 : ∀ f, fs_exists (Platform:=DP) kTestEnvRootDir (script_os f) = (Normally true, script_os f)).
  { intros f. cbn. unfold demo_exists, script_os. cbn. rewrite lookup_insert_ne by done. by rewrite lookup_insert_eq. }
  assert (E2 : ∀ f, fs_exists (Platform:=DP) kPathToVault (script_os f) = (Normally true, script_os f)).
  { intros f. cbn. unfold demo_exists, script_os. cbn. by rewrite lookup_insert_eq. }
  set (s1 := script_os one_file). set (s2 := script_os ∅).
  split_and!.
  - exact (proj1 (script_in_step (B:=DB) demo_answer 0 (script_controller one_file) s1 s1 s1 s1 s1
      demo_no_quit eq_refl eq_refl (E1 one_file)) ltac:(by_vm) eq_refl eq_refl (E2 one_file)).
  - exact (proj2 (script_in_step (B:=DB) demo_answer 0 (script_controller ∅) s2 s2 s2 s2 s2
      demo_no_quit eq_refl eq_refl (E1 ∅)) ltac:(by_vm) (E2 ∅)).
  - exact (proj1 (script_in_step (B:=vlogging_build) demo_answer 0 (script_controller one_file) s1 s1 s1 s1 s1
      demo_no_quit eq_refl eq_refl (E1 one_file)) ltac:(by_vm) eq_refl eq_refl (E2 one_file)).
  - exact (proj2 (script_in_step (B:=vlogging_build) demo_answer 0 (script_controller ∅) s2 s2 s2 s2 s2
      demo_no_quit eq_refl eq_refl (E1 ∅)) ltac:(by_vm) (E2 ∅)).
Defined.

(** ** Storing the public keys *)

(** A network that loses the key [k]. *)
Definition losing (k : string) : Environment (P:=DP) :=
  mkEnvironment DP (λ _ _, Normally tt) (λ _ _, Normally 0)
    (λ name _, if decide (name = k) then Throws std_exception else Normally name).

Definition storing_controller : LocalNetworkController (P:=DP) :=
  set_world (set_env (λ _, mkTestEnvironment (P:=DP) true 0 "" "" false [] ["k0"; "k1"; "k2"]) demo_world)
    (demo_controller ChooseVaultCount []).

Lemma StorePublicPmids_spec_witness :
  ∃ c', StorePublicPmids (losing "k1") storing_controller =
    (Throw (maidsafe_error failed_to_handle_request), c') ∧
    stored_keys c'.(calls) = ["k0"; "k1"; "k2"] ∧ last c'.(calls) = Some StopMaidClient.
Proof.
  pose proof (StorePublicPmids_spec (B:=DB) (losing "k1") storing_controller ltac:(vm_compute; reflexivity)) as H.
  assert (E : (StorePublicPmids (losing "k1") storing_controller).1 =
    Throw (maidsafe_error failed_to_handle_request)) by by_vm.
  destruct (StorePublicPmids (losing "k1") storing_controller) as [r c']. cbn in E. subst r.
  exists c'. split; [reflexivity|]. destruct H as [[H _]|(_ & H1 & H2 & _)]; [discriminate|].
  split; [exact H2|exact H1].
Defined.

(** ** Sessions of the local network controller *)

Lemma default_is_told_witness :
  (∃ instructions, told instructions "16") ∧
  convert (P:=DP) ChooseVaultCount true "" (demo_controller ChooseVaultCount []) =
    convert (P:=DP) ChooseVaultCount true "16" (demo_controller ChooseVaultCount []).
Proof.
  destruct (default_is_told (P:=DP) "1.0" "host" (demo_controller ChooseVaultCount []) ChooseVaultCount
    eq_refl eq_refl) as (p & i & Hp & Hi & H).
  destruct (H "16") as [H1 H2]; [reflexivity|]. split; [by exists i|exact (H2 _)].
Defined.

(** Somebody chooses a new network and its default directory. *)
Definition typing_controller : LocalNetworkController (P:=DP) :=
  mkController (P:=DP) demo_world [Line "1"; Line ""] [] [] [kBegin] (Begin 0) false false
    "" "" "" 0 0 false None None.
Definition typed_once : LocalNetworkController (P:=DP) :=
  (main_round (B:=DB) demo_answer 1 typing_controller).2.
Definition typed_twice : LocalNetworkController (P:=DP) :=
  (main_round (B:=DB) demo_answer 1 typed_once).2.

Lemma typed_session : session (B:=DB) demo_answer 1 typing_controller ["1"; ""] typed_twice.
Proof.
  assert (H1 : (main_round (B:=DB) demo_answer 1 typing_controller).1 = Ok None) by by_vm.
  assert (H2 : (main_round (B:=DB) demo_answer 1 typed_once).1 = Ok None) by by_vm.
  eapply (session_round _ _ _ _ [Line ""]); [done|done|by_vm| |].
  { rewrite <- H1. apply surjective_pairing. }
  eapply (session_round _ _ _ _ []); [by_vm|by_vm|by_vm| |apply session_nil].
  rewrite <- H2. apply surjective_pairing.
Qed.

Lemma session_replays_witness :
  ∃ script, rounds (B:=DB) demo_answer 2 1
      (set_input [] (getlines (commands_text typed_twice.(entered_commands))) [kBegin] typing_controller) =
      (Ok None, set_input [] script typed_twice.(entered_commands) typed_twice) ∧
    drop_comments script = [].
Proof.
  assert (Hls : Forall plain_line ["1"; ""]) by (repeat constructor; by_vm || discriminate).
  assert (Hne : ["1"; ""] ≠ []) by discriminate.
  destruct (session_replays (B:=DB) demo_answer 0 typing_controller ["1"; ""] typed_twice eq_refl
    typed_session Hls Hne) as (b & a & _ & H). exact (H []).
Defined.

Lemma refused_line_ends_replay_witness :
  ∃ c', main_round (B:=DB) demo_answer 1 (set_input [] ["### Initial options."; "7"] [] typing_controller) =
    (Ok (Some (-1)), c').
Proof.
  destruct (refused_line_ends_replay (B:=DB) demo_answer 0
    (set_input [] ["### Initial options."; "7"] [] typing_controller) "7" (maidsafe_error invalid_argument))
    as [_ H]; [discriminate|reflexivity|].
  exact (H [] eq_refl).
Defined.
